(* ===== verification/_CoqProject ===== *)
-Q . S2P
Prelude.v
Bytes.v
Session.v
Mem.v
Pmm.v
PmmSpec.v
Vmm.v
VmmSpec.v
Kmem.v
KmemSpec.v
Thread.v
Syscall.v
Elf.v
Sync.v
SyncSpec.v
Block.v
BlockSpec.v
Journal.v
JournalSpec.v
Ramfs.v
Vfs.v
VfsSpec.v
Mcsfs1.v
Mcsfs1Spec.v
M15fs.v
M15Spec.v
Console.v
Irq.v
Pic.v
Trap.v
Isr.v
Cpu.v
Steps.v
Kernel.v
Boot.v
HostTests.v
Toolchain.v
