(* ===== verification/Prelude.v ===== *)
(** * MCSOS 260502: verification of the kernel's C sources

    MCSOS is a small x86_64 teaching kernel.  It boots from [kmain], brings up a physical and a
    virtual memory manager, a heap, locks, cooperative threads and interrupts, and carries a
    family of further components: a system call table, an ELF planner, a RAM file system behind
    a file descriptor layer, block devices, two small file systems and a journal.  This library
    models each of them as executable functions over explicit state and proves what makes them
    correct, or how far they are.

    ** Conventions

    - A C integer is a [Z]; an operation that can leave its type is followed by the conversion
      ([u8], [u16], [u32], [u64], [s32], [s64]).  Sizes, bit operations and pointer arithmetic
      are those of the source.
    - A computation is in the error monad [exec]: it returns, or it faults ([OutOfBounds],
      [NullDeref], [OutOfFuel], [StackOverflow], [SignedOverflow], [ShiftRange]).  Every array
      access is checked, so a theorem that concludes with [Ret] also shows that no object is
      overrun.
    - State is passed explicitly; a C function that mutates through a pointer returns the new
      object.  Objects that are shared or aliased (the heap, device and file stores, nodes
      shared by descriptors) live in one store.
    - A bounded [for] loop is [for_loop] (with early exit) or [for_state]; a [while] loop that
      follows data takes fuel, and its theorems give the fuel that is enough: for the heap's
      chain the extent of the heap, since every block takes a header of 24 bytes; for a lock
      taken by one processor alone, one round; for the serial line the source's own limit of
      100000 polls; for the printers of decimal numbers the source's own bounds, 20 and 11
      digits.

    ** Files

    - [Prelude]: machine integers, [exec], loops and their rules, checked arrays, the hint
      database [mcs] and the tactics.  [Bytes]: byte arrays, C strings, copies, little-endian
      fields.  [Mem]: byte memory and kernel/lib/memory.c ([memset], [memcpy], [memmove]).
      [Session]: sequences of calls; the class [Refines] is what a component shows of one call,
      and what follows for every sequence is proved once.
    - [Pmm]: kernel/core/pmm.c.  A bitmap of frames, refined to the set of free frames.
      [PmmSpec]: sequences of its calls against an abstract manager, and its clients as a
      transition relation.
    - [Vmm]: kernel/core/vmm.c.  A table of 256 slots, refined to a finite map.  [VmmSpec]:
      sequences of its calls against that map.
    - [Kmem]: kernel/mm/kmem.c.  Headers in byte memory, refined to a list of blocks; the class
      [HeapInterface] is what the heap promises its clients.  [KmemSpec]: clients that choose
      their calls by the answers, against a map of separate byte arrays.
    - [Thread]: kernel/core/thread.c, proved against [HeapInterface].
    - [Syscall]: kernel/core/syscall.c.  [Elf]: kernel/user/m11_elf_loader.c.
    - [Sync]: kernel/sync/m12_spinlock.c, m12_mutex.c, m12_lockdep.c; the class [LockOps] covers
      both locks, one round of an acquiring loop at a time, and a step relation interleaves any
      number of processors.  [SyncSpec]: the critical sections of [m12_sync_selftest] run by many
      processors.
    - [Block]: kernel/block/m14_ramblk.c.  [BlockSpec]: any number of devices against separate
      lists of blocks.  [Journal]: kernel/fs/m16_journal.c, with a step relation of single byte
      stores for crashes.  [JournalSpec]: sequences of its operations and of crashes against a
      disk that changes at commits.
    - [Ramfs], [Vfs]: kernel/fs/m13_ramfs.c and m13_vfs.c.  [VfsSpec]: sequences of file
      operations against an abstract file system.  [Mcsfs1]: fs/mcsfs1/mcsfs1.c.  [M15fs]:
      kernel/fs/m15_mcsfs1.c.  [Mcsfs1Spec], [M15Spec]: sequences of their operations against a
      list of named contents.
    - [Console]: kernel/core/serial.c, log.c, kernel/lib/serial_hex.c and the port accesses of
      io.h, as a history of reads and writes of ports; what a read returns is a parameter that may
      depend on the history, and nothing is assumed of it.  [Irq]: pic.c, pit.c, idt.c.  [Pic]:
      the two 8259 controllers as the state that the port writes of [Irq] build up.  [Trap]:
      kernel/core/trap.c, panic.c.
    - [Isr]: the assembly of isr.S and syscall_entry.S on a processor with registers and a stack
      in byte memory, around the dispatcher of [Trap].  [Cpu]: the inline functions of cpu.h,
      start.S, context_switch.S and the other single instructions, on a processor that takes
      interrupts and sleeps.
    - [Steps]: the calls that run with interrupts enabled ([log_writeln], [kmalloc], [kfree],
      [thread_yield]) again, as programs of single accesses, with the proofs that uninterrupted
      they do what [Console], [Kmem] and [Thread] have them do.  [Kernel]: the state of all
      components together, the interrupts taken before every access, and the rules to follow
      programs under them; the class [Part] says on which part of the state a program runs.
    - [Boot]: kernel/core/kmain.c over all the components it starts, interrupts included, on an
      unbounded stack and on a bounded one.
    - [HostTests]: the programs under tests/, run on these models.  [Toolchain]: the objects of
      smoke/ and tests/toolchain/ that the compiler is checked with.

    Definitions have the names of the C functions and types; the loop bodies of long functions
    are definitions of their own, named in their comments.

    ** What the theorems show

    - Boot: the whole of [kmain] passes its assertions and its four threads run for ever in a
      fixed order, on a heap whose live blocks stay the four stacks, whatever lines request an
      interrupt before any access to a port or to memory, also inside the calls the threads
      make; only the timer's are served.  What they log goes to the line in order, woven with the
      output of the timer's handler, once per tick; a character is given up only after the line
      has been busy for 100000 polls in a row, so on a line that answers nothing is lost.  That is
      on an unbounded stack: each activation is a call that never returns, so a stack of any size
      overflows, and a theorem says when.
    - Memory: every sequence of calls on the frame manager answers as a set of free frames does,
      but for a free counter that is off by a constant fixed at the boot, and, when the number of
      frames is a multiple of 8, never gives one frame to two owners; otherwise the bits of the
      last frames are what the memory held.  Every sequence of mappings, lookups and unmappings
      answers as a finite map that takes canonical addresses only, as long as no page is mapped
      twice and no address with bit 47 unlike the bits above it is mapped; what the code does with
      those is stated too.  [memmove] copies whatever the overlap; the heap refines first fit, and
      its clients cannot tell it from separate byte arrays.
    - Threads and locks: creation keeps stacks disjoint, scheduling is round
      robin; the locks exclude each other under every interleaving, and increments under
      them are never lost nor deadlocked.
    - Loader and system calls: the planner accepts exactly the images its rules describe and
      reads inside the image, unless the end of the header table or of a segment wraps modulo
      2^64, and what it does then is stated too; the system calls report an unknown number and a
      null buffer, and check nothing else of a buffer.
    - Storage: block devices are separate lists of blocks; a journal keeps its promise across any
      number of transactions and of crashes at any byte of a replay; every sequence of file
      operations behaves as on an abstract file system of named contents and open files, error
      codes included, and the two small file systems as a list of named contents, the one with
      a shared area as long as only the file created last is written.
    - Devices and interrupts: a string goes to the serial line character by character, numbers
      logged can be read back, the controllers are left with the
      timer as the only line enabled, the gates lead to their stubs, every trap returns
      acknowledged or halts, an interrupt that returns leaves the interrupted code every register
      and its stack, and a halt is final.

    Where the code departs from what it means to do, a theorem says exactly how: the frame counter
    that starts one short, the frames of a last incomplete byte that keep stale bits, a page that
    can be mapped twice, addresses taken for canonical that are not, the file placement that lets
    two files overlap, a replay that trusts its count, names copied without a bound, sums that
    wrap modulo 2^64.

    ** What is outside

    - The delivery of interrupts, [iretq], the 8259 controllers and the instructions in [Isr],
      [Cpu] and [Pic] follow the manuals of the hardware; compiled code is trusted to keep the
      calling convention.  Non-maskable interrupts, the one-instruction delay after [sti] and
      memory ordering weaker than sequential consistency are left out.
    - In [Boot] interrupts come before any access to a port, to the heap or to the variables of the
      log and the scheduler; a register or a local variable is not such an access, since by the
      theorem of [Isr] a handler leaves the interrupted code its registers and stack.  The delay
      loops of the threads touch a local variable only.  A handler runs with interrupts disabled,
      as an interrupt gate has it.
    - Not modelled: the boot loader, and what kernel/core/boot.c and the vendored limine.h declare
      for it: constant data in sections of their own that no function of the sources reads.
    - The system call handlers do nothing beyond returning a value, and the model says so.

    ** Order of the work

    The memory managers, threads, locks, loader, storage, devices, the entry stubs and the boot
    under interrupts and on a bounded stack, and the tool chain's checks; then
    sequences of calls for the frame manager, the page map, the heap, the block devices, the
    journal and the three file systems; last, interrupts inside the calls of a thread.  Nothing of
    that plan is left. *)

From Stdlib Require Export ZArith Lia Bool.
From stdpp Require Export base list gmap sets numbers.

Global Open Scope Z_scope.

(** ** Machine integers

    A C integer of width [w] is a [Z]; every operation of the source that can leave the
    range of its type is followed here by the conversion the C standard prescribes. *)

Definition u8 (z : Z) : Z := z mod 2 ^ 8.
Definition u16 (z : Z) : Z := z mod 2 ^ 16.
Definition u32 (z : Z) : Z := z mod 2 ^ 32.
Definition u64 (z : Z) : Z := z mod 2 ^ 64.

(** Conversion to a signed type of width [w] (two's complement). *)
Definition swrap (w z : Z) : Z := (z + 2 ^ (w - 1)) mod 2 ^ w - 2 ^ (w - 1).
Definition s8 (z : Z) : Z := swrap 8 z.
Definition s32 (z : Z) : Z := swrap 32 z.
Definition s64 (z : Z) : Z := swrap 64 z.

Definition is_u8 (z : Z) : Prop := 0 <= z < 2 ^ 8.
Definition is_u16 (z : Z) : Prop := 0 <= z < 2 ^ 16.
Definition is_u32 (z : Z) : Prop := 0 <= z < 2 ^ 32.
Definition is_u64 (z : Z) : Prop := 0 <= z < 2 ^ 64.

#[global] Instance is_u8_dec z : Decision (is_u8 z).
Proof. unfold is_u8. apply _. Defined.
#[global] Instance is_u16_dec z : Decision (is_u16 z).
Proof. unfold is_u16. apply _. Defined.
#[global] Instance is_u32_dec z : Decision (is_u32 z).
Proof. unfold is_u32. apply _. Defined.
#[global] Instance is_u64_dec z : Decision (is_u64 z).
Proof. unfold is_u64. apply _. Defined.

(** A C [bool] or the truth value of a C comparison as an integer. *)
Definition b2z (b : bool) : Z := if b then 1 else 0.

(** ** Computations that may fault

    The kernel has no exceptions.  What a model of it can do besides returning is touch
    memory outside the object it addresses, follow a null pointer, run out of the fuel
    given to a loop that is not bounded by its text or out of stack, leave the range of a
    signed type, or shift by the width of a type or more. *)

Inductive fault : Type :=
  | OutOfBounds
  | NullDeref
  | OutOfFuel
  | StackOverflow
  | SignedOverflow
  | ShiftRange.

Inductive exec (A : Type) : Type :=
  | Ret (a : A)
  | Fault (f : fault).

Arguments Ret {A} a.
Arguments Fault {A} f.

#[global] Instance exec_ret : MRet exec := fun A a => Ret a.
#[global] Instance exec_bind : MBind exec := fun A B k m =>
  match m with
  | Ret a => k a
  | Fault f => Fault f
  end.

(** Inversion of a sequence that returned. *)
Lemma exec_bind_inv {A B} (m : exec A) (k : A -> exec B) (b : B) :
  (m ≫= k) = Ret b -> exists a, m = Ret a /\ k a = Ret b.
Proof. destruct m as [a|f]; simpl; [eauto|discriminate]. Qed.

(** ** Arrays

    A C array object is the list of its elements; subscripts are integers and an access
    outside the object is a fault. *)

Definition zlen {A} (l : list A) : Z := Z.of_nat (length l).

Definition in_range {A} (l : list A) (i : Z) : bool := (0 <=? i) && (i <? zlen l).

Definition arr_get {A} (l : list A) (i : Z) : exec A :=
  if 0 <=? i then
    match l !! Z.to_nat i with
    | Some x => Ret x
    | None => Fault OutOfBounds
    end
  else Fault OutOfBounds.

Definition arr_set {A} (l : list A) (i : Z) (x : A) : exec (list A) :=
  if in_range l i then Ret (<[Z.to_nat i := x]> l) else Fault OutOfBounds.

(** ** Loops

    [for_state n i body s] is [for (j = i; j < i + n; ++j) body] on a state; [for_loop] is
    the same loop with a body that may leave it by [break] or [return]. *)

Fixpoint for_state {S} (n : nat) (i : Z) (body : Z -> S -> exec S) (s : S) : exec S :=
  match n with
  | O => Ret s
  | Datatypes.S n' => s' ← body i s; for_state n' (i + 1) body s'
  end.

Inductive flow (S R : Type) : Type :=
  | Next (s : S)
  | Exit (s : S) (r : R).

Arguments Next {S R} s.
Arguments Exit {S R} s r.

Fixpoint for_loop {S R} (n : nat) (i : Z) (body : Z -> S -> exec (flow S R)) (s : S)
  : exec (flow S R) :=
  match n with
  | O => Ret (Next s)
  | Datatypes.S n' =>
      f ← body i s;
      match f with
      | Next s' => for_loop n' (i + 1) body s'
      | Exit s' r => Ret (Exit s' r)
      end
  end.

(** The state a loop ends in, however it ends. *)
Definition flow_state {S R} (f : flow S R) : S :=
  match f with Next s => s | Exit s _ => s end.

(** The first index from [i] on, among [n], at which [P] holds. *)
Fixpoint find_first (P : Z -> bool) (n : nat) (i : Z) : option Z :=
  match n with
  | O => None
  | S n' => if P i then Some i else find_first P n' (i + 1)
  end.

(** ** Automation *)

Create HintDb mcs.

(** Turn the boolean tests of the source, wherever they stand, into propositions. *)
Ltac zbool :=
  repeat match goal with
  | H : (_ && _) = true |- _ => apply andb_prop in H as [? ?]
  | H : (_ || _) = false |- _ => apply orb_false_elim in H as [? ?]
  | H : negb _ = true |- _ => apply negb_true_iff in H
  | H : negb _ = false |- _ => apply negb_false_iff in H
  | H : (_ <? _) = true |- _ => apply Z.ltb_lt in H
  | H : (_ <? _) = false |- _ => apply Z.ltb_ge in H
  | H : (_ <=? _) = true |- _ => apply Z.leb_le in H
  | H : (_ <=? _) = false |- _ => apply Z.leb_gt in H
  | H : (_ =? _) = true |- _ => apply Z.eqb_eq in H
  | H : (_ =? _) = false |- _ => apply Z.eqb_neq in H
  end.

(** Case analysis on the innermost test of the goal. *)
Ltac case_test :=
  match goal with
  | |- context [if ?b then _ else _] =>
      lazymatch b with
      | context [if _ then _ else _] => fail
      | _ => let E := fresh "E" in destruct b eqn:E
      end
  end.

(** Invert every monadic sequence known to have returned. *)
Ltac exec_inv :=
  repeat match goal with
  | H : (_ ≫= _) = Ret _ |- _ => apply exec_bind_inv in H as (? & ? & H)
  | H : Ret _ = Ret _ |- _ => injection H; clear H; intros; subst
  | H : Fault _ = Ret _ |- _ => discriminate H
  | H : mret _ = Ret _ |- _ => change (Ret _ = Ret _) in H
  end.

(** Prove a closed decidable proposition by evaluating its decision procedure. *)
Ltac by_compute :=
  match goal with |- ?P => refine (bool_decide_eq_true_1 P _); vm_compute; reflexivity end.

(** ** Lemmas on machine integers *)

Lemma u64_small z : is_u64 z -> u64 z = z.
Proof. apply Z.mod_small. Qed.

Lemma u32_small z : is_u32 z -> u32 z = z.
Proof. apply Z.mod_small. Qed.

Lemma u8_small z : is_u8 z -> u8 z = z.
Proof. apply Z.mod_small. Qed.

Lemma u8_range z : is_u8 (u8 z).
Proof. apply Z.mod_pos_bound. lia. Qed.

Lemma u32_range z : is_u32 (u32 z).
Proof. apply Z.mod_pos_bound. lia. Qed.

Lemma u64_range z : is_u64 (u64 z).
Proof. apply Z.mod_pos_bound. lia. Qed.

Lemma swrap_small w z : 0 < w -> - 2 ^ (w - 1) <= z < 2 ^ (w - 1) -> swrap w z = z.
Proof.
  intros Hw Hz. unfold swrap.
  assert (2 ^ w = 2 * 2 ^ (w - 1)) as E.
  { rewrite <- Z.pow_succ_r by lia. f_equal. lia. }
  rewrite Z.mod_small; lia.
Qed.

Lemma s64_small z : - 2 ^ 63 <= z < 2 ^ 63 -> s64 z = z.
Proof. apply (swrap_small 64). lia. Qed.

Lemma s32_small z : - 2 ^ 31 <= z < 2 ^ 31 -> s32 z = z.
Proof. apply (swrap_small 32). lia. Qed.

#[export] Hint Resolve u8_range u32_range u64_range : mcs.

(** ** Lemmas on arrays *)

Section arrays.
Context {A : Type}.
Implicit Types (l : list A) (i j n : Z) (x y : A).

Lemma zlen_nonneg l : 0 <= zlen l.
Proof. unfold zlen. lia. Qed.

Lemma in_range_true l i : in_range l i = true <-> 0 <= i < zlen l.
Proof. unfold in_range. rewrite andb_true_iff, Z.leb_le, Z.ltb_lt. tauto. Qed.

Lemma in_range_false l i : in_range l i = false <-> ~ 0 <= i < zlen l.
Proof. rewrite <- not_true_iff_false, in_range_true. tauto. Qed.

Lemma arr_get_Ret l i x : arr_get l i = Ret x <-> 0 <= i /\ l !! Z.to_nat i = Some x.
Proof.
  unfold arr_get. destruct (Z.leb_spec 0 i); [|split; [discriminate|lia]].
  destruct (l !! Z.to_nat i) eqn:E; split; intros H'.
  - injection H' as ->. auto.
  - destruct H' as [_ H']. congruence.
  - discriminate.
  - destruct H' as [_ H']. discriminate.
Qed.

Lemma arr_get_in_range l i x : arr_get l i = Ret x -> 0 <= i < zlen l.
Proof. intros [? H%lookup_lt_Some]%arr_get_Ret. unfold zlen. lia. Qed.

Lemma arr_get_ok l i : 0 <= i < zlen l -> exists x, arr_get l i = Ret x.
Proof.
  intros H. unfold zlen in H.
  destruct (lookup_lt_is_Some_2 l (Z.to_nat i)) as [x Hx]; [lia|].
  exists x. apply arr_get_Ret. split; [lia|done].
Qed.

Lemma arr_get_bad l i : ~ 0 <= i < zlen l -> arr_get l i = Fault OutOfBounds.
Proof.
  intros H. unfold arr_get. destruct (Z.leb_spec 0 i); [|done].
  rewrite lookup_ge_None_2; [done|]. unfold zlen in H. lia.
Qed.

Lemma arr_set_ok l i x : 0 <= i < zlen l -> arr_set l i x = Ret (<[Z.to_nat i := x]> l).
Proof. intros H. unfold arr_set. by rewrite (proj2 (in_range_true l i)). Qed.

Lemma arr_set_bad l i x : ~ 0 <= i < zlen l -> arr_set l i x = Fault OutOfBounds.
Proof. intros H. unfold arr_set. by rewrite (proj2 (in_range_false l i)). Qed.

Lemma arr_set_Ret l i x l' :
  arr_set l i x = Ret l' -> 0 <= i < zlen l /\ l' = <[Z.to_nat i := x]> l.
Proof.
  unfold arr_set. destruct (in_range l i) eqn:E; [|discriminate].
  apply in_range_true in E. intros [= <-]. auto.
Qed.

Lemma zlen_insert l (k : nat) x : zlen (<[k := x]> l) = zlen l.
Proof. unfold zlen. by rewrite length_insert. Qed.

Lemma zlen_app l1 l2 : zlen (l1 ++ l2) = zlen l1 + zlen l2.
Proof. unfold zlen. rewrite length_app. lia. Qed.

Lemma zlen_set l i x l' : arr_set l i x = Ret l' -> zlen l' = zlen l.
Proof. intros [_ ->]%arr_set_Ret. apply zlen_insert. Qed.

Lemma arr_get_insert_eq l i x :
  0 <= i < zlen l -> arr_get (<[Z.to_nat i := x]> l) i = Ret x.
Proof.
  intros H. apply arr_get_Ret. split; [lia|].
  apply list_lookup_insert_eq. unfold zlen in H. lia.
Qed.

Lemma arr_get_insert_ne l i j x :
  0 <= i -> i <> j -> arr_get (<[Z.to_nat i := x]> l) j = arr_get l j.
Proof.
  intros Hi Hne. unfold arr_get. destruct (Z.leb_spec 0 j); [|done].
  rewrite list_lookup_insert_ne; [done|]. lia.
Qed.

Lemma arr_get_insert l i j x :
  0 <= i < zlen l ->
  arr_get (<[Z.to_nat i := x]> l) j = if i =? j then Ret x else arr_get l j.
Proof.
  intros Hi. destruct (Z.eqb_spec i j) as [->|Hne].
  - by apply arr_get_insert_eq.
  - by apply arr_get_insert_ne; [lia|].
Qed.

Lemma arr_get_set_ne l i j x l' :
  arr_set l i x = Ret l' -> i <> j -> arr_get l' j = arr_get l j.
Proof. intros [H ->]%arr_set_Ret Hne. by apply arr_get_insert_ne; [lia|]. Qed.

(** Two arrays with the same length and the same reads are equal. *)
Lemma arr_ext l1 l2 :
  zlen l1 = zlen l2 ->
  (forall i, 0 <= i < zlen l1 -> arr_get l1 i = arr_get l2 i) -> l1 = l2.
Proof.
  intros Hlen H. apply list_eq_same_length with (length l1); [|done|].
  { unfold zlen in Hlen. lia. }
  intros k x y Hk Hx Hy. specialize (H (Z.of_nat k)). unfold zlen in H.
  assert (arr_get l1 (Z.of_nat k) = Ret x) as Ex by (apply arr_get_Ret; rewrite Nat2Z.id; auto with lia).
  assert (arr_get l2 (Z.of_nat k) = Ret y) as Ey by (apply arr_get_Ret; rewrite Nat2Z.id; auto with lia).
  rewrite Ex, Ey in H. assert (Ret x = Ret y) as E by (apply H; lia). congruence.
Qed.

Lemma Forall_arr_get (P : A -> Prop) l i x : Forall P l -> arr_get l i = Ret x -> P x.
Proof. intros Hl [_ H]%arr_get_Ret. by eapply Forall_lookup_1. Qed.

End arrays.

(** ** Lemmas on loops *)

Section loops.
Context {S : Type}.

(** A loop whose body cannot fault is a fold over its indices. *)
Lemma for_state_foldl (f : S -> Z -> S) body n : forall i s,
  (forall j x, body j x = Ret (f x j)) -> for_state n i body s = Ret (foldl f s (seqZ i (Z.of_nat n))).
Proof.
  induction n as [|n IH]; intros i s H; [done|]. cbn [for_state]. rewrite H. cbn [mbind exec_bind].
  rewrite (IH (i + 1)) by done. rewrite (seqZ_cons i) by lia.
  replace (Z.pred (Z.of_nat (Datatypes.S n))) with (Z.of_nat n) by lia. done.
Qed.

(** The invariant rule: a body that keeps [I] never faults and neither does the loop. *)
Lemma for_state_inv (I : Z -> S -> Prop) (body : Z -> S -> exec S) n : forall i s,
  I i s ->
  (forall j t, i <= j < i + Z.of_nat n -> I j t ->
     exists t', body j t = Ret t' /\ I (j + 1) t') ->
  exists s', for_state n i body s = Ret s' /\ I (i + Z.of_nat n) s'.
Proof.
  induction n as [|n IH]; intros i s H0 Hb.
  - exists s. split; [done|]. by rewrite Z.add_0_r.
  - destruct (Hb i s) as (t & Et & Ht); [lia|done|]. simpl. rewrite Et. simpl.
    destruct (IH (i + 1) t Ht) as (s' & -> & Hs').
    + intros j u Hj. apply Hb. lia.
    + exists s'. split; [done|].
      by replace (i + Z.of_nat (Datatypes.S n)) with (i + 1 + Z.of_nat n) by lia.
Qed.

(** The invariant rule for a loop that may be left: [I] while it goes on, [Q] on leaving. *)
Lemma for_loop_inv {R} (I : Z -> S -> Prop) (Q : S -> R -> Prop)
    (body : Z -> S -> exec (flow S R)) n : forall i s,
  I i s ->
  (forall j t, i <= j < i + Z.of_nat n -> I j t ->
     (exists t', body j t = Ret (Next t') /\ I (j + 1) t') \/
     (exists t' r, body j t = Ret (Exit t' r) /\ Q t' r)) ->
  (exists s', for_loop n i body s = Ret (Next s') /\ I (i + Z.of_nat n) s') \/
  (exists s' r, for_loop n i body s = Ret (Exit s' r) /\ Q s' r).
Proof.
  induction n as [|n IH]; intros i s H0 Hb.
  - left. exists s. split; [done|]. by rewrite Z.add_0_r.
  - simpl. destruct (Hb i s) as [(t & -> & Ht)|(t & r & -> & Ht)]; [lia|done| |]; simpl.
    + replace (i + Z.of_nat (Datatypes.S n)) with (i + 1 + Z.of_nat n) by lia.
      apply IH; [done|]. intros j u Hj. apply Hb. lia.
    + right. eauto.
Qed.

(** A search: the body leaves the state alone until the test first succeeds. *)
Lemma for_loop_search_first {R} (P : Z -> bool) (hs : Z -> S) (hr : Z -> R)
    (body : Z -> S -> exec (flow S R)) s n : forall i,
  (forall j, i <= j < i + Z.of_nat n -> (forall k, i <= k < j -> P k = false) ->
     body j s = Ret (if P j then Exit (hs j) (hr j) else Next s)) ->
  for_loop n i body s
  = Ret (match find_first P n i with Some j => Exit (hs j) (hr j) | None => Next s end).
Proof.
  induction n as [|n IH]; intros i Hb; simpl; [done|].
  rewrite Hb by lia. simpl. destruct (P i) eqn:E; [done|].
  apply IH. intros j Hj Hk. apply Hb; [lia|]. intros k Hk'.
  destruct (decide (k = i)) as [->|]; [done|]. apply Hk. lia.
Qed.

Lemma for_loop_search {R} (P : Z -> bool) (hs : Z -> S) (hr : Z -> R)
    (body : Z -> S -> exec (flow S R)) s n i :
  (forall j, i <= j < i + Z.of_nat n ->
     body j s = Ret (if P j then Exit (hs j) (hr j) else Next s)) ->
  for_loop n i body s
  = Ret (match find_first P n i with Some j => Exit (hs j) (hr j) | None => Next s end).
Proof. intros Hb. apply for_loop_search_first. intros j Hj _. by apply Hb. Qed.

End loops.

Lemma find_first_Some P n : forall i j,
  find_first P n i = Some j <->
  i <= j < i + Z.of_nat n /\ P j = true /\ (forall k, i <= k < j -> P k = false).
Proof.
  induction n as [|n IH]; intros i j; simpl; [split; [discriminate|lia]|].
  destruct (P i) eqn:E.
  - split.
    + intros [= <-]. split; [lia|]. split; [done|]. lia.
    + intros (? & HP & Hk). f_equal. destruct (decide (i = j)); [done|].
      rewrite (Hk i) in E by lia. discriminate.
  - rewrite IH. split.
    + intros (? & ? & Hk). split; [lia|]. split; [done|].
      intros k ?. destruct (decide (k = i)) as [->|]; [done|]. apply Hk. lia.
    + intros (? & HP & Hk). assert (j <> i) by congruence.
      split; [lia|]. split; [done|]. intros k ?. apply Hk. lia.
Qed.

Lemma find_first_None P n : forall i,
  find_first P n i = None <-> (forall k, i <= k < i + Z.of_nat n -> P k = false).
Proof.
  induction n as [|n IH]; intros i; simpl; [split; [intros; lia|done]|].
  destruct (P i) eqn:E.
  - split; [discriminate|]. intros H. rewrite H in E by lia. discriminate.
  - rewrite IH. split; intros H k ?.
    + destruct (decide (k = i)) as [->|]; [done|]. apply H. lia.
    + apply H. lia.
Qed.

Lemma find_first_ext P Q n : forall i,
  (forall k, i <= k < i + Z.of_nat n -> P k = Q k) -> find_first P n i = find_first Q n i.
Proof.
  induction n as [|n IH]; intros i H; simpl; [done|].
  rewrite H by lia. destruct (Q i); [done|]. apply IH. intros k ?. apply H. lia.
Qed.

Lemma find_first_shift P n : forall i,
  find_first P n (i + 1) = option_map (fun j => j + 1) (find_first (fun j => P (j + 1)) n i).
Proof.
  induction n as [|n IH]; intros i; simpl; [done|].
  destruct (P (i + 1)); [done|]. apply IH.
Qed.

(** The search for the first element of an array with a property, as a list function. *)
Lemma find_first_list {A} (P : A -> bool) (l : list A) :
  find_first (fun i => match arr_get l i with Ret x => P x | Fault _ => false end) (length l) 0
  = option_map (fun kx => Z.of_nat (fst kx)) (list_find (fun x => P x = true) l).
Proof.
  induction l as [|x l IH]; [done|]. simpl find_first.
  change (arr_get (x :: l) 0) with (Ret x). cbn beta iota.
  simpl list_find. destruct (P x) eqn:E.
  - by rewrite decide_True by done.
  - rewrite decide_False by congruence. change 1 with (0 + 1). rewrite find_first_shift.
    rewrite (find_first_ext _
      (fun i => match arr_get l i with Ret x => P x | Fault _ => false end)), IH.
    + destruct (list_find _ l) as [[k y]|]; [|done]. simpl. f_equal. lia.
    + intros k Hk. unfold arr_get.
      rewrite !(proj2 (Z.leb_le _ _)) by lia.
      by replace (Z.to_nat (k + 1)) with (S (Z.to_nat k)) by lia.
Qed.

(** An array is what stands before, at and after one of its subscripts. *)
Lemma arr_split {A} (l : list A) (i : Z) x y :
  arr_get l i = Ret x ->
  l = take (Z.to_nat i) l ++ x :: drop (S (Z.to_nat i)) l /\
  <[Z.to_nat i := y]> l = take (Z.to_nat i) l ++ y :: drop (S (Z.to_nat i)) l.
Proof.
  intros [Hi Hx]%arr_get_Ret. split; [by rewrite take_drop_middle|].
  apply insert_take_drop. by apply lookup_lt_Some in Hx.
Qed.

(** Walking through an array by its suffixes. *)
Lemma drop_cons {A} (l : list A) i x r :
  0 <= i -> drop (Z.to_nat i) l = x :: r ->
  arr_get l i = Ret x /\ drop (Z.to_nat (i + 1)) l = r.
Proof.
  intros Hi Hd. split.
  - apply arr_get_Ret. split; [done|]. rewrite <- (Nat.add_0_r (Z.to_nat i)), <- lookup_drop.
    by rewrite Hd.
  - replace (Z.to_nat (i + 1)) with (Z.to_nat i + 1)%nat by lia. by rewrite <- drop_drop, Hd.
Qed.
