(* ===== verification/Bytes.v ===== *)
(** * Byte arrays and C strings

    The byte-wise loops the kernel's files repeat under their own names ([m14_memcpy],
    [m15_memcpy], [m16_memcpy], [m16_memzero], [m13_strcmp], [m15_strcmp], [m13_strcpy],
    [m15_strcpy]), their pure reference definitions, and little-endian field reads of packed
    structures. *)

From S2P Require Import Prelude.

(** ** Operations *)

(** [for (i = 0; i < size; ++i) dst[doff + i] = src[soff + i]] on two distinct objects; a
    pointer into an array is the array and the offset it points at. *)
Definition byte_copy (dst : list Z) (doff : Z) (src : list Z) (soff size : Z)
  : exec (list Z) :=
  for_state (Z.to_nat size) 0
    (fun i d => b ← arr_get src (soff + i); arr_set d (doff + i) b) dst.

(** Little-endian read of an [n]-byte field of a packed structure. *)
Fixpoint le_read (l : list Z) (off : Z) (n : nat) : exec Z :=
  match n with
  | O => Ret 0
  | S n' => b ← arr_get l off; r ← le_read l (off + 1) n'; Ret (b + 256 * r)
  end.

(** [strcmp] over two NUL-terminated strings in their arrays; running off either array is a
    fault.  [char] is signed on this target. *)
Fixpoint c_strcmp (a b : list Z) : exec Z :=
  match a, b with
  | x :: a', y :: b' =>
      if negb (x =? 0) && negb (y =? 0) then
        if negb (x =? y) then Ret (s8 x - s8 y) else c_strcmp a' b'
      else Ret (s8 x - s8 y)
  | _, _ => Fault OutOfBounds
  end.

(** [strcpy] of the string at the head of [src] to [dst + off]. *)
Fixpoint c_strcpy (dst : list Z) (off : Z) (src : list Z) : exec (list Z) :=
  match src with
  | [] => Fault OutOfBounds
  | c :: src' =>
      if c =? 0 then arr_set dst off 0
      else d ← arr_set dst off c; c_strcpy d (off + 1) src'
  end.

(** ** Reference definitions *)

(** The [n] bytes from [off] on. *)
Definition slice {A} (l : list A) (off n : Z) : list A :=
  take (Z.to_nat n) (drop (Z.to_nat off) l).

(** [l] with the elements from [off] on overwritten by [bs]. *)
Definition splice {A} (l : list A) (off : Z) (bs : list A) : list A :=
  take (Z.to_nat off) l ++ bs ++ drop (Z.to_nat off + length bs) l.

(** The characters of the C string at the head of an array. *)
Fixpoint cstr (l : list Z) : list Z :=
  match l with
  | [] => []
  | c :: l' => if c =? 0 then [] else c :: cstr l'
  end.

(** The array does hold a terminator. *)
Definition has_nul (l : list Z) : Prop := 0 ∈ l.

Definition bytes (l : list Z) : Prop := Forall is_u8 l.

#[global] Instance bytes_dec l : Decision (bytes l).
Proof. unfold bytes. apply _. Defined.

#[global] Instance has_nul_dec l : Decision (has_nul l).
Proof. unfold has_nul. apply _. Defined.

(** ** Slices *)

Section slices.
Context {A : Type}.
Implicit Types (l bs : list A).

Lemma zlen_slice l off n :
  0 <= off -> 0 <= n -> off + n <= zlen l -> zlen (slice l off n) = n.
Proof. unfold zlen, slice. rewrite length_take, length_drop. lia. Qed.

Lemma zlen_splice l off bs :
  0 <= off -> off + zlen bs <= zlen l -> zlen (splice l off bs) = zlen l.
Proof. unfold zlen, splice. rewrite !length_app, length_take, length_drop. lia. Qed.

Lemma arr_get_slice l off n i :
  0 <= off -> 0 <= i < n -> arr_get (slice l off n) i = arr_get l (off + i).
Proof.
  intros Hoff Hi. unfold arr_get, slice.
  rewrite (proj2 (Z.leb_le 0 i)), (proj2 (Z.leb_le 0 (off + i))) by lia.
  rewrite lookup_take_lt, lookup_drop by lia.
  by replace (Z.to_nat off + Z.to_nat i)%nat with (Z.to_nat (off + i)) by lia.
Qed.

(** Also when the bytes written end past the array, which then grows. *)
Lemma arr_get_splice_ext l off bs i :
  0 <= off -> off <= zlen l ->
  arr_get (splice l off bs) i
  = if (off <=? i) && (i <? off + zlen bs) then arr_get bs (i - off) else arr_get l i.
Proof.
  intros Hoff Hlen. unfold zlen in *. destruct (decide (0 <= i)).
  2:{ rewrite !arr_get_bad by (unfold zlen; lia).
      replace (off <=? i) with false by (symmetry; apply Z.leb_gt; lia). done. }
  unfold splice. unfold arr_get at 1 3. rewrite (proj2 (Z.leb_le 0 i)) by done.
  destruct (Z.leb_spec off i); simpl.
  - rewrite lookup_app_r by (rewrite length_take; lia). rewrite length_take.
    destruct (Z.ltb_spec i (off + Z.of_nat (length bs))).
    + rewrite lookup_app_l by lia. unfold arr_get.
      rewrite (proj2 (Z.leb_le 0 (i - off))) by lia.
      by replace (Z.to_nat i - Nat.min (Z.to_nat off) (length l))%nat
        with (Z.to_nat (i - off)) by lia.
    + rewrite lookup_app_r, lookup_drop by lia.
      by replace (Z.to_nat off + length bs +
                  (Z.to_nat i - Nat.min (Z.to_nat off) (length l) - length bs))%nat
        with (Z.to_nat i) by lia.
  - rewrite lookup_app_l by (rewrite length_take; lia).
    by rewrite lookup_take_lt by lia.
Qed.

Lemma arr_get_splice l off bs i :
  0 <= off -> off + zlen bs <= zlen l ->
  arr_get (splice l off bs) i
  = if (off <=? i) && (i <? off + zlen bs) then arr_get bs (i - off) else arr_get l i.
Proof. intros Hoff Hlen. pose proof (zlen_nonneg bs). apply arr_get_splice_ext; lia. Qed.

Lemma zlen_splice_ext l off bs :
  0 <= off -> off <= zlen l -> zlen (splice l off bs) = Z.max (zlen l) (off + zlen bs).
Proof. unfold zlen, splice. rewrite !length_app, length_take, length_drop. lia. Qed.

(** A write at [o] into the range of [n] elements at [off] overwrites and possibly extends it. *)
Lemma slice_splice_grow l off n o bs :
  0 <= off -> 0 <= o <= n -> off + Z.max n (o + zlen bs) <= zlen l ->
  slice (splice l (off + o) bs) off (Z.max n (o + zlen bs)) = splice (slice l off n) o bs.
Proof.
  intros Hoff Ho Hlen. pose proof (zlen_nonneg bs). apply arr_ext.
  - rewrite zlen_splice_ext, !zlen_slice; rewrite ?zlen_splice, ?zlen_slice; lia.
  - intros i Hi. rewrite zlen_slice in Hi by (rewrite ?zlen_splice; lia).
    rewrite arr_get_slice, arr_get_splice, arr_get_splice_ext by (rewrite ?zlen_slice; lia).
    destruct (Z.leb_spec (off + o) (off + i)), (Z.ltb_spec (off + i) (off + o + zlen bs)),
      (Z.leb_spec o i), (Z.ltb_spec i (o + zlen bs)); try lia; cbn; [f_equal; lia|..];
      rewrite arr_get_slice by lia; done.
Qed.

(** Reading back the bytes just written. *)
Lemma slice_splice_same_ext l off bs :
  0 <= off -> off <= zlen l -> slice (splice l off bs) off (zlen bs) = bs.
Proof.
  intros Hoff Hlen. pose proof (zlen_nonneg bs). apply arr_ext.
  - rewrite zlen_slice; rewrite ?zlen_splice_ext; lia.
  - intros i Hi. rewrite zlen_slice in Hi by (rewrite ?zlen_splice_ext; lia).
    rewrite arr_get_slice, arr_get_splice_ext by lia.
    rewrite (proj2 (Z.leb_le off (off + i))), (proj2 (Z.ltb_lt (off + i) _)) by lia.
    f_equal. lia.
Qed.

Lemma slice_splice_same l off bs :
  0 <= off -> off + zlen bs <= zlen l -> slice (splice l off bs) off (zlen bs) = bs.
Proof. intros. pose proof (zlen_nonneg bs). apply slice_splice_same_ext; lia. Qed.

(** A write outside a range leaves the range alone. *)
Lemma slice_splice_disjoint l off bs off' n :
  0 <= off -> off + zlen bs <= zlen l -> 0 <= off' -> 0 <= n -> off' + n <= zlen l ->
  off' + n <= off \/ off + zlen bs <= off' ->
  slice (splice l off bs) off' n = slice l off' n.
Proof.
  intros Hoff Hlen Hoff' Hn Hlen' Hdis. apply arr_ext.
  - rewrite !zlen_slice; rewrite ?zlen_splice; lia.
  - intros i Hi. rewrite zlen_slice in Hi by (rewrite ?zlen_splice; lia).
    rewrite !arr_get_slice, arr_get_splice by lia.
    destruct (Z.leb_spec off (off' + i)), (Z.ltb_spec (off' + i) (off + zlen bs));
      simpl; try done; lia.
Qed.

Lemma slice_slice l off m o n :
  0 <= off -> 0 <= o -> 0 <= n -> o + n <= m -> off + m <= zlen l ->
  slice (slice l off m) o n = slice l (off + o) n.
Proof.
  intros. apply arr_ext.
  - rewrite !zlen_slice; rewrite ?zlen_slice; lia.
  - intros i Hi. rewrite zlen_slice in Hi by (rewrite ?zlen_slice; lia).
    rewrite !arr_get_slice by lia. f_equal. lia.
Qed.

Lemma slice_all l : slice l 0 (zlen l) = l.
Proof. unfold slice, zlen. simpl. rewrite drop_0, Nat2Z.id. apply firstn_all. Qed.

Lemma splice_splice_same l off bs bs' :
  0 <= off -> off + zlen bs <= zlen l -> zlen bs' = zlen bs ->
  splice (splice l off bs) off bs' = splice l off bs'.
Proof.
  intros Hoff Hlen E. apply arr_ext.
  - rewrite !zlen_splice; rewrite ?zlen_splice; lia.
  - intros i Hi. rewrite !arr_get_splice; rewrite ?zlen_splice; try lia.
    rewrite E. by destruct ((off <=? i) && (i <? off + zlen bs)).
Qed.

Lemma Forall_slice (P : A -> Prop) l off n : Forall P l -> Forall P (slice l off n).
Proof. intros H. unfold slice. by apply Forall_take, Forall_drop. Qed.

Lemma Forall_splice (P : A -> Prop) l off bs :
  Forall P l -> Forall P bs -> Forall P (splice l off bs).
Proof.
  intros. unfold splice. apply Forall_app_2; [by apply Forall_take|].
  apply Forall_app_2; [done|by apply Forall_drop].
Qed.
End slices.

#[export] Hint Resolve Forall_slice Forall_splice : mcs.

(** ** The copy loop *)

(** The loop is the reference copy whenever both ranges are inside their objects. *)
Lemma byte_copy_eq dst doff src soff n :
  0 <= doff -> 0 <= soff -> 0 <= n -> doff + n <= zlen dst -> soff + n <= zlen src ->
  byte_copy dst doff src soff n = Ret (splice dst doff (slice src soff n)).
Proof.
  intros Hd Hs Hn Hdl Hsl. unfold byte_copy.
  pose (I := fun (i : Z) (d : list Z) => zlen d = zlen dst /\
    forall k, arr_get d k
      = if (doff <=? k) && (k <? doff + i) then arr_get src (soff + (k - doff))
        else arr_get dst k).
  destruct (for_state_inv I (fun i d => b ← arr_get src (soff + i); arr_set d (doff + i) b)
              (Z.to_nat n) 0 dst) as (d' & -> & Hlen & Hget).
  - split; [done|]. intros k.
    destruct (Z.leb_spec doff k), (Z.ltb_spec k (doff + 0)); simpl; try done; lia.
  - intros j t Hj [Hl Hg]. destruct (arr_get_ok src (soff + j)) as [b Hb]; [lia|].
    rewrite Hb. simpl. rewrite arr_set_ok by lia. eexists. split; [done|].
    split; [by rewrite zlen_insert|]. intros k. rewrite arr_get_insert, Hg by lia.
    destruct (Z.eqb_spec (doff + j) k) as [<-|].
    + replace (doff + j - doff) with j by lia. rewrite Hb.
      destruct (Z.leb_spec doff (doff + j)), (Z.ltb_spec (doff + j) (doff + (j + 1)));
        simpl; try done; lia.
    + destruct (Z.leb_spec doff k), (Z.ltb_spec k (doff + j)),
        (Z.ltb_spec k (doff + (j + 1))); simpl; try done; lia.
  - f_equal. assert (zlen (slice src soff n) = n) as Hsn by (apply zlen_slice; lia).
    apply arr_ext; [rewrite zlen_splice; lia|].
    intros i Hi. rewrite Hget, arr_get_splice, Hsn by lia.
    replace (0 + Z.of_nat (Z.to_nat n)) with n by lia.
    destruct ((doff <=? i) && (i <? doff + n)) eqn:E; [|done].
    zbool. by rewrite arr_get_slice by lia.
Qed.

(** ** Filling *)

(** ** Little-endian fields *)

Lemma le_read_ok l n : forall off,
  0 <= off -> off + Z.of_nat n <= zlen l -> exists v, le_read l off n = Ret v.
Proof.
  induction n as [|n IH]; intros off H1 H2; simpl; [eauto|].
  destruct (arr_get_ok l off) as [b ->]; [lia|]. simpl.
  destruct (IH (off + 1)) as [r ->]; [lia|lia|]. simpl. eauto.
Qed.

Lemma le_read_range l n : forall off v,
  bytes l -> le_read l off n = Ret v -> 0 <= v < 256 ^ Z.of_nat n.
Proof.
  induction n as [|n IH]; intros off v Hl H.
  - simpl in *. injection H as <-. lia.
  - simpl in H. exec_inv. apply (Forall_arr_get _ _ _ _ Hl) in H0.
    apply IH in H1; [|done]. rewrite Nat2Z.inj_succ, Z.pow_succ_r by lia.
    unfold is_u8 in H0. lia.
Qed.

(** ** C strings *)

Lemma has_nul_cons c l : has_nul (c :: l) <-> c = 0 \/ has_nul l.
Proof. unfold has_nul. rewrite elem_of_cons. naive_solver. Qed.

Lemma cstr_no_nul l : 0 ∉ cstr l.
Proof.
  induction l as [|c l IH]; simpl; [set_solver|].
  destruct (Z.eqb_spec c 0); set_solver.
Qed.

Lemma cstr_app_nul s rest : 0 ∉ s -> cstr (s ++ 0 :: rest) = s.
Proof.
  induction s as [|c s IH]; intros Hs; simpl; [done|].
  destruct (Z.eqb_spec c 0); [set_solver|]. f_equal. apply IH. set_solver.
Qed.

(** An array with a terminator is its string, the terminator, and the rest. *)
Lemma cstr_split l : has_nul l -> exists rest, l = cstr l ++ 0 :: rest.
Proof.
  induction l as [|c l IH]; [by intros H%elem_of_nil|].
  intros Hn. simpl. destruct (Z.eqb_spec c 0) as [->|]; [by exists l|].
  apply has_nul_cons in Hn as [?|Hn]; [done|]. destruct (IH Hn) as [r Hr].
  exists r. simpl. by f_equal.
Qed.

Lemma s8_inj x y : is_u8 x -> is_u8 y -> s8 x = s8 y -> x = y.
Proof. unfold is_u8, s8, swrap. intros. Z.to_euclidean_division_equations. lia. Qed.

(** [strcmp] of two terminated strings never faults, and is zero exactly on equal strings. *)
Lemma c_strcmp_spec a : forall b,
  bytes a -> bytes b -> has_nul a -> has_nul b ->
  exists r, c_strcmp a b = Ret r /\ (r = 0 <-> cstr a = cstr b).
Proof.
  induction a as [|x a IH]; intros [|y b] Ha Hb Na Nb;
    try (by apply elem_of_nil in Na); try (by apply elem_of_nil in Nb).
  apply Forall_cons_1 in Ha as [Hx Ha], Hb as [Hy Hb].
  apply has_nul_cons in Na, Nb. simpl.
  destruct (Z.eqb_spec x 0) as [->|Hx0]; simpl.
  { eexists. split; [done|]. destruct (Z.eqb_spec y 0) as [->|Hy0]; [done|].
    split; [|discriminate]. intros E. exfalso. apply Hy0, s8_inj; [done|by unfold is_u8|lia]. }
  destruct (Z.eqb_spec y 0) as [->|Hy0]; simpl.
  { eexists. split; [done|]. split; [|discriminate].
    intros E. exfalso. apply Hx0, s8_inj; [done|by unfold is_u8|lia]. }
  destruct (Z.eqb_spec x y) as [->|Hxy]; simpl.
  - destruct (IH b) as (r & -> & Hr); [done..|naive_solver|naive_solver|].
    exists r. split; [done|]. rewrite Hr. split; [by intros ->|by intros [= ->]].
  - eexists. split; [done|]. split; [|by intros [= ->]].
    intros E. exfalso. apply Hxy, s8_inj; [done..|lia].
Qed.

(** [strcpy] into an object with room for the string and its terminator. *)
Lemma c_strcpy_eq src : forall dst off,
  has_nul src -> 0 <= off -> off + zlen (cstr src) < zlen dst ->
  c_strcpy dst off src = Ret (splice dst off (cstr src ++ [0])).
Proof.
  induction src as [|c src IH]; intros dst off Hn Hoff Hlen; [by apply elem_of_nil in Hn|].
  simpl in *. destruct (Z.eqb_spec c 0) as [->|Hc].
  - simpl in *. unfold zlen in Hlen at 1. simpl in Hlen. rewrite arr_set_ok by lia.
    f_equal. apply arr_ext; [rewrite zlen_insert, zlen_splice; unfold zlen in *; simpl; lia|].
    intros i Hi. rewrite zlen_insert in Hi.
    rewrite arr_get_insert, arr_get_splice by (unfold zlen in *; simpl; lia).
    change (zlen [0]) with 1.
    destruct (Z.eqb_spec off i) as [<-|].
    + by rewrite Z.leb_refl, (proj2 (Z.ltb_lt off (off + 1))), Z.sub_diag by lia.
    + destruct (Z.leb_spec off i), (Z.ltb_spec i (off + 1)); simpl; try done; lia.
  - assert (zlen (c :: cstr src) = 1 + zlen (cstr src)) as Hz by (unfold zlen; simpl; lia).
    rewrite Hz in Hlen. pose proof (zlen_nonneg (cstr src)).
    rewrite arr_set_ok by lia. simpl.
    apply has_nul_cons in Hn as [?|Hn]; [done|].
    rewrite IH by (rewrite ?zlen_insert; try done; lia). f_equal.
    assert (zlen (cstr src ++ [0]) = zlen (cstr src) + 1) as Hz1 by (rewrite zlen_app; done).
    assert (zlen (c :: cstr src ++ [0]) = zlen (cstr src) + 2) as Hz2
      by (unfold zlen in *; simpl; lia).
    apply arr_ext; [rewrite !zlen_splice; rewrite ?zlen_insert; lia|].
    intros i Hi. rewrite zlen_splice, zlen_insert in Hi by (rewrite ?zlen_insert; lia).
    rewrite !arr_get_splice by (rewrite ?zlen_insert; lia).
    rewrite arr_get_insert, Hz1, Hz2 by lia.
    destruct (Z.leb_spec (off + 1) i), (Z.leb_spec off i), (Z.eqb_spec off i),
      (Z.ltb_spec i (off + 1 + (zlen (cstr src) + 1))),
      (Z.ltb_spec i (off + (zlen (cstr src) + 2))); simpl; try done; try lia.
    + unfold arr_get. rewrite !(proj2 (Z.leb_le _ _)) by lia.
      by replace (Z.to_nat (i - off)) with (S (Z.to_nat (i - (off + 1)))) by lia.
    + subst i. by rewrite Z.sub_diag.
Qed.

(** [strcpy] of a string that does not fit faults: the loop has no bound of its own. *)
Lemma c_strcpy_overflow src : forall dst off,
  has_nul src -> 0 <= off <= zlen dst -> zlen dst <= off + zlen (cstr src) ->
  c_strcpy dst off src = Fault OutOfBounds.
Proof.
  induction src as [|c src IH]; intros dst off Hn Hoff Hlen; [by apply elem_of_nil in Hn|].
  simpl in *. destruct (Z.eqb_spec c 0) as [->|Hc].
  - unfold zlen in Hlen at 2. simpl in Hlen. by rewrite arr_set_bad by lia.
  - assert (zlen (c :: cstr src) = 1 + zlen (cstr src)) as Hz by (unfold zlen; simpl; lia).
    rewrite Hz in Hlen. destruct (decide (off < zlen dst)).
    + rewrite arr_set_ok by lia. simpl. apply has_nul_cons in Hn as [?|Hn]; [done|].
      apply IH; [done|rewrite zlen_insert; lia|rewrite zlen_insert; lia].
    + by rewrite arr_set_bad by lia.
Qed.

(** The array that [strcpy] leaves behind holds the string it copied. *)
Lemma splice_cstr (dst src : list Z) :
  has_nul (splice dst 0 (cstr src ++ [0])) /\ cstr (splice dst 0 (cstr src ++ [0])) = cstr src.
Proof.
  assert (splice dst 0 (cstr src ++ [0]) = cstr src ++ 0 :: drop (length (cstr src ++ [0])) dst) as ->
    by (unfold splice; cbn; by rewrite <- app_assoc).
  split; [unfold has_nul; set_solver|]. apply cstr_app_nul, cstr_no_nul.
Qed.
