(* ===== verification/Session.v ===== *)
(** * Sequences of calls

    The specification of a component is a function [astep] on abstract states; the code is a
    function [step] on concrete ones, in [exec].  The class [Refines] is what a component has to
    show: that one call, from related states, returns the answer of the specification and related
    states.  What follows for every sequence of calls is proved once, here. *)

From S2P Require Import Prelude.

Section session.
Context {A S Op R : Type}.
Context (astep : A -> Op -> A * R) (step : S -> Op -> exec (S * R)).

(** Which calls the specification admits in which state. *)
Context (ok : A -> Op -> Prop).

(** The specification and the code on a sequence of calls, with their answers. *)
Fixpoint spec_run (a : A) (ops : list Op) : A * list R :=
  match ops with
  | [] => (a, [])
  | op :: ops' =>
      let '(a1, r) := astep a op in
      let '(a2, rs) := spec_run a1 ops' in (a2, r :: rs)
  end.

Fixpoint code_run (s : S) (ops : list Op) : exec (S * list R) :=
  match ops with
  | [] => Ret (s, [])
  | op :: ops' =>
      '(s1, r) ← step s op;
      '(s2, rs) ← code_run s1 ops'; Ret (s2, r :: rs)
  end.

Fixpoint admissible (a : A) (ops : list Op) : Prop :=
  match ops with
  | [] => True
  | op :: ops' => ok a op /\ admissible (astep a op).1 ops'
  end.

#[global] Instance admissible_dec `{!forall a op, Decision (ok a op)} a ops : Decision (admissible a ops).
Proof. revert a. induction ops as [|op ops IH]; intros a; cbn; apply _. Defined.

Lemma spec_run_cons a op ops :
  spec_run a (op :: ops) = ((spec_run (astep a op).1 ops).1, (astep a op).2 :: (spec_run (astep a op).1 ops).2).
Proof. cbn. destruct (astep a op) as [a1 r]. cbn. by destruct (spec_run a1 ops). Qed.

Class Refines (sim : S -> A -> Prop) : Prop :=
  refines_step s a op : sim s a -> ok a op ->
    exists s', step s op = Ret (s', (astep a op).2) /\ sim s' (astep a op).1.

Lemma session_refines sim `{!Refines sim} ops : forall s a,
  sim s a -> admissible a ops ->
  exists s', code_run s ops = Ret (s', (spec_run a ops).2) /\ sim s' (spec_run a ops).1.
Proof.
  induction ops as [|op ops IH]; intros s a Hs Hok; [by exists s|]. destruct Hok as [Hop Hops].
  destruct (refines_step s a op Hs Hop) as (s1 & E1 & Hs1). destruct (IH s1 _ Hs1 Hops) as (s2 & E2 & Hs2).
  exists s2. rewrite spec_run_cons. cbn [code_run fst snd]. rewrite E1. cbn [mbind exec_bind]. by rewrite E2.
Qed.

(** Calls that are admitted in every state. *)
Lemma admissible_static (P : Op -> Prop) ops : (forall a op, P op -> ok a op) -> Forall P ops -> forall a, admissible a ops.
Proof. intros H. induction 1 as [|op ops Hop _ IH]; intros a; [done|]. split; [by apply H|apply IH]. Qed.

End session.
