(* ===== verification/Mem.v ===== *)
(** * Byte memory, and the memory routines of kernel/lib/memory.c

    Memory is a finite map from addresses to bytes; an access to an address that is not mapped
    faults.  On it the file defines the loops of [memset], [memcpy] and [memmove], and the
    little-endian loads and stores that the heap allocator's headers are made of. *)

From S2P Require Import Prelude.

Abbreviation mem := (gmap Z Z).

Implicit Types (m : gmap Z Z) (a d s n v : Z).

(** ** Accesses *)

Definition load8 (m : mem) (a : Z) : exec Z :=
  match m !! a with
  | Some b => Ret b
  | None => Fault OutOfBounds
  end.

Definition store8 (m : mem) (a v : Z) : exec mem :=
  match m !! a with
  | Some _ => Ret (<[a := v]> m)
  | None => Fault OutOfBounds
  end.

Fixpoint le_load (n : nat) (m : mem) (a : Z) : exec Z :=
  match n with
  | O => Ret 0
  | S n' => b ← load8 m a; r ← le_load n' m (a + 1); Ret (b + 256 * r)
  end.

Fixpoint le_store (n : nat) (m : mem) (a v : Z) : exec mem :=
  match n with
  | O => Ret m
  | S n' => m' ← store8 m a (v mod 256); le_store n' m' (a + 1) (v / 256)
  end.

(** A [size_t] or a pointer in memory. *)
Definition load64 (m : mem) (a : Z) : exec Z := le_load 8 m a.
Definition store64 (m : mem) (a v : Z) : exec mem := le_store 8 m a v.

#[global] Arguments load64 : simpl never.
#[global] Arguments store64 : simpl never.

(** ** Operations *)

(** [while (count-- != 0) *d++ = value]. *)
Fixpoint set_up (count : nat) (m : mem) (d value : Z) : exec mem :=
  match count with
  | O => Ret m
  | S c => m' ← store8 m d value; set_up c m' (d + 1) value
  end.

(** [while (count-- != 0) *d++ = *s++]. *)
Fixpoint copy_up (count : nat) (m : mem) (d s : Z) : exec mem :=
  match count with
  | O => Ret m
  | S c => b ← load8 m s; m' ← store8 m d b; copy_up c m' (d + 1) (s + 1)
  end.

(** [while (count-- != 0) *--d = *--s]. *)
Fixpoint copy_down (count : nat) (m : mem) (d s : Z) : exec mem :=
  match count with
  | O => Ret m
  | S c => b ← load8 m (s - 1); m' ← store8 m (d - 1) b; copy_down c m' (d - 1) (s - 1)
  end.

Definition memset (m : mem) (dest value count : Z) : exec (mem * Z) :=
  m' ← set_up (Z.to_nat count) m dest (u8 value); Ret (m', dest).

Definition memcpy (m : mem) (dest src count : Z) : exec (mem * Z) :=
  m' ← copy_up (Z.to_nat count) m dest src; Ret (m', dest).

Definition memmove (m : mem) (dest src count : Z) : exec (mem * Z) :=
  if (dest =? src) || (count =? 0) then Ret (m, dest)
  else if dest <? src then
    m' ← copy_up (Z.to_nat count) m dest src; Ret (m', dest)
  else
    m' ← copy_down (Z.to_nat count) m (dest + count) (src + count); Ret (m', dest).

(** ** What a routine may rely on and what it promises *)

(** Every address of [\[a, a + n)] is mapped. *)
Definition valid m a n : Prop := forall x, a <= x < a + n -> is_Some (m !! x).

(** [m'] maps the addresses [m] maps. *)
Definition same_dom m m' : Prop := forall x, is_Some (m' !! x) <-> is_Some (m !! x).

(** [m'] is [m] with the bytes at [s] copied, all at once, to [d]. *)
Definition copied m m' d s n : Prop :=
  forall x, m' !! x = if (d <=? x) && (x <? d + n) then m !! (s + (x - d)) else m !! x.

(** [m'] agrees with [m] outside [\[a, a + n)]. *)
Definition agree_outside m m' a n : Prop :=
  forall x, ~ a <= x < a + n -> m' !! x = m !! x.

#[global] Instance same_dom_equiv : Equivalence same_dom.
Proof.
  split; unfold same_dom; [done|by intros m m' H x; rewrite H|].
  intros m1 m2 m3 H1 H2 x. by rewrite H2, H1.
Qed.

Lemma valid_sub m a n b k : valid m a n -> a <= b -> b + k <= a + n -> valid m b k.
Proof. intros H ?? x ?. apply H. lia. Qed.

#[global] Instance valid_proper : Proper (same_dom ==> eq ==> eq ==> iff) valid.
Proof.
  intros m m' H a _ <- n _ <-. unfold valid, same_dom in *.
  split; intros Hv x Hx; apply H, Hv, Hx.
Qed.

Lemma load8_ok m a b : m !! a = Some b -> load8 m a = Ret b.
Proof. unfold load8. by intros ->. Qed.

Lemma load8_Ret m a b : load8 m a = Ret b <-> m !! a = Some b.
Proof. unfold load8. destruct (m !! a); split; congruence. Qed.

Lemma store8_ok m a v :
  is_Some (m !! a) ->
  store8 m a v = Ret (<[a := v]> m) /\ same_dom m (<[a := v]> m).
Proof.
  intros [b Hb]. unfold store8. rewrite Hb. split; [done|]. intros x.
  rewrite lookup_insert. case_decide as E; [|done]. subst. split; eauto.
Qed.

#[export] Hint Resolve valid_sub : mcs.

(** ** Little-endian words *)

Lemma le_load_ext (n : nat) : forall m m' a,
  (forall x, a <= x < a + Z.of_nat n -> m' !! x = m !! x) -> le_load n m' a = le_load n m a.
Proof.
  induction n as [|n IH]; intros m m' a H; [done|]. cbn. unfold load8.
  rewrite (H a) by lia. destruct (m !! a); [|done]. cbn.
  rewrite (IH m m'); [done|]. intros x Hx. apply H. lia.
Qed.

Lemma le_store_spec (n : nat) : forall m a v,
  valid m a (Z.of_nat n) -> 0 <= v < 256 ^ Z.of_nat n ->
  exists m', le_store n m a v = Ret m' /\ le_load n m' a = Ret v /\
    same_dom m m' /\ agree_outside m m' a (Z.of_nat n).
Proof.
  induction n as [|n IH]; intros m a v Hval Hv.
  - exists m. cbn in *. replace v with 0 by lia. by split_and!.
  - cbn [le_store le_load]. rewrite Nat2Z.inj_succ, Z.pow_succ_r in Hv by lia.
    destruct (store8_ok m a (v mod 256)) as [-> Hd]; [apply Hval; lia|]. cbn [mbind exec_bind].
    destruct (IH (<[a := v mod 256]> m) (a + 1) (v / 256)) as (m' & -> & Hl & Hd' & Ha).
    + rewrite <- Hd. eapply valid_sub; [exact Hval|lia|lia].
    + split; [apply Z.div_pos; lia|]. apply Z.div_lt_upper_bound; lia.
    + exists m'. split; [done|]. split_and!.
      * unfold load8. rewrite Ha by lia. rewrite lookup_insert_eq. cbn [mbind exec_bind].
        rewrite Hl. cbn. f_equal. pose proof (Z.div_mod v 256). lia.
      * by transitivity (<[a := v mod 256]> m).
      * intros x Hx. rewrite Ha by lia. by rewrite lookup_insert_ne by lia.
Qed.

Lemma load64_ext m m' a :
  (forall x, a <= x < a + 8 -> m' !! x = m !! x) -> load64 m' a = load64 m a.
Proof. intros H. by apply (le_load_ext 8). Qed.

Lemma store64_spec m a v :
  valid m a 8 -> is_u64 v ->
  exists m', store64 m a v = Ret m' /\ load64 m' a = Ret v /\
    same_dom m m' /\ agree_outside m m' a 8.
Proof. intros H1 H2. by apply (le_store_spec 8). Qed.

Lemma store8_spec m a v :
  valid m a 1 ->
  exists m', store8 m a v = Ret m' /\ load8 m' a = Ret v /\
    same_dom m m' /\ agree_outside m m' a 1.
Proof.
  intros H. destruct (store8_ok m a v) as [-> Hd]; [apply H; lia|].
  exists (<[a := v]> m). split_and!; [done| |done|].
  - apply load8_ok, lookup_insert_eq.
  - intros x Hx. apply lookup_insert_ne. lia.
Qed.

(** ** The copy loops *)

(** Copying upwards is an all-at-once copy unless the destination starts inside the source. *)
Lemma copy_up_spec c : forall m d s,
  valid m d (Z.of_nat c) -> valid m s (Z.of_nat c) -> d <= s \/ s + Z.of_nat c <= d ->
  exists m', copy_up c m d s = Ret m' /\ copied m m' d s (Z.of_nat c).
Proof.
  induction c as [|c IH]; intros m d s Hd Hs Hov.
  - exists m. split; [done|]. intros x.
    destruct (Z.leb_spec d x), (Z.ltb_spec x (d + Z.of_nat 0)); cbn; (done || lia).
  - cbn [copy_up]. destruct (Hs s ltac:(lia)) as [b Hb].
    rewrite (load8_ok m s b Hb). cbn [mbind exec_bind].
    destruct (store8_ok m d b) as [-> Hdom]; [apply Hd; lia|]. cbn [mbind exec_bind].
    destruct (IH (<[d := b]> m) (d + 1) (s + 1)) as (m' & -> & Hc);
      [rewrite <- Hdom; apply (valid_sub _ _ _ _ _ Hd); lia
      |rewrite <- Hdom; apply (valid_sub _ _ _ _ _ Hs); lia|lia|].
    exists m'. split; [done|]. intros x. rewrite Hc.
    destruct (Z.leb_spec (d + 1) x), (Z.leb_spec d x), (Z.ltb_spec x (d + 1 + Z.of_nat c)),
      (Z.ltb_spec x (d + Z.of_nat (S c))); cbn; try lia.
    + rewrite lookup_insert_ne by lia. f_equal. lia.
    + by rewrite lookup_insert_ne by lia.
    + replace x with d by lia. rewrite lookup_insert_eq, <- Hb. f_equal. lia.
    + by rewrite lookup_insert_ne by lia.
Qed.

(** Copying downwards is unless the source starts inside the destination. *)
Lemma copy_down_spec c : forall m d s,
  valid m (d - Z.of_nat c) (Z.of_nat c) -> valid m (s - Z.of_nat c) (Z.of_nat c) ->
  s <= d \/ d + Z.of_nat c <= s ->
  exists m', copy_down c m d s = Ret m' /\
    copied m m' (d - Z.of_nat c) (s - Z.of_nat c) (Z.of_nat c).
Proof.
  induction c as [|c IH]; intros m d s Hd Hs Hov.
  - exists m. split; [done|]. intros x.
    destruct (Z.leb_spec (d - Z.of_nat 0) x), (Z.ltb_spec x (d - Z.of_nat 0 + Z.of_nat 0));
      cbn; (done || lia).
  - cbn [copy_down]. destruct (Hs (s - 1) ltac:(lia)) as [b Hb].
    rewrite (load8_ok m (s - 1) b Hb). cbn [mbind exec_bind].
    destruct (store8_ok m (d - 1) b) as [-> Hdom]; [apply Hd; lia|]. cbn [mbind exec_bind].
    destruct (IH (<[d - 1 := b]> m) (d - 1) (s - 1)) as (m' & -> & Hc);
      [rewrite <- Hdom; apply (valid_sub _ _ _ _ _ Hd); lia
      |rewrite <- Hdom; apply (valid_sub _ _ _ _ _ Hs); lia|lia|].
    exists m'. split; [done|]. intros x. rewrite Hc.
    replace (d - 1 - Z.of_nat c) with (d - Z.of_nat (S c)) by lia.
    replace (s - 1 - Z.of_nat c) with (s - Z.of_nat (S c)) by lia.
    destruct (Z.leb_spec (d - Z.of_nat (S c)) x),
      (Z.ltb_spec x (d - Z.of_nat (S c) + Z.of_nat c)),
      (Z.ltb_spec x (d - Z.of_nat (S c) + Z.of_nat (S c))); cbn; try lia.
    + by rewrite lookup_insert_ne by lia.
    + replace x with (d - 1) by lia. rewrite lookup_insert_eq, <- Hb. f_equal. lia.
    + by rewrite lookup_insert_ne by lia.
    + by rewrite lookup_insert_ne by lia.
Qed.

Lemma set_up_spec c : forall m d v,
  valid m d (Z.of_nat c) ->
  exists m', set_up c m d v = Ret m' /\ same_dom m m' /\
    forall x, m' !! x = if (d <=? x) && (x <? d + Z.of_nat c) then Some v else m !! x.
Proof.
  induction c as [|c IH]; intros m d v Hd.
  - exists m. split_and!; [done|done|]. intros x.
    destruct (Z.leb_spec d x), (Z.ltb_spec x (d + Z.of_nat 0)); cbn; (done || lia).
  - cbn [set_up]. destruct (store8_ok m d v) as [-> Hdom]; [apply Hd; lia|]. cbn [mbind exec_bind].
    destruct (IH (<[d := v]> m) (d + 1) v) as (m' & -> & Hd' & Hc);
      [rewrite <- Hdom; eapply valid_sub; eauto; lia|].
    exists m'. split_and!; [done|by transitivity (<[d := v]> m)|]. intros x. rewrite Hc.
    destruct (Z.leb_spec (d + 1) x), (Z.leb_spec d x), (Z.ltb_spec x (d + 1 + Z.of_nat c)),
      (Z.ltb_spec x (d + Z.of_nat (S c))); cbn; try done; try lia.
    + by rewrite lookup_insert_ne by lia.
    + replace x with d by lia. by rewrite lookup_insert_eq.
    + by rewrite lookup_insert_ne by lia.
Qed.

Lemma memmove_total m dest src count :
  0 <= count -> valid m dest count -> valid m src count ->
  exists m', memmove m dest src count = Ret (m', dest) /\ copied m m' dest src count.
Proof.
  intros Hc Hd Hs. unfold memmove. rewrite <- (Z2Nat.id count) in Hd, Hs by done.
  destruct (Z.eqb_spec dest src) as [->|Hne]; cbn.
  { exists m. split; [done|]. intros x. case_test; [|done]. f_equal. lia. }
  destruct (Z.eqb_spec count 0) as [->|Hn0].
  { exists m. split; [done|]. intros x.
    destruct (Z.leb_spec dest x), (Z.ltb_spec x (dest + 0)); cbn; (done || lia). }
  destruct (Z.ltb_spec dest src).
  - destruct (copy_up_spec (Z.to_nat count) m dest src Hd Hs) as (m' & -> & H'); [lia|].
    rewrite Z2Nat.id in H' by done. by exists m'.
  - destruct (copy_down_spec (Z.to_nat count) m (dest + count) (src + count))
      as (m' & -> & H'); rewrite ?Z2Nat.id in * by done.
    + by replace (dest + count - count) with dest by lia.
    + by replace (src + count - count) with src by lia.
    + lia.
    + exists m'. split; [done|]. by replace (dest + count - count) with dest in H' by lia;
        replace (src + count - count) with src in H' by lia.
Qed.

(** ** The theorems *)

(** C18: [memmove] copies correctly whatever the overlap: when both ranges are mapped it never
    faults, returns its destination, and the resulting memory is the old one with the source
    bytes, as they were before the call, at the destination. *)
Theorem memmove_copies m dest src count :
  0 <= count -> valid m dest count -> valid m src count ->
  exists m', memmove m dest src count = Ret (m', dest) /\ copied m m' dest src count.
Proof. apply memmove_total. Qed.

(** C19: on ranges that do not overlap, and on ranges that overlap with the destination first,
    [memcpy] is [memmove]. *)
Theorem memcpy_is_memmove m dest src count :
  0 <= count -> valid m dest count -> valid m src count ->
  dest <= src \/ src + count <= dest ->
  memcpy m dest src count = memmove m dest src count.
Proof.
  intros Hc Hd Hs Hov.
  assert (exists m', memcpy m dest src count = Ret (m', dest) /\ copied m m' dest src count)
    as (m1 & -> & H1).
  { unfold memcpy. rewrite <- (Z2Nat.id count) in Hd, Hs, Hov by done.
    destruct (copy_up_spec (Z.to_nat count) m dest src Hd Hs Hov) as (m' & -> & H').
    rewrite Z2Nat.id in H' by done. by exists m'. }
  destruct (memmove_total m dest src count Hc Hd Hs) as (m2 & -> & H2).
  do 2 f_equal. apply map_eq. intros x. by rewrite H1, H2.
Qed.

(** [memset] fills exactly the range with the low byte of its argument. *)
Theorem memset_fills m dest value count :
  0 <= count -> valid m dest count ->
  exists m', memset m dest value count = Ret (m', dest) /\
    forall x, m' !! x = if (dest <=? x) && (x <? dest + count) then Some (value mod 256)
                        else m !! x.
Proof.
  intros Hc Hd. unfold memset. rewrite <- (Z2Nat.id count) in Hd by done.
  destruct (set_up_spec (Z.to_nat count) m dest (u8 value) Hd) as (m' & -> & _ & H).
  rewrite Z2Nat.id in H by done. by exists m'.
Qed.

(** ** Concrete runs *)

(** Ten bytes at address 100. *)
Definition demo_mem : mem := list_to_map (zip (seqZ 100 10) (seqZ 0 10)).

Lemma demo_mem_valid a n : 100 <= a -> a + n <= 110 -> valid demo_mem a n.
Proof.
  intros ?? x Hx. unfold demo_mem. apply elem_of_dom. rewrite dom_list_to_map_L.
  rewrite fst_zip by by_compute. apply elem_of_list_to_set, elem_of_seqZ. lia.
Qed.

Lemma memmove_copies_witness :
  exists m', memmove demo_mem 102 100 6 = Ret (m', 102) /\ m' !! 107 = Some 5.
Proof.
  destruct (memmove_copies demo_mem 102 100 6) as (m' & H1 & H2);
    [lia|apply demo_mem_valid; lia..|].
  exists m'. split; [done|]. rewrite H2. by_compute.
Defined.

Lemma memcpy_is_memmove_witness : memcpy demo_mem 100 103 5 = memmove demo_mem 100 103 5.
Proof. apply memcpy_is_memmove; [lia|apply demo_mem_valid; lia..|lia]. Defined.

Lemma memset_fills_witness :
  exists m', memset demo_mem 101 0x1FF 3 = Ret (m', 101) /\ m' !! 103 = Some 255.
Proof.
  destruct (memset_fills demo_mem 101 0x1FF 3) as (m' & H1 & H2); [lia|apply demo_mem_valid; lia|].
  exists m'. split; [done|]. by rewrite H2.
Defined.
