(* ===== verification/Pmm.v ===== *)
(** * Physical memory manager (kernel/core/pmm.c)

    A bitmap of page frames, a set bit for a frame in use.  The model keeps the bitmap as the
    byte array it is; the abstraction is the set of free frames, which every operation is
    shown to refine. *)

From S2P Require Import Prelude Bytes.

(** ** Data *)

Definition PMM_PAGE_SIZE : Z := 4096.
Definition PMM_INVALID_FRAME : Z := 0xffffffffffffffff.
Definition PMM_REGION_USABLE : Z := 1.
Definition PMM_REGION_RESERVED : Z := 2.
Definition PMM_MAX_PHYS_BYTES : Z := 64 * 1024 * 1024.
Definition PMM_BITMAP_BYTES : Z := (PMM_MAX_PHYS_BYTES / PMM_PAGE_SIZE) / 8.

Record boot_mem_region : Type := mk_region {
  base : Z;
  length_ : Z;
  type_ : Z
}.

(** The pointer [bitmap] is the array it points at; the null pointer, like the empty array,
    faults on every access. *)
Record pmm_state : Type := mk_pmm {
  bitmap : list Z;
  frame_count : Z;
  free_frames : Z;
  used_frames : Z;
  next_hint : Z;
  initialized : bool
}.

(** ** Operations *)

Definition bitmap_set (bm : list Z) (bit : Z) : exec (list Z) :=
  b ← arr_get bm (bit / 8);
  arr_set bm (bit / 8) (u8 (Z.lor b (u32 (Z.shiftl 1 (bit mod 8))))).

Definition bitmap_clear (bm : list Z) (bit : Z) : exec (list Z) :=
  b ← arr_get bm (bit / 8);
  arr_set bm (bit / 8) (u8 (Z.land b (u32 (Z.lnot (u32 (Z.shiftl 1 (bit mod 8))))))).

Definition bitmap_test (bm : list Z) (bit : Z) : exec bool :=
  b ← arr_get bm (bit / 8);
  Ret (negb (Z.land b (u32 (Z.shiftl 1 (bit mod 8))) =? 0)).

Definition pmm_zero_state (_ : pmm_state) : pmm_state :=
  mk_pmm [] 0 0 0 0 false.

(** The two halves of the accounting that follows every bit change. *)
Definition take_frame (p : pmm_state) (bm : list Z) : pmm_state :=
  mk_pmm bm (frame_count p) (u64 (free_frames p - 1)) (u64 (used_frames p + 1))
    (next_hint p) (initialized p).

Definition give_frame (p : pmm_state) (bm : list Z) : pmm_state :=
  mk_pmm bm (frame_count p) (u64 (free_frames p + 1)) (u64 (used_frames p - 1))
    (next_hint p) (initialized p).

(** The body of the inner loop of [pmm_init_from_map]: one frame of a usable region. *)
Definition init_release_frame (start i : Z) (p : pmm_state) : exec (flow pmm_state unit) :=
  let frame := u64 (start + i) in
  if frame_count p <=? frame then Ret (Exit p tt)
  else
    t ← bitmap_test (bitmap p) frame;
    if t : bool then bm ← bitmap_clear (bitmap p) frame; Ret (Next (give_frame p bm))
    else Ret (Next p).

(** The body of the outer loop: one entry of the boot map. *)
Definition init_region (regions : list boot_mem_region) (r : Z) (p : pmm_state)
  : exec pmm_state :=
  reg ← arr_get regions r;
  if negb (type_ reg =? PMM_REGION_USABLE) then Ret p
  else
    let start := base reg / PMM_PAGE_SIZE in
    let count := length_ reg / PMM_PAGE_SIZE in
    f ← for_loop (Z.to_nat count) 0 (init_release_frame start) p;
    Ret (flow_state f).

Definition pmm_init_from_map (p0 : pmm_state) (regions : list boot_mem_region)
    (region_count : Z) (bitmap_storage : list Z) (bitmap_size max_phys_bytes : Z)
  : exec (pmm_state * bool) :=
  let z := pmm_zero_state p0 in
  let fc := max_phys_bytes / PMM_PAGE_SIZE in
  bm ← for_state (Z.to_nat (fc / 8)) 0 (fun i b => arr_set b i 0xFF) bitmap_storage;
  let p1 := mk_pmm bm fc 0 fc (next_hint z) (initialized z) in
  p2 ← for_state (Z.to_nat region_count) 0 (init_region regions) p1;
  bm0 ← bitmap_set (bitmap p2) 0;
  let p3 := take_frame p2 bm0 in
  Ret (mk_pmm (bitmap p3) (frame_count p3) (free_frames p3) (used_frames p3)
         (next_hint p3) true, true).

Definition pmm_alloc_frame (p : pmm_state) : exec (pmm_state * Z) :=
  f ← for_loop (Z.to_nat (frame_count p)) 0
        (fun i q =>
           t ← bitmap_test (bitmap q) i;
           if negb t then
             bm ← bitmap_set (bitmap q) i;
             Ret (Exit (take_frame q bm) (u64 (i * PMM_PAGE_SIZE)))
           else Ret (Next q)) p;
  Ret (match f with Exit q r => (q, r) | Next q => (q, PMM_INVALID_FRAME) end).

Definition pmm_free_frame (p : pmm_state) (phys : Z) : exec (pmm_state * bool) :=
  if negb (Z.land phys (PMM_PAGE_SIZE - 1) =? 0) then Ret (p, false)
  else
    let frame := phys / PMM_PAGE_SIZE in
    if frame_count p <=? frame then Ret (p, false)
    else
      t ← bitmap_test (bitmap p) frame;
      if negb t then Ret (p, false)
      else bm ← bitmap_clear (bitmap p) frame; Ret (give_frame p bm, true).

(** The body of the loop of [pmm_reserve_range]. *)
Definition reserve_frame (start i : Z) (p : pmm_state) : exec (flow pmm_state unit) :=
  let frame := u64 (start + i) in
  if frame_count p <=? frame then Ret (Exit p tt)
  else
    t ← bitmap_test (bitmap p) frame;
    if negb t then bm ← bitmap_set (bitmap p) frame; Ret (Next (take_frame p bm))
    else Ret (Next p).

Definition pmm_reserve_range (p : pmm_state) (rbase rlength : Z) : exec (pmm_state * bool) :=
  let start := rbase / PMM_PAGE_SIZE in
  let count := rlength / PMM_PAGE_SIZE in
  f ← for_loop (Z.to_nat count) 0 (reserve_frame start) p;
  Ret (flow_state f, true).

Definition pmm_is_frame_free (p : pmm_state) (phys : Z) : exec bool :=
  let frame := phys / PMM_PAGE_SIZE in
  if frame_count p <=? frame then Ret false
  else t ← bitmap_test (bitmap p) frame; Ret (negb t).

Definition pmm_free_count (p : pmm_state) : Z := free_frames p.
Definition pmm_used_count (p : pmm_state) : Z := used_frames p.
Definition pmm_frame_count (p : pmm_state) : Z := frame_count p.

(** [n] allocations in a row, with the addresses they return. *)
Fixpoint alloc_many (n : nat) (p : pmm_state) : exec (pmm_state * list Z) :=
  match n with
  | O => Ret (p, [])
  | S n' =>
      '(p1, r) ← pmm_alloc_frame p;
      '(p2, rs) ← alloc_many n' p1;
      Ret (p2, r :: rs)
  end.

(** ** Abstraction: the set of free frames *)

Definition bit_at (bm : list Z) (f : Z) : bool :=
  match arr_get bm (f / 8) with
  | Ret b => Z.testbit b (f mod 8)
  | Fault _ => false
  end.

Definition free_set (p : pmm_state) : gset Z :=
  list_to_set (filter (fun f => bit_at (bitmap p) f = false) (seqZ 0 (frame_count p))).

Record pmm_wf (p : pmm_state) : Prop := {
  wf_bytes : bytes (bitmap p);
  wf_room : frame_count p <= 8 * zlen (bitmap p);
  wf_count : 0 <= frame_count p < 2 ^ 52
}.

#[global] Instance region_eq_dec : EqDecision boot_mem_region.
Proof. solve_decision. Defined.
#[global] Instance pmm_state_eq_dec : EqDecision pmm_state.
Proof. solve_decision. Defined.

(** The counters are the true ones, up to a constant [k] that no operation changes. *)
Definition pmm_acct (p : pmm_state) (k : Z) : Prop :=
  free_frames p = u64 (Z.of_nat (size (free_set p)) - k) /\
  used_frames p = u64 (frame_count p - Z.of_nat (size (free_set p)) + k).

#[global] Instance pmm_acct_dec p k : Decision (pmm_acct p k).
Proof. unfold pmm_acct. apply _. Defined.

(** The frames a page-aligned reading of [\[rbase, rbase + rlength)] names. *)
Definition range_frames (rbase rlength : Z) : gset Z :=
  list_to_set (seqZ (rbase / PMM_PAGE_SIZE) (rlength / PMM_PAGE_SIZE)).

Definition frame_space (n : Z) : gset Z := list_to_set (seqZ 0 n).

(** The frames the boot map declares usable. *)
Fixpoint usable_frames (regions : list boot_mem_region) : gset Z :=
  match regions with
  | [] => ∅
  | r :: rs =>
      (if type_ r =? PMM_REGION_USABLE then range_frames (base r) (length_ r) else ∅)
        ∪ usable_frames rs
  end.

(** ** Bits *)

Lemma shifted_bit k j : 0 <= k < 8 -> 0 <= j -> Z.testbit (u32 (Z.shiftl 1 k)) j = (j =? k).
Proof.
  intros Hk Hj. unfold u32. rewrite Z.shiftl_1_l, Z.mod_small.
  - rewrite Z.pow2_bits_eqb by lia. apply Z.eqb_sym.
  - split; [apply Z.pow_nonneg; lia|]. apply Z.pow_lt_mono_r; lia.
Qed.

Lemma u8_testbit z j : 0 <= j < 8 -> Z.testbit (u8 z) j = Z.testbit z j.
Proof. intros. unfold u8. apply Z.mod_pow2_bits_low. lia. Qed.

Lemma u32_testbit z j : 0 <= j < 32 -> Z.testbit (u32 z) j = Z.testbit z j.
Proof. intros. unfold u32. apply Z.mod_pow2_bits_low. lia. Qed.

Lemma div8_range n f : 0 <= f < 8 * n -> 0 <= f / 8 < n.
Proof. intros. split; [apply Z.div_pos; lia|]. apply Z.div_lt_upper_bound; lia. Qed.

Lemma mod8_range f : 0 <= f mod 8 < 8.
Proof. apply Z.mod_pos_bound. lia. Qed.

Lemma bitmap_test_spec bm f :
  0 <= f < 8 * zlen bm -> bitmap_test bm f = Ret (bit_at bm f).
Proof.
  intros Hf. unfold bitmap_test, bit_at.
  destruct (arr_get_ok bm (f / 8)) as [b ->]; [by apply div8_range|]. simpl. f_equal.
  pose proof (mod8_range f) as Hm.
  destruct (Z.testbit b (f mod 8)) eqn:E.
  - apply negb_true_iff, Z.eqb_neq. intros H0.
    apply (f_equal (fun z => Z.testbit z (f mod 8))) in H0.
    rewrite Z.land_spec, E, shifted_bit, Z.eqb_refl, Z.bits_0 in H0 by lia. discriminate.
  - apply negb_false_iff, Z.eqb_eq. apply Z.bits_inj'. intros j Hj.
    rewrite Z.land_spec, shifted_bit, Z.bits_0 by lia.
    destruct (Z.eqb_spec j (f mod 8)) as [->|]; [by rewrite E|apply andb_false_r].
Qed.

(** Writing byte [f / 8] so that only its bit [f mod 8] changes changes only bit [f]. *)
Lemma bit_at_update bm f b b' (v : bool) :
  0 <= f < 8 * zlen bm -> arr_get bm (f / 8) = Ret b ->
  (forall j, 0 <= j < 8 -> Z.testbit b' j = if j =? f mod 8 then v else Z.testbit b j) ->
  forall g, 0 <= g ->
    bit_at (<[Z.to_nat (f / 8) := b']> bm) g = if g =? f then v else bit_at bm g.
Proof.
  intros Hf Hb Hbits g Hg. unfold bit_at. pose proof (div8_range _ _ Hf).
  pose proof (mod8_range g). pose proof (Z.div_mod f 8). pose proof (Z.div_mod g 8).
  rewrite arr_get_insert by done. destruct (Z.eqb_spec (f / 8) (g / 8)) as [E|Hne].
  - rewrite Hbits by done. rewrite <- E, Hb.
    destruct (Z.eqb_spec (g mod 8) (f mod 8)), (Z.eqb_spec g f); try done; exfalso; [lia|subst; lia].
  - destruct (Z.eqb_spec g f) as [->|]; [done|done].
Qed.

Lemma bytes_insert bm (k : nat) b : bytes bm -> is_u8 b -> bytes (<[k := b]> bm).
Proof. intros. by apply Forall_insert. Qed.

Lemma bitmap_set_spec bm f :
  0 <= f < 8 * zlen bm -> bytes bm ->
  exists bm', bitmap_set bm f = Ret bm' /\ zlen bm' = zlen bm /\ bytes bm' /\
    forall g, 0 <= g -> bit_at bm' g = if g =? f then true else bit_at bm g.
Proof.
  intros Hf Hbm. pose proof (div8_range _ _ Hf). pose proof (mod8_range f).
  unfold bitmap_set. destruct (arr_get_ok bm (f / 8)) as [b Hb]; [done|]. rewrite Hb. simpl.
  rewrite arr_set_ok by done. eexists. split; [done|]. rewrite zlen_insert.
  split; [done|]. split; [by apply bytes_insert; auto with mcs|].
  apply (bit_at_update _ _ b); [done..|]. intros j Hj.
  rewrite u8_testbit, Z.lor_spec, shifted_bit by lia.
  destruct (j =? f mod 8); [apply orb_true_r|apply orb_false_r].
Qed.

Lemma bitmap_clear_spec bm f :
  0 <= f < 8 * zlen bm -> bytes bm ->
  exists bm', bitmap_clear bm f = Ret bm' /\ zlen bm' = zlen bm /\ bytes bm' /\
    forall g, 0 <= g -> bit_at bm' g = if g =? f then false else bit_at bm g.
Proof.
  intros Hf Hbm. pose proof (div8_range _ _ Hf). pose proof (mod8_range f).
  unfold bitmap_clear. destruct (arr_get_ok bm (f / 8)) as [b Hb]; [done|]. rewrite Hb. simpl.
  rewrite arr_set_ok by done. eexists. split; [done|]. rewrite zlen_insert.
  split; [done|]. split; [by apply bytes_insert; auto with mcs|].
  apply (bit_at_update _ _ b); [done..|]. intros j Hj.
  rewrite u8_testbit, Z.land_spec, u32_testbit, Z.lnot_spec, shifted_bit by lia.
  destruct (j =? f mod 8); [apply andb_false_r|apply andb_true_r].
Qed.

(** ** The free set under a change of one bit *)

Lemma elem_of_free_set p f :
  f ∈ free_set p <-> 0 <= f < frame_count p /\ bit_at (bitmap p) f = false.
Proof.
  unfold free_set. rewrite elem_of_list_to_set, list_elem_of_filter, elem_of_seqZ.
  split; intros [? ?]; split; (done || lia).
Qed.

Lemma elem_of_range_frames b l f :
  f ∈ range_frames b l <-> b / PMM_PAGE_SIZE <= f < b / PMM_PAGE_SIZE + l / PMM_PAGE_SIZE.
Proof. unfold range_frames. by rewrite elem_of_list_to_set, elem_of_seqZ. Qed.

Lemma elem_of_frame_space n f : f ∈ frame_space n <-> 0 <= f < n.
Proof. unfold frame_space. rewrite elem_of_list_to_set, elem_of_seqZ. lia. Qed.

(** Clearing bit [f] adds [f] to the free set, setting it removes [f]. *)
Lemma free_set_clear p q f :
  frame_count q = frame_count p -> 0 <= f < frame_count p ->
  (forall g, 0 <= g -> bit_at (bitmap q) g = if g =? f then false else bit_at (bitmap p) g) ->
  free_set q = {[f]} ∪ free_set p.
Proof.
  intros Hc Hf Hbit. apply set_eq. intros g.
  rewrite elem_of_union, elem_of_singleton, !elem_of_free_set, Hc.
  destruct (decide (0 <= g)); [|naive_solver lia]. rewrite Hbit by done.
  destruct (Z.eqb_spec g f); naive_solver.
Qed.

Lemma free_set_mark p q f :
  frame_count q = frame_count p -> 0 <= f < frame_count p ->
  (forall g, 0 <= g -> bit_at (bitmap q) g = if g =? f then true else bit_at (bitmap p) g) ->
  free_set q = free_set p ∖ {[f]}.
Proof.
  intros Hc Hf Hbit. apply set_eq. intros g.
  rewrite elem_of_difference, elem_of_singleton, !elem_of_free_set, Hc.
  destruct (decide (0 <= g)); [|naive_solver lia]. rewrite Hbit by done.
  destruct (Z.eqb_spec g f); naive_solver.
Qed.

(** ** The two accounting steps *)

Lemma take_frame_ok p f k :
  pmm_wf p -> pmm_acct p k -> f ∈ free_set p ->
  exists bm, bitmap_set (bitmap p) f = Ret bm /\
    pmm_wf (take_frame p bm) /\ pmm_acct (take_frame p bm) k /\
    free_set (take_frame p bm) = free_set p ∖ {[f]}.
Proof.
  intros [Hby Hroom Hcnt] [Hfr Hus] Hin.
  pose proof Hin as [Hf _]%elem_of_free_set.
  destruct (bitmap_set_spec (bitmap p) f) as (bm & -> & Hlen & Hby' & Hbit); [lia|done|].
  exists bm. split; [done|].
  assert (free_set (take_frame p bm) = free_set p ∖ {[f]}) as Hfs
    by (by apply free_set_mark).
  split; [by constructor; simpl; rewrite ?Hlen|]. split; [|done].
  unfold pmm_acct. rewrite Hfs. simpl.
  assert (size (free_set p ∖ {[f]}) = (size (free_set p) - 1)%nat) as ->.
  { rewrite size_difference; [by rewrite size_singleton|set_solver]. }
  assert (size ({[f]} : gset Z) <= size (free_set p))%nat as Hpos
    by (apply subseteq_size; set_solver).
  rewrite size_singleton in Hpos.
  rewrite Nat2Z.inj_sub by lia. unfold u64 in *.
  rewrite Hfr, Hus, Zminus_mod_idemp_l, Zplus_mod_idemp_l.
  split; f_equal; lia.
Qed.

Lemma give_frame_ok p f k :
  pmm_wf p -> pmm_acct p k -> 0 <= f < frame_count p -> f ∉ free_set p ->
  exists bm, bitmap_clear (bitmap p) f = Ret bm /\
    pmm_wf (give_frame p bm) /\ pmm_acct (give_frame p bm) k /\
    free_set (give_frame p bm) = {[f]} ∪ free_set p.
Proof.
  intros [Hby Hroom Hcnt] [Hfr Hus] Hf Hin.
  destruct (bitmap_clear_spec (bitmap p) f) as (bm & -> & Hlen & Hby' & Hbit); [lia|done|].
  exists bm. split; [done|].
  assert (free_set (give_frame p bm) = {[f]} ∪ free_set p) as Hfs
    by (by apply free_set_clear).
  split; [by constructor; simpl; rewrite ?Hlen|]. split; [|done].
  unfold pmm_acct. rewrite Hfs. simpl.
  rewrite size_union, size_singleton by set_solver.
  rewrite Nat2Z.inj_add. unfold u64 in *.
  rewrite Hfr, Hus, Zplus_mod_idemp_l, Zminus_mod_idemp_l.
  split; f_equal; lia.
Qed.

Lemma test_free p f :
  pmm_wf p -> 0 <= f < frame_count p ->
  bitmap_test (bitmap p) f = Ret (negb (bool_decide (f ∈ free_set p))).
Proof.
  intros [_ Hroom _] Hf. rewrite bitmap_test_spec by lia. f_equal.
  destruct (bit_at (bitmap p) f) eqn:E; symmetry.
  - apply negb_true_iff, bool_decide_eq_false. intros [_ ?]%elem_of_free_set. congruence.
  - apply negb_false_iff, bool_decide_eq_true. by apply elem_of_free_set.
Qed.

(** ** Allocation *)

Definition taken (p : pmm_state) (f : Z) : pmm_state :=
  match bitmap_set (bitmap p) f with
  | Ret bm => take_frame p bm
  | Fault _ => p
  end.

Lemma alloc_frame_search p k :
  pmm_wf p -> pmm_acct p k ->
  pmm_alloc_frame p
  = Ret match find_first (fun f => bool_decide (f ∈ free_set p))
                (Z.to_nat (frame_count p)) 0 with
        | Some f => (taken p f, f * PMM_PAGE_SIZE)
        | None => (p, PMM_INVALID_FRAME)
        end.
Proof.
  intros Hwf Hac. unfold pmm_alloc_frame.
  rewrite (for_loop_search (fun f => bool_decide (f ∈ free_set p)) (taken p)
             (fun f => f * PMM_PAGE_SIZE)).
  - simpl. by destruct (find_first _ _ _).
  - intros j Hj. rewrite test_free by (done || lia). simpl.
    case_bool_decide as Hin; simpl; [|done].
    destruct (take_frame_ok p j k Hwf Hac Hin) as (bm & Hbm & _).
    unfold taken. rewrite Hbm. simpl. f_equal. f_equal.
    apply u64_small. unfold is_u64, PMM_PAGE_SIZE. destruct Hwf. lia.
Qed.

Lemma alloc_frame_cases p k :
  pmm_wf p -> pmm_acct p k ->
  (exists f p', f ∈ free_set p /\ (forall g, g ∈ free_set p -> f <= g) /\
     pmm_alloc_frame p = Ret (p', f * PMM_PAGE_SIZE) /\
     free_set p' = free_set p ∖ {[f]} /\
     frame_count p' = frame_count p /\ pmm_wf p' /\ pmm_acct p' k)
  \/ (free_set p = ∅ /\ pmm_alloc_frame p = Ret (p, PMM_INVALID_FRAME)).
Proof.
  intros Hwf Hac. rewrite (alloc_frame_search p k) by done.
  destruct (find_first _ _ _) as [f|] eqn:E.
  - apply find_first_Some in E as (Hf & Hin & Hmin). apply bool_decide_eq_true in Hin.
    destruct (take_frame_ok p f k Hwf Hac Hin) as (bm & Hbm & Hwf' & Hac' & Hfs).
    left. exists f, (taken p f). unfold taken. rewrite Hbm. split_and!; try done.
    intros g Hg. destruct (decide (f <= g)); [done|].
    pose proof Hg as [? _]%elem_of_free_set. specialize (Hmin g ltac:(lia)).
    by apply bool_decide_eq_false in Hmin.
  - right. split; [|done]. rewrite find_first_None in E.
    apply set_eq. intros f. rewrite elem_of_empty. split; [|done]. intros Hf.
    pose proof Hf as [? _]%elem_of_free_set.
    specialize (E f ltac:(lia)). by apply bool_decide_eq_false in E.
Qed.

(** Every further allocation comes from what is still free. *)
Lemma alloc_many_spec n : forall p k,
  pmm_wf p -> pmm_acct p k -> (n <= size (free_set p))%nat ->
  exists p' rs, alloc_many n p = Ret (p', rs) /\ length rs = n /\
    pmm_wf p' /\ pmm_acct p' k /\ frame_count p' = frame_count p /\
    exists fs, rs = map (fun f => f * PMM_PAGE_SIZE) fs /\ NoDup fs /\
      (forall f, f ∈ fs -> f ∈ free_set p) /\ free_set p' = free_set p ∖ list_to_set fs.
Proof.
  induction n as [|n IH]; intros p k Hwf Hac Hn.
  - exists p, []. simpl. split_and!; try done. exists []. split_and!; try done.
    + constructor.
    + set_solver.
    + set_solver.
  - destruct (alloc_frame_cases p k Hwf Hac)
      as [(f & p1 & Hin & _ & Ha & Hfs & Hfc & Hwf1 & Hac1)|[He _]].
    2:{ rewrite He, size_empty in Hn. lia. }
    destruct (IH p1 k Hwf1 Hac1) as (p2 & rs & Hm & Hlen & Hwf2 & Hac2 & Hfc2 & fs & -> & Hnd & Hsub & Hfs2).
    { rewrite Hfs, size_difference, size_singleton by set_solver. lia. }
    exists p2, (f * PMM_PAGE_SIZE :: map (fun f => f * PMM_PAGE_SIZE) fs).
    simpl. rewrite Ha. simpl. rewrite Hm. simpl.
    split_and!; try done; [by f_equal|by rewrite Hfc2|].
    exists (f :: fs). split_and!; [done| | |].
    + apply list.NoDup_cons. split; [|done]. intros Hf%Hsub. set_solver.
    + set_solver.
    + rewrite Hfs2, Hfs. set_solver.
Qed.

(** ** Release *)

Lemma land_page_mask phys : Z.land phys (PMM_PAGE_SIZE - 1) = phys mod PMM_PAGE_SIZE.
Proof. apply (Z.land_ones phys 12). lia. Qed.

Lemma free_frame_cases p k phys :
  pmm_wf p -> pmm_acct p k -> 0 <= phys ->
  (exists f p', phys = f * PMM_PAGE_SIZE /\ 0 <= f < frame_count p /\ (f ∉ free_set p) /\
     pmm_free_frame p phys = Ret (p', true) /\
     free_set p' = {[f]} ∪ free_set p /\
     frame_count p' = frame_count p /\ pmm_wf p' /\ pmm_acct p' k)
  \/ (~ (exists f, phys = f * PMM_PAGE_SIZE /\ 0 <= f < frame_count p /\ (f ∉ free_set p)) /\
      pmm_free_frame p phys = Ret (p, false)).
Proof.
  intros Hwf Hac Hphys. unfold pmm_free_frame. rewrite land_page_mask.
  pose proof (Z.div_mod phys PMM_PAGE_SIZE ltac:(unfold PMM_PAGE_SIZE; lia)) as Hdm.
  pose proof (Z.mod_pos_bound phys PMM_PAGE_SIZE ltac:(unfold PMM_PAGE_SIZE; lia)) as Hmp.
  destruct (Z.eqb_spec (phys mod PMM_PAGE_SIZE) 0) as [Hal|Hal]; simpl.
  2:{ right. split; [|done]. intros (f & -> & _). apply Hal. apply Z.mod_mul. done. }
  assert (forall f, phys = f * PMM_PAGE_SIZE -> f = phys / PMM_PAGE_SIZE) as Huniq.
  { intros f ->. by rewrite Z.div_mul. }
  destruct (Z.leb_spec (frame_count p) (phys / PMM_PAGE_SIZE)) as [Hge|Hlt].
  { right. split; [|done]. intros (f & Hf & ? & _). apply Huniq in Hf. lia. }
  assert (0 <= phys / PMM_PAGE_SIZE) by (apply Z.div_pos; unfold PMM_PAGE_SIZE; lia).
  rewrite test_free by (done || lia). simpl. rewrite negb_involutive.
  case_bool_decide as Hin.
  { right. split; [|done]. intros (f & Hf & _ & Hnin). apply Huniq in Hf. by subst. }
  destruct (give_frame_ok p (phys / PMM_PAGE_SIZE) k) as (bm & -> & Hwf' & Hac' & Hfs);
    [done|done|lia|done|].
  left. exists (phys / PMM_PAGE_SIZE), (give_frame p bm). split_and!; try done; lia.
Qed.

(** ** Ranges of frames *)

(** The two range loops walk up from [start] and stop at the end of memory. *)
Lemma range_loop_inv (body : Z -> pmm_state -> exec (flow pmm_state unit))
    (G : pmm_state -> gset Z -> Prop) p start count :
  (forall q X, G q X -> frame_count q = frame_count p) ->
  G p ∅ -> 0 <= start -> 0 <= count ->
  (forall q X i, G q X -> 0 <= i < count -> frame_count p <= start + i ->
     body i q = Ret (Exit q tt)) ->
  (forall q X i, G q X -> 0 <= i < count -> start + i < frame_count p ->
     exists q', body i q = Ret (Next q') /\ G q' ({[start + i]} ∪ X)) ->
  exists f, for_loop (Z.to_nat count) 0 body p = Ret f /\
    G (flow_state f) (list_to_set (seqZ start count) ∩ frame_space (frame_count p)).
Proof.
  intros Hfc H0 Hstart Hcount Hexit Hnext.
  pose (X i := (list_to_set (seqZ start i) ∩ frame_space (frame_count p)) : gset Z).
  assert (forall i, 0 <= i -> frame_count p <= start + i -> forall j, i <= j -> X j = X i) as Hsat.
  { intros i Hi Hge j Hj. apply set_eq. intros f. unfold X.
    rewrite !elem_of_intersection, !elem_of_list_to_set, !elem_of_seqZ, !elem_of_frame_space. lia. }
  destruct (for_loop_inv (fun i q => G q (X i)) (fun q _ => G q (X count)) body
              (Z.to_nat count) 0 p) as [(q & -> & Hq)|(q & [] & -> & Hq)].
  - assert (X 0 = ∅) as ->; [|done]. apply set_eq. intros f. unfold X.
    rewrite elem_of_intersection, elem_of_list_to_set, elem_of_seqZ. set_solver by lia.
  - intros j q Hj Hq. destruct (decide (start + j < frame_count p)) as [Hlt|Hge].
    + left. destruct (Hnext q (X j) j Hq ltac:(lia) Hlt) as (q' & -> & Hq'). exists q'.
      split; [done|]. assert (X (j + 1) = {[start + j]} ∪ X j) as ->; [|done].
      apply set_eq. intros f. unfold X.
      rewrite elem_of_union, elem_of_singleton, !elem_of_intersection, !elem_of_list_to_set,
        !elem_of_seqZ, !elem_of_frame_space. lia.
    + right. exists q, tt. rewrite (Hexit q (X j) j) by (done || lia).
      split; [done|]. by rewrite (Hsat j) by lia.
  - eexists. split; [done|]. simpl.
    by replace (0 + Z.of_nat (Z.to_nat count)) with count in Hq by lia.
  - eexists. by split.
Qed.

Lemma init_release_ok p k start count :
  pmm_wf p -> pmm_acct p k -> 0 <= start < 2 ^ 52 -> 0 <= count < 2 ^ 52 ->
  exists f, for_loop (Z.to_nat count) 0 (init_release_frame start) p = Ret f /\
    pmm_wf (flow_state f) /\ pmm_acct (flow_state f) k /\
    frame_count (flow_state f) = frame_count p /\
    free_set (flow_state f)
    = free_set p ∪ (list_to_set (seqZ start count) ∩ frame_space (frame_count p)).
Proof.
  intros Hwf Hac Hs Hc.
  pose (G q X := pmm_wf q /\ pmm_acct q k /\ frame_count q = frame_count p /\
                 free_set q = free_set p ∪ X).
  destruct (range_loop_inv (init_release_frame start) G p start count) as (f & Hf & HG);
    [by intros q X (_ & _ & ? & _)| |lia|lia| | |by exists f].
  - unfold G. split_and!; try done. set_solver.
  - intros q X i (_ & _ & Hfc & _) Hi Hge. unfold init_release_frame.
    rewrite u64_small by (unfold is_u64; lia). by rewrite (proj2 (Z.leb_le _ _)) by lia.
  - intros q X i (Hwq & Haq & Hfc & Hfs) Hi Hlt. unfold init_release_frame.
    rewrite u64_small by (unfold is_u64; lia). rewrite (proj2 (Z.leb_gt _ _)) by lia.
    rewrite test_free by (done || lia). simpl. case_bool_decide as Hin; simpl.
    + exists q. split; [done|]. unfold G. split_and!; try done. rewrite Hfs in *. set_solver.
    + destruct (give_frame_ok q (start + i) k) as (bm & -> & Hw' & Ha' & Hfs');
        [done|done|lia|done|].
      eexists. split; [done|]. unfold G. split_and!; try done. rewrite Hfs', Hfs. set_solver.
Qed.

Lemma reserve_ok p k start count :
  pmm_wf p -> pmm_acct p k -> 0 <= start < 2 ^ 52 -> 0 <= count < 2 ^ 52 ->
  exists f, for_loop (Z.to_nat count) 0 (reserve_frame start) p = Ret f /\
    pmm_wf (flow_state f) /\ pmm_acct (flow_state f) k /\
    frame_count (flow_state f) = frame_count p /\
    free_set (flow_state f)
    = free_set p ∖ (list_to_set (seqZ start count) ∩ frame_space (frame_count p)).
Proof.
  intros Hwf Hac Hs Hc.
  pose (G q X := pmm_wf q /\ pmm_acct q k /\ frame_count q = frame_count p /\
                 free_set q = free_set p ∖ X).
  destruct (range_loop_inv (reserve_frame start) G p start count) as (f & Hf & HG);
    [by intros q X (_ & _ & ? & _)| |lia|lia| | |by exists f].
  - unfold G. split_and!; try done. set_solver.
  - intros q X i (_ & _ & Hfc & _) Hi Hge. unfold reserve_frame.
    rewrite u64_small by (unfold is_u64; lia). by rewrite (proj2 (Z.leb_le _ _)) by lia.
  - intros q X i (Hwq & Haq & Hfc & Hfs) Hi Hlt. unfold reserve_frame.
    rewrite u64_small by (unfold is_u64; lia). rewrite (proj2 (Z.leb_gt _ _)) by lia.
    rewrite test_free by (done || lia). simpl. rewrite negb_involutive.
    case_bool_decide as Hin; simpl.
    + destruct (take_frame_ok q (start + i) k Hwq Haq Hin) as (bm & -> & Hw' & Ha' & Hfs').
      eexists. split; [done|]. unfold G. split_and!; try done. rewrite Hfs', Hfs. set_solver.
    + exists q. split; [done|]. unfold G. split_and!; try done. rewrite Hfs in *. set_solver.
Qed.

(** A 64-bit address or length, in pages, is below 2^52. *)
Lemma page_index_range z : is_u64 z -> 0 <= z / PMM_PAGE_SIZE < 2 ^ 52.
Proof.
  intros [? ?]. unfold PMM_PAGE_SIZE. split; [apply Z.div_pos; lia|].
  apply Z.div_lt_upper_bound; lia.
Qed.

(** ** Initialisation *)

Definition region_ok (r : boot_mem_region) : Prop := is_u64 (base r) /\ is_u64 (length_ r).

#[global] Instance region_ok_dec r : Decision (region_ok r).
Proof. unfold region_ok. apply _. Defined.

Lemma init_region_ok regions p k r :
  Forall region_ok regions -> pmm_wf p -> pmm_acct p k -> 0 <= r < zlen regions ->
  exists reg p', arr_get regions r = Ret reg /\ init_region regions r p = Ret p' /\
    pmm_wf p' /\ pmm_acct p' k /\ frame_count p' = frame_count p /\
    free_set p' = free_set p ∪ (usable_frames [reg] ∩ frame_space (frame_count p)).
Proof.
  intros Hregs Hwf Hac Hr. destruct (arr_get_ok regions r Hr) as [reg Hreg].
  destruct (Forall_arr_get _ _ _ _ Hregs Hreg) as [Hb Hl].
  unfold init_region. rewrite Hreg. simpl.
  destruct (type_ reg =? PMM_REGION_USABLE) eqn:Et; simpl.
  - destruct (init_release_ok p k (base reg / PMM_PAGE_SIZE) (length_ reg / PMM_PAGE_SIZE))
      as (f & -> & ? & ? & ? & Hfs); [done|done|by apply page_index_range..|].
    exists reg. eexists. split_and!; try done. by rewrite Et, Hfs, union_empty_r_L.
  - exists reg, p. split_and!; try done. rewrite Et. set_solver.
Qed.

Lemma usable_frames_app rs1 rs2 :
  usable_frames (rs1 ++ rs2) = usable_frames rs1 ∪ usable_frames rs2.
Proof. induction rs1 as [|r rs IH]; simpl; [|rewrite IH]; set_solver. Qed.

Lemma take_arr_succ {A} (l : list A) (i : Z) x :
  arr_get l i = Ret x -> take (Z.to_nat (i + 1)) l = take (Z.to_nat i) l ++ [x].
Proof.
  intros [Hi Hx]%arr_get_Ret. replace (Z.to_nat (i + 1)) with (S (Z.to_nat i)) by lia.
  by apply take_S_r.
Qed.

Lemma init_regions_ok regions p k :
  Forall region_ok regions -> pmm_wf p -> pmm_acct p k ->
  exists p', for_state (Z.to_nat (zlen regions)) 0 (init_region regions) p = Ret p' /\
    pmm_wf p' /\ pmm_acct p' k /\ frame_count p' = frame_count p /\
    free_set p' = free_set p ∪ (usable_frames regions ∩ frame_space (frame_count p)).
Proof.
  intros Hregs Hwf Hac.
  destruct (for_state_inv (fun i q => pmm_wf q /\ pmm_acct q k /\
       frame_count q = frame_count p /\
       free_set q = free_set p ∪ (usable_frames (take (Z.to_nat i) regions)
                                    ∩ frame_space (frame_count p)))
     (init_region regions) (Z.to_nat (zlen regions)) 0 p) as (p' & Hp' & H1 & H2 & H3 & H4).
  - split_and!; try done. simpl. set_solver.
  - intros j q Hj (Hwq & Haq & Hfc & Hfs).
    destruct (init_region_ok regions q k j) as (reg & q' & Hreg & -> & ? & ? & ? & Hfs');
      [done|done|done|lia|].
    exists q'. split; [done|]. split_and!; [done|done|congruence|].
    rewrite Hfs', Hfs, (take_arr_succ _ _ _ Hreg), usable_frames_app, Hfc. set_solver.
  - exists p'. split_and!; try done. rewrite H4. unfold zlen.
    by rewrite Z.add_0_l, Z2Nat.id, Nat2Z.id, firstn_all by lia.
Qed.

(** The fill loop sets whole bytes; behind them the bits stay as they were. *)
Lemma fill_bitmap storage n :
  0 <= n <= zlen storage -> bytes storage ->
  exists bm, for_state (Z.to_nat n) 0 (fun i b => arr_set b i 0xFF) storage = Ret bm /\
    zlen bm = zlen storage /\ bytes bm /\ (forall f, 0 <= f < 8 * n -> bit_at bm f = true) /\
    (forall f, 8 * n <= f -> bit_at bm f = bit_at storage f).
Proof.
  intros Hn Hby.
  destruct (for_state_inv (fun i b => zlen b = zlen storage /\ bytes b /\
      (forall j, 0 <= j < i -> arr_get b j = Ret 0xFF) /\ (forall j, n <= j -> arr_get b j = arr_get storage j))
    (fun i b => arr_set b i 0xFF) (Z.to_nat n) 0 storage) as (bm & Hbm & Hl & Hb & Hff & Hrest).
  - split_and!; try done. lia.
  - intros j b Hj (Hl & Hb & Hff & Hrest). rewrite arr_set_ok by lia. eexists. split; [done|].
    rewrite zlen_insert. split_and!; [done|apply bytes_insert; [done|by unfold is_u8]| |].
    + intros k Hk. rewrite arr_get_insert by lia. destruct (Z.eqb_spec j k); [done|]. apply Hff. lia.
    + intros k Hk. rewrite arr_get_insert_ne by lia. by apply Hrest.
  - exists bm. split_and!; try done; intros f Hf; unfold bit_at.
    + rewrite Hff by (pose proof (div8_range n f Hf); lia).
      pose proof (mod8_range f). change 0xFF with (Z.ones 8). apply Z.ones_spec_low. lia.
    + rewrite Hrest; [done|]. apply Z.div_le_lower_bound; lia.
Qed.

(** The frames behind the last whole byte of the bitmap whose bits the storage had clear. *)
Definition stale_frames (storage : list Z) (n : Z) : gset Z :=
  list_to_set (filter (fun f => bit_at storage f = false) (seqZ (8 * (n / 8)) (n mod 8))).

Lemma elem_of_stale storage n f :
  0 <= n -> f ∈ stale_frames storage n <-> 8 * (n / 8) <= f < n /\ bit_at storage f = false.
Proof.
  intros Hn. unfold stale_frames. rewrite elem_of_list_to_set, list_elem_of_filter, elem_of_seqZ.
  pose proof (Z.div_mod n 8 ltac:(lia)). naive_solver lia.
Qed.

Lemma stale_none storage n : (8 | n) -> stale_frames storage n = ∅.
Proof. intros [c ->]. unfold stale_frames. by rewrite Z.mod_mul. Qed.

(** What the boot leaves free, but for frame 0, and by how much it gets the counters wrong. *)
Definition released (regions : list boot_mem_region) (storage : list Z) (n : Z) : gset Z :=
  stale_frames storage n ∪ (usable_frames regions ∩ frame_space n).
Definition miscount (regions : list boot_mem_region) (storage : list Z) (n : Z) : Z :=
  Z.of_nat (size (stale_frames storage n)) + (if bool_decide (0 ∈ released regions storage n) then 0 else 1).

Lemma fill_ok storage fc :
  bytes storage -> 0 <= fc < 2 ^ 52 -> fc <= 8 * zlen storage ->
  exists bm, for_state (Z.to_nat (fc / 8)) 0 (fun i b => arr_set b i 0xFF) storage = Ret bm /\
    let p := mk_pmm bm fc 0 fc 0 false in
    zlen bm = zlen storage /\ pmm_wf p /\ free_set p = stale_frames storage fc /\
    pmm_acct p (Z.of_nat (size (stale_frames storage fc))).
Proof.
  intros Hby Hfc Hroom. destruct (fill_bitmap storage (fc / 8)) as (bm & -> & Hlen & Hbm & Hones & Hrest);
    [split; [apply Z.div_pos|apply Z.div_le_upper_bound]; lia|done|].
  exists bm. split; [done|]. cbn zeta. split; [done|]. split; [constructor; cbn; [done|lia|lia]|].
  assert (free_set (mk_pmm bm fc 0 fc 0 false) = stale_frames storage fc) as He.
  { apply set_eq. intros f. rewrite elem_of_free_set, elem_of_stale by lia. cbn.
    assert (0 <= 8 * (fc / 8)) by (pose proof (Z.div_pos fc 8); lia).
    destruct (decide (f < 8 * (fc / 8))) as [Hlt|Hge]; [|rewrite Hrest by lia; naive_solver lia].
    split; [|lia]. intros [Hf Hb]. rewrite Hones in Hb by lia. discriminate. }
  split; [done|]. unfold pmm_acct. rewrite He. cbn. rewrite Z.sub_diag, Z.sub_add. split; [done|].
  symmetry. apply u64_small. unfold is_u64. lia.
Qed.

Lemma init_from_map_ok p0 regions storage bitmap_size max_phys :
  Forall region_ok regions -> bytes storage -> is_u64 max_phys ->
  let fc := max_phys / PMM_PAGE_SIZE in
  0 < fc <= 8 * zlen storage ->
  exists p, pmm_init_from_map p0 regions (zlen regions) storage bitmap_size max_phys
            = Ret (p, true) /\
    pmm_wf p /\ frame_count p = fc /\ initialized p = true /\
    free_set p = released regions storage fc ∖ {[0]} /\ pmm_acct p (miscount regions storage fc).
Proof.
  intros Hregs Hby Hmax fc Hroom. pose proof (page_index_range _ Hmax) as Hfcr. fold fc in Hfcr.
  unfold pmm_init_from_map. fold fc. destruct (fill_ok storage fc Hby Hfcr (proj2 Hroom)) as (bm & -> & Hlen & Hw1 & He & Ha1).
  cbn [mbind exec_bind pmm_zero_state next_hint initialized].
  destruct (init_regions_ok regions _ _ Hregs Hw1 Ha1) as (p2 & -> & Hw2 & Ha2 & Hc2 & Hf2).
  rewrite He in Hf2. cbn [frame_count] in Hc2, Hf2. fold (released regions storage fc) in Hf2. pose proof Hw2 as [Hb2 Hr2 _].
  cbn [mbind exec_bind]. unfold miscount. rewrite <- Hf2. case_bool_decide as Hu.
  - destruct (take_frame_ok p2 0 _ Hw2 Ha2 Hu) as (bm0 & -> & Hw3 & Ha3 & Hf3).
    cbn. eexists. split; [done|]. destruct Hw3. rewrite <- Hf3, Z.add_0_r. by split_and!.
  - destruct (bitmap_set_spec (bitmap p2) 0) as (bm0 & -> & Hl0 & Hb0 & Hbit); [lia|done|].
    cbn. eexists. split; [done|].
    assert (free_set (take_frame p2 bm0) = free_set p2 ∖ {[0]}) as Hf3 by (apply free_set_mark; [done|lia|done]).
    assert (free_set p2 ∖ {[0]} = free_set p2) as Hsame by set_solver.
    split; [constructor; cbn; rewrite ?Hl0; (done || lia)|].
    split; [done|]. split; [done|]. split; [by rewrite <- Hf3|].
    destruct Ha2 as [E1 E2]. unfold pmm_acct.
    change (free_set (mk_pmm _ _ _ _ _ _)) with (free_set (take_frame p2 bm0)).
    rewrite Hf3, Hsame. cbn. rewrite E1, E2. unfold u64.
    rewrite Zminus_mod_idemp_l, Zplus_mod_idemp_l. split; f_equal; lia.
Qed.

(** The case of [kmain]: whole bytes. *)
Lemma init_whole_bytes p0 regions storage bitmap_size max_phys :
  Forall region_ok regions -> bytes storage -> is_u64 max_phys ->
  let fc := max_phys / PMM_PAGE_SIZE in
  0 < fc -> (8 | fc) -> fc <= 8 * zlen storage ->
  exists p, pmm_init_from_map p0 regions (zlen regions) storage bitmap_size max_phys
            = Ret (p, true) /\
    pmm_wf p /\ frame_count p = fc /\
    free_set p = (usable_frames regions ∩ frame_space fc) ∖ {[0]} /\
    pmm_acct p (if bool_decide (0 ∈ usable_frames regions) then 0 else 1).
Proof.
  intros Hr Hb Hm fc H0 H8 Hroom.
  destruct (init_from_map_ok p0 regions storage bitmap_size max_phys) as (p & E & Hw & Hc & _ & Hf & Ha); [done..|].
  fold fc in Hc, Hf, Ha. unfold miscount, released in *. rewrite stale_none, ?union_empty_l_L in * by done.
  exists p. split_and!; try done. rewrite size_empty in Ha. cbn in Ha.
  replace (bool_decide (0 ∈ usable_frames regions)) with (bool_decide (0 ∈ usable_frames regions ∩ frame_space fc)); [done|].
  apply bool_decide_ext. rewrite elem_of_intersection, elem_of_frame_space. naive_solver lia.
Qed.

Lemma reserve_range_ok p k rbase rlength :
  pmm_wf p -> pmm_acct p k -> is_u64 rbase -> is_u64 rlength ->
  exists p', pmm_reserve_range p rbase rlength = Ret (p', true) /\
    free_set p' = free_set p ∖ range_frames rbase rlength /\
    frame_count p' = frame_count p /\ pmm_wf p' /\ pmm_acct p' k.
Proof.
  intros Hwf Hac Hb Hl. unfold pmm_reserve_range.
  destruct (reserve_ok p k (rbase / PMM_PAGE_SIZE) (rlength / PMM_PAGE_SIZE))
    as (f & -> & ? & ? & ? & Hfs); [done|done|by apply page_index_range..|].
  eexists. split; [done|]. split_and!; try done. rewrite Hfs. apply set_eq. intros g.
  rewrite !elem_of_difference, elem_of_intersection, elem_of_frame_space.
  unfold range_frames. pose proof (elem_of_free_set p g). naive_solver.
Qed.

Lemma is_frame_free_eq p phys :
  pmm_wf p -> is_u64 phys ->
  pmm_is_frame_free p phys = Ret (bool_decide (phys / PMM_PAGE_SIZE ∈ free_set p)).
Proof.
  intros Hwf Hphys. pose proof (page_index_range _ Hphys). unfold pmm_is_frame_free.
  destruct (Z.leb_spec (frame_count p) (phys / PMM_PAGE_SIZE)).
  - f_equal. symmetry. apply bool_decide_eq_false. intros [? _]%elem_of_free_set. lia.
  - rewrite test_free by (done || lia). simpl. by rewrite negb_involutive.
Qed.

(** ** The theorems *)


(** Allocation refines removal of the least element of the set of free frames: it never
    faults, returns the address of the lowest free frame and takes exactly that frame, or,
    when no frame is free, returns [PMM_INVALID_FRAME] and leaves the state alone.  The
    invariant and the accounting are kept. *)
Theorem pmm_alloc_frame_refines p k :
  pmm_wf p -> pmm_acct p k ->
  (exists f p', f ∈ free_set p /\ (forall g, g ∈ free_set p -> f <= g) /\
     pmm_alloc_frame p = Ret (p', f * PMM_PAGE_SIZE) /\
     free_set p' = free_set p ∖ {[f]} /\
     frame_count p' = frame_count p /\ pmm_wf p' /\ pmm_acct p' k)
  \/ (free_set p = ∅ /\ pmm_alloc_frame p = Ret (p, PMM_INVALID_FRAME)).
Proof. apply alloc_frame_cases. Qed.

(** No frame is handed out twice.  As many allocations in a row as there are free frames
    all succeed, return pairwise distinct page addresses of frames that were free, leave no
    frame free, and the next allocation fails. *)
Theorem pmm_alloc_exhausts p k :
  pmm_wf p -> pmm_acct p k ->
  exists p' rs, alloc_many (size (free_set p)) p = Ret (p', rs) /\
    length rs = size (free_set p) /\ NoDup rs /\
    (forall r, r ∈ rs -> exists f, f ∈ free_set p /\ r = f * PMM_PAGE_SIZE) /\
    free_set p' = ∅ /\ pmm_alloc_frame p' = Ret (p', PMM_INVALID_FRAME).
Proof.
  intros Hwf Hac.
  destruct (alloc_many_spec (size (free_set p)) p k Hwf Hac (le_n _))
    as (p' & rs & Hm & Hlen & Hwf' & Hac' & _ & fs & -> & Hnd & Hsub & Hfs).
  assert (free_set p' = ∅) as He.
  { rewrite Hfs. rewrite length_map in Hlen.
    assert (list_to_set fs ⊆ free_set p) as Hs by set_solver.
    assert (list_to_set fs = free_set p) as ->; [|set_solver].
    apply set_subseteq_size_eq; [done|]. rewrite size_list_to_set by done. lia. }
  exists p', (map (fun f => f * PMM_PAGE_SIZE) fs). split_and!; try done.
  - apply NoDup_fmap; [|done]. intros a b. unfold PMM_PAGE_SIZE. lia.
  - intros r (f & -> & Hf)%list_elem_of_fmap. eauto.
  - destruct (alloc_frame_cases p' k Hwf' Hac') as [(f & ? & Hin & _)|[_ ->]]; [|done].
    rewrite He in Hin. set_solver.
Qed.

(** Release.  Freeing the page address of a frame in use makes exactly that frame free;
    every other request (unaligned, beyond the end, or of a frame already free) is rejected
    and changes nothing. *)
Theorem pmm_free_frame_refines p k phys :
  pmm_wf p -> pmm_acct p k -> is_u64 phys ->
  (exists f p', phys = f * PMM_PAGE_SIZE /\ 0 <= f < frame_count p /\ (f ∉ free_set p) /\
     pmm_free_frame p phys = Ret (p', true) /\
     free_set p' = {[f]} ∪ free_set p /\
     frame_count p' = frame_count p /\ pmm_wf p' /\ pmm_acct p' k)
  \/ (~ (exists f, phys = f * PMM_PAGE_SIZE /\ 0 <= f < frame_count p /\ (f ∉ free_set p)) /\
      pmm_free_frame p phys = Ret (p, false)).
Proof. intros ? ? [? _]. by apply free_frame_cases. Qed.

(** An allocated frame can be freed, and then everything observable is as before: the set
    of free frames and both counters. *)
Theorem pmm_alloc_free_roundtrip p k p1 r :
  pmm_wf p -> pmm_acct p k -> free_set p <> ∅ -> pmm_alloc_frame p = Ret (p1, r) ->
  exists p2, pmm_free_frame p1 r = Ret (p2, true) /\ free_set p2 = free_set p /\
    pmm_free_count p2 = pmm_free_count p /\ pmm_used_count p2 = pmm_used_count p.
Proof.
  intros Hwf Hac Hne Hal.
  destruct (alloc_frame_cases p k Hwf Hac)
    as [(f & p' & Hin & _ & Ha & Hfs & Hfc & Hwf' & Hac')|[? _]]; [|done].
  rewrite Ha in Hal. injection Hal as <- <-.
  pose proof Hin as [Hf _]%elem_of_free_set.
  destruct (free_frame_cases p' k (f * PMM_PAGE_SIZE) Hwf' Hac')
    as [(g & p2 & Hg & Hgr & Hgf & -> & Hfs2 & Hfc2 & _ & Hac2)|[Hno _]].
  - unfold PMM_PAGE_SIZE. lia.
  - assert (g = f) as -> by (unfold PMM_PAGE_SIZE in Hg; lia).
    assert (free_set p2 = free_set p) as E.
    { rewrite Hfs2, Hfs. symmetry. apply union_difference_singleton_L. done. }
    exists p2. split_and!; [done|done|..]; destruct Hac as [E1 E2], Hac2 as [E3 E4];
      unfold pmm_free_count, pmm_used_count; rewrite ?E1, ?E2, ?E3, ?E4, E; congruence.
  - exfalso. apply Hno. exists f. split_and!; [done|lia|lia|]. rewrite Hfs. set_solver.
Qed.

(** Reservation.  [pmm_reserve_range] never faults, always returns true, and takes from
    the free set exactly the frames numbered [base / 4096] up to [length / 4096] of them that
    exist. *)
Theorem pmm_reserve_range_refines p k rbase rlength :
  pmm_wf p -> pmm_acct p k -> is_u64 rbase -> is_u64 rlength ->
  exists p', pmm_reserve_range p rbase rlength = Ret (p', true) /\
    free_set p' = free_set p ∖ range_frames rbase rlength /\
    frame_count p' = frame_count p /\ pmm_wf p' /\ pmm_acct p' k.
Proof. apply reserve_range_ok. Qed.

(** The query agrees with the set: a frame is reported free exactly when it is. *)
Theorem pmm_is_frame_free_correct p phys :
  pmm_wf p -> is_u64 phys ->
  pmm_is_frame_free p phys = Ret (bool_decide (phys / PMM_PAGE_SIZE ∈ free_set p)).
Proof. apply is_frame_free_eq. Qed.

(** ** Concrete runs *)

(** A machine of eight frames of which frames 1 to 3 are free. *)
Definition demo_pmm : pmm_state := mk_pmm [0xF1] 8 3 5 0 true.

Lemma demo_pmm_wf : pmm_wf demo_pmm.
Proof. by constructor; by_compute. Qed.

Lemma demo_pmm_acct : pmm_acct demo_pmm 0.
Proof. by_compute. Qed.

Definition demo_regions : list boot_mem_region :=
  [mk_region 0 0x1000 PMM_REGION_RESERVED; mk_region 0x1000 0x3000 PMM_REGION_USABLE].


(** Nine frames, none usable, on cleared storage: frame 8 is free. *)
Lemma stale_frame_free :
  exists p, pmm_init_from_map demo_pmm [mk_region 0 0x9000 PMM_REGION_RESERVED] 1 [0; 0] 2 0x9000 = Ret (p, true) /\
    free_set p = {[8]} /\ pmm_alloc_frame p = Ret (mk_pmm [0xFF; 1] 9 (2 ^ 64 - 2) 11 0 true, 0x8000).
Proof.
  eexists. split; [vm_compute; reflexivity|]. split; [by_compute|vm_compute; reflexivity].
Qed.

Lemma pmm_alloc_frame_witness :
  exists f p', pmm_alloc_frame demo_pmm = Ret (p', f * PMM_PAGE_SIZE) /\
    free_set p' = free_set demo_pmm ∖ {[f]}.
Proof.
  destruct (pmm_alloc_frame_refines demo_pmm 0 demo_pmm_wf demo_pmm_acct)
    as [(f & p' & _ & _ & Ha & Hfs & _)|[He _]]; [by exists f, p'|].
  exfalso. revert He. by_compute.
Defined.

Lemma pmm_alloc_exhausts_witness :
  exists p' rs, alloc_many 3 demo_pmm = Ret (p', rs) /\ NoDup rs /\
    pmm_alloc_frame p' = Ret (p', PMM_INVALID_FRAME).
Proof.
  destruct (pmm_alloc_exhausts demo_pmm 0 demo_pmm_wf demo_pmm_acct)
    as (p' & rs & Hm & _ & Hnd & _ & _ & Hlast).
  exists p', rs. split; [|done]. rewrite <- Hm. f_equal.
Defined.

Lemma pmm_free_frame_witness :
  exists p', pmm_free_frame demo_pmm 0x5000 = Ret (p', true) /\
    free_set p' = {[1; 2; 3; 5]}.
Proof.
  destruct (pmm_free_frame_refines demo_pmm 0 0x5000 demo_pmm_wf demo_pmm_acct)
    as [(f & p' & Hf & _ & _ & Hr & Hfs & _)|[Hno _]].
  - by_compute.
  - exists p'. split; [done|]. assert (f = 5) as -> by (unfold PMM_PAGE_SIZE in Hf; lia).
    rewrite Hfs. by_compute.
  - exfalso. apply Hno. exists 5. split; by_compute.
Defined.

Lemma pmm_alloc_free_roundtrip_witness :
  exists p1 p2, pmm_alloc_frame demo_pmm = Ret (p1, 0x1000) /\
    pmm_free_frame p1 0x1000 = Ret (p2, true) /\ free_set p2 = free_set demo_pmm.
Proof.
  destruct (pmm_alloc_frame demo_pmm) as [[p1 r]|] eqn:E; [|vm_compute in E; discriminate].
  assert (r = 0x1000) as -> by (vm_compute in E; congruence).
  destruct (pmm_alloc_free_roundtrip demo_pmm 0 p1 0x1000 demo_pmm_wf demo_pmm_acct)
    as (p2 & H1 & H2 & _); [by_compute|exact E|].
  exists p1, p2. by split_and!.
Defined.

Lemma pmm_reserve_range_witness :
  exists p', pmm_reserve_range demo_pmm 0x2000 0x100000 = Ret (p', true) /\
    free_set p' = {[1]}.
Proof.
  destruct (pmm_reserve_range_refines demo_pmm 0 0x2000 0x100000 demo_pmm_wf demo_pmm_acct)
    as (p' & Hp & Hfs & _); [by_compute|by_compute|].
  exists p'. split; [done|]. rewrite Hfs. by_compute.
Defined.

Lemma pmm_is_frame_free_witness : pmm_is_frame_free demo_pmm 0x2abc = Ret true.
Proof.
  rewrite (pmm_is_frame_free_correct demo_pmm 0x2abc demo_pmm_wf); [|by_compute].
  vm_compute. reflexivity.
Defined.

(** The map [kmain] boots with (kernel/core/kmain.c, [m6_regions]). *)
Definition m6_regions : list boot_mem_region :=
  [mk_region 0x00000000 0x0009F000 PMM_REGION_RESERVED;
   mk_region 0x00100000 0x00300000 PMM_REGION_USABLE].

Lemma m6_usable : usable_frames m6_regions ∩ frame_space (PMM_MAX_PHYS_BYTES / PMM_PAGE_SIZE)
  = list_to_set (seqZ 256 768).
Proof.
  change (usable_frames m6_regions) with (∅ ∪ (range_frames 0x00100000 0x00300000 ∪ ∅)).
  apply set_eq. intros f.
  rewrite elem_of_intersection, elem_of_frame_space, !elem_of_union, elem_of_range_frames,
    elem_of_list_to_set, elem_of_seqZ.
  change (PMM_MAX_PHYS_BYTES / PMM_PAGE_SIZE) with 16384.
  change (0x00100000 / PMM_PAGE_SIZE) with 256. change (0x00300000 / PMM_PAGE_SIZE) with 768.
  pose proof (not_elem_of_empty (C := gset Z) f). split; [|lia].
  intros [[?|[?|?]] ?]; [done|lia|done].
Qed.

(** On the boot map of [kmain] frame 0 lies in the reserved region, and the manager starts
    with 768 free frames and a free count of 767. *)
Theorem pmm_boot_free_count_short p0 :
  exists p, pmm_init_from_map p0 m6_regions 2 (replicate (Z.to_nat PMM_BITMAP_BYTES) 0)
              PMM_BITMAP_BYTES PMM_MAX_PHYS_BYTES = Ret (p, true) /\
    size (free_set p) = 768%nat /\ pmm_free_count p = 767.
Proof.
  destruct (init_whole_bytes p0 m6_regions (replicate (Z.to_nat PMM_BITMAP_BYTES) 0)
              PMM_BITMAP_BYTES PMM_MAX_PHYS_BYTES)
    as (p & Hp & _ & _ & Hfs & Hac & _).
  - by_compute.
  - apply Forall_replicate. by_compute.
  - by_compute.
  - by_compute.
  - by exists 2048.
  - unfold zlen. rewrite length_replicate. by_compute.
  - exists p. split; [exact Hp|].
    assert (free_set p = list_to_set (seqZ 256 768)) as E.
    { rewrite Hfs, m6_usable. apply set_eq. intros f.
      rewrite elem_of_difference, elem_of_singleton, elem_of_list_to_set, elem_of_seqZ. lia. }
    assert (size (free_set p) = 768%nat) as Hsz.
    { rewrite E, size_list_to_set by apply NoDup_seqZ. by rewrite length_seqZ. }
    split; [done|]. unfold pmm_free_count. rewrite Hac, Hsz, bool_decide_eq_false_2; [done|].
    intros H. apply (not_elem_of_empty (C := gset Z) 0). revert H.
    change (usable_frames m6_regions) with (∅ ∪ (range_frames 0x00100000 0x00300000 ∪ ∅)).
    rewrite !elem_of_union, elem_of_range_frames.
    change (0x00100000 / PMM_PAGE_SIZE) with 256. intros [?|[?|?]]; [done|lia|done].
Qed.
