(* ===== verification/PmmSpec.v ===== *)
(** * Clients of the physical memory manager (kernel/core/pmm.c)

    Sequences of calls on a manager that [pmm_init_from_map] set up: an abstract manager, a set of
    free frames, that answers every sequence as the code does; and clients that own the frames they
    were given, as a transition relation whose reachable states share no frame. *)

From S2P Require Import Prelude Bytes Session Pmm.

(** ** The abstract manager *)

(** The number of frames, the free ones, and the constant by which the counters are off: the free
    count is that much below the number of free frames and the used count that much above. *)
Record amm : Type := mk_amm {
  a_count : Z;
  a_free : gset Z;
  a_short : Z
}.

Inductive pmm_op : Type :=
  | Alloc
  | Free (phys : Z)
  | Reserve (base length : Z)
  | IsFree (phys : Z)
  | FreeCount
  | UsedCount
  | FrameCount.

Definition with_free (a : amm) (s : gset Z) : amm := mk_amm (a_count a) s (a_short a).

(** Truth values as the C code returns them, 0 or 1. *)
Definition astep (a : amm) (op : pmm_op) : amm * Z :=
  match op with
  | Alloc =>
      match find_first (fun f => bool_decide (f ∈ a_free a)) (Z.to_nat (a_count a)) 0 with
      | Some f => (with_free a (a_free a ∖ {[f]}), f * PMM_PAGE_SIZE)
      | None => (a, PMM_INVALID_FRAME)
      end
  | Free phys =>
      let f := phys / PMM_PAGE_SIZE in
      if decide (phys mod PMM_PAGE_SIZE = 0 /\ f < a_count a /\ f ∉ a_free a) then (with_free a ({[f]} ∪ a_free a), 1)
      else (a, 0)
  | Reserve b l => (with_free a (a_free a ∖ range_frames b l), 1)
  | IsFree phys => (a, Z.b2z (bool_decide (phys / PMM_PAGE_SIZE ∈ a_free a)))
  | FreeCount => (a, u64 (Z.of_nat (size (a_free a)) - a_short a))
  | UsedCount => (a, u64 (a_count a - Z.of_nat (size (a_free a)) + a_short a))
  | FrameCount => (a, a_count a)
  end.

(** ** The same calls on the code *)

Definition pstep (p : pmm_state) (op : pmm_op) : exec (pmm_state * Z) :=
  match op with
  | Alloc => pmm_alloc_frame p
  | Free phys => '(p', b) ← pmm_free_frame p phys; Ret (p', Z.b2z b)
  | Reserve b l => '(p', ok) ← pmm_reserve_range p b l; Ret (p', Z.b2z ok)
  | IsFree phys => b ← pmm_is_frame_free p phys; Ret (p, Z.b2z b)
  | FreeCount => Ret (p, pmm_free_count p)
  | UsedCount => Ret (p, pmm_used_count p)
  | FrameCount => Ret (p, pmm_frame_count p)
  end.

(** The arguments have their type, [uint64_t]; nothing else is asked of them. *)
Definition op_typed (op : pmm_op) : Prop :=
  match op with
  | Free phys | IsFree phys => is_u64 phys
  | Reserve b l => is_u64 b /\ is_u64 l
  | _ => True
  end.

#[global] Instance op_typed_dec op : Decision (op_typed op).
Proof. destruct op; cbn; apply _. Defined.

(** ** The relation *)

Record sim (p : pmm_state) (a : amm) : Prop := {
  sm_wf : pmm_wf p;
  sm_acct : pmm_acct p (a_short a);
  sm_free : free_set p = a_free a;
  sm_count : frame_count p = a_count a
}.

Lemma sim_with_free p p' a s :
  sim p a -> pmm_wf p' -> pmm_acct p' (a_short a) -> free_set p' = s -> frame_count p' = frame_count p ->
  sim p' (with_free a s).
Proof. intros [_ _ _ Hc] ? ? ? ?. split; cbn; congruence. Qed.

Lemma free_step p a phys :
  sim p a -> is_u64 phys ->
  exists p', pstep p (Free phys) = Ret (p', (astep a (Free phys)).2) /\ sim p' (astep a (Free phys)).1.
Proof.
  intros Hs Hp. pose proof Hs as [Hwf Hac Hf Hc]. cbn [pstep astep].
  pose proof (Z.div_mod phys PMM_PAGE_SIZE ltac:(done)) as Hdm.
  destruct (free_frame_cases p (a_short a) phys Hwf Hac (proj1 Hp))
    as [(f & p' & -> & Hr & Hno & -> & Hfs & Hc' & Hwf' & Hac')|(Hno & ->)]; cbn [mbind exec_bind].
  - rewrite Z.div_mul, Z.mod_mul by done. rewrite decide_True by (rewrite <- Hf, <- Hc; split_and!; (done || lia)).
    exists p'. split; [done|]. apply (sim_with_free p); congruence.
  - exists p. rewrite decide_False; [done|]. intros (Hm & Hlt & Hin). apply Hno. exists (phys / PMM_PAGE_SIZE).
    pose proof (page_index_range phys Hp). rewrite Hf, Hc. split_and!; (done || lia).
Qed.

Lemma alloc_step p a :
  sim p a -> exists p', pstep p Alloc = Ret (p', (astep a Alloc).2) /\ sim p' (astep a Alloc).1.
Proof.
  intros Hs. pose proof Hs as [Hwf Hac Hf Hc]. cbn [pstep astep]. rewrite (alloc_frame_search p (a_short a)) by done.
  rewrite <- Hf, <- Hc. destruct (find_first _ _ _) as [f|] eqn:E; [|by exists p].
  apply find_first_Some in E as (_ & Hin%bool_decide_eq_true & _). rewrite Hf in *.
  rewrite <- Hf in Hin. destruct (take_frame_ok p f _ Hwf Hac Hin) as (bm & Hbm & Hwf' & Hac' & Hfs).
  eexists. split; [done|]. unfold taken. rewrite Hbm. cbn [fst]. apply (sim_with_free p); (done || congruence).
Qed.

Lemma pstep_sim p a op :
  sim p a -> op_typed op -> exists p', pstep p op = Ret (p', (astep a op).2) /\ sim p' (astep a op).1.
Proof.
  intros Hs Hop. pose proof Hs as [Hwf Hac Hf Hc]. destruct op as [|phys|b l|phys| | |].
  - by apply alloc_step.
  - by apply free_step.
  - destruct Hop as [Hb Hl]. cbn [pstep astep].
    destruct (reserve_range_ok p (a_short a) b l Hwf Hac Hb Hl) as (p' & -> & Hfs & Hc' & Hwf' & Hac').
    exists p'. split; [done|]. apply (sim_with_free p); congruence.
  - exists p. cbn [pstep astep]. by rewrite is_frame_free_eq, Hf.
  - exists p. cbn. unfold pmm_free_count. by rewrite (proj1 Hac), Hf.
  - exists p. cbn. unfold pmm_used_count. by rewrite (proj2 Hac), Hf, Hc.
  - exists p. cbn. unfold pmm_frame_count. by rewrite Hc.
Qed.

(** ** Sequences of calls *)

#[global] Instance pmm_refines : Refines astep pstep (fun _ => op_typed) sim.
Proof. intros p a op Hs Hop. by apply pstep_sim. Qed.

Lemma prun_sim ops p a :
  sim p a -> Forall op_typed ops ->
  exists p', code_run pstep p ops = Ret (p', (spec_run astep a ops).2) /\ sim p' (spec_run astep a ops).1.
Proof.
  intros Hs Hops. apply (session_refines astep pstep (fun _ => op_typed) sim ops p a); [done|].
  by apply (admissible_static _ _ op_typed).
Qed.

(** ** From the boot map *)

Section booted.
(** What [pmm_init_from_map] is called with: regions and a limit of 64 bits, at least one frame, and
    a bitmap with room for all. *)
Record boot_args (regions : list boot_mem_region) (storage : list Z) (max_phys : Z) : Prop := {
  ba_regions : Forall region_ok regions;
  ba_storage : bytes storage;
  ba_max : is_u64 max_phys;
  ba_count : 0 < max_phys / PMM_PAGE_SIZE <= 8 * zlen storage
}.

Definition fresh_amm (regions : list boot_mem_region) (storage : list Z) (max_phys : Z) : amm :=
  let n := max_phys / PMM_PAGE_SIZE in
  mk_amm n (released regions storage n ∖ {[0]}) (miscount regions storage n).

Context (p0 : pmm_state) (regions : list boot_mem_region) (storage : list Z) (bitmap_size max_phys : Z).
Hypothesis Hboot : boot_args regions storage max_phys.

Lemma boot_sim :
  exists p, pmm_init_from_map p0 regions (zlen regions) storage bitmap_size max_phys = Ret (p, true) /\
    sim p (fresh_amm regions storage max_phys).
Proof.
  destruct Hboot as [Hr Hs Hm Hroom].
  destruct (init_from_map_ok p0 regions storage bitmap_size max_phys) as (p & E & Hwf & Hc & _ & Hf & Ha); try done.
  exists p. split; [done|]. by split.
Qed.

End booted.

(** ** Owners *)

(** A manager and the addresses its clients hold, step by step: a client allocates, gives back an
    address it holds, or someone reserves a range. *)
Inductive client_step : pmm_state * list Z -> pmm_state * list Z -> Prop :=
  | client_alloc p p' r held :
      pmm_alloc_frame p = Ret (p', r) -> r <> PMM_INVALID_FRAME -> client_step (p, held) (p', r :: held)
  | client_refused p p' held :
      pmm_alloc_frame p = Ret (p', PMM_INVALID_FRAME) -> client_step (p, held) (p', held)
  | client_free p p' r b pre post :
      pmm_free_frame p r = Ret (p', b) -> client_step (p, pre ++ r :: post) (p', pre ++ post)
  | client_reserve p p' b l ok held :
      is_u64 b -> is_u64 l -> pmm_reserve_range p b l = Ret (p', ok) -> client_step (p, held) (p', held).

(** What holds at every state: the held addresses are those of distinct frames in use, all from
    the set [s0] that was free at the start. *)
Record owned (s0 : gset Z) (n k : Z) (st : pmm_state * list Z) : Prop := {
  ow_wf : pmm_wf st.1;
  ow_acct : pmm_acct st.1 k;
  ow_count : frame_count st.1 = n;
  ow_free : free_set st.1 ⊆ s0;
  ow_held : exists fs, st.2 = map (fun f => f * PMM_PAGE_SIZE) fs /\ NoDup fs /\
              (forall f, f ∈ fs -> f ∈ s0 /\ f ∉ free_set st.1)
}.

Lemma owned_step s0 n k st st' : s0 ⊆ frame_space n -> n <= 2 ^ 52 -> owned s0 n k st -> client_step st st' -> owned s0 n k st'.
Proof.
  intros Hs0 Hn [Hwf Hac Hc Hsub (fs & Hfs & Hnd & Hin)] Hst.
  destruct Hst as [p p' r held E Hr|p p' held E|p p' r b pre post E|p p' b l ok held Hb Hl E]; cbn [fst snd] in *; subst.
  - destruct (alloc_frame_cases p k Hwf Hac) as [(f & q & Hf & _ & Eq & Hq & Hc' & Hwf' & Hac')|[_ Eq]];
      rewrite E in Eq; injection Eq as <- ->; [|done].
    split; cbn [fst snd]; [done|done|congruence|set_solver|]. exists (f :: fs). split; [done|].
    split; [constructor; [|done]; intros Hx; by apply (Hin f Hx)|]. set_solver.
  - destruct (alloc_frame_cases p k Hwf Hac) as [(f & q & Hf & _ & Eq & _)|[_ Eq]]; rewrite E in Eq.
    + exfalso. injection Eq as _ Eq2. apply elem_of_free_set in Hf as [Hf _]. unfold PMM_INVALID_FRAME, PMM_PAGE_SIZE in Eq2. lia.
    + injection Eq as ->. split; cbn [fst snd]; [done|done|done|done|]. by exists fs.
  - symmetry in Hfs. apply map_eq_app in Hfs as (f1 & f2' & -> & <- & Hp). destruct f2' as [|f f2]; [discriminate|].
    injection Hp as <- <-. assert (f ∈ s0 /\ f ∉ free_set p) as [Hf0 Hff] by (apply Hin; set_solver).
    pose proof (proj1 (elem_of_frame_space _ _) (Hs0 f Hf0)) as Hfr.
    destruct (free_frame_cases p k (f * PMM_PAGE_SIZE) Hwf Hac) as [(g & q & Eg & _ & _ & Eq & Hq & Hc' & Hwf' & Hac')|(Hno & _)];
      [unfold PMM_PAGE_SIZE; lia| |exfalso; apply Hno; by exists f].
    rewrite E in Eq. injection Eq as <- ->. assert (g = f) as -> by (unfold PMM_PAGE_SIZE in Eg; lia).
    split; cbn [fst snd]; [done|done|congruence|set_solver|].
    exists (f1 ++ f2). split; [by rewrite map_app|]. apply list.NoDup_app in Hnd as (N1 & N2 & N3).
    apply list.NoDup_cons in N3 as [N3 N4]. split; [apply list.NoDup_app; set_solver|]. intros h Hh.
    destruct (Hin h) as [? ?]; [set_solver|]. split; [done|]. rewrite Hq. set_solver.
  - destruct (reserve_range_ok p k b l Hwf Hac Hb Hl) as (q & Eq & Hq & Hc' & Hwf' & Hac').
    rewrite E in Eq. injection Eq as <- ->. split; cbn [fst snd]; [done|done|congruence|set_solver|].
    exists fs. split_and!; [done|done|]. set_solver.
Qed.

Lemma owned_steps s0 n k st st' :
  s0 ⊆ frame_space n -> n <= 2 ^ 52 -> rtc client_step st st' -> owned s0 n k st -> owned s0 n k st'.
Proof. intros Hs Hn. induction 1; eauto using owned_step. Qed.

(** C4: ownership.  From the boot on, on a memory whose number of frames is a multiple of eight,
    however clients allocate, give back addresses they hold and reserve ranges, the addresses held are pairwise distinct, page-aligned, inside memory, of usable
    frames and never frame 0; no frame that is held is free, so none is handed out again; and every
    client can go on: each of the calls returns, and giving back an address that is held
    succeeds. *)
Theorem pmm_ownership p0 regions storage bitmap_size max_phys :
  boot_args regions storage max_phys -> (8 | max_phys / PMM_PAGE_SIZE) ->
  exists p, pmm_init_from_map p0 regions (zlen regions) storage bitmap_size max_phys = Ret (p, true) /\
    forall q held, rtc client_step (p, []) (q, held) ->
      NoDup held /\
      (forall r, r ∈ held -> exists f, r = f * PMM_PAGE_SIZE /\ 0 < f < max_phys / PMM_PAGE_SIZE /\
         f ∈ usable_frames regions /\ f ∉ free_set q) /\
      (exists q' r, pmm_alloc_frame q = Ret (q', r) /\ r ∉ held) /\
      (forall r, r ∈ held -> exists q', pmm_free_frame q r = Ret (q', true)) /\
      (forall b l, is_u64 b -> is_u64 l -> exists q', pmm_reserve_range q b l = Ret (q', true)).
Proof.
  intros Hboot H8. destruct (boot_sim p0 regions storage bitmap_size max_phys Hboot) as (p & E & [Hwf Hac Hf Hc]).
  exists p. split; [done|]. intros q held Hrun. cbn [a_free a_count fresh_amm] in Hf, Hc.
  unfold released in Hf. rewrite stale_none, union_empty_l_L in Hf by done.
  pose proof (page_index_range max_phys (ba_max _ _ _ Hboot)) as Hn.
  set (n := max_phys / PMM_PAGE_SIZE) in *. set (s0 := (usable_frames regions ∩ frame_space n) ∖ {[0]}) in *.
  assert (s0 ⊆ frame_space n) as Hs0 by (unfold s0; set_solver).
  destruct (owned_steps s0 n (a_short (fresh_amm regions storage max_phys)) _ _ Hs0 ltac:(lia) Hrun) as [Qwf Qac Qc Qsub (fs & Hheld & Hnd & Hin)].
  { split; cbn [fst snd]; [done|exact Hac|done|by rewrite Hf|]. exists []. split_and!; [done|constructor|set_solver]. }
  cbn [fst snd] in *. subst held.
  assert (forall f, f ∈ fs -> 0 < f < n /\ f ∈ usable_frames regions /\ f ∉ free_set q) as Hfs.
  { intros f Hx. destruct (Hin f Hx) as [Hs Hno]. unfold s0 in Hs.
    rewrite elem_of_difference, elem_of_singleton, elem_of_intersection, elem_of_frame_space in Hs.
    split_and!; (done || lia || apply Hs). }
  split_and!.
  - apply NoDup_fmap; [|done]. intros a b. unfold PMM_PAGE_SIZE. lia.
  - intros r (f & -> & Hx)%list_elem_of_fmap. exists f. by split_and!; try apply Hfs.
  - destruct (alloc_frame_cases q _ Qwf Qac) as [(f & q' & Hx & _ & Eq & _)|[_ Eq]]; eexists _, _; (split; [exact Eq|]).
    + intros (g & Eg & Hg)%list_elem_of_fmap. assert (g = f) as -> by (unfold PMM_PAGE_SIZE in Eg; lia).
      by apply (Hfs f Hg).
    + intros (g & Eg & Hg)%list_elem_of_fmap. destruct (Hfs g Hg) as [? _]. unfold PMM_INVALID_FRAME, PMM_PAGE_SIZE in Eg. lia.
  - intros r (f & -> & Hx)%list_elem_of_fmap. destruct (Hfs f Hx) as (? & _ & ?).
    destruct (free_frame_cases q _ (f * PMM_PAGE_SIZE) Qwf Qac) as [(g & q' & _ & _ & _ & Eq & _)|(Hno & _)];
      [unfold PMM_PAGE_SIZE; lia|by exists q'|]. exfalso. apply Hno. exists f. split_and!; (done || lia).
  - intros b l Hb Hl. destruct (reserve_range_ok q _ b l Qwf Qac Hb Hl) as (q' & Eq & _). by exists q'.
Qed.

(** ** Witnesses: the map of the smallest machine, and a sequence with every kind of call *)

Lemma demo_boot : boot_args demo_regions [0] 0x8000.
Proof. by split; by_compute. Qed.

Definition demo_calls : list pmm_op :=
  [FreeCount; Alloc; IsFree 0x1000; Alloc; Free 0x1000; Free 0x1000; Free 0x1001; Alloc; Reserve 0x3000 0x1000; Alloc;
   Free 0x8000; UsedCount; FrameCount].


(** Two allocations, and the first address given back. *)
Lemma pmm_ownership_witness :
  exists p q, pmm_init_from_map demo_pmm demo_regions 2 [0] 1 0x8000 = Ret (p, true) /\
    rtc client_step (p, []) (q, [0x2000]) /\ exists q', pmm_free_frame q 0x2000 = Ret (q', true).
Proof.
  destruct (pmm_ownership demo_pmm demo_regions [0] 1 0x8000 demo_boot) as (p & E & H); [by exists 1|].
  assert (exists q, rtc client_step (p, []) (q, [0x2000])) as (q & Hq).
  { assert (Ret (p, true) = Ret (mk_pmm [0xF1] 8 2 6 0 true, true)) as [= ->] by (rewrite <- E; vm_compute; reflexivity).
    eexists. eapply rtc_l; [eapply (client_alloc _ _ 0x1000); [vm_compute; reflexivity|by_compute]|].
    eapply rtc_l; [eapply (client_alloc _ _ 0x2000); [vm_compute; reflexivity|by_compute]|].
    eapply rtc_l; [eapply (client_free _ _ 0x1000 _ [0x2000] []); vm_compute; reflexivity|apply rtc_refl]. }
  destruct (H q [0x2000] Hq) as (_ & _ & _ & Hfree & _). exists p, q. split; [exact E|]. split; [exact Hq|].
  apply Hfree. by left.
Defined.
