(* ===== verification/Vmm.v ===== *)
(** * Virtual memory manager (kernel/core/vmm.c)

    The manager keeps translations in a table of 256 slots.  The abstraction of the table is
    the finite map from virtual page to frame and flags; lookups refine it unconditionally,
    mapping and unmapping refine insertion and deletion as long as no page has been mapped
    twice. *)

From S2P Require Import Prelude.

(** ** Data *)

Definition VMM_PAGE_SIZE : Z := 4096.
Definition VMM_PRESENT : Z := Z.shiftl 1 0.
Definition VMM_WRITABLE : Z := Z.shiftl 1 1.
Definition VMM_SLOTS : Z := 256.

Record vmm_mapping_t : Type := mk_mapping {
  virt : Z;
  phys : Z;
  flags : Z;
  used : bool
}.

Implicit Types (g : list vmm_mapping_t) (m : vmm_mapping_t).

#[global] Instance vmm_mapping_eq_dec : EqDecision vmm_mapping_t.
Proof. solve_decision. Defined.

(** ** Operations *)

Definition vmm_is_canonical (v : Z) : bool :=
  let upper := Z.shiftr v 48 in
  (upper =? 0) || (upper =? 0xFFFF).

(** The arguments [space], [tables] and [table_count] are unused by the source. *)
Definition vmm_map_page (g : list vmm_mapping_t) (v p fl : Z)
  : exec (list vmm_mapping_t * bool) :=
  if negb (vmm_is_canonical v) then Ret (g, false)
  else if negb (Z.land v 0xFFF =? 0) then Ret (g, false)
  else if negb (Z.land p 0xFFF =? 0) then Ret (g, false)
  else
    f ← for_loop (Z.to_nat VMM_SLOTS) 0
          (fun i t =>
             m ← arr_get t i;
             if negb (used m) then
               t' ← arr_set t i (mk_mapping v p (Z.lor fl VMM_PRESENT) true);
               Ret (Exit t' true)
             else Ret (Next t)) g;
    Ret (match f with Exit t b => (t, b) | Next t => (t, false) end).

(** An out-parameter is the cell it points at, [None] for a null pointer. *)
Definition set_out (o : option Z) (v : Z) : option Z :=
  match o with Some _ => Some v | None => None end.

Definition vmm_query_page (g : list vmm_mapping_t) (v : Z) (phys_out flags_out : option Z)
  : exec (bool * option Z * option Z) :=
  f ← for_loop (Z.to_nat VMM_SLOTS) 0
        (fun i (outs : option Z * option Z) =>
           m ← arr_get g i;
           if negb (used m) then Ret (Next outs)
           else if negb (virt m =? v) then Ret (Next outs)
           else Ret (Exit (set_out (fst outs) (phys m), set_out (snd outs) (flags m)) true))
        (phys_out, flags_out);
  Ret (match f with
       | Exit (po, fo) b => (b, po, fo)
       | Next (po, fo) => (false, po, fo)
       end).

Definition vmm_unmap_page (g : list vmm_mapping_t) (v : Z) : exec (list vmm_mapping_t * bool) :=
  f ← for_loop (Z.to_nat VMM_SLOTS) 0
        (fun i t =>
           m ← arr_get t i;
           if negb (used m) then Ret (Next t)
           else if negb (virt m =? v) then Ret (Next t)
           else
             t' ← arr_set t i (mk_mapping (virt m) (phys m) (flags m) false);
             Ret (Exit t' true)) g;
  Ret (match f with Exit t b => (t, b) | Next t => (t, false) end).

(** The table as the loader leaves it: static storage, all zero. *)
Definition g_mappings_init : list vmm_mapping_t :=
  replicate (Z.to_nat VMM_SLOTS) (mk_mapping 0 0 0 false).

(** ** Abstraction *)

Definition entry (m : vmm_mapping_t) : option (Z * (Z * Z)) :=
  if used m then Some (virt m, (phys m, flags m)) else None.

Definition entries (g : list vmm_mapping_t) : list (Z * (Z * Z)) := omap entry g.

Definition mapping_of (g : list vmm_mapping_t) : gmap Z (Z * Z) := list_to_map (entries g).

(** No page has two slots in use. *)
Record vmm_wf (g : list vmm_mapping_t) : Prop := {
  vmm_slots : zlen g = VMM_SLOTS;
  vmm_unique : NoDup (entries g).*1
}.

(** A canonical address on x86_64 with 48 bits of virtual address: bits 63 to 47 agree. *)
Definition arch_canonical (v : Z) : Prop := 0 <= v < 2 ^ 47 \/ 2 ^ 64 - 2 ^ 47 <= v < 2 ^ 64.

#[global] Instance arch_canonical_dec v : Decision (arch_canonical v).
Proof. unfold arch_canonical. apply _. Defined.

(** The slot a lookup of [v] stops at. *)
Definition hits (v : Z) (m : vmm_mapping_t) : bool := used m && (virt m =? v).

(** ** The table and its map *)

Lemma entries_app g1 g2 : entries (g1 ++ g2) = entries g1 ++ entries g2.
Proof. apply omap_app. Qed.

Lemma entries_cons m g :
  entries (m :: g) = match entry m with Some e => e :: entries g | None => entries g end.
Proof. unfold entries. cbn. by destruct (entry m). Qed.

Lemma entry_used m : used m = true -> entry m = Some (virt m, (phys m, flags m)).
Proof. unfold entry. by intros ->. Qed.

Lemma entry_unused m : used m = false -> entry m = None.
Proof. unfold entry. by intros ->. Qed.

(** The map gives the first slot in use for the page. *)
Lemma mapping_of_lookup g v :
  mapping_of g !! v
  = option_map (fun kx => (phys (snd kx), flags (snd kx))) (list_find (fun m => hits v m = true) g).
Proof.
  unfold mapping_of. induction g as [|m g IH]; [done|]. rewrite entries_cons.
  unfold entry. cbn [list_find]. destruct (hits v m) eqn:E.
  - rewrite decide_True by done. unfold hits in E. zbool. rewrite H. cbn. subst.
    by rewrite lookup_insert_eq.
  - rewrite decide_False by congruence. unfold hits in E.
    destruct (used m); cbn in *; [zbool; rewrite lookup_insert_ne by done|].
    all: rewrite IH; by destruct (list_find _ g) as [[k x]|].
Qed.

Lemma mapping_of_None g v : mapping_of g !! v = None <-> v ∉ (entries g).*1.
Proof. unfold mapping_of. symmetry. apply not_elem_of_list_to_map. Qed.

Lemma mapping_of_size g : NoDup (entries g).*1 -> size (mapping_of g) = length (entries g).
Proof.
  intros H. unfold mapping_of. rewrite <- (length_fmap fst (entries g)).
  induction (entries g) as [|[a b] l IH]; [done|]. cbn in *.
  apply list.NoDup_cons in H as [Hn Hd].
  rewrite map_size_insert_None by (by apply not_elem_of_list_to_map).
  by rewrite IH.
Qed.

(** A slot taken out of use, and a slot taken into use. *)
Lemma entries_replace (g : list vmm_mapping_t) i (m m' : vmm_mapping_t) :
  arr_get g i = Ret m ->
  exists l1 l2, g = l1 ++ m :: l2 /\ <[Z.to_nat i := m']> g = l1 ++ m' :: l2 /\
    length l1 = Z.to_nat i.
Proof.
  intros H. destruct (arr_split g i m m' H) as [H1 H2].
  exists (take (Z.to_nat i) g), (drop (S (Z.to_nat i)) g). split_and!; [done|done|].
  rewrite length_take. apply arr_get_in_range in H. unfold zlen in H. lia.
Qed.

Lemma fill_slot_map g i m v p fl :
  arr_get g i = Ret m -> used m = false -> mapping_of g !! v = None ->
  let g' := <[Z.to_nat i := mk_mapping v p fl true]> g in
  mapping_of g' = <[v := (p, fl)]> (mapping_of g) /\
  (NoDup (entries g).*1 -> NoDup (entries g').*1).
Proof.
  intros Hg Hu Hv g'. apply mapping_of_None in Hv.
  destruct (entries_replace g i m (mk_mapping v p fl true) Hg) as (l1 & l2 & -> & E & _).
  subst g'. rewrite E. clear E.
  rewrite entries_app, entries_cons, entry_unused in * by done.
  rewrite fmap_app in Hv. split.
  - unfold mapping_of. rewrite !entries_app, !entries_cons, (entry_unused m) by done.
    cbn. rewrite !list_to_map_app. cbn.
    symmetry. apply insert_union_r, not_elem_of_list_to_map. set_solver.
  - rewrite entries_app, entries_cons. cbn. rewrite !fmap_app. cbn.
    rewrite !list.NoDup_app, list.NoDup_cons. set_solver.
Qed.

Lemma clear_slot_map g i m :
  arr_get g i = Ret m -> used m = true -> NoDup (entries g).*1 ->
  let g' := <[Z.to_nat i := mk_mapping (virt m) (phys m) (flags m) false]> g in
  mapping_of g' = delete (virt m) (mapping_of g) /\ NoDup (entries g').*1.
Proof.
  intros Hg Hu Hnd g'.
  destruct (entries_replace g i m (mk_mapping (virt m) (phys m) (flags m) false) Hg)
    as (l1 & l2 & -> & E & _).
  subst g'. rewrite E. clear E.
  rewrite entries_app, entries_cons, entry_used in Hnd by done.
  rewrite fmap_app in Hnd. cbn in Hnd.
  rewrite list.NoDup_app, list.NoDup_cons in Hnd. destruct Hnd as (Hn1 & Hdis & Hv2 & Hn2).
  assert (virt m ∉ (entries l1).*1) as Hv1 by set_solver. split.
  - unfold mapping_of. rewrite !entries_app, !entries_cons, (entry_used m) by done.
    cbn. rewrite !list_to_map_app. cbn. rewrite delete_union, delete_insert_eq.
    rewrite !delete_id; [done|..]; by apply not_elem_of_list_to_map.
  - rewrite entries_app, entries_cons. cbn. rewrite fmap_app, list.NoDup_app. set_solver.
Qed.

(** ** The loops as list searches *)

Lemma slots_nat g : zlen g = VMM_SLOTS -> Z.to_nat VMM_SLOTS = length g.
Proof. unfold zlen, VMM_SLOTS. lia. Qed.

Lemma search_slot g (P : vmm_mapping_t -> bool) j :
  zlen g = VMM_SLOTS ->
  find_first (fun i => match arr_get g i with Ret m => P m | Fault _ => false end)
    (Z.to_nat VMM_SLOTS) 0 = Some j ->
  exists m, arr_get g j = Ret m /\ P m = true /\
    list_find (fun m => P m = true) g = Some (Z.to_nat j, m).
Proof.
  intros Hs. rewrite (slots_nat g Hs), find_first_list.
  destruct (list_find _ g) as [[k m]|] eqn:E; [|discriminate]. cbn. intros [= <-].
  exists m. apply list_find_Some in E as (Hk & HP & Hmin). rewrite Nat2Z.id. split_and!; [|done|done].
  apply arr_get_Ret. rewrite Nat2Z.id. split; [lia|done].
Qed.

Lemma search_none g (P : vmm_mapping_t -> bool) :
  zlen g = VMM_SLOTS ->
  find_first (fun i => match arr_get g i with Ret m => P m | Fault _ => false end)
    (Z.to_nat VMM_SLOTS) 0 = None ->
  list_find (fun m => P m = true) g = None.
Proof.
  intros Hs. rewrite (slots_nat g Hs), find_first_list.
  by destruct (list_find _ g).
Qed.

(** With every slot in use there are as many entries as slots. *)
Lemma all_used_entries g :
  list_find (fun m => negb (used m) = true) g = None -> length (entries g) = length g.
Proof.
  intros H%list_find_None. induction g as [|m g IH]; [done|].
  apply Forall_cons_1 in H as [Hm Hg]. rewrite entries_cons, entry_used.
  - cbn. by rewrite IH.
  - destruct (used m); [done|]. by destruct Hm.
Qed.

Lemma entries_length g : (length (entries g) <= length g)%nat.
Proof.
  induction g as [|m g IH]; [done|]. rewrite entries_cons. destruct (entry m); cbn; lia.
Qed.

Lemma some_unused_entries g k m :
  g !! k = Some m -> used m = false -> (length (entries g) < length g)%nat.
Proof.
  revert k. induction g as [|x g IH]; intros [|k] Hk Hu; cbn in Hk; [done|done|..].
  - injection Hk as ->. rewrite entries_cons, entry_unused by done.
    cbn. pose proof (entries_length g). lia.
  - rewrite entries_cons. specialize (IH k Hk Hu). destruct (entry x); cbn; lia.
Qed.

(** ** The operations *)

(** The guards of [vmm_map_page] as one test. *)
Definition args_ok (v p : Z) : bool :=
  vmm_is_canonical v && (Z.land v 0xFFF =? 0) && (Z.land p 0xFFF =? 0).

Lemma map_page_eq g v p fl :
  zlen g = VMM_SLOTS ->
  vmm_map_page g v p fl
  = Ret (if args_ok v p then
           match find_first (fun i => match arr_get g i with
                                      | Ret m => negb (used m) | Fault _ => false end)
                   (Z.to_nat VMM_SLOTS) 0 with
           | Some j => (<[Z.to_nat j := mk_mapping v p (Z.lor fl VMM_PRESENT) true]> g, true)
           | None => (g, false)
           end
         else (g, false)).
Proof.
  intros Hs. unfold vmm_map_page, args_ok.
  destruct (vmm_is_canonical v); cbn; [|done].
  destruct (Z.land v 0xFFF =? 0); cbn; [|done].
  destruct (Z.land p 0xFFF =? 0); cbn; [|done].
  rewrite (for_loop_search (fun i => match arr_get g i with
                                     | Ret m => negb (used m) | Fault _ => false end)
    (fun j => <[Z.to_nat j := mk_mapping v p (Z.lor fl VMM_PRESENT) true]> g) (fun _ => true)).
  - cbn. by destruct (find_first _ _ _).
  - intros j Hj. destruct (arr_get_ok g j) as [m Hm]; [unfold VMM_SLOTS in *; lia|].
    rewrite Hm. cbn. destruct (used m); cbn; [done|].
    by rewrite arr_set_ok by (unfold VMM_SLOTS in *; lia).
Qed.

Lemma query_page_eq g v po fo :
  zlen g = VMM_SLOTS ->
  vmm_query_page g v po fo
  = Ret (match mapping_of g !! v with
         | Some (p, fl) => (true, set_out po p, set_out fo fl)
         | None => (false, po, fo)
         end).
Proof.
  intros Hs. unfold vmm_query_page.
  pose (at_slot j := match arr_get g j with Ret m => m | Fault _ => mk_mapping 0 0 0 false end).
  rewrite (for_loop_search (fun i => match arr_get g i with
                                     | Ret m => hits v m | Fault _ => false end)
    (fun j => (set_out po (phys (at_slot j)), set_out fo (flags (at_slot j)))) (fun _ => true)).
  - cbn. rewrite mapping_of_lookup.
    destruct (find_first _ _ _) as [j|] eqn:E.
    + apply search_slot in E as (m & Hm & _ & ->); [|done]. unfold at_slot. by rewrite Hm.
    + by rewrite (search_none g (hits v)).
  - intros j Hj. unfold at_slot.
    destruct (arr_get_ok g j) as [m Hm]; [unfold VMM_SLOTS in *; lia|].
    rewrite Hm. cbn. unfold hits. destruct (used m); cbn; [|done].
    by destruct (virt m =? v).
Qed.

Lemma unmap_page_cases g v :
  vmm_wf g ->
  exists g', vmm_unmap_page g v = Ret (g', bool_decide (is_Some (mapping_of g !! v))) /\
    mapping_of g' = delete v (mapping_of g) /\ vmm_wf g'.
Proof.
  intros [Hs Hnd]. unfold vmm_unmap_page.
  pose (cleared j := match arr_get g j with
                     | Ret m => <[Z.to_nat j := mk_mapping (virt m) (phys m) (flags m) false]> g
                     | Fault _ => g end).
  rewrite (for_loop_search (fun i => match arr_get g i with
                                     | Ret m => hits v m | Fault _ => false end)
    cleared (fun _ => true)).
  2:{ intros j Hj. unfold cleared.
      destruct (arr_get_ok g j) as [m Hm]; [unfold VMM_SLOTS in *; lia|].
      rewrite Hm. cbn. unfold hits. destruct (used m); cbn; [|done].
      destruct (virt m =? v); cbn; [|done].
      by rewrite arr_set_ok by (unfold VMM_SLOTS in *; lia). }
  cbn. destruct (find_first _ _ _) as [j|] eqn:E.
  - apply search_slot in E as (m & Hm & Hh & Hfind); [|done].
    unfold hits in Hh. zbool. subst v.
    destruct (clear_slot_map g j m Hm ltac:(done) Hnd) as [Hmap Hnd'].
    unfold cleared. rewrite Hm. eexists. split.
    + rewrite bool_decide_eq_true_2; [done|]. rewrite mapping_of_lookup, Hfind. by eexists.
    + split; [done|]. split; [|done]. by rewrite zlen_insert.
  - apply search_none in E; [|done].
    assert (mapping_of g !! v = None) as HN by (by rewrite mapping_of_lookup, E).
    exists g. rewrite HN, delete_id by done. split; [|done].
    rewrite bool_decide_eq_false_2; [done|]. by intros [? [=]].
Qed.

(** ** The theorems *)

(** Lookup.  On any table, even one with a page mapped twice, [vmm_query_page] never
    faults and returns what the map of the table says: it fails and leaves the out-parameters
    alone when the page is unmapped, and otherwise stores frame and flags through those
    out-parameters that are not null. *)
Theorem vmm_query_page_refines g v po fo :
  zlen g = VMM_SLOTS ->
  vmm_query_page g v po fo
  = Ret (match mapping_of g !! v with
         | Some (p, fl) => (true, set_out po p, set_out fo fl)
         | None => (false, po, fo)
         end).
Proof. apply query_page_eq. Qed.

(** Mapping refines insertion.  For a page not yet mapped, [vmm_map_page] fails without
    effect when an argument is bad or when 256 pages are mapped; otherwise it succeeds, adds
    the translation with the present flag, and keeps every page in one slot at most. *)
Theorem vmm_map_page_refines g v p fl :
  vmm_wf g -> mapping_of g !! v = None ->
  if args_ok v p && negb (bool_decide (size (mapping_of g) = 256%nat)) then
    exists g', vmm_map_page g v p fl = Ret (g', true) /\ vmm_wf g' /\
      mapping_of g' = <[v := (p, Z.lor fl VMM_PRESENT)]> (mapping_of g)
  else vmm_map_page g v p fl = Ret (g, false).
Proof.
  intros [Hs Hnd] Hv. rewrite (map_page_eq g v p fl Hs).
  rewrite (mapping_of_size g Hnd). pose proof (slots_nat g Hs) as Hlen.
  destruct (args_ok v p); cbn [andb]; [|done].
  destruct (find_first _ _ _) as [j|] eqn:E.
  - apply (search_slot g (fun m => negb (used m))) in E as (m & Hm & Hu & _); [|done].
    zbool. pose proof Hm as [_ Hk]%arr_get_Ret.
    pose proof (some_unused_entries _ _ _ Hk Hu).
    rewrite bool_decide_eq_false_2 by (unfold VMM_SLOTS in Hlen; lia). cbn.
    destruct (fill_slot_map g j m v p (Z.lor fl VMM_PRESENT) Hm Hu Hv) as [Hmap Hnd'].
    eexists. split; [done|]. split; [|done]. split; [by rewrite zlen_insert|auto].
  - apply (search_none g (fun m => negb (used m))), all_used_entries in E; [|done].
    rewrite bool_decide_eq_true_2; [done|]. rewrite E, <- Hlen. done.
Qed.

(** Unmapping refines deletion: it reports whether the page was mapped, and afterwards the
    page is not and no other translation has changed. *)
Theorem vmm_unmap_page_refines g v :
  vmm_wf g ->
  exists g', vmm_unmap_page g v = Ret (g', bool_decide (is_Some (mapping_of g !! v))) /\
    mapping_of g' = delete v (mapping_of g) /\ vmm_wf g'.
Proof. apply unmap_page_cases. Qed.

Lemma canonical_test v : is_u64 v -> vmm_is_canonical v = true <-> v < 2 ^ 48 \/ 2 ^ 64 - 2 ^ 48 <= v.
Proof.
  intros [H0 H1]. unfold vmm_is_canonical. rewrite Z.shiftr_div_pow2 by lia.
  rewrite orb_true_iff, !Z.eqb_eq. Z.to_euclidean_division_equations. lia.
Qed.

Lemma args_ok_true v p :
  vmm_is_canonical v = true -> v mod VMM_PAGE_SIZE = 0 -> p mod VMM_PAGE_SIZE = 0 -> args_ok v p = true.
Proof.
  intros Hc Hv Hp. unfold args_ok. change 0xFFF with (Z.ones 12). rewrite Hc, !Z.land_ones by lia.
  change (2 ^ 12) with VMM_PAGE_SIZE. by rewrite Hv, Hp.
Qed.

(** What the canonical test accepts: the addresses whose top sixteen bits are all clear or
    all set.  Every architecturally canonical address passes, and the addresses that pass
    without being canonical are exactly those whose bit 47 differs from bit 48. *)
Theorem vmm_is_canonical_spec v :
  is_u64 v ->
  (vmm_is_canonical v = true <-> v < 2 ^ 48 \/ 2 ^ 64 - 2 ^ 48 <= v) /\
  (arch_canonical v -> vmm_is_canonical v = true) /\
  (vmm_is_canonical v = true -> ~ arch_canonical v ->
     2 ^ 47 <= v < 2 ^ 48 \/ 2 ^ 64 - 2 ^ 48 <= v < 2 ^ 64 - 2 ^ 47).
Proof.
  intros Hv. pose proof (canonical_test v Hv) as E. destruct Hv as [H0 H1].
  split; [done|]. rewrite E. unfold arch_canonical. lia.
Qed.

(** ** Concrete runs *)

Lemma g_mappings_init_wf : vmm_wf g_mappings_init.
Proof. split; by_compute. Qed.

Definition one_mapping : list vmm_mapping_t :=
  <[0%nat := mk_mapping 0x400000 0x200000 (Z.lor VMM_WRITABLE VMM_PRESENT) true]> g_mappings_init.

Lemma one_mapping_wf : vmm_wf one_mapping.
Proof. split; by_compute. Qed.

Lemma vmm_query_page_witness :
  vmm_query_page one_mapping 0x400000 (Some 0) None = Ret (true, Some 0x200000, None).
Proof. rewrite (vmm_query_page_refines one_mapping); [|by_compute]. vm_compute. reflexivity. Defined.

Lemma vmm_map_page_witness :
  exists g', vmm_map_page g_mappings_init 0x400000 0x200000 VMM_WRITABLE = Ret (g', true) /\
    mapping_of g' !! 0x400000 = Some (0x200000, 3).
Proof.
  destruct (vmm_map_page_refines g_mappings_init 0x400000 0x200000 VMM_WRITABLE
              g_mappings_init_wf ltac:(by_compute)) as (g' & Hg & _ & Hm).
  exists g'. split; [done|]. rewrite Hm. by_compute.
Defined.

Lemma vmm_unmap_page_witness :
  exists g', vmm_unmap_page one_mapping 0x400000 = Ret (g', true) /\
    mapping_of g' !! 0x400000 = None.
Proof.
  destruct (vmm_unmap_page_refines one_mapping 0x400000 one_mapping_wf) as (g' & Hg & Hm & _).
  exists g'. split; [exact Hg|]. rewrite Hm. apply lookup_delete_eq.
Defined.

Lemma vmm_is_canonical_witness :
  vmm_is_canonical 0x0000800000000000 = true /\ ~ arch_canonical 0x0000800000000000.
Proof.
  split; [|by unfold arch_canonical; lia].
  destruct (vmm_is_canonical_spec 0x0000800000000000) as [[_ H] _]; [by_compute|].
  apply H. lia.
Defined.

(** Map one page twice, unmap it once, and look it up after each step. *)
Definition map_twice : exec (bool * bool * option Z * bool * option Z) :=
  '(g1, _) ← vmm_map_page g_mappings_init 0x400000 0x200000 0;
  '(g2, ok2) ← vmm_map_page g1 0x400000 0x300000 0;
  '(q2, p2, _) ← vmm_query_page g2 0x400000 (Some 0) None;
  '(g3, ok3) ← vmm_unmap_page g2 0x400000;
  '(q3, p3, _) ← vmm_query_page g3 0x400000 (Some 0) None;
  Ret (ok2, q2, p2, q3, p3).

(** A second mapping of a page is accepted, stays hidden behind the first, and takes over
    when the page is unmapped: after [vmm_unmap_page] the page still translates. *)
Theorem vmm_double_map_survives_unmap :
  map_twice = Ret (true, true, Some 0x200000, true, Some 0x300000).
Proof. vm_compute. reflexivity. Qed.
