(* ===== verification/VmmSpec.v ===== *)
(** * Sessions of the page map (kernel/core/vmm.c)

    Sequences of calls on the table of mappings, from its initial state, against a finite map from
    pages to frames and flags as the architecture and the kernel's reports want it: only canonical
    addresses are mapped, and none twice.  The code does not look whether a page is mapped already
    and its test of canonical addresses ignores bit 47, so the equivalence holds for callers that
    unmap a page before they map it again and that do not map an address of which only bit 47 is
    wrong. *)

From S2P Require Import Prelude Session Vmm.

Abbreviation pages := (gmap Z (Z * Z)).

Inductive vmm_op : Type :=
  | Map (v p fl : Z)
  | Query (v : Z) (phys_out flags_out : option Z)
  | Unmap (v : Z).

(** The truth value returned and the out-parameters, null when there are none. *)
Abbreviation answer := (bool * option Z * option Z)%type.

(** ** The abstract map *)

(** What may be mapped: a canonical, aligned address to an aligned frame. *)
Definition mappable (v p : Z) : bool :=
  bool_decide (arch_canonical v) && (v mod VMM_PAGE_SIZE =? 0) && (p mod VMM_PAGE_SIZE =? 0).

Definition astep (m : pages) (op : vmm_op) : pages * answer :=
  match op with
  | Map v p fl =>
      if mappable v p && bool_decide (m !! v = None) && negb (bool_decide (size m = 256%nat)) then
        (<[v := (p, Z.lor fl VMM_PRESENT)]> m, (true, None, None))
      else (m, (false, None, None))
  | Query v po fo =>
      (m, match m !! v with
          | Some (p, fl) => (true, set_out po p, set_out fo fl)
          | None => (false, po, fo)
          end)
  | Unmap v => (delete v m, (bool_decide (is_Some (m !! v)), None, None))
  end.

(** Addresses of 64 bits whose bits 63 to 48 agree and bit 47 does not. *)
Definition bit47_wrong (v : Z) : Prop := 2 ^ 47 <= v < 2 ^ 48 \/ 2 ^ 64 - 2 ^ 48 <= v < 2 ^ 64 - 2 ^ 47.

#[global] Instance bit47_wrong_dec v : Decision (bit47_wrong v).
Proof. unfold bit47_wrong. apply _. Defined.

(** Callers map 64-bit addresses, none with only bit 47 wrong, and no page that is mapped; requests
    that are refused anyway may name a mapped page. *)
Definition careful (m : pages) (op : vmm_op) : Prop :=
  match op with
  | Map v p _ => is_u64 v /\ ~ bit47_wrong v /\ (mappable v p = false \/ m !! v = None)
  | _ => True
  end.

#[global] Instance careful_dec m op : Decision (careful m op).
Proof. destruct op; cbn; apply _. Defined.

(** ** The same calls on the code *)

Definition vstep (g : list vmm_mapping_t) (op : vmm_op) : exec (list vmm_mapping_t * answer) :=
  match op with
  | Map v p fl => '(g', b) ← vmm_map_page g v p fl; Ret (g', (b, None, None))
  | Query v po fo => r ← vmm_query_page g v po fo; Ret (g, r)
  | Unmap v => '(g', b) ← vmm_unmap_page g v; Ret (g', (b, None, None))
  end.

(** ** Refinement *)

(** A table without double mappings, and the map it stands for. *)
Definition sim (g : list vmm_mapping_t) (m : pages) : Prop := vmm_wf g /\ mapping_of g = m.

Lemma args_mappable v p : is_u64 v -> ~ bit47_wrong v -> args_ok v p = mappable v p.
Proof.
  intros Hv Hb. unfold args_ok, mappable, VMM_PAGE_SIZE. change 0xFFF with (Z.ones 12). rewrite !Z.land_ones by lia.
  change (2 ^ 12) with 4096. do 2 f_equal. apply eq_true_iff_eq. rewrite bool_decide_eq_true, (canonical_test v Hv).
  unfold arch_canonical, bit47_wrong, is_u64 in *. lia.
Qed.

#[global] Instance vmm_refines : Refines astep vstep careful sim.
Proof.
  intros g m op [Hwf <-] Hd. pose proof (vmm_slots g Hwf) as Hs. destruct op as [v p fl|v po fo|v]; cbn [vstep astep].
  - destruct Hd as (Hv & Hb & Hd). pose proof (args_mappable v p Hv Hb) as Ea. destruct (mappable v p).
    + destruct Hd as [?|Hd]; [congruence|]. pose proof (vmm_map_page_refines g v p fl Hwf Hd) as H.
      rewrite Ea in H. rewrite (bool_decide_eq_true_2 _ Hd). cbn [andb] in *.
      destruct (negb _); [destruct H as (g' & -> & Hw & Hm)|rewrite H]; eexists; by split_and!.
    + cbn. rewrite map_page_eq by done. rewrite Ea. by exists g.
  - rewrite query_page_eq by done. by exists g.
  - destruct (unmap_page_cases g v Hwf) as (g' & -> & Hm & Hw). by exists g'.
Qed.

(** C12: from the initial table every sequence of mappings, queries and unmappings that never maps a
    page twice, nor an address of which only bit 47 is wrong, answers as a finite map of at most 256
    pages does: mapping adds the frame with the present flag, and fails for addresses that are not
    canonical or not aligned and when 256 pages are mapped; queries and unmappings report exactly
    what is mapped.  No call faults, and no page ever has two slots.  The two exceptions are where
    the code departs from that specification: it maps any aligned address of which only bit 47 is
    wrong, and it maps a page again that is mapped. *)
Theorem vmm_sessions_refine ops :
  admissible astep careful ∅ ops ->
  (exists g, code_run vstep g_mappings_init ops = Ret (g, (spec_run astep ∅ ops).2) /\ vmm_wf g /\
     mapping_of g = (spec_run astep ∅ ops).1) /\
  (forall v p fl, bit47_wrong v -> v mod VMM_PAGE_SIZE = 0 -> p mod VMM_PAGE_SIZE = 0 ->
     ~ arch_canonical v /\ exists g, vmm_map_page g_mappings_init v p fl = Ret (g, true)) /\
  (forall p fl, p mod VMM_PAGE_SIZE = 0 -> exists g, vmm_map_page one_mapping 0x400000 p fl = Ret (g, true)).
Proof.
  intros Hok. split_and!.
  - apply (session_refines astep vstep careful sim); [|done]. split; [apply g_mappings_init_wf|by_compute].
  - intros v p fl Hb Hv Hp. split; [unfold arch_canonical, bit47_wrong in *; lia|].
    rewrite map_page_eq by by_compute. rewrite args_ok_true; [by eexists| |done|done].
    apply canonical_test; unfold is_u64, bit47_wrong in *; lia.
  - intros p fl Hp. rewrite map_page_eq by by_compute. rewrite args_ok_true; [by eexists|done|done|done].
Qed.

(** ** Witness *)

Definition demo_pages : list vmm_op :=
  [Query 0x400000 (Some 5) None; Map 0x400000 0x200000 VMM_WRITABLE; Query 0x400000 (Some 0) (Some 0); Map 0x400001 0x200000 0;
   Map 0x401000 0x200001 0; Map (2 ^ 60) 0 0; Unmap 0x400000; Unmap 0x400000; Map 0x400000 0x300000 0; Query 0x400000 (Some 0) None].

Lemma vmm_sessions_witness :
  exists g, code_run vstep g_mappings_init demo_pages = Ret (g,
    [(false, Some 5, None); (true, None, None); (true, Some 0x200000, Some 3); (false, None, None); (false, None, None);
     (false, None, None); (true, None, None); (false, None, None); (true, None, None); (true, Some 0x300000, None)]).
Proof. destruct (vmm_sessions_refine demo_pages ltac:(by_compute)) as [(g & E & _) _]. exists g. exact E. Defined.
