(* ===== verification/Kmem.v ===== *)
(** * Kernel heap (kernel/mm/kmem.c)

    A first-fit allocator whose block headers live in the heap itself.  The model runs on the
    byte memory of [Mem]: a header is the 24 bytes clang lays out for [kmem_block_t] (size at
    0, free flag at 8, next pointer at 16).  The specification is a list of blocks that tile
    the heap; [kmalloc] and [kfree] are shown to refine first-fit allocation and release on
    that list, without touching the payload of any live block. *)

From S2P Require Import Prelude Mem.

(** ** Data *)

Definition KMEM_HDR : Z := 24.

Record kmem_state : Type := mk_kmem {
  kmem_mem : mem;
  g_head : Z
}.

(** ** Operations *)

Definition get_size (m : mem) (b : Z) : exec Z := load64 m b.
Definition get_free (m : mem) (b : Z) : exec bool := v ← load8 m (b + 8); Ret (negb (v =? 0)).
Definition get_next (m : mem) (b : Z) : exec Z := load64 m (b + 16).
Definition set_size (m : mem) (b v : Z) : exec mem := store64 m b v.
Definition set_free (m : mem) (b : Z) (v : bool) : exec mem := store8 m (b + 8) (b2z v).
Definition set_next (m : mem) (b v : Z) : exec mem := store64 m (b + 16) v.

Definition kmem_init (st : kmem_state) (buffer size : Z) : exec kmem_state :=
  m1 ← set_size (kmem_mem st) buffer (u64 (size - KMEM_HDR));
  m2 ← set_free m1 buffer true;
  m3 ← set_next m2 buffer 0;
  Ret (mk_kmem m3 buffer).

(** The block found: split it when more than a header would remain, and mark it used. *)
Definition kmalloc_take (m : mem) (curr csize size : Z) : exec (mem * Z) :=
  let remaining := csize - size in
  m1 ← (if KMEM_HDR <? remaining then
          let new_block := curr + KMEM_HDR + size in
          a ← set_size m new_block (remaining - KMEM_HDR);
          b ← set_free a new_block true;
          nxt ← get_next b curr;
          c ← set_next b new_block nxt;
          d ← set_next c curr new_block;
          set_size d curr size
        else Ret m);
  m2 ← set_free m1 curr false;
  Ret (m2, curr + KMEM_HDR).

(** [while (curr)]: the walk along the chain. *)
Fixpoint kmalloc_walk (fuel : nat) (m : mem) (curr size : Z) : exec (mem * Z) :=
  if curr =? 0 then Ret (m, 0)
  else
    match fuel with
    | O => Fault OutOfFuel
    | S fuel' =>
        fr ← get_free m curr;
        sz ← get_size m curr;
        if fr && (size <=? sz) then kmalloc_take m curr sz size
        else nxt ← get_next m curr; kmalloc_walk fuel' m nxt size
    end.

Definition kmalloc (fuel : nat) (st : kmem_state) (size : Z) : exec (kmem_state * Z) :=
  if size =? 0 then Ret (st, 0)
  else
    '(m', p) ← kmalloc_walk fuel (kmem_mem st) (g_head st) size;
    Ret (mk_kmem m' (g_head st), p).

Definition kfree (st : kmem_state) (ptr : Z) : exec kmem_state :=
  if ptr =? 0 then Ret st
  else
    let block := ptr - KMEM_HDR in
    m' ← set_free (kmem_mem st) block true;
    Ret (mk_kmem m' (g_head st)).

Fixpoint free_bytes_walk (fuel : nat) (m : mem) (curr total : Z) : exec Z :=
  if curr =? 0 then Ret total
  else
    match fuel with
    | O => Fault OutOfFuel
    | S fuel' =>
        fr ← get_free m curr;
        total' ← (if fr : bool then sz ← get_size m curr; Ret (u64 (total + sz)) else Ret total);
        nxt ← get_next m curr;
        free_bytes_walk fuel' m nxt total'
    end.

Definition kmem_get_free_bytes (fuel : nat) (st : kmem_state) : exec Z :=
  free_bytes_walk fuel (kmem_mem st) (g_head st) 0.

(** ** Specification: a list of blocks *)

Record kblock : Type := mk_block {
  baddr : Z;
  bsize : Z;
  bfree : bool
}.

#[global] Instance kblock_eq_dec : EqDecision kblock.
Proof. solve_decision. Defined.

Implicit Types (m : gmap Z Z) (b : kblock) (bs : list kblock).

Definition payload (b : kblock) : Z := baddr b + KMEM_HDR.

Definition set_bfree (b : kblock) (v : bool) : kblock := mk_block (baddr b) (bsize b) v.

(** First fit, with a split when the rest is larger than a header. *)
Fixpoint spec_malloc (size : Z) (bs : list kblock) : option (list kblock * Z) :=
  match bs with
  | [] => None
  | b :: bs' =>
      if bfree b && (size <=? bsize b) then
        if KMEM_HDR <? bsize b - size then
          Some (mk_block (baddr b) size false
                :: mk_block (payload b + size) (bsize b - size - KMEM_HDR) true :: bs',
                payload b)
        else Some (set_bfree b false :: bs', payload b)
      else
        match spec_malloc size bs' with
        | Some (l, p) => Some (b :: l, p)
        | None => None
        end
  end.

Definition spec_free (ptr : Z) (bs : list kblock) : list kblock :=
  map (fun b => if payload b =? ptr then set_bfree b true else b) bs.

Fixpoint free_bytes (bs : list kblock) : Z :=
  match bs with
  | [] => 0
  | b :: bs' => (if bfree b then bsize b else 0) + free_bytes bs'
  end.

(** The blocks tile [\[a, e)]: each is a header and its payload, the next follows at once. *)
Fixpoint tiled (a : Z) (bs : list kblock) (e : Z) : Prop :=
  match bs with
  | [] => a = e
  | b :: bs' => baddr b = a /\ 0 <= bsize b /\ tiled (payload b + bsize b) bs' e
  end.

Definition next_of (bs : list kblock) : Z :=
  match bs with
  | [] => 0
  | b :: _ => baddr b
  end.

(** The header of [b] in memory, with [nxt] as its next pointer. *)
Record header m b (nxt : Z) : Prop := {
  hdr_size : load64 m (baddr b) = Ret (bsize b);
  hdr_free : load8 m (baddr b + 8) = Ret (b2z (bfree b));
  hdr_next : load64 m (baddr b + 16) = Ret nxt
}.

Fixpoint headers m bs : Prop :=
  match bs with
  | [] => True
  | b :: bs' => header m b (next_of bs') /\ headers m bs'
  end.

(** The chain from [a] on that ends at [e]. *)
Record chain m (a : Z) bs (e : Z) : Prop := {
  ch_tiled : tiled a bs e;
  ch_headers : headers m bs;
  ch_valid : valid m a (e - a);
  ch_range : 0 < a /\ e < 2 ^ 64
}.

(** The heap [\[lo, hi)] holds the blocks [bs]. *)
Definition heap_rep (st : kmem_state) (lo hi : Z) bs : Prop :=
  g_head st = lo /\ bs <> [] /\ chain (kmem_mem st) lo bs hi.

(** A live block: allocated and not yet freed. *)
Definition live bs b : Prop := b ∈ bs /\ bfree b = false.

Definition in_payload b (x : Z) : Prop := payload b <= x < payload b + bsize b.

(** ** Facts on tilings *)

Lemma tiled_le bs : forall a e, tiled a bs e -> a + KMEM_HDR * zlen bs <= e.
Proof.
  induction bs as [|b bs IH]; intros a e; cbn.
  - intros ->. unfold zlen. cbn. lia.
  - intros (<- & Hs & H). apply IH in H. unfold payload, KMEM_HDR, zlen in *. cbn. lia.
Qed.

Lemma tiled_in bs : forall a e b,
  tiled a bs e -> b ∈ bs -> a <= baddr b /\ 0 <= bsize b /\ payload b + bsize b <= e.
Proof.
  induction bs as [|c bs IH]; intros a e b Ht Hb; [by apply elem_of_nil in Hb|].
  destruct Ht as (<- & Hs & Ht). apply elem_of_cons in Hb as [->|Hb].
  - apply tiled_le in Ht. pose proof (zlen_nonneg bs). unfold KMEM_HDR in *. lia.
  - destruct (IH _ _ _ Ht Hb) as (? & ? & ?). unfold payload, KMEM_HDR in *. lia.
Qed.

(** Distinct blocks of a tiling do not overlap, headers included. *)
Lemma tiled_disjoint bs : forall a e b c,
  tiled a bs e -> b ∈ bs -> c ∈ bs -> b <> c ->
  payload b + bsize b <= baddr c \/ payload c + bsize c <= baddr b.
Proof.
  induction bs as [|d bs IH]; intros a e b c Ht Hb Hc Hne; [by apply elem_of_nil in Hb|].
  destruct Ht as (<- & Hs & Ht).
  apply elem_of_cons in Hb as [->|Hb], Hc as [->|Hc]; [done|..].
  - left. by apply (tiled_in _ _ _ _ Ht) in Hc as [? _].
  - right. by apply (tiled_in _ _ _ _ Ht) in Hb as [? _].
  - by apply (IH _ _ b c Ht).
Qed.

Lemma free_bytes_bound bs : forall a e, tiled a bs e -> 0 <= free_bytes bs <= e - a.
Proof.
  induction bs as [|b bs IH]; intros a e; cbn.
  - lia.
  - intros (<- & Hs & Ht). apply IH in Ht. unfold payload, KMEM_HDR in *.
    destruct (bfree b); lia.
Qed.

(** ** Headers and memory *)

Lemma header_ext m m' b nxt :
  (forall x, baddr b <= x < baddr b + KMEM_HDR -> m' !! x = m !! x) ->
  header m b nxt -> header m' b nxt.
Proof.
  intros H [H1 H2 H3]. unfold KMEM_HDR in H. split.
  - rewrite (load64_ext m); [done|]. intros x Hx. apply H. lia.
  - apply load8_Ret. rewrite H by lia. by apply load8_Ret.
  - rewrite (load64_ext m); [done|]. intros x Hx. apply H. lia.
Qed.

Lemma headers_ext m m' bs : forall a e,
  tiled a bs e -> (forall x, a <= x -> m' !! x = m !! x) -> headers m bs -> headers m' bs.
Proof.
  induction bs as [|b bs IH]; intros a e Ht H; cbn; [done|].
  destruct Ht as (<- & Hs & Ht). intros [Hh Hr]. split.
  - apply (header_ext m); [|done]. intros x Hx. apply H. lia.
  - apply (IH _ _ Ht); [|done]. intros x Hx. apply H. unfold payload, KMEM_HDR in Hx. lia.
Qed.

Lemma get_free_header m b nxt : header m b nxt -> get_free m (baddr b) = Ret (bfree b).
Proof. intros [_ H _]. unfold get_free. rewrite H. cbn. by destruct (bfree b). Qed.

(** Changing the free flag of a header. *)
Lemma set_free_header m b nxt v :
  header m b nxt ->
  exists m', set_free m (baddr b) v = Ret m' /\ header m' (set_bfree b v) nxt /\
    same_dom m m' /\ agree_outside m m' (baddr b + 8) 1.
Proof.
  intros [H1 H2 H3]. unfold set_free.
  destruct (store8_spec m (baddr b + 8) (b2z v)) as (m' & -> & Hl & Hd & Ha).
  { intros x Hx. replace x with (baddr b + 8) by lia. apply load8_Ret in H2. eauto. }
  exists m'. split_and!; [done| |done|done]. split; cbn; [|done|].
  - rewrite (load64_ext m); [done|]. intros x Hx. apply Ha. lia.
  - rewrite (load64_ext m); [done|]. intros x Hx. apply Ha. lia.
Qed.

(** Writing a whole header where the memory is mapped. *)
Lemma write_header m a sz nxt :
  valid m a KMEM_HDR -> is_u64 sz -> is_u64 nxt ->
  exists m1 m2 m3, set_size m a sz = Ret m1 /\ set_free m1 a true = Ret m2 /\
    set_next m2 a nxt = Ret m3 /\ header m3 (mk_block a sz true) nxt /\
    same_dom m m2 /\ same_dom m m3 /\ agree_outside m m2 a 16 /\
    agree_outside m m3 a KMEM_HDR.
Proof.
  intros Hv Hs Hn. unfold KMEM_HDR in *. unfold set_size, set_free, set_next.
  destruct (store64_spec m a sz) as (m1 & -> & Hl1 & Hd1 & Ha1);
    [apply (valid_sub _ _ _ _ _ Hv); lia|done|].
  destruct (store8_spec m1 (a + 8) 1) as (m2 & E2 & Hl2 & Hd2 & Ha2);
    [rewrite <- Hd1; apply (valid_sub _ _ _ _ _ Hv); lia|].
  destruct (store64_spec m2 (a + 16) nxt) as (m3 & E3 & Hl3 & Hd3 & Ha3);
    [rewrite <- Hd2, <- Hd1; apply (valid_sub _ _ _ _ _ Hv); lia|done|].
  exists m1, m2, m3. split_and!; try done.
  - split; cbn; [|by apply load8_Ret; rewrite Ha3 by lia; apply load8_Ret|done].
    rewrite (load64_ext m1); [done|]. intros x Hx. by rewrite Ha3, Ha2 by lia.
  - by transitivity m1.
  - transitivity m1; [done|]. by transitivity m2.
  - intros x Hx. by rewrite Ha2, Ha1 by lia.
  - intros x Hx. by rewrite Ha3, Ha2, Ha1 by lia.
Qed.

(** ** One step of the allocator *)

(** The memory is unchanged outside the block's header and payload. *)
Definition untouched m m' b : Prop :=
  forall x, ~ baddr b <= x < payload b + bsize b -> m' !! x = m !! x.

(** Rewriting the header of a free block to [sz] with successor [nxt], and marking it used. *)
Lemma retarget_header m b nxt0 nxt sz :
  header m b nxt0 -> valid m (baddr b) KMEM_HDR -> is_u64 sz -> is_u64 nxt ->
  exists m1 m2 m3, set_next m (baddr b) nxt = Ret m1 /\ set_size m1 (baddr b) sz = Ret m2 /\
    set_free m2 (baddr b) false = Ret m3 /\ header m3 (mk_block (baddr b) sz false) nxt /\
    same_dom m m3 /\ agree_outside m m3 (baddr b) KMEM_HDR.
Proof.
  intros [Hs Hf Hn] Hv Hsz Hnx. unfold KMEM_HDR in *. unfold set_next, set_size.
  destruct (store64_spec m (baddr b + 16) nxt) as (m1 & -> & Hl1 & Hd1 & Ha1);
    [apply (valid_sub _ _ _ _ _ Hv); lia|done|].
  destruct (store64_spec m1 (baddr b) sz) as (m2 & E2 & Hl2 & Hd2 & Ha2);
    [rewrite <- Hd1; apply (valid_sub _ _ _ _ _ Hv); lia|done|].
  assert (header m2 (mk_block (baddr b) sz (bfree b)) nxt) as Hh.
  { split; cbn; [done|..].
    - apply load8_Ret. rewrite Ha2, Ha1 by lia. by apply load8_Ret.
    - rewrite (load64_ext m1); [done|]. intros x Hx. apply Ha2. lia. }
  destruct (set_free_header m2 _ nxt false Hh) as (m3 & E3 & Hh3 & Hd3 & Ha3). cbn in *.
  exists m1, m2, m3. split_and!; try done.
  - transitivity m1; [done|]. by transitivity m2.
  - intros x Hx. by rewrite Ha3, Ha2, Ha1 by lia.
Qed.

Lemma chain_tail m a b bs e : chain m a (b :: bs) e -> chain m (payload b + bsize b) bs e.
Proof.
  intros [(Ha & Hs & Ht) [_ Hh] Hv [H0 He]]. unfold payload, KMEM_HDR in *.
  pose proof (tiled_le _ _ _ Ht). pose proof (zlen_nonneg bs). split; try done.
  - apply (valid_sub _ _ _ _ _ Hv); lia.
  - lia.
Qed.

Lemma kmalloc_take_spec m a b bs e size :
  chain m a (b :: bs) e -> bfree b = true -> 0 < size <= bsize b ->
  exists m' bs', spec_malloc size (b :: bs) = Some (bs', payload b) /\
    kmalloc_take m (baddr b) (bsize b) size = Ret (m', payload b) /\
    chain m' a bs' e /\ next_of bs' = baddr b /\ untouched m m' b.
Proof.
  intros Hch Hfr Hsz. destruct Hch as [(Ha & Hs & Ht) [Hh Hhs] Hv [H0 He]].
  pose proof (tiled_le _ _ _ Ht) as Hle. pose proof (zlen_nonneg bs) as Hz.
  unfold kmalloc_take. cbn [spec_malloc]. rewrite Hfr, (proj2 (Z.leb_le _ _)) by lia. cbn [andb].
  destruct (Z.ltb_spec KMEM_HDR (bsize b - size)) as [Hsp|Hsp].
  - (* split *)
    assert (is_u64 (next_of bs)) as Hnx.
    { unfold is_u64, payload, KMEM_HDR in *. destruct bs as [|c bs]; cbn; [lia|].
      destruct Ht as (Hc & ? & ?). unfold zlen in *. cbn in *. lia. }
    destruct (write_header m (payload b + size) (bsize b - size - KMEM_HDR) (next_of bs))
      as (m1 & m2 & m3 & E1 & E2 & E3 & Hh3 & Hd2 & Hd3 & Ha2 & Ha3);
      [unfold payload, KMEM_HDR in *; apply (valid_sub _ _ _ _ _ Hv); lia
      |unfold is_u64, payload, KMEM_HDR in *; lia|done|].
    assert (header m3 b (next_of bs)) as Hb3.
    { apply (header_ext m); [|done]. intros x Hx. apply Ha3. unfold payload, KMEM_HDR in *. lia. }
    destruct (retarget_header m3 b (next_of bs) (payload b + size) size)
      as (m4 & m5 & m6 & E4 & E5 & E6 & Hh6 & Hd6 & Ha6);
      [done|rewrite <- Hd3; unfold payload, KMEM_HDR in *; apply (valid_sub _ _ _ _ _ Hv); lia
      |unfold is_u64, payload, KMEM_HDR in *; lia..|].
    change (baddr b + KMEM_HDR) with (payload b). rewrite E1. cbn. rewrite E2. cbn.
    assert (get_next m2 (baddr b) = Ret (next_of bs)) as ->.
    { unfold get_next. destruct Hh as [_ _ <-]. apply load64_ext. intros x Hx. apply Ha2.
      unfold payload, KMEM_HDR in *. lia. }
    cbn. rewrite E3. cbn. rewrite E4. cbn. rewrite E5. cbn. rewrite E6. cbn.
    do 2 eexists. split; [done|]. split; [done|]. split; [|split; [done|]].
    + split; [| |rewrite <- Hd6, <- Hd3; exact Hv|done].
      * cbn. unfold payload, KMEM_HDR in *. cbn.
        split_and!; [done|lia|done|lia|].
        replace (baddr b + 24 + size + 24 + (bsize b - size - 24)) with (baddr b + 24 + bsize b) by lia.
        done.
      * cbn. split; [done|]. split.
        { apply (header_ext m3); [|done]. cbn. intros x Hx. apply Ha6.
          unfold payload, KMEM_HDR in *. lia. }
        { apply (headers_ext m _ _ _ _ Ht); [|done]. intros x Hx.
          unfold payload, KMEM_HDR in *. by rewrite Ha6, Ha3 by lia. }
    + intros x Hx. unfold payload, KMEM_HDR in *. by rewrite Ha6, Ha3 by lia.
  - (* take the block whole *)
    cbn [mbind exec_bind].
    destruct (set_free_header m b (next_of bs) false Hh) as (m' & -> & Hh' & Hd & Hag).
    cbn. do 2 eexists. split; [done|]. split; [done|]. split; [|split; [done|]].
    + split; [done| |rewrite <- Hd; exact Hv|done]. cbn. split; [done|].
      apply (headers_ext m _ _ _ _ Ht); [|done]. intros x Hx. apply Hag.
      unfold payload, KMEM_HDR in *. lia.
    + intros x Hx. apply Hag. unfold payload, KMEM_HDR in *. lia.
Qed.

(** ** The walk *)

Lemma spec_malloc_next size bs bs' p :
  spec_malloc size bs = Some (bs', p) -> next_of bs' = next_of bs /\ bs' <> [].
Proof.
  destruct bs as [|b bs]; [done|]. cbn.
  destruct (bfree b && (size <=? bsize b)).
  - destruct (KMEM_HDR <? bsize b - size); by intros [= <- <-].
  - destruct (spec_malloc size bs) as [[l q]|]; [|done]. by intros [= <- <-].
Qed.

Lemma kmalloc_walk_spec size bs : forall m a e fuel,
  chain m a bs e -> 0 < size -> (length bs <= fuel)%nat ->
  match spec_malloc size bs with
  | Some (bs', p) =>
      exists m' b, kmalloc_walk fuel m (next_of bs) size = Ret (m', p) /\
        chain m' a bs' e /\ b ∈ bs /\ bfree b = true /\ size <= bsize b /\ p = payload b /\
        untouched m m' b
  | None => kmalloc_walk fuel m (next_of bs) size = Ret (m, 0)
  end.
Proof.
  induction bs as [|b bs IH]; intros m a e fuel Hch Hsz Hfuel.
  { destruct fuel; done. }
  destruct fuel as [|fuel]; [cbn in Hfuel; lia|]. cbn [length] in Hfuel.
  pose proof Hch as [(Hba & Hbs & Ht) [Hh Hhs] Hv [H0 He]].
  cbn [kmalloc_walk next_of]. rewrite (proj2 (Z.eqb_neq (baddr b) 0)) by lia.
  rewrite (get_free_header _ _ _ Hh). cbn [mbind exec_bind].
  unfold get_size. rewrite (hdr_size _ _ _ Hh). cbn [mbind exec_bind].
  destruct (bfree b && (size <=? bsize b)) eqn:Ehit.
  - zbool. destruct (kmalloc_take_spec m a b bs e size Hch) as (m' & bs' & -> & -> & ? & _ & ?);
      [done|lia|]. exists m', b. split_and!; try done. apply elem_of_cons. auto.
  - cbn [spec_malloc]. rewrite Ehit. unfold get_next. rewrite (hdr_next _ _ _ Hh).
    cbn [mbind exec_bind].
    specialize (IH m _ e fuel (chain_tail _ _ _ _ _ Hch) Hsz ltac:(lia)).
    destruct (spec_malloc size bs) as [[bs' p]|] eqn:Es; [|done].
    destruct IH as (m' & c & Hw & Hch' & Hc & Hcf & Hcs & Hp & Hun).
    exists m', c. split; [done|]. split; [|split_and!; try done; apply elem_of_cons; auto].
    destruct Hch' as [Ht' Hh' Hv' _].
    assert (forall x, x < payload b + bsize b -> m' !! x = m !! x) as Hlow.
    { intros x Hx. apply Hun. destruct (tiled_in _ _ _ _ Ht Hc). lia. }
    assert (same_dom m m') as Hdom.
    { intros x. destruct (decide (baddr c <= x < payload c + bsize c)) as [Hin|Hout].
      - destruct (tiled_in _ _ _ _ Ht Hc). split; intros _.
        + apply Hv. unfold payload, KMEM_HDR in *. lia.
        + apply Hv'. unfold payload, KMEM_HDR in *. lia.
      - by rewrite Hun. }
    split; [done| |rewrite <- Hdom; exact Hv|done].
    cbn. destruct (spec_malloc_next _ _ _ _ Es) as [-> _]. split; [|done].
    apply (header_ext m); [|done]. intros x Hx. apply Hlow. unfold payload. lia.
Qed.

(** What first fit does to the list: one free block of sufficient size is used, possibly
    split; everything else stays. *)
Lemma spec_malloc_None size bs :
  spec_malloc size bs = None <-> (forall b, b ∈ bs -> bfree b = true -> bsize b < size).
Proof.
  induction bs as [|b bs IH]; cbn.
  - split; [|done]. intros _ b Hb. by apply elem_of_nil in Hb.
  - destruct (bfree b && (size <=? bsize b)) eqn:E.
    + zbool. split.
      * destruct (KMEM_HDR <? bsize b - size); done.
      * intros H'. specialize (H' b ltac:(apply elem_of_cons; auto) ltac:(done)). lia.
    + destruct (spec_malloc size bs) as [[l q]|]; split; try done.
      * intros H'. exfalso.
        assert (Some (l, q) = None) as [=]. apply IH. intros c Hc. apply H'. apply elem_of_cons. auto.
      * intros _ c Hc Hf. apply elem_of_cons in Hc as [->|Hc]; [|by apply IH].
        rewrite Hf in E. cbn in E. zbool. lia.
Qed.

Lemma spec_malloc_live size bs : forall bs' p a e,
  tiled a bs e -> 0 < size -> spec_malloc size bs = Some (bs', p) ->
  exists nb, payload nb = p /\ size <= bsize nb /\ live bs' nb /\
    (forall b, live bs' b <-> b = nb \/ live bs b).
Proof.
  induction bs as [|b bs IH]; intros bs' p a e Ht Hsz; cbn; [done|].
  destruct Ht as (_ & Hs & Ht). destruct (bfree b && (size <=? bsize b)) eqn:E.
  - zbool. destruct (KMEM_HDR <? bsize b - size).
    + intros [= <- <-]. eexists (mk_block (baddr b) size false). split_and!; try done.
      * unfold live. rewrite elem_of_cons. auto.
      * intros c. unfold live. rewrite !elem_of_cons. split.
        { intros [[->|[->|Hc]] Hf]; [auto|done|auto]. }
        { intros [->|[[->|Hc] Hf]]; [auto|congruence|auto]. }
    + intros [= <- <-]. exists (set_bfree b false). split_and!; try done.
      * unfold live. rewrite elem_of_cons. auto.
      * intros c. unfold live. rewrite !elem_of_cons. split.
        { intros [[->|Hc] Hf]; auto. }
        { intros [->|[[->|Hc] Hf]]; [auto|congruence|auto]. }
  - destruct (spec_malloc size bs) as [[l q]|] eqn:Es; [|done]. intros [= <- <-].
    destruct (IH l q _ _ Ht Hsz eq_refl) as (nb & Hp & Hn & Hl & Hiff).
    exists nb. split_and!; try done.
    + destruct Hl. split; [apply elem_of_cons; auto|done].
    + intros c. specialize (Hiff c). unfold live in *. rewrite !elem_of_cons. naive_solver.
Qed.

(** The pointer returned is that of a block that was free. *)
Lemma spec_malloc_from_free size bs bs' p :
  spec_malloc size bs = Some (bs', p) -> exists b, b ∈ bs /\ bfree b = true /\ payload b = p.
Proof.
  revert bs'. induction bs as [|b bs IH]; intros bs'; cbn; [done|].
  destruct (bfree b && (size <=? bsize b)) eqn:E.
  - zbool. intros Hs. exists b. rewrite elem_of_cons. split_and!; [by left|done|].
    destruct (KMEM_HDR <? bsize b - size); by injection Hs.
  - destruct (spec_malloc size bs) as [[l q]|] eqn:Es; [|done]. intros [= <- <-].
    destruct (IH l eq_refl) as (c & Hc & ?). exists c. rewrite elem_of_cons. auto.
Qed.

Lemma spec_malloc_fresh size bs bs' p a e :
  tiled a bs e -> spec_malloc size bs = Some (bs', p) -> forall b, live bs b -> payload b <> p.
Proof.
  intros Ht Hs b [Hb Hf] E. destruct (spec_malloc_from_free _ _ _ _ Hs) as (c & Hc & Hcf & Hp).
  destruct (tiled_disjoint _ _ _ b c Ht Hb Hc) as [Hd|Hd]; [congruence|..];
    destruct (tiled_in _ _ _ _ Ht Hb), (tiled_in _ _ _ _ Ht Hc); unfold payload, KMEM_HDR in *; lia.
Qed.

(** ** Release *)

Lemma spec_free_cons ptr b bs :
  spec_free ptr (b :: bs)
  = (if payload b =? ptr then set_bfree b true else b) :: spec_free ptr bs.
Proof. reflexivity. Qed.

Lemma next_of_spec_free ptr bs : next_of (spec_free ptr bs) = next_of bs.
Proof. destruct bs as [|b bs]; cbn; [done|]. by destruct (payload b =? ptr). Qed.

Lemma spec_free_id ptr bs : forall a e,
  tiled a bs e -> ptr < a + KMEM_HDR -> spec_free ptr bs = bs.
Proof.
  induction bs as [|b bs IH]; intros a e; cbn; [done|]. intros (<- & Hs & Ht) Hp.
  rewrite (proj2 (Z.eqb_neq (payload b) ptr)) by (unfold payload; lia).
  f_equal. apply (IH _ _ Ht). unfold payload, KMEM_HDR in *. lia.
Qed.

Lemma set_free_chain bs : forall m a e b,
  chain m a bs e -> b ∈ bs ->
  exists m', set_free m (baddr b) true = Ret m' /\ chain m' a (spec_free (payload b) bs) e /\
    agree_outside m m' (baddr b + 8) 1.
Proof.
  induction bs as [|c bs IH]; intros m a e b Hch Hb; [by apply elem_of_nil in Hb|].
  pose proof Hch as [(Hca & Hcs & Ht) [Hh Hhs] Hv Hr].
  apply elem_of_cons in Hb as [->|Hb].
  - destruct (set_free_header m c _ true Hh) as (m' & -> & Hh' & Hd & Ha).
    exists m'. split; [done|]. split; [|done].
    rewrite spec_free_cons, Z.eqb_refl.
    rewrite (spec_free_id _ _ _ _ Ht) by (unfold payload, KMEM_HDR in *; lia).
    split; [done| |rewrite <- Hd; exact Hv|done]. cbn. split; [done|].
    apply (headers_ext m _ _ _ _ Ht); [|done]. intros x Hx. apply Ha.
    unfold payload, KMEM_HDR in *. lia.
  - destruct (IH m _ e b (chain_tail _ _ _ _ _ Hch) Hb) as (m' & -> & [Ht' Hh' Hv' _] & Ha).
    exists m'. split; [done|]. split; [|done]. destruct (tiled_in _ _ _ _ Ht Hb) as [Hge _].
    rewrite spec_free_cons, (proj2 (Z.eqb_neq (payload c) (payload b)))
      by (unfold payload, KMEM_HDR in *; lia).
    split; [done| | |done].
    + cbn. rewrite next_of_spec_free. split; [|done]. apply (header_ext m); [|done].
      intros x Hx. apply Ha. unfold payload, KMEM_HDR in *. lia.
    + intros x Hx. destruct (decide (baddr b + 8 <= x < baddr b + 8 + 1)).
      * apply Hv'. lia.
      * rewrite Ha by done. by apply Hv.
Qed.

Lemma live_spec_free a e bs b c :
  tiled a bs e -> b ∈ bs -> live (spec_free (payload b) bs) c <-> live bs c /\ c <> b.
Proof.
  intros Ht Hb. unfold live, spec_free. rewrite list_elem_of_fmap. split.
  - intros [(d & -> & Hd) Hf]. destruct (Z.eqb_spec (payload d) (payload b)); [done|].
    split; [done|]. congruence.
  - intros [[Hc Hf] Hne]. split; [|done]. exists c. split; [|done].
    destruct (Z.eqb_spec (payload c) (payload b)) as [E|]; [|done].
    destruct (tiled_disjoint _ _ _ b c Ht Hb Hc ltac:(done)) as [Hd|Hd];
      destruct (tiled_in _ _ _ _ Ht Hb) as (? & ? & ?), (tiled_in _ _ _ _ Ht Hc) as (? & ? & ?);
      unfold payload, KMEM_HDR in *; lia.
Qed.

(** ** Counting *)

Lemma free_bytes_walk_spec bs : forall m a e fuel total,
  chain m a bs e -> 0 <= total -> total + (e - a) < 2 ^ 64 -> (length bs <= fuel)%nat ->
  free_bytes_walk fuel m (next_of bs) total = Ret (total + free_bytes bs).
Proof.
  induction bs as [|b bs IH]; intros m a e fuel total Hch H0 Hmax Hfuel.
  { destruct fuel; cbn; f_equal; lia. }
  destruct fuel as [|fuel]; [cbn in Hfuel; lia|]. cbn [length] in Hfuel.
  pose proof Hch as [(Hba & Hbs & Ht) [Hh Hhs] Hv [Ha He]].
  pose proof (tiled_le _ _ _ Ht). pose proof (zlen_nonneg bs). unfold payload, KMEM_HDR in *.
  cbn [free_bytes_walk next_of]. rewrite (proj2 (Z.eqb_neq (baddr b) 0)) by lia.
  rewrite (get_free_header _ _ _ Hh). cbn [mbind exec_bind].
  unfold get_size, get_next. rewrite (hdr_size _ _ _ Hh), (hdr_next _ _ _ Hh).
  cbn [free_bytes]. destruct (bfree b); cbn [mbind exec_bind].
  - rewrite u64_small by (unfold is_u64; lia).
    rewrite (IH m _ e) by (eauto using chain_tail; unfold payload, KMEM_HDR; lia).
    f_equal. lia.
  - rewrite (IH m _ e) by (eauto using chain_tail; unfold payload, KMEM_HDR; lia).
    f_equal.
Qed.

(** Fuel in proportion to the heap is enough: a block is at least a header long. *)
Lemma heap_fuel a e bs fuel :
  tiled a bs e -> e - a < KMEM_HDR * Z.of_nat fuel -> (length bs <= fuel)%nat.
Proof. intros Ht%tiled_le Hf. unfold zlen, KMEM_HDR in *. lia. Qed.

(** ** Calls on a well-formed heap *)

Lemma kmalloc_cases fuel st lo hi bs size :
  heap_rep st lo hi bs -> 0 < size -> hi - lo < KMEM_HDR * Z.of_nat fuel ->
  match spec_malloc size bs with
  | Some (bs', p) =>
      exists st', kmalloc fuel st size = Ret (st', p) /\ heap_rep st' lo hi bs' /\ p <> 0 /\
        (forall b x, live bs b -> in_payload b x -> kmem_mem st' !! x = kmem_mem st !! x)
  | None => kmalloc fuel st size = Ret (st, 0)
  end.
Proof.
  intros (Hg & Hne & Hch) Hsz Hfuel. unfold kmalloc.
  rewrite (proj2 (Z.eqb_neq size 0)) by lia.
  assert (g_head st = next_of bs) as Hgn.
  { rewrite Hg. destruct bs as [|b bs]; [done|]. by destruct Hch as [(<- & _) _ _ _]. }
  pose proof (kmalloc_walk_spec size bs (kmem_mem st) lo hi fuel Hch Hsz
                (heap_fuel _ _ _ _ (ch_tiled _ _ _ _ Hch) Hfuel)) as H.
  rewrite <- Hgn in H. destruct (spec_malloc size bs) as [[bs' p]|] eqn:Es.
  - destruct H as (m' & b & -> & Hch' & Hb & Hbf & _ & Hp & Hun).
    destruct (spec_malloc_next _ _ _ _ Es) as [Hn Hne'].
    pose proof Hch as [Ht _ _ [Hlo _]]. destruct (tiled_in _ _ _ _ Ht Hb) as (? & _ & _).
    cbn. eexists. split; [done|]. split; [|split].
    + by split.
    + rewrite Hp. unfold payload, KMEM_HDR. lia.
    + intros c x [Hc Hcf] Hx. cbn. apply Hun. intros Hin.
      destruct (tiled_in _ _ _ _ Ht Hc) as (? & ? & ?).
      destruct (tiled_disjoint _ _ _ b c Ht Hb Hc) as [Hd|Hd];
        [congruence|unfold in_payload, payload, KMEM_HDR in *; lia..].
  - rewrite H. by destruct st.
Qed.

Lemma kfree_cases st lo hi bs b :
  heap_rep st lo hi bs -> b ∈ bs ->
  exists st', kfree st (payload b) = Ret st' /\
    heap_rep st' lo hi (spec_free (payload b) bs) /\
    (forall x, x <> baddr b + 8 -> kmem_mem st' !! x = kmem_mem st !! x).
Proof.
  intros (Hg & Hne & Hch) Hb. destruct (tiled_in _ _ _ _ (ch_tiled _ _ _ _ Hch) Hb) as [Hlo _].
  destruct Hch as [Ht Hh Hv [H0 He]] eqn:E. clear E. unfold kfree.
  rewrite (proj2 (Z.eqb_neq (payload b) 0)) by (unfold payload, KMEM_HDR; lia).
  replace (payload b - KMEM_HDR) with (baddr b) by (unfold payload; lia).
  destruct (set_free_chain bs (kmem_mem st) lo hi b Hch Hb) as (m' & -> & Hch' & Ha).
  cbn. eexists. split; [done|]. split.
  - split_and!; [done| |done]. by destruct bs.
  - intros x Hx. apply Ha. lia.
Qed.

(** ** What a client of the heap may rely on

    The interface the thread module uses: allocation either fails and changes nothing, or
    returns a non-null pointer to a fresh range that overlaps no range handed out before. *)

Class HeapInterface (H : Type) : Type := {
  heap_ok : H -> Prop;
  heap_ranges : H -> Z -> Z -> Prop;
  heap_alloc : H -> Z -> exec (H * Z);
  heap_alloc_spec : forall h size, heap_ok h -> 0 < size < 2 ^ 64 ->
    exists h' p, heap_alloc h size = Ret (h', p) /\ heap_ok h' /\
      ((p = 0 /\ h' = h) \/
       (p <> 0 /\ (exists n, size <= n /\ heap_ranges h' p n) /\
        (forall q n, heap_ranges h q n ->
           heap_ranges h' q n /\ (q + n <= p \/ p + size <= q))))
}.

(** The heap of this file, with its blocks as ghost state and fuel from its extent. *)
Record kheap : Type := mk_kheap {
  kh_state : kmem_state;
  kh_lo : Z;
  kh_hi : Z
}.

Definition kh_fuel (h : kheap) : nat := Z.to_nat (kh_hi h - kh_lo h + 1).

Definition kheap_ok (h : kheap) : Prop :=
  exists bs, heap_rep (kh_state h) (kh_lo h) (kh_hi h) bs.

(** [p] points at [n] bytes that are allocated. *)
Definition kheap_ranges (h : kheap) (p n : Z) : Prop :=
  exists bs b, heap_rep (kh_state h) (kh_lo h) (kh_hi h) bs /\ live bs b /\
    p = payload b /\ n = bsize b.

Definition kheap_alloc (h : kheap) (size : Z) : exec (kheap * Z) :=
  '(st, p) ← kmalloc (kh_fuel h) (kh_state h) size;
  Ret (mk_kheap st (kh_lo h) (kh_hi h), p).

Lemma kh_fuel_enough h bs :
  heap_rep (kh_state h) (kh_lo h) (kh_hi h) bs ->
  kh_hi h - kh_lo h < KMEM_HDR * Z.of_nat (kh_fuel h).
Proof.
  intros (_ & _ & [Ht%tiled_le _ _ _]). pose proof (zlen_nonneg bs).
  unfold kh_fuel, KMEM_HDR in *. lia.
Qed.

(** The blocks of a heap are determined by its memory. *)
Lemma headers_unique m bs1 : forall bs2 a e,
  tiled a bs1 e -> tiled a bs2 e -> headers m bs1 -> headers m bs2 ->
  0 < a -> bs1 <> [] -> bs2 <> [] -> bs1 = bs2.
Proof.
  induction bs1 as [|b bs1 IH]; intros bs2 a e H1 H2 Hh1 Hh2 Ha Hn1 Hn2; [done|].
  destruct bs2 as [|c bs2]; [done|].
  destruct H1 as (Hb & Hbs & Ht1), H2 as (Hc & Hcs & Ht2).
  destruct Hh1 as [[S1 F1 N1] Hr1], Hh2 as [[S2 F2 N2] Hr2].
  rewrite Hb in *. rewrite Hc in *.
  assert (b = c) as ->.
  { destruct b as [ba bz bf], c as [ca cz cf]. cbn in *. subst.
    rewrite S1 in S2. injection S2 as ->. rewrite F1 in F2. injection F2 as E.
    destruct bf, cf; cbn in E; (done || discriminate). }
  f_equal. rewrite N1 in N2. injection N2 as E. unfold payload, KMEM_HDR in *.
  destruct bs1 as [|b1 bs1], bs2 as [|c1 bs2]; [done|..].
  - exfalso. cbn in E. destruct Ht2 as (? & _). lia.
  - exfalso. cbn in E. destruct Ht1 as (? & _). lia.
  - apply (IH (c1 :: bs2) _ _ Ht1 Ht2); try done. lia.
Qed.

Lemma heap_rep_unique st lo hi bs1 bs2 :
  heap_rep st lo hi bs1 -> heap_rep st lo hi bs2 -> bs1 = bs2.
Proof.
  intros (_ & Hn1 & [Ht1 Hh1 _ [H0 _]]) (_ & Hn2 & [Ht2 Hh2 _ _]).
  by apply (headers_unique (kmem_mem st) bs1 bs2 lo hi).
Qed.

#[global] Program Instance kheap_interface : HeapInterface kheap := {|
  heap_ok := kheap_ok;
  heap_ranges := kheap_ranges;
  heap_alloc := kheap_alloc
|}.
Next Obligation.
  intros [st lo hi] size [bs Hrep] [Hs0 _]. cbn in *.
  pose proof (kmalloc_cases (kh_fuel (mk_kheap st lo hi)) st lo hi bs size Hrep Hs0
                (kh_fuel_enough (mk_kheap st lo hi) bs Hrep)) as H.
  unfold kheap_alloc. cbn [kh_state kh_lo kh_hi].
  destruct (spec_malloc size bs) as [[bs' p]|] eqn:Es.
  - destruct H as (st' & -> & Hrep' & Hp & _). cbn.
    eexists _, p. split; [done|]. split; [by exists bs'|]. right. split; [done|].
    pose proof Hrep as (_ & _ & [Ht _ _ _]). pose proof Hrep' as (_ & _ & [Ht' _ _ _]).
    destruct (spec_malloc_live _ _ _ _ _ _ Ht Hs0 Es) as (nb & <- & Hsz & Hl & Hiff).
    split; [exists (bsize nb); split; [done|]; by exists bs', nb|].
    intros q n (bs2 & b & Hrep2 & Hb & -> & ->).
    rewrite (heap_rep_unique _ _ _ _ _ Hrep2 Hrep) in Hb.
    pose proof (proj2 (Hiff b) (or_intror Hb)) as Hb'.
    split; [by exists bs', b|]. destruct Hl as [Hnb _], Hb' as [Hb1 _].
    destruct (decide (b = nb)) as [->|Hne].
    + exfalso. apply (spec_malloc_fresh _ _ _ _ _ _ Ht Es nb Hb). reflexivity.
    + destruct (tiled_disjoint _ _ _ b nb Ht' Hb1 Hnb Hne); unfold payload, KMEM_HDR in *; lia.
  - rewrite H. cbn. exists (mk_kheap st lo hi), 0. split; [done|]. split; [by exists bs|by left].
Qed.

Lemma kmem_init_ok st buffer size :
  valid (kmem_mem st) buffer size -> 0 < buffer -> KMEM_HDR <= size -> buffer + size < 2 ^ 64 ->
  exists st', kmem_init st buffer size = Ret st' /\
    heap_rep st' buffer (buffer + size) [mk_block buffer (size - KMEM_HDR) true].
Proof.
  intros Hv H0 Hs He. unfold kmem_init.
  assert (u64 (size - KMEM_HDR) = size - KMEM_HDR) as ->
    by (apply u64_small; unfold is_u64, KMEM_HDR in *; lia).
  destruct (write_header (kmem_mem st) buffer (size - KMEM_HDR) 0)
    as (m1 & m2 & m3 & E1 & E2 & E3 & Hh & _ & Hd & _ & _);
    [apply (valid_sub _ _ _ _ _ Hv); lia|unfold is_u64, KMEM_HDR in *; lia|by unfold is_u64|].
  rewrite E1. cbn. rewrite E2. cbn. rewrite E3. cbn. eexists. split; [done|].
  split_and!; [done|done|]. split; cbn.
  - unfold payload. cbn. unfold KMEM_HDR in *. split_and!; lia.
  - done.
  - rewrite <- Hd. by replace (buffer + size - buffer) with size by lia.
  - lia.
Qed.

(** ** The theorems *)

(** Initialisation turns any mapped buffer of at least one header into a well-formed heap
    of a single free block. *)
Theorem kmem_init_establishes st buffer size :
  valid (kmem_mem st) buffer size -> 0 < buffer -> KMEM_HDR <= size -> buffer + size < 2 ^ 64 ->
  exists st', kmem_init st buffer size = Ret st' /\
    heap_rep st' buffer (buffer + size) [mk_block buffer (size - KMEM_HDR) true].
Proof. apply kmem_init_ok. Qed.

(** C8: [kmalloc] refines first fit.  On a well-formed heap, with fuel in proportion to its
    size, it never faults or runs out of fuel; it returns null and changes nothing exactly
    when no free block is large enough, and otherwise returns the block the specification
    chooses, leaves a well-formed heap with the specified blocks, and no byte of any live
    payload has changed. *)
Theorem kmalloc_refines_first_fit fuel st lo hi bs size :
  heap_rep st lo hi bs -> 0 < size -> hi - lo < KMEM_HDR * Z.of_nat fuel ->
  match spec_malloc size bs with
  | Some (bs', p) =>
      exists st', kmalloc fuel st size = Ret (st', p) /\ heap_rep st' lo hi bs' /\ p <> 0 /\
        (forall b x, live bs b -> in_payload b x -> kmem_mem st' !! x = kmem_mem st !! x)
  | None => kmalloc fuel st size = Ret (st, 0) /\
            forall b, b ∈ bs -> bfree b = true -> bsize b < size
  end.
Proof.
  intros Hrep Hs Hf. pose proof (kmalloc_cases fuel st lo hi bs size Hrep Hs Hf) as H.
  destruct (spec_malloc size bs) as [[bs' p]|] eqn:E; [done|].
  split; [done|]. by apply spec_malloc_None.
Qed.

(** What a successful [kmalloc] hands out is the caller's alone: at least as many bytes as
    asked for, inside the heap, clear of the header and payload of every other live block,
    and all blocks that were live stay live. *)
Theorem kmalloc_isolates fuel st lo hi bs size st' p :
  heap_rep st lo hi bs -> 0 < size -> hi - lo < KMEM_HDR * Z.of_nat fuel ->
  kmalloc fuel st size = Ret (st', p) -> p <> 0 ->
  exists bs' nb, heap_rep st' lo hi bs' /\ live bs' nb /\ payload nb = p /\ size <= bsize nb /\
    lo + KMEM_HDR <= p /\ p + bsize nb <= hi /\
    (forall b, live bs b -> live bs' b /\
       (payload b + bsize b <= baddr nb \/ p + bsize nb <= baddr b)).
Proof.
  intros Hrep Hs Hf Hk Hp. pose proof (kmalloc_cases fuel st lo hi bs size Hrep Hs Hf) as H.
  destruct (spec_malloc size bs) as [[bs' q]|] eqn:E; [|congruence].
  destruct H as (st1 & Hk1 & Hrep' & _). rewrite Hk in Hk1. injection Hk1 as <- <-.
  pose proof Hrep as (_ & _ & [Ht _ _ _]). pose proof Hrep' as (_ & _ & [Ht' _ _ _]).
  destruct (spec_malloc_live _ _ _ _ _ _ Ht Hs E) as (nb & <- & Hsz & Hl & Hiff).
  exists bs', nb. pose proof (tiled_in _ _ _ _ Ht' (proj1 Hl)) as (? & _ & ?).
  split_and!; try done; [unfold payload in *; lia|].
  intros b Hb. pose proof (proj2 (Hiff b) (or_intror Hb)) as Hb'. split; [done|].
  apply (tiled_disjoint _ _ _ b nb Ht'); [by destruct Hb'|by destruct Hl|].
  intros ->. by apply (spec_malloc_fresh _ _ _ _ _ _ Ht E nb Hb).
Qed.

(** C20: [kfree] of a live block makes exactly that block free: the heap stays well formed, the
    other live blocks stay live, and the only byte that may change is the block's free flag. *)
Theorem kfree_releases st lo hi bs b :
  heap_rep st lo hi bs -> live bs b ->
  exists st', kfree st (payload b) = Ret st' /\
    heap_rep st' lo hi (spec_free (payload b) bs) /\
    (forall c, live (spec_free (payload b) bs) c <-> live bs c /\ c <> b) /\
    (forall x, x <> baddr b + 8 -> kmem_mem st' !! x = kmem_mem st !! x).
Proof.
  intros Hrep [Hb _]. destruct (kfree_cases st lo hi bs b Hrep Hb) as (st' & Hk & Hrep' & Hx).
  exists st'. split_and!; try done. intros c. pose proof Hrep as (_ & _ & [Ht _ _ _]).
  by apply (live_spec_free lo hi).
Qed.

(** Memory that has been freed can be allocated again: after [kfree] of a live block, a
    request of at most its size succeeds. *)
Theorem kfree_then_kmalloc fuel st lo hi bs b st1 size :
  heap_rep st lo hi bs -> live bs b -> kfree st (payload b) = Ret st1 ->
  0 < size <= bsize b -> hi - lo < KMEM_HDR * Z.of_nat fuel ->
  exists st2 p, kmalloc fuel st1 size = Ret (st2, p) /\ p <> 0.
Proof.
  intros Hrep [Hb _] Hk Hs Hf. destruct (kfree_cases st lo hi bs b Hrep Hb) as (st' & Hk' & Hrep' & _).
  rewrite Hk in Hk'. injection Hk' as <-.
  pose proof (kmalloc_cases fuel st1 lo hi _ size Hrep' ltac:(lia) Hf) as H.
  destruct (spec_malloc size (spec_free (payload b) bs)) as [[bs' p]|] eqn:E.
  - destruct H as (st2 & ? & _ & ? & _). by exists st2, p.
  - exfalso. rewrite spec_malloc_None in E.
    specialize (E (set_bfree b true)). cbn in E. enough (bsize b < size) by lia.
    apply E; [|done]. unfold spec_free. apply list_elem_of_fmap. exists b.
    by rewrite Z.eqb_refl.
Qed.

(** [kmem_get_free_bytes] returns the sum of the sizes of the free blocks, without
    overflow. *)
Theorem kmem_get_free_bytes_correct fuel st lo hi bs :
  heap_rep st lo hi bs -> hi - lo < KMEM_HDR * Z.of_nat fuel ->
  kmem_get_free_bytes fuel st = Ret (free_bytes bs) /\ free_bytes bs <= hi - lo.
Proof.
  intros (Hg & Hne & Hch) Hf. pose proof Hch as [Ht _ _ [H0 He]].
  split; [|by apply (free_bytes_bound _ _ _ Ht)]. unfold kmem_get_free_bytes.
  assert (g_head st = next_of bs) as ->.
  { rewrite Hg. destruct bs as [|b bs]; [done|]. by destruct Ht as (<- & _). }
  rewrite (free_bytes_walk_spec bs _ lo hi) by (done || lia || by apply (heap_fuel lo hi)).
  done.
Qed.

(** ** Concrete runs *)

(** A heap of 128 bytes at address 4096. *)
Definition demo_heap_mem : mem := list_to_map (zip (seqZ 4096 128) (replicate 128 0)).

Lemma demo_heap_valid : valid demo_heap_mem 4096 128.
Proof.
  intros x Hx. unfold demo_heap_mem. apply elem_of_dom. rewrite dom_list_to_map_L.
  rewrite fst_zip by by_compute. apply elem_of_list_to_set, elem_of_seqZ. lia.
Qed.

Definition demo_kmem : kmem_state :=
  match kmem_init (mk_kmem demo_heap_mem 0) 4096 128 with
  | Ret st => st
  | Fault _ => mk_kmem ∅ 0
  end.

Lemma demo_kmem_rep : heap_rep demo_kmem 4096 4224 [mk_block 4096 104 true].
Proof.
  unfold demo_kmem.
  destruct (kmem_init_ok (mk_kmem demo_heap_mem 0) 4096 128) as (st & -> & H);
    [exact demo_heap_valid|lia|unfold KMEM_HDR; lia|lia|exact H].
Qed.

(** The same heap after [kmalloc(40)]. *)
Definition demo_kmem1 : kmem_state :=
  match kmalloc 8 demo_kmem 40 with
  | Ret (st, _) => st
  | Fault _ => demo_kmem
  end.

Definition demo_blocks1 : list kblock := [mk_block 4096 40 false; mk_block 4160 40 true].

Lemma demo_kmem1_rep : heap_rep demo_kmem1 4096 4224 demo_blocks1.
Proof.
  pose proof (kmalloc_cases 8 demo_kmem 4096 4224 _ 40 demo_kmem_rep ltac:(lia) ltac:(by_compute))
    as (st & E & H & _). unfold demo_kmem1. rewrite E. exact H.
Qed.

Lemma demo_live : live demo_blocks1 (mk_block 4096 40 false).
Proof. split; by_compute. Qed.

Lemma kmem_init_witness :
  exists st, kmem_init (mk_kmem demo_heap_mem 0) 4096 128 = Ret st /\ g_head st = 4096.
Proof.
  destruct (kmem_init_establishes (mk_kmem demo_heap_mem 0) 4096 128) as (st & H1 & H2 & _);
    [exact demo_heap_valid|lia|unfold KMEM_HDR; lia|lia|].
  exists st. split; [exact H1|exact H2].
Defined.

Lemma kmalloc_refines_witness :
  exists st, kmalloc 8 demo_kmem 40 = Ret (st, 4120) /\ heap_rep st 4096 4224 demo_blocks1.
Proof.
  destruct (kmalloc_refines_first_fit 8 demo_kmem 4096 4224 [mk_block 4096 104 true] 40
              demo_kmem_rep ltac:(lia) ltac:(by_compute)) as (st & H1 & H2 & _).
  exists st. split; [exact H1|exact H2].
Defined.

Lemma kmalloc_isolates_witness :
  exists st bs nb, kmalloc 8 demo_kmem1 16 = Ret (st, 4184) /\ heap_rep st 4096 4224 bs /\
    live bs nb /\ payload nb = 4184 /\ 4120 + 40 <= baddr nb.
Proof.
  destruct (kmalloc 8 demo_kmem1 16) as [[st p]|] eqn:E; [|vm_compute in E; discriminate].
  assert (p = 4184) as -> by (vm_compute in E; congruence).
  destruct (kmalloc_isolates 8 demo_kmem1 4096 4224 demo_blocks1 16 st 4184
              demo_kmem1_rep ltac:(lia) ltac:(by_compute) E ltac:(lia))
    as (bs & nb & Hrep & Hl & Hp & _ & _ & _ & Hd).
  exists st, bs, nb. split; [reflexivity|]. split; [exact Hrep|]. split; [exact Hl|].
  split; [exact Hp|].
  destruct (Hd _ demo_live) as [_ [H|H]]; cbn in *; unfold payload, KMEM_HDR in *; cbn in *; lia.
Defined.

Lemma kfree_witness :
  exists st, kfree demo_kmem1 4120 = Ret st /\
    heap_rep st 4096 4224 [mk_block 4096 40 true; mk_block 4160 40 true].
Proof.
  destruct (kfree_releases demo_kmem1 4096 4224 demo_blocks1 _ demo_kmem1_rep demo_live)
    as (st & H1 & H2 & _). exists st. split; [exact H1|exact H2].
Defined.

Lemma kfree_then_kmalloc_witness :
  exists st1 st2 p, kfree demo_kmem1 4120 = Ret st1 /\
    kmalloc 8 st1 40 = Ret (st2, p) /\ p <> 0.
Proof.
  destruct (kfree demo_kmem1 4120) as [st1|] eqn:E; [|vm_compute in E; discriminate].
  destruct (kfree_then_kmalloc 8 demo_kmem1 4096 4224 demo_blocks1 (mk_block 4096 40 false) st1 40
              demo_kmem1_rep demo_live E ltac:(cbn; lia) ltac:(by_compute)) as (st2 & p & H1 & H2).
  exists st1, st2, p. split; [reflexivity|]. split; [exact H1|exact H2].
Defined.

Lemma kmem_get_free_bytes_witness : kmem_get_free_bytes 8 demo_kmem1 = Ret 40.
Proof.
  apply (kmem_get_free_bytes_correct 8 demo_kmem1 4096 4224 demo_blocks1 demo_kmem1_rep).
  by_compute.
Defined.

(** Freed neighbours are not joined.  A heap of 128 bytes serves a request of 104; once a
    block of 40 bytes has been allocated and freed, the same request fails although the whole
    heap is free again. *)
Theorem kfree_does_not_coalesce :
  exists st0 st1 st2,
    kmalloc 8 demo_kmem 104 = Ret (st0, 4120) /\
    kmalloc 8 demo_kmem 40 = Ret (st1, 4120) /\ kfree st1 4120 = Ret st2 /\
    kmalloc 8 st2 104 = Ret (st2, 0).
Proof.
  pose proof (kmalloc_cases 8 demo_kmem 4096 4224 _ 104 demo_kmem_rep ltac:(lia) ltac:(by_compute))
    as (st0 & H0 & _).
  pose proof (kmalloc_cases 8 demo_kmem 4096 4224 _ 40 demo_kmem_rep ltac:(lia) ltac:(by_compute))
    as (st1 & H1 & Hr1 & _).
  destruct (kfree_cases st1 4096 4224 _ (mk_block 4096 40 false) Hr1) as (st2 & H2 & Hr2 & _);
    [by_compute|].
  pose proof (kmalloc_cases 8 st2 4096 4224 _ 104 Hr2 ltac:(lia) ltac:(by_compute)) as H3.
  exists st0, st1, st2. split_and!; [exact H0|exact H1|exact H2|exact H3].
Qed.
