(* ===== verification/KmemSpec.v ===== *)
(** * The heap as private objects (kernel/mm/kmem.c)

    What a client of the heap may rely on: the objects it allocates are byte arrays of its own.
    Clients that store and load inside their objects, and free them once, cannot tell the heap
    from a finite map of separate arrays, although headers and payloads share one memory. *)

From S2P Require Import Prelude Bytes Mem Kmem.

(** ** The abstract heap *)

(** Each object with its size and the bytes stored in it so far. *)
Abbreviation objects := (gmap Z (Z * gmap Z Z)).

Inductive heap_op : Type :=
  | Malloc (size : Z)
  | StoreByte (p off v : Z)
  | LoadByte (p off : Z)
  | Release (p : Z).

(** The steps with their answers: an allocation gives a new object or null. *)
Inductive obj_step (a : objects) : heap_op -> Z -> objects -> Prop :=
  | obj_malloc size p : a !! p = None -> p <> 0 -> obj_step a (Malloc size) p (<[p := (size, ∅)]> a)
  | obj_null size : obj_step a (Malloc size) 0 a
  | obj_store p off v n c : a !! p = Some (n, c) -> obj_step a (StoreByte p off v) 0 (<[p := (n, <[off := v]> c)]> a)
  | obj_load p off v n c : a !! p = Some (n, c) -> c !! off = Some v -> obj_step a (LoadByte p off) v a
  | obj_release p o : a !! p = Some o -> obj_step a (Release p) 0 (delete p a).

(** What a client may ask for: a size, a byte inside an object it holds, a byte it has stored,
    the release of an object it holds. *)
Definition legal (a : objects) (op : heap_op) : Prop :=
  match op with
  | Malloc size => 0 < size
  | StoreByte p off v => exists n c, a !! p = Some (n, c) /\ 0 <= off < n /\ is_u8 v
  | LoadByte p off => exists n c v, a !! p = Some (n, c) /\ c !! off = Some v
  | Release p => is_Some (a !! p)
  end.

(** A client: it makes a call and goes on with what the call returns. *)
Inductive client : Type :=
  | Stop
  | Call (op : heap_op) (k : Z -> client).

(** A client whose calls stay legal whatever the allocations answer. *)
Fixpoint well_behaved (a : objects) (c : client) : Prop :=
  match c with
  | Stop => True
  | Call op k => legal a op /\ forall r a', obj_step a op r a' -> well_behaved a' (k r)
  end.

(** Its run on the abstract heap, with the answers it gets. *)
Inductive obj_run : objects -> client -> list Z -> objects -> Prop :=
  | obj_stop a : obj_run a Stop [] a
  | obj_call a op r a1 k rs a2 :
      obj_step a op r a1 -> obj_run a1 (k r) rs a2 -> obj_run a (Call op k) (r :: rs) a2.

(** ** The same on the code *)

Section heap.
Variable fuel : nat.

Definition heap_do (st : kmem_state) (op : heap_op) : exec (kmem_state * Z) :=
  match op with
  | Malloc size => kmalloc fuel st size
  | StoreByte p off v => m ← store8 (kmem_mem st) (p + off) v; Ret (mk_kmem m (g_head st), 0)
  | LoadByte p off => v ← load8 (kmem_mem st) (p + off); Ret (st, v)
  | Release p => st' ← kfree st p; Ret (st', 0)
  end.

Fixpoint heap_run (st : kmem_state) (c : client) : exec (kmem_state * list Z) :=
  match c with
  | Stop => Ret (st, [])
  | Call op k =>
      '(st1, r) ← heap_do st op;
      '(st2, rs) ← heap_run st1 (k r); Ret (st2, r :: rs)
  end.

(** ** The relation *)

(** Every object lies in a live block of its own, and its bytes are in memory. *)
Definition holds (st : kmem_state) (bs : list kblock) (a : objects) : Prop :=
  forall p n c, a !! p = Some (n, c) -> exists b, live bs b /\ payload b = p /\ n <= bsize b /\
    forall off v, c !! off = Some v -> 0 <= off < n /\ kmem_mem st !! (p + off) = Some v.

Definition sim (lo hi : Z) (st : kmem_state) (a : objects) : Prop :=
  exists bs, heap_rep st lo hi bs /\ holds st bs a.

(** A client's store keeps the chain. *)
Lemma headers_agree m m' bs :
  (forall c x, c ∈ bs -> baddr c <= x < baddr c + KMEM_HDR -> m' !! x = m !! x) -> headers m bs -> headers m' bs.
Proof.
  induction bs as [|b bs IH]; intros Ha; [done|]. intros [Hh Hs]. split.
  - eapply header_ext; [|exact Hh]. intros x Hx. apply (Ha b); [by left|done].
  - apply IH; [|done]. intros c x Hc. apply Ha. by right.
Qed.

Lemma store_rep st lo hi bs b x v :
  heap_rep st lo hi bs -> b ∈ bs -> in_payload b x ->
  store8 (kmem_mem st) x v = Ret (<[x := v]> (kmem_mem st)) /\
  heap_rep (mk_kmem (<[x := v]> (kmem_mem st)) (g_head st)) lo hi bs.
Proof.
  intros (Hg & Hne & [Ht Hh Hv Hr]) Hb Hx. pose proof (tiled_in _ _ _ _ Ht Hb) as (? & ? & ?).
  unfold in_payload, payload, KMEM_HDR in *.
  destruct (store8_ok (kmem_mem st) x v) as [E Hd]; [apply Hv; lia|]. split; [exact E|].
  split; [done|]. split; [done|]. split; cbn [kmem_mem]; [done| |by rewrite <- Hd|done].
  apply (headers_agree (kmem_mem st)); [|done]. intros c y Hc Hy. apply lookup_insert_ne. unfold KMEM_HDR in *.
  destruct (decide (b = c)) as [->|Hbc]; [lia|]. pose proof (tiled_disjoint _ _ _ b c Ht Hb Hc Hbc).
  pose proof (tiled_in _ _ _ _ Ht Hc) as (? & ? & ?). unfold payload, KMEM_HDR in *. lia.
Qed.

(** Memory that no object's block touches may change. *)
Lemma holds_ext st st' bs bs' a :
  holds st bs a -> (forall b, live bs b -> (exists n c, a !! payload b = Some (n, c)) -> live bs' b) ->
  (forall b x, live bs b -> (exists n c, a !! payload b = Some (n, c)) -> in_payload b x ->
     kmem_mem st' !! x = kmem_mem st !! x) ->
  holds st' bs' a.
Proof.
  intros Hh Hl Hm p n c E. destruct (Hh p n c E) as (b & Hb & <- & Hn & Hc). exists b. split_and!; eauto.
  intros off v Ho. destruct (Hc off v Ho) as [Hr Hv]. split; [done|]. rewrite (Hm b); eauto. unfold in_payload. lia.
Qed.

Section step.
Context (lo hi : Z) (st : kmem_state) (a : objects).
Hypothesis Hfuel : hi - lo < KMEM_HDR * Z.of_nat fuel.
Hypothesis Hsim : sim lo hi st a.

(** The call answers, the answer is one of an abstract heap, and the states stay related. *)
Definition answers (op : heap_op) : Prop :=
  exists st' r a', heap_do st op = Ret (st', r) /\ obj_step a op r a' /\ sim lo hi st' a'.

Lemma malloc_answers size : 0 < size -> answers (Malloc size).
Proof.
  intros Hs. destruct Hsim as (bs & Hrep & Hh). unfold answers. cbn [heap_do].
  pose proof (kmalloc_cases fuel st lo hi bs size Hrep Hs Hfuel) as H.
  destruct (spec_malloc size bs) as [[bs' p]|] eqn:E.
  2:{ exists st, 0, a. split_and!; [done|constructor|by exists bs]. }
  destruct H as (st' & -> & Hrep' & Hp & Hsame). pose proof Hrep as (_ & _ & [Ht _ _ _]).
  destruct (spec_malloc_live _ _ _ _ _ _ Ht Hs E) as (nb & Hnb & Hsz & Hlive & Hiff).
  pose proof (spec_malloc_fresh _ _ _ _ _ _ Ht E) as Hfresh.
  assert (a !! p = None) as Hno.
  { destruct (a !! p) as [[n c]|] eqn:Ea; [|done]. destruct (Hh p n c Ea) as (b & Hb & Hbp & _). by apply Hfresh in Hb. }
  exists st', p, (<[p := (size, ∅)]> a). split; [done|]. split; [by constructor|]. exists bs'. split; [done|].
  intros q n c. rewrite lookup_insert_Some. intros [[<- [= <- <-]]|[Hne Hq]].
  - exists nb. by split_and!.
  - apply (holds_ext st st' bs bs' a Hh); [intros b Hb _; apply Hiff; by right|intros b x Hb _; by apply Hsame|done].
Qed.

Lemma store_answers p off v : legal a (StoreByte p off v) -> answers (StoreByte p off v).
Proof.
  intros (n & c & Ha & Ho & _). destruct Hsim as (bs & Hrep & Hh). destruct (Hh p n c Ha) as (b & Hb & <- & Hn & Hc).
  destruct (store_rep st lo hi bs b (payload b + off) v Hrep (proj1 Hb)) as [E Hrep']; [unfold in_payload; lia|].
  unfold answers. cbn [heap_do]. rewrite E. cbn [mbind exec_bind]. eexists _, _, _.
  split; [done|]. split; [by econstructor|]. exists bs. split; [done|]. pose proof Hrep as (_ & _ & [Ht _ _ _]).
  intros q n' c'. rewrite lookup_insert_Some. intros [[<- [= <- <-]]|[Hne Hq]].
  - exists b. split_and!; try done. intros o w. cbn [kmem_mem]. rewrite lookup_insert_Some. intros [[<- <-]|[Hoo Ho']].
    + split; [done|]. apply lookup_insert_eq.
    + destruct (Hc o w Ho') as [? ?]. split; [done|]. rewrite lookup_insert_ne by lia. done.
  - destruct (Hh q n' c' Hq) as (b' & Hb' & <- & Hn' & Hc'). exists b'. split_and!; try done. intros o w Ho'.
    destruct (Hc' o w Ho') as [? Hw]. split; [done|]. cbn [kmem_mem]. rewrite lookup_insert_ne; [done|].
    pose proof (tiled_disjoint _ _ _ b b' Ht (proj1 Hb) (proj1 Hb') ltac:(congruence)). unfold payload, KMEM_HDR in *. lia.
Qed.

Lemma load_answers p off : legal a (LoadByte p off) -> answers (LoadByte p off).
Proof.
  intros (n & c & v & Ha & Ho). destruct Hsim as (bs & Hrep & Hh). destruct (Hh p n c Ha) as (b & _ & _ & _ & Hc).
  destruct (Hc off v Ho) as [_ Hv]. unfold answers. cbn [heap_do]. rewrite (load8_ok _ _ _ Hv). cbn [mbind exec_bind].
  exists st, v, a. split_and!; [done|by econstructor|by exists bs].
Qed.

Lemma release_answers p : legal a (Release p) -> answers (Release p).
Proof.
  intros [[n c] Ha]. destruct Hsim as (bs & Hrep & Hh). destruct (Hh p n c Ha) as (b & Hb & <- & _ & _).
  destruct (kfree_cases st lo hi bs b Hrep (proj1 Hb)) as (st' & E & Hrep' & Hsame). pose proof Hrep as (_ & _ & [Ht _ _ _]).
  unfold answers. cbn [heap_do]. rewrite E. cbn [mbind exec_bind]. eexists st', 0, _. split; [done|]. split; [by econstructor|].
  eexists. split; [exact Hrep'|].
  assert (holds st bs (delete (payload b) a)) as Hh' by (intros q n' c' [_ Hq]%lookup_delete_Some; by apply (Hh q n' c')).
  apply (holds_ext st st' bs _ _ Hh').
  - intros b' Hb' (n' & c' & [Hne _]%lookup_delete_Some). apply (live_spec_free lo hi); [done|apply Hb|]. split; [done|congruence].
  - intros b' x Hb' (n' & c' & [Hne _]%lookup_delete_Some) Hx. apply Hsame.
    pose proof (tiled_disjoint _ _ _ b b' Ht (proj1 Hb) (proj1 Hb') ltac:(congruence)).
    pose proof (tiled_in _ _ _ _ Ht (proj1 Hb)). unfold in_payload, payload, KMEM_HDR in *. lia.
Qed.

Lemma op_answers op : legal a op -> answers op.
Proof.
  destruct op; [apply malloc_answers|apply store_answers|apply load_answers|apply release_answers].
Qed.
End step.

Lemma heap_run_sim lo hi c : hi - lo < KMEM_HDR * Z.of_nat fuel -> forall st a,
  sim lo hi st a -> well_behaved a c ->
  exists st' rs a', heap_run st c = Ret (st', rs) /\ obj_run a c rs a' /\ sim lo hi st' a'.
Proof.
  intros Hfuel. induction c as [|op k IH]; intros st a Hs Hw; [exists st, [], a; by split_and!; [|constructor|]|].
  destruct Hw as [Hl Hw]. destruct (op_answers lo hi st a Hfuel Hs op Hl) as (st1 & r & a1 & E1 & Hst & Hs1).
  destruct (IH r st1 a1 Hs1 (Hw r a1 Hst)) as (st2 & rs & a2 & E2 & Hst2 & Hs2).
  exists st2, (r :: rs), a2. cbn [heap_run]. rewrite E1. cbn [mbind exec_bind]. rewrite E2.
  split_and!; [done|by econstructor|done].
Qed.
End heap.

(** C7: objects are private.  On the heap that [kmem_init] sets up in any buffer, every client that
    allocates, stores and loads bytes inside the objects it holds and releases objects it holds,
    choosing each call by the answers so far, runs without a fault and gets the answers of a map of
    separate byte arrays: a pointer returned is new, a load gives the last byte stored there,
    whatever other objects are allocated, written and released in between.  The heap and the map
    end in related states. *)
Theorem heap_objects_refine st0 buffer size fuel c :
  valid (kmem_mem st0) buffer size -> 0 < buffer -> KMEM_HDR <= size -> buffer + size < 2 ^ 64 ->
  size < KMEM_HDR * Z.of_nat fuel -> well_behaved ∅ c ->
  exists st st' rs a, kmem_init st0 buffer size = Ret st /\ heap_run fuel st c = Ret (st', rs) /\
    obj_run ∅ c rs a /\ sim buffer (buffer + size) st' a.
Proof.
  intros Hv Hb Hs He Hf Hc. destruct (kmem_init_ok st0 buffer size Hv Hb Hs He) as (st & E & Hrep).
  destruct (heap_run_sim fuel buffer (buffer + size) c ltac:(lia) st ∅) as (st' & rs & a & E' & Hst & Hs'); [|done|].
  { eexists. split; [exact Hrep|]. intros p n o. by rewrite lookup_empty. }
  by exists st, st', rs, a.
Qed.

(** ** Witness *)

(** Two objects; a byte goes to each, the first is released, a third allocated, and the byte of the
    second read back. *)
Definition demo_client : client :=
  Call (Malloc 16) (fun p =>
    if p =? 0 then Stop
    else Call (Malloc 16) (fun q =>
      if q =? 0 then Stop
      else Call (StoreByte p 3 7) (fun _ => Call (StoreByte q 3 9) (fun _ => Call (Release p) (fun _ =>
             Call (Malloc 8) (fun _ => Call (LoadByte q 3) (fun _ => Stop))))))).

(** Simplifies what an abstract step leads to and goes on. *)
Ltac obj_next :=
  match goal with |- forall r a', obj_step _ _ r a' -> _ =>
    let r := fresh "r" in let a' := fresh "a" in let H := fresh "H" in
    intros r a' H; inversion H; subst; clear H; simplify_map_eq
  end.

Lemma demo_client_ok : well_behaved ∅ demo_client.
Proof.
  split; [cbn; lia|]. intros p a1 Hs1. destruct (Z.eqb_spec p 0) as [|Hp]; [done|]. inversion Hs1; subst; [|done]. clear Hs1.
  split; [cbn; lia|]. intros q a2 Hs2. destruct (Z.eqb_spec q 0) as [|Hq]; [done|]. inversion Hs2; subst; [|done]. clear Hs2.
  assert (p <> q) by (intros ->; by simplify_map_eq).
  split; [eexists _, _; split; [by simplify_map_eq|unfold is_u8; lia]|]. obj_next.
  split; [eexists _, _; split; [by simplify_map_eq|unfold is_u8; lia]|]. obj_next.
  split; [eexists; by simplify_map_eq|]. obj_next. split; [cbn; lia|]. obj_next.
  - match goal with H : _ !! ?r = None |- _ => assert (r <> q) by (intros ->; by simplify_map_eq) end.
    split; [|by intros]. eexists _, _, _. split; [by simplify_map_eq|]. apply lookup_insert_eq.
  - split; [|by intros]. eexists _, _, _. split; [by simplify_map_eq|]. apply lookup_insert_eq.
Qed.

Lemma heap_objects_witness :
  exists st st' rs, kmem_init (mk_kmem demo_heap_mem 0) 4096 128 = Ret st /\ heap_run 8 st demo_client = Ret (st', rs) /\
    rs = [4120; 4160; 0; 0; 0; 4120; 9].
Proof.
  destruct (heap_objects_refine (mk_kmem demo_heap_mem 0) 4096 128 8 demo_client) as (st & st' & rs & a & E & E' & _);
    [exact demo_heap_valid|by_compute|by_compute|by_compute|by_compute|exact demo_client_ok|].
  exists st, st', rs. split; [exact E|]. split; [exact E'|].
  assert (st = demo_kmem) as -> by (unfold demo_kmem; by rewrite E).
  assert (snd <$> (match heap_run 8 demo_kmem demo_client with Ret x => Some x | Fault _ => None end) = Some rs) as H
    by (by rewrite E').
  vm_compute in H. by injection H as <-.
Defined.
