(* ===== verification/Thread.v ===== *)
(** * Threads (kernel/core/thread.c)

    The thread table, the creation of threads on top of the heap interface of [Kmem], and the
    cooperative [thread_yield].  A yield calls the next thread's entry as an ordinary function; what
    becomes of the calls that nest is shown in [Boot], where the threads are. *)

From S2P Require Import Prelude Mem Kmem.

(** ** Data *)

Definition THREAD_STACK_SIZE : Z := 4096.
Definition MAX_THREADS : Z := 16.

Inductive thread_state : Type :=
  | THREAD_READY
  | THREAD_RUNNING.

(** An entry point and a stack are addresses, 0 when null. *)
Record thread : Type := mk_thread {
  entry : Z;
  stack : Z;
  state : thread_state
}.

#[global] Instance thread_state_eq_dec : EqDecision thread_state.
Proof. solve_decision. Defined.
#[global] Instance thread_eq_dec : EqDecision thread.
Proof. solve_decision. Defined.

Section threads.
Context {H : Type} {HI : HeapInterface H}.

Record thread_system : Type := mk_ts {
  threads : list thread;
  thread_count : Z;
  current_thread : Z;
  theap : H
}.

Implicit Types (ts : thread_system) (t : thread).

(** ** Operations *)

Definition thread_system_init (ts : thread_system) : thread_system :=
  mk_ts (threads ts) 0 0 (theap ts).

(** The pointer returned is the index of the slot, [None] when null.  A slot whose stack could
    not be allocated keeps the entry and the null stack written to it. *)
Definition thread_create (ts : thread_system) (ent : Z)
  : exec (thread_system * option Z) :=
  if ent =? 0 then Ret (ts, None)
  else if MAX_THREADS <=? thread_count ts then Ret (ts, None)
  else
    t ← arr_get (threads ts) (thread_count ts);
    l1 ← arr_set (threads ts) (thread_count ts) (mk_thread ent (stack t) (state t));
    '(h', stk) ← heap_alloc (theap ts) THREAD_STACK_SIZE;
    l2 ← arr_set l1 (thread_count ts) (mk_thread ent stk (state t));
    if stk =? 0 then Ret (mk_ts l2 (thread_count ts) (current_thread ts) h', None)
    else
      l3 ← arr_set l2 (thread_count ts) (mk_thread ent stk THREAD_READY);
      Ret (mk_ts l3 (u64 (thread_count ts + 1)) (current_thread ts) h', Some (thread_count ts)).

(** The state after choosing the next thread, and the entry it then calls, if any. *)
Definition thread_yield (ts : thread_system) : exec (thread_system * option Z) :=
  if thread_count ts =? 0 then Ret (ts, None)
  else
    let c := u64 (current_thread ts + 1) in
    let c' := if thread_count ts <=? c then 0 else c in
    let ts' := mk_ts (threads ts) (thread_count ts) c' (theap ts) in
    next ← arr_get (threads ts) c';
    if negb (entry next =? 0) then Ret (ts', Some (entry next)) else Ret (ts', None).

(** [k] yields in a row and the entries they call. *)
Fixpoint yield_many (k : nat) (ts : thread_system) : exec (thread_system * list (option Z)) :=
  match k with
  | O => Ret (ts, [])
  | S k' =>
      '(ts1, e) ← thread_yield ts;
      '(ts2, es) ← yield_many k' ts1;
      Ret (ts2, e :: es)
  end.

(** ** The invariant *)

(** Slot [i] holds a created thread. *)
Record thread_ok (h : H) t : Prop := {
  ok_entry : entry t <> 0;
  ok_stack : stack t <> 0;
  ok_range : exists n, THREAD_STACK_SIZE <= n /\ heap_ranges h (stack t) n;
  ok_state : state t = THREAD_READY
}.

Record thread_wf ts : Prop := {
  wf_slots : zlen (threads ts) = MAX_THREADS;
  wf_tcount : 0 <= thread_count ts <= MAX_THREADS;
  wf_current : 0 <= current_thread ts < Z.max 1 (thread_count ts);
  wf_heap : heap_ok (theap ts);
  wf_threads : forall i t, 0 <= i < thread_count ts -> arr_get (threads ts) i = Ret t ->
                 thread_ok (theap ts) t;
  wf_stacks : forall i j t u, 0 <= i < j -> j < thread_count ts ->
                arr_get (threads ts) i = Ret t -> arr_get (threads ts) j = Ret u ->
                stack t + THREAD_STACK_SIZE <= stack u \/
                stack u + THREAD_STACK_SIZE <= stack t
}.

(** The entry of slot [i]. *)
Definition entry_at ts (i : Z) : option Z :=
  match arr_get (threads ts) i with
  | Ret t => Some (entry t)
  | Fault _ => None
  end.

(** ** Creation *)

Lemma create_slot ts ent :
  thread_wf ts -> ent <> 0 -> thread_count ts < MAX_THREADS ->
  exists t0 h' p, heap_alloc (theap ts) THREAD_STACK_SIZE = Ret (h', p) /\ heap_ok h' /\
    arr_get (threads ts) (thread_count ts) = Ret t0 /\
    thread_create ts ent
    = Ret (if p =? 0 then
             (mk_ts (<[Z.to_nat (thread_count ts) := mk_thread ent 0 (state t0)]> (threads ts))
                (thread_count ts) (current_thread ts) h', None)
           else
             (mk_ts (<[Z.to_nat (thread_count ts) := mk_thread ent p THREAD_READY]> (threads ts))
                (thread_count ts + 1) (current_thread ts) h', Some (thread_count ts))) /\
    ((p = 0 /\ h' = theap ts) \/
     (p <> 0 /\ (exists n, THREAD_STACK_SIZE <= n /\ heap_ranges h' p n) /\
      (forall q n, heap_ranges (theap ts) q n ->
         heap_ranges h' q n /\ (q + n <= p \/ p + THREAD_STACK_SIZE <= q)))).
Proof.
  intros [Hl Hc _ Hh _ _] Hent Hlt. unfold MAX_THREADS in *.
  destruct (heap_alloc_spec (theap ts) THREAD_STACK_SIZE Hh) as (h' & p & Ha & Hok & Hcase);
    [unfold THREAD_STACK_SIZE; lia|].
  destruct (arr_get_ok (threads ts) (thread_count ts)) as [t0 Ht0]; [lia|].
  exists t0, h', p. split_and!; try done. unfold thread_create, MAX_THREADS.
  rewrite (proj2 (Z.eqb_neq ent 0)) by done. rewrite (proj2 (Z.leb_gt _ _)) by lia.
  rewrite Ht0. cbn. rewrite arr_set_ok by lia. cbn. rewrite Ha. cbn.
  rewrite arr_set_ok by (rewrite zlen_insert; lia). cbn. rewrite list_insert_insert_eq.
  destruct (Z.eqb_spec p 0) as [->|Hp]; [done|].
  rewrite arr_set_ok by (rewrite zlen_insert; lia). cbn.
  rewrite list_insert_insert_eq. rewrite u64_small by (unfold is_u64; lia). done.
Qed.

(** Reads below the slot written are unchanged. *)
Lemma slots_below ts t i :
  zlen (threads ts) = MAX_THREADS -> 0 <= thread_count ts < MAX_THREADS ->
  0 <= i < thread_count ts ->
  arr_get (<[Z.to_nat (thread_count ts) := t]> (threads ts)) i = arr_get (threads ts) i.
Proof. intros Hl Hc Hi. apply arr_get_insert_ne; lia. Qed.

(** A write to the first unused slot keeps the invariant. *)
Lemma wf_write_unused ts t h :
  thread_wf ts -> thread_count ts < MAX_THREADS -> h = theap ts ->
  thread_wf (mk_ts (<[Z.to_nat (thread_count ts) := t]> (threads ts))
               (thread_count ts) (current_thread ts) h).
Proof.
  intros [Hl Hc Hcur Hh Ht Hs] Hlt ->. split; cbn; try done.
  - by rewrite zlen_insert.
  - intros i u Hi. rewrite slots_below by (done || lia). by apply Ht.
  - intros i j u v Hij Hj. rewrite !slots_below by (done || lia). by apply Hs.
Qed.

(** A thread on a fresh stack joins the table. *)
Lemma wf_push ts ent p h' :
  thread_wf ts -> thread_count ts < MAX_THREADS -> ent <> 0 -> p <> 0 -> heap_ok h' ->
  (exists n, THREAD_STACK_SIZE <= n /\ heap_ranges h' p n) ->
  (forall q n, heap_ranges (theap ts) q n ->
     heap_ranges h' q n /\ (q + n <= p \/ p + THREAD_STACK_SIZE <= q)) ->
  thread_wf (mk_ts (<[Z.to_nat (thread_count ts) := mk_thread ent p THREAD_READY]> (threads ts))
               (thread_count ts + 1) (current_thread ts) h').
Proof.
  intros [Hl Hc Hcur Hh Ht Hs] Hlt Hent Hp Hh' Hr Hk. split; cbn; try (done || lia).
  - by rewrite zlen_insert.
  - intros i u Hi. destruct (decide (i = thread_count ts)) as [->|Hne].
    + rewrite arr_get_insert_eq by lia. intros [= <-]. by split.
    + rewrite slots_below by (done || lia). intros Hu.
      destruct (Ht i u ltac:(lia) Hu) as [He Hst (n & Hn & Hrg) Hstate].
      split; [done|done| |done]. exists n. split; [done|]. by apply Hk.
  - intros i j u v Hij Hj. rewrite (slots_below ts _ i) by (done || lia).
    destruct (decide (j = thread_count ts)) as [->|Hne].
    + rewrite arr_get_insert_eq by lia. intros Hu [= <-]. cbn.
      destruct (Ht i u ltac:(lia) Hu) as [_ _ (n & Hn & Hrg) _].
      destruct (Hk _ _ Hrg) as [_ ?]. unfold THREAD_STACK_SIZE in *. lia.
    + rewrite slots_below by (done || lia). apply Hs; lia.
Qed.

(** ** Yields *)

Lemma yield_step ts :
  thread_wf ts -> 0 < thread_count ts ->
  let c := (current_thread ts + 1) mod thread_count ts in
  let ts' := mk_ts (threads ts) (thread_count ts) c (theap ts) in
  thread_yield ts = Ret (ts', entry_at ts c) /\ thread_wf ts'.
Proof.
  intros Hwf Hn. pose proof Hwf as [Hl Hc Hcur Hh Ht Hs]. unfold MAX_THREADS in *.
  assert ((current_thread ts + 1) mod thread_count ts
          = if thread_count ts <=? u64 (current_thread ts + 1) then 0
            else u64 (current_thread ts + 1)) as Ec.
  { rewrite u64_small by (unfold is_u64; lia). destruct (Z.leb_spec (thread_count ts) (current_thread ts + 1)).
    - replace (current_thread ts + 1) with (thread_count ts) by lia. apply Z_mod_same_full.
    - apply Z.mod_small. lia. }
  pose proof (Z.mod_pos_bound (current_thread ts + 1) (thread_count ts) Hn) as Hb.
  cbn zeta. split; [|split; cbn; (done || lia)].
  unfold thread_yield, entry_at. rewrite (proj2 (Z.eqb_neq _ _)) by lia. rewrite <- Ec.
  destruct (arr_get_ok (threads ts) ((current_thread ts + 1) mod thread_count ts)) as [t E]; [lia|].
  rewrite E. cbn. destruct (Ht _ t Hb E) as [He _ _ _].
  by rewrite (proj2 (Z.eqb_neq _ _)).
Qed.

(** The slots run by [k] yields from slot [c] of [n]. *)
Definition schedule (c n : Z) (k : nat) : list Z :=
  map (fun j => (c + 1 + Z.of_nat j) mod n) (seq 0 k).

Lemma schedule_S c n k :
  0 < n -> schedule c n (S k) = (c + 1) mod n :: schedule ((c + 1) mod n) n k.
Proof.
  intros Hn. unfold schedule. cbn [seq map]. f_equal; [f_equal; lia|].
  rewrite <- seq_shift, map_map. apply map_ext. intros j.
  replace (c + 1 + Z.of_nat (S j)) with (c + 1 + (1 + Z.of_nat j)) by lia.
  rewrite <- (Zplus_mod_idemp_l (c + 1)). f_equal. lia.
Qed.

Lemma yield_many_runs k : forall ts,
  thread_wf ts -> 0 < thread_count ts ->
  let ts' := mk_ts (threads ts) (thread_count ts)
               ((current_thread ts + Z.of_nat k) mod thread_count ts) (theap ts) in
  yield_many k ts
  = Ret (ts', map (entry_at ts) (schedule (current_thread ts) (thread_count ts) k)) /\
  thread_wf ts'.
Proof.
  induction k as [|k IH]; intros ts Hwf Hn; cbn zeta.
  - rewrite Z.add_0_r. assert (current_thread ts mod thread_count ts = current_thread ts) as ->.
    { destruct Hwf. apply Z.mod_small. lia. }
    cbn. by destruct ts.
  - destruct (yield_step ts Hwf Hn) as [E Hwf']. cbn zeta in *.
    destruct (IH _ Hwf' Hn) as [IHe IHwf]. cbn [yield_many]. rewrite E.
    cbn [mbind exec_bind threads thread_count current_thread theap] in *. rewrite IHe.
    rewrite schedule_S by done. cbn [mbind exec_bind map].
    rewrite Zplus_mod_idemp_l in *.
    replace (current_thread ts + 1 + Z.of_nat k) with (current_thread ts + Z.of_nat (S k)) in * by lia.
    split; [|done]. done.
Qed.

(** A full round visits every slot once. *)
Lemma schedule_round c n :
  0 < n -> Permutation (schedule c n (Z.to_nat n)) (map Z.of_nat (seq 0 (Z.to_nat n))).
Proof.
  intros Hn. apply NoDup_Permutation_bis.
  - apply base.NoDup_ListNoDup. apply (list.NoDup_fmap_2_strong (fun j => (c + 1 + Z.of_nat j) mod n)).
    + intros i j Hi%elem_of_seq Hj%elem_of_seq E.
      assert ((Z.of_nat i - Z.of_nat j) mod n = 0) as E'.
      { replace (Z.of_nat i - Z.of_nat j)
          with (c + 1 + Z.of_nat i - (c + 1 + Z.of_nat j)) by lia.
        rewrite Zminus_mod, E, Z.sub_diag. apply Zmod_0_l. }
      apply Z.mod_divide in E' as [q Hq]; [|lia]. assert (q = 0) by nia. lia.
    + apply NoDup_seq.
  - unfold schedule. by rewrite !length_map.
  - intros x Hx. unfold schedule in Hx. apply in_map_iff in Hx as (j & <- & _).
    pose proof (Z.mod_pos_bound (c + 1 + Z.of_nat j) n Hn).
    apply in_map_iff. exists (Z.to_nat ((c + 1 + Z.of_nat j) mod n)). split; [lia|].
    apply in_seq. lia.
Qed.

(** ** The theorems *)

Lemma thread_create_cases ts ent :
  thread_wf ts ->
  exists ts' r, thread_create ts ent = Ret (ts', r) /\ thread_wf ts' /\
    current_thread ts' = current_thread ts /\
    (forall j, 0 <= j < thread_count ts -> arr_get (threads ts') j = arr_get (threads ts) j) /\
    match r with
    | Some i => ent <> 0 /\ i = thread_count ts /\ thread_count ts' = i + 1 /\
                entry_at ts' i = Some ent
    | None => thread_count ts' = thread_count ts /\
              (ent = 0 \/ thread_count ts = MAX_THREADS \/
               heap_alloc (theap ts) THREAD_STACK_SIZE = Ret (theap ts, 0))
    end.
Proof.
  intros Hwf. pose proof Hwf as [Hl Hc Hcur Hh Ht Hs].
  destruct (decide (ent = 0)) as [->|Hent].
  { exists ts, None. split_and!; try done. by left. }
  destruct (decide (thread_count ts = MAX_THREADS)) as [Hm|Hm].
  { exists ts, None. split_and!; try done; [|by right; left].
    unfold thread_create. rewrite (proj2 (Z.eqb_neq ent 0)) by done.
    by rewrite (proj2 (Z.leb_le _ _)) by lia. }
  destruct (create_slot ts ent Hwf Hent ltac:(lia))
    as (t0 & h' & p & Ha & Hok & Ht0 & E & Hcase).
  rewrite E. destruct Hcase as [[-> ->]|(Hp & Hr & Hk)].
  - rewrite Z.eqb_refl. eexists _, None. split; [done|].
    split; [by apply wf_write_unused; [|lia|]|]. split; [done|]. cbn. split.
    + intros j Hj. apply slots_below; (done || lia).
    + split; [done|]. by right; right.
  - rewrite (proj2 (Z.eqb_neq p 0)) by done. eexists _, (Some _). split; [done|].
    split; [by apply wf_push; [|lia|..]|]. split; [done|]. cbn. split.
    + intros j Hj. apply slots_below; (done || lia).
    + split_and!; [done..|]. unfold entry_at. cbn. by rewrite arr_get_insert_eq by lia.
Qed.

(** Creation succeeds when the heap does. *)
Lemma thread_create_fits ts ent h' p :
  thread_wf ts -> ent <> 0 -> thread_count ts < MAX_THREADS ->
  heap_alloc (theap ts) THREAD_STACK_SIZE = Ret (h', p) -> p <> 0 ->
  exists ts', thread_create ts ent = Ret (ts', Some (thread_count ts)) /\ theap ts' = h'.
Proof.
  intros Hwf Hent Hlt Ha Hp. destruct (create_slot ts ent Hwf Hent Hlt) as (t0 & h2 & p2 & Ha2 & _ & _ & E & _).
  rewrite Ha in Ha2. injection Ha2 as <- <-. rewrite E, (proj2 (Z.eqb_neq p 0)) by done. by eexists.
Qed.

(** C21: thread creation keeps the thread table well formed, whatever the heap behind it, as
    long as the heap keeps the promises of [HeapInterface]: every created thread has a nonnull
    entry and a stack of at least [THREAD_STACK_SIZE] allocated bytes, and no two stacks
    overlap.  It appends one thread, or leaves the created threads alone and returns null, and
    does the latter only for a null entry, a full table or an exhausted heap. *)
Theorem thread_create_safe ts ent :
  thread_wf ts ->
  exists ts' r, thread_create ts ent = Ret (ts', r) /\ thread_wf ts' /\
    current_thread ts' = current_thread ts /\
    (forall j, 0 <= j < thread_count ts -> arr_get (threads ts') j = arr_get (threads ts) j) /\
    match r with
    | Some i => ent <> 0 /\ i = thread_count ts /\ thread_count ts' = i + 1 /\
                entry_at ts' i = Some ent
    | None => thread_count ts' = thread_count ts /\
              (ent = 0 \/ thread_count ts = MAX_THREADS \/
               heap_alloc (theap ts) THREAD_STACK_SIZE = Ret (theap ts, 0))
    end.
Proof. apply thread_create_cases. Qed.

(** C22: yields are round robin and fair.  From any well-formed nonempty table, [k] yields call
    the entries of the slots following the current one in cyclic order, without a fault and
    keeping the table well formed, and as many yields as there are threads run every thread
    exactly once. *)
Theorem thread_yield_round_robin ts k :
  thread_wf ts -> 0 < thread_count ts ->
  let n := thread_count ts in
  (exists ts', yield_many k ts
     = Ret (ts', map (entry_at ts) (schedule (current_thread ts) n k)) /\ thread_wf ts' /\
     current_thread ts' = (current_thread ts + Z.of_nat k) mod n) /\
  Permutation (schedule (current_thread ts) n (Z.to_nat n)) (map Z.of_nat (seq 0 (Z.to_nat n))).
Proof.
  intros Hwf Hn. cbn zeta. split; [|by apply schedule_round].
  destruct (yield_many_runs k ts Hwf Hn) as [E Hwf']. eexists. by split_and!.
Qed.

End threads.

(** ** Witnesses on the heap of [Kmem] *)

(** [n] mapped bytes from [lo] on, all zero. *)
Definition flat_mem (lo n : Z) : mem := list_to_map (zip (seqZ lo n) (replicate (Z.to_nat n) 0)).

Lemma flat_mem_valid lo n : valid (flat_mem lo n) lo n.
Proof.
  intros x Hx. unfold flat_mem. apply elem_of_dom. rewrite dom_list_to_map_L.
  rewrite fst_zip by (by rewrite length_seqZ, length_replicate).
  apply elem_of_list_to_set, elem_of_seqZ. lia.
Qed.

Definition demo_slots : list thread := replicate 16 (mk_thread 0 0 THREAD_READY).

(** An empty table over a heap with one free block of [n] bytes. *)
Lemma demo_threads n :
  0 <= n < 2 ^ 32 ->
  exists h bs, kheap_ok h /\ heap_rep (kh_state h) (kh_lo h) (kh_hi h) bs /\
    bs = [mk_block 65536 n true] /\ thread_wf (mk_ts demo_slots 0 0 h).
Proof.
  intros Hn.
  destruct (kmem_init_ok (mk_kmem (flat_mem 65536 (n + KMEM_HDR)) 0) 65536 (n + KMEM_HDR))
    as (st & _ & Hrep); [apply flat_mem_valid|lia|lia|unfold KMEM_HDR; lia|].
  replace (n + KMEM_HDR - KMEM_HDR) with n in Hrep by lia.
  exists (mk_kheap st 65536 (65536 + (n + KMEM_HDR))), [mk_block 65536 n true].
  assert (kheap_ok (mk_kheap st 65536 (65536 + (n + KMEM_HDR)))) by (eexists; exact Hrep).
  split_and!; try done. split; cbn; try (done || lia).
Qed.

Lemma kheap_alloc_fits h bs size bs' p :
  heap_rep (kh_state h) (kh_lo h) (kh_hi h) bs -> 0 < size -> spec_malloc size bs = Some (bs', p) ->
  exists h', heap_alloc h size = Ret (h', p) /\ p <> 0 /\
    heap_rep (kh_state h') (kh_lo h') (kh_hi h') bs'.
Proof.
  intros Hrep Hs E. pose proof (kmalloc_cases _ _ _ _ _ size Hrep Hs (kh_fuel_enough _ _ Hrep)) as Hm.
  rewrite E in Hm. destruct Hm as (st & Em & Hrep' & Hp & _).
  exists (mk_kheap st (kh_lo h) (kh_hi h)). split_and!; [|done|done].
  cbn. unfold kheap_alloc. by rewrite Em.
Qed.

(** A table of two threads. *)
Lemma demo_two_threads :
  exists ts : @thread_system kheap, thread_wf ts /\ thread_count ts = 2 /\ current_thread ts = 0 /\
    entry_at ts 0 = Some 0x1000 /\ entry_at ts 1 = Some 0x2000.
Proof.
  destruct (demo_threads 16384 ltac:(lia)) as (h & bs & Hok & Hrep & -> & Hwf).
  destruct (kheap_alloc_fits h _ THREAD_STACK_SIZE _ _ Hrep ltac:(done) eq_refl) as (h1 & A1 & P1 & Hrep1).
  destruct (thread_create_fits _ 0x1000 _ _ Hwf ltac:(done) ltac:(done) A1 P1) as (t1 & F1 & Eh1).
  destruct (thread_create_cases _ 0x1000 Hwf) as (ts1 & r1 & E1 & Hwf1 & Hc1 & _ & H1).
  rewrite F1 in E1. injection E1 as -> <-. destruct H1 as (_ & _ & Hn1 & He1). cbn in Hn1, Hc1, He1.
  rewrite <- Eh1 in Hrep1.
  destruct (kheap_alloc_fits (theap ts1) _ THREAD_STACK_SIZE _ _ Hrep1 ltac:(done) eq_refl) as (h2 & A2 & P2 & _).
  destruct (thread_create_fits ts1 0x2000 _ _ Hwf1 ltac:(done) ltac:(rewrite Hn1; done) A2 P2)
    as (t2 & F2 & _).
  destruct (thread_create_cases ts1 0x2000 Hwf1) as (ts2 & r2 & E2 & Hwf2 & Hc2 & Hkeep & H2).
  rewrite F2 in E2. injection E2 as -> <-. destruct H2 as (_ & _ & Hn2 & He2).
  rewrite Hn1 in *. exists ts2. split_and!; [done|lia|congruence| |done].
  rewrite <- He1. unfold entry_at. by rewrite Hkeep by lia.
Qed.

Lemma thread_create_witness :
  exists (h : kheap) ts' t, thread_create (mk_ts demo_slots 0 0 h) 0x1000 = Ret (ts', Some 0) /\
    arr_get (threads ts') 0 = Ret t /\ entry t = 0x1000 /\ thread_ok (theap ts') t.
Proof.
  destruct (demo_threads 8192 ltac:(lia)) as (h & bs & Hok & Hrep & -> & Hwf).
  destruct (kheap_alloc_fits h _ THREAD_STACK_SIZE _ _ Hrep ltac:(done) eq_refl) as (h1 & A1 & P1 & _).
  destruct (thread_create_fits _ 0x1000 _ _ Hwf ltac:(done) ltac:(done) A1 P1) as (t1 & F1 & _).
  destruct (thread_create_safe _ 0x1000 Hwf) as (ts' & r & E & Hwf' & _ & _ & Hr).
  rewrite F1 in E. injection E as -> <-. destruct Hr as (_ & _ & Hn & He).
  cbn [thread_count] in *. unfold entry_at in He.
  destruct (arr_get (threads ts') 0) as [t|] eqn:Et; [|discriminate]. injection He as He.
  exists h, ts', t. split_and!; [done|done|done|].
  apply (wf_threads _ Hwf' 0 t); [lia|done].
Defined.

Lemma thread_yield_round_robin_witness :
  exists ts ts' : @thread_system kheap,
    yield_many 3 ts = Ret (ts', [Some 0x2000; Some 0x1000; Some 0x2000]) /\ current_thread ts' = 1.
Proof.
  destruct demo_two_threads as (ts & Hwf & Hn & Hc & H0 & H1).
  destruct (thread_yield_round_robin ts 3 Hwf ltac:(lia)) as [(ts' & E & _ & Hc') _].
  exists ts, ts'. rewrite Hn, Hc in *. split; [|exact Hc'].
  rewrite E. change (schedule 0 2 3) with [1; 0; 1]. cbn [map]. by rewrite H0, H1.
Defined.
