(* ===== verification/Syscall.v ===== *)
(** * System calls (kernel/core/syscall.c, kernel/arch/x86_64/syscall_entry.S)

    The handlers and the dispatcher.  Arguments and results are 64-bit; the negative error
    numbers of the header are converted to [uint64_t] on return. *)

From S2P Require Import Prelude.

Definition MCSOS_SYS_PING : Z := 0.
Definition MCSOS_SYS_GET_TICKS : Z := 1.
Definition MCSOS_SYS_WRITE_SERIAL : Z := 2.
Definition MCSOS_SYS_YIELD : Z := 3.
Definition MCSOS_SYS_EXIT_THREAD : Z := 4.
Definition MCSOS_SYS_MAX : Z := 5.

Definition MCSOS_ENOSYS : Z := -38.
Definition MCSOS_EFAULT : Z := -14.

Definition sys_ping : Z := 0x2605020A.
Definition sys_get_ticks : Z := 800.
Definition sys_write_serial (buf len : Z) : Z := if buf =? 0 then u64 MCSOS_EFAULT else len.
Definition sys_yield : Z := 0.
Definition sys_exit_thread (code : Z) : Z := 0.

Definition mcsos_syscall_dispatch (nr arg0 arg1 arg2 arg3 arg4 arg5 : Z) : Z :=
  if nr =? MCSOS_SYS_PING then sys_ping
  else if nr =? MCSOS_SYS_GET_TICKS then sys_get_ticks
  else if nr =? MCSOS_SYS_WRITE_SERIAL then sys_write_serial arg0 arg1
  else if nr =? MCSOS_SYS_YIELD then sys_yield
  else if nr =? MCSOS_SYS_EXIT_THREAD then sys_exit_thread arg0
  else u64 MCSOS_ENOSYS.

(** ** Theorems *)

Lemma s64_neg r : is_u64 r -> (s64 r < 0 <-> 2 ^ 63 <= r).
Proof. unfold is_u64, s64, swrap. intros Hr. Z.to_euclidean_division_equations. lia. Qed.

Lemma dispatch_cases nr a0 a1 a2 a3 a4 a5 :
  is_u64 nr ->
  let r := mcsos_syscall_dispatch nr a0 a1 a2 a3 a4 a5 in
  (MCSOS_SYS_MAX <= nr /\ r = 2 ^ 64 - 38) \/
  (nr = MCSOS_SYS_WRITE_SERIAL /\ a0 = 0 /\ r = 2 ^ 64 - 14) \/
  (nr = MCSOS_SYS_WRITE_SERIAL /\ a0 <> 0 /\ r = a1) \/
  (nr < MCSOS_SYS_MAX /\ nr <> MCSOS_SYS_WRITE_SERIAL /\ 0 <= r < 2 ^ 32).
Proof.
  unfold is_u64. intros Hnr. cbn zeta. unfold mcsos_syscall_dispatch, sys_write_serial.
  unfold MCSOS_SYS_PING, MCSOS_SYS_GET_TICKS, MCSOS_SYS_WRITE_SERIAL, MCSOS_SYS_YIELD,
    MCSOS_SYS_EXIT_THREAD, MCSOS_SYS_MAX, sys_ping, sys_get_ticks, sys_yield, sys_exit_thread.
  change (u64 MCSOS_ENOSYS) with (2 ^ 64 - 38). change (u64 MCSOS_EFAULT) with (2 ^ 64 - 14).
  repeat case_test; zbool; lia.
Qed.

(** C23: the dispatcher is total and tells errors apart by sign: read as a signed number its
    result is negative exactly for a number outside the table, for a serial write from a null
    buffer, and for a serial write whose length itself has the sign bit set.  The null test is the
    only check a serial write makes: with any other buffer it answers the length it was given, also
    when the range runs over the end of the address space or lies outside user memory. *)
Theorem mcsos_syscall_dispatch_errors nr a0 a1 a2 a3 a4 a5 :
  is_u64 nr -> is_u64 a0 -> is_u64 a1 ->
  let r := mcsos_syscall_dispatch nr a0 a1 a2 a3 a4 a5 in
  is_u64 r /\
  (s64 r < 0 <->
   MCSOS_SYS_MAX <= nr \/
   (nr = MCSOS_SYS_WRITE_SERIAL /\ (a0 = 0 \/ 2 ^ 63 <= a1))) /\
  (MCSOS_SYS_MAX <= nr -> s64 r = MCSOS_ENOSYS) /\
  (nr = MCSOS_SYS_WRITE_SERIAL -> a0 = 0 -> s64 r = MCSOS_EFAULT) /\
  (nr = MCSOS_SYS_WRITE_SERIAL -> a0 <> 0 -> r = a1).
Proof.
  intros Hnr H0 H1. cbn zeta.
  pose proof (dispatch_cases nr a0 a1 a2 a3 a4 a5 Hnr) as H. cbn zeta in H.
  set (r := mcsos_syscall_dispatch nr a0 a1 a2 a3 a4 a5) in *. clearbody r.
  assert (is_u64 r) as Hr by (unfold is_u64, MCSOS_SYS_MAX, MCSOS_SYS_WRITE_SERIAL in *; lia).
  split; [done|]. rewrite (s64_neg r Hr).
  unfold is_u64, MCSOS_SYS_MAX, MCSOS_SYS_WRITE_SERIAL, MCSOS_ENOSYS, MCSOS_EFAULT in *.
  split; [lia|]. split_and!.
  - intros Hm. assert (r = 2 ^ 64 - 38) as -> by lia. reflexivity.
  - intros Hw Ha. assert (r = 2 ^ 64 - 14) as -> by lia. reflexivity.
  - lia.
Qed.

Lemma mcsos_syscall_dispatch_witness :
  s64 (mcsos_syscall_dispatch 99 0 0 0 0 0 0) = -38 /\
  s64 (mcsos_syscall_dispatch 2 0 5 0 0 0 0) = -14 /\
  mcsos_syscall_dispatch 2 (2 ^ 64 - 1) 16 0 0 0 0 = 16.
Proof.
  split_and!.
  - apply (mcsos_syscall_dispatch_errors 99 0 0 0 0 0 0); [by_compute..|].
    unfold MCSOS_SYS_MAX. lia.
  - apply (mcsos_syscall_dispatch_errors 2 0 5 0 0 0 0); [by_compute..|reflexivity|reflexivity].
  - apply (mcsos_syscall_dispatch_errors 2 (2 ^ 64 - 1) 16 0 0 0 0); [by_compute..|reflexivity|lia].
Defined.
