(* ===== verification/Elf.v ===== *)
(** * The ELF loader's planner (kernel/user/m11_elf_loader.c)

    [m11_elf64_plan_load] validates an image and counts its loadable segments.  The image is
    the object the pointer designates, as its bytes; the size the caller passes is a separate
    argument.  The packed headers are read field by field, little endian, when the code reads
    them; a read outside the object is a fault. *)

From S2P Require Import Prelude Bytes.

(** ** Data *)

Definition M11_ELF_MAGIC : Z := 0x464c457f.
Definition M11_ELF_MACHINE_X86_64 : Z := 62.
Definition M11_PT_LOAD : Z := 1.

Inductive m11_status : Type :=
  | M11_OK
  | M11_ERR_MAGIC
  | M11_ERR_MACHINE
  | M11_ERR_ENTRY
  | M11_ERR_SEGBOUNDS
  | M11_ERR_ALIGN
  | M11_ERR_SEGRANGE.

#[global] Instance m11_status_eq_dec : EqDecision m11_status.
Proof. solve_decision. Defined.

(** [struct m11_elf64_ehdr], packed at offset 0. *)
Definition EHDR_SIZE : Z := 24.
Definition e_ident_magic (l : list Z) : exec Z := le_read l 0 4.
Definition e_machine (l : list Z) : exec Z := le_read l 4 2.
Definition e_entry (l : list Z) : exec Z := le_read l 6 8.
Definition e_phoff (l : list Z) : exec Z := le_read l 14 8.
Definition e_phnum (l : list Z) : exec Z := le_read l 22 2.

(** [struct m11_elf64_phdr], packed at offset [p]. *)
Definition PHDR_SIZE : Z := 44.
Definition p_type (l : list Z) (p : Z) : exec Z := le_read l p 4.
Definition p_offset (l : list Z) (p : Z) : exec Z := le_read l (p + 4) 8.
Definition p_vaddr (l : list Z) (p : Z) : exec Z := le_read l (p + 12) 8.
Definition p_filesz (l : list Z) (p : Z) : exec Z := le_read l (p + 20) 8.
Definition p_memsz (l : list Z) (p : Z) : exec Z := le_read l (p + 28) 8.
Definition p_align (l : list Z) (p : Z) : exec Z := le_read l (p + 36) 8.

#[global] Arguments e_ident_magic l : simpl never.
#[global] Arguments e_machine l : simpl never.
#[global] Arguments e_entry l : simpl never.
#[global] Arguments e_phoff l : simpl never.
#[global] Arguments e_phnum l : simpl never.
#[global] Arguments p_type l p : simpl never.
#[global] Arguments p_offset l p : simpl never.
#[global] Arguments p_vaddr l p : simpl never.
#[global] Arguments p_filesz l p : simpl never.
#[global] Arguments p_memsz l p : simpl never.
#[global] Arguments p_align l p : simpl never.

Record m11_process_image_plan : Type := mk_plan {
  entry_virtual_address : Z;
  segment_count : Z
}.

(** ** Operations *)

(** One round of the loop over the program headers, for the header at offset [p]. *)
Definition plan_segment (l : list Z) (image_size p : Z) (plan : m11_process_image_plan)
  : exec (flow m11_process_image_plan m11_status) :=
  ty ← p_type l p;
  if negb (ty =? M11_PT_LOAD) then Ret (Next plan)
  else
    memsz ← p_memsz l p;
    filesz ← p_filesz l p;
    if memsz <? filesz then Ret (Exit plan M11_ERR_SEGBOUNDS)
    else
      offset ← p_offset l p;
      if image_size <? u64 (offset + filesz) then Ret (Exit plan M11_ERR_SEGBOUNDS)
      else
        align ← p_align l p;
        if align =? 0 then Ret (Exit plan M11_ERR_ALIGN)
        else if negb (Z.land align (u64 (align - 1)) =? 0) then Ret (Exit plan M11_ERR_ALIGN)
        else
          vaddr ← p_vaddr l p;
          if vaddr <? 0x400000 then Ret (Exit plan M11_ERR_SEGRANGE)
          else Ret (Next (mk_plan (entry_virtual_address plan) (u32 (segment_count plan + 1)))).

(** The result is the plan as it was left, if there is one, and the status returned. *)
Definition m11_elf64_plan_load (image : option (list Z)) (image_size : Z)
    (plan : option m11_process_image_plan)
  : exec (option m11_process_image_plan * m11_status) :=
  match image, plan with
  | None, _ | _, None => Ret (plan, M11_ERR_MAGIC)
  | Some l, Some pl =>
      if image_size <? EHDR_SIZE then Ret (plan, M11_ERR_MAGIC)
      else
        magic ← e_ident_magic l;
        if negb (magic =? M11_ELF_MAGIC) then Ret (plan, M11_ERR_MAGIC)
        else
          machine ← e_machine l;
          if negb (machine =? M11_ELF_MACHINE_X86_64) then Ret (plan, M11_ERR_MACHINE)
          else
            entry ← e_entry l;
            if entry <? 0x400000 then Ret (plan, M11_ERR_ENTRY)
            else
              phoff ← e_phoff l;
              phnum ← e_phnum l;
              if image_size <? u64 (phoff + u64 (phnum * PHDR_SIZE)) then
                Ret (plan, M11_ERR_SEGBOUNDS)
              else
                r ← for_loop (Z.to_nat phnum) 0
                      (fun i => plan_segment l image_size (phoff + PHDR_SIZE * i))
                      (mk_plan entry 0);
                match r with
                | Next pl' => Ret (Some pl', M11_OK)
                | Exit pl' st => Ret (Some pl', st)
                end
  end.

(** ** What a loadable image is *)

(** The decoded headers. *)
Record ehdr : Type := mk_ehdr {
  eh_magic : Z; eh_machine : Z; eh_entry : Z; eh_phoff : Z; eh_phnum : Z
}.
Record phdr : Type := mk_phdr {
  ph_type : Z; ph_offset : Z; ph_vaddr : Z; ph_filesz : Z; ph_memsz : Z; ph_align : Z
}.

Definition has_ehdr (l : list Z) (h : ehdr) : Prop :=
  e_ident_magic l = Ret (eh_magic h) /\ e_machine l = Ret (eh_machine h) /\
  e_entry l = Ret (eh_entry h) /\ e_phoff l = Ret (eh_phoff h) /\ e_phnum l = Ret (eh_phnum h).

Definition has_phdr (l : list Z) (p : Z) (s : phdr) : Prop :=
  p_type l p = Ret (ph_type s) /\ p_offset l p = Ret (ph_offset s) /\
  p_vaddr l p = Ret (ph_vaddr s) /\ p_filesz l p = Ret (ph_filesz s) /\
  p_memsz l p = Ret (ph_memsz s) /\ p_align l p = Ret (ph_align s).

(** The conditions on a loadable segment, one per status that rejects it; [B] is the one on its
    bounds. *)
Definition seg_aligned (s : phdr) : Prop := exists k, 0 <= k /\ ph_align s = 2 ^ k.
Definition seg_in_user (s : phdr) : Prop := 0x400000 <= ph_vaddr s.

Definition seg_good (B : phdr -> Prop) (s : phdr) : Prop :=
  ph_type s = M11_PT_LOAD -> B s /\ seg_aligned s /\ seg_in_user s.

Definition seg_bad (B : phdr -> Prop) (st : m11_status) (s : phdr) : Prop :=
  ph_type s = M11_PT_LOAD /\
  match st with
  | M11_ERR_SEGBOUNDS => ~ B s
  | M11_ERR_ALIGN => B s /\ ~ seg_aligned s
  | M11_ERR_SEGRANGE => B s /\ seg_aligned s /\ ~ seg_in_user s
  | _ => False
  end.

(** What the bounds are to ensure: the contents lie in the image and fit in memory. *)
Definition inside (size : Z) (s : phdr) : Prop :=
  ph_filesz s <= ph_memsz s /\ ph_offset s + ph_filesz s <= size.

(** The sums that the code computes modulo [2^64]. *)
Definition table_wraps (h : ehdr) : Prop := 2 ^ 64 <= eh_phoff h + PHDR_SIZE * eh_phnum h.
Definition seg_wraps (s : phdr) : Prop := ph_type s = M11_PT_LOAD /\ 2 ^ 64 <= ph_offset s + ph_filesz s.

#[global] Instance seg_wraps_dec s : Decision (seg_wraps s).
Proof. unfold seg_wraps. apply _. Defined.

Definition is_load (s : phdr) : bool := ph_type s =? M11_PT_LOAD.

(** The table of [n] program headers at [off]. *)
Definition has_table (l : list Z) (off : Z) (t : list phdr) : Prop :=
  forall i s, arr_get t i = Ret s -> has_phdr l (off + PHDR_SIZE * i) s.

(** The outcome of planning, as a relation between the image's headers and the result. *)
Inductive plan_outcome (l : list Z) (size : Z) (h : ehdr) (pl : m11_process_image_plan)
  : m11_status -> m11_process_image_plan -> Prop :=
  | out_magic :
      eh_magic h <> M11_ELF_MAGIC -> plan_outcome l size h pl M11_ERR_MAGIC pl
  | out_machine :
      eh_magic h = M11_ELF_MAGIC -> eh_machine h <> M11_ELF_MACHINE_X86_64 ->
      plan_outcome l size h pl M11_ERR_MACHINE pl
  | out_entry :
      eh_magic h = M11_ELF_MAGIC -> eh_machine h = M11_ELF_MACHINE_X86_64 ->
      eh_entry h < 0x400000 -> plan_outcome l size h pl M11_ERR_ENTRY pl
  | out_table :
      eh_magic h = M11_ELF_MAGIC -> eh_machine h = M11_ELF_MACHINE_X86_64 ->
      0x400000 <= eh_entry h -> size < eh_phoff h + PHDR_SIZE * eh_phnum h ->
      plan_outcome l size h pl M11_ERR_SEGBOUNDS pl
  | out_segment t1 s t2 st :
      eh_magic h = M11_ELF_MAGIC -> eh_machine h = M11_ELF_MACHINE_X86_64 ->
      0x400000 <= eh_entry h -> eh_phoff h + PHDR_SIZE * eh_phnum h <= size ->
      has_table l (eh_phoff h) (t1 ++ s :: t2) -> zlen (t1 ++ s :: t2) = eh_phnum h ->
      Forall (seg_good (inside size)) t1 -> seg_bad (inside size) st s ->
      plan_outcome l size h pl st (mk_plan (eh_entry h) (zlen (List.filter is_load t1)))
  | out_ok t :
      eh_magic h = M11_ELF_MAGIC -> eh_machine h = M11_ELF_MACHINE_X86_64 ->
      0x400000 <= eh_entry h -> eh_phoff h + PHDR_SIZE * eh_phnum h <= size ->
      has_table l (eh_phoff h) t -> zlen t = eh_phnum h -> Forall (seg_good (inside size)) t ->
      plan_outcome l size h pl M11_OK (mk_plan (eh_entry h) (zlen (List.filter is_load t))).

(** ** Decoding *)

Lemma decode_ehdr l :
  bytes l -> EHDR_SIZE <= zlen l ->
  exists h, has_ehdr l h /\ is_u64 (eh_phoff h) /\ is_u16 (eh_phnum h).
Proof.
  unfold EHDR_SIZE. intros Hl Hs.
  destruct (le_read_ok l 4 0) as [v1 E1]; [lia..|].
  destruct (le_read_ok l 2 4) as [v2 E2]; [lia..|].
  destruct (le_read_ok l 8 6) as [v3 E3]; [lia..|].
  destruct (le_read_ok l 8 14) as [v4 E4]; [lia..|].
  destruct (le_read_ok l 2 22) as [v5 E5]; [lia..|].
  exists (mk_ehdr v1 v2 v3 v4 v5). split; [by split_and!|].
  split; [exact (le_read_range _ _ _ _ Hl E4)|exact (le_read_range _ _ _ _ Hl E5)].
Qed.

(** The fields that are 64 bits wide and used in sums. *)
Definition phdr_typed (s : phdr) : Prop := is_u64 (ph_align s) /\ is_u64 (ph_offset s) /\ is_u64 (ph_filesz s).

Lemma ehdr_typed l h :
  bytes l -> EHDR_SIZE <= zlen l -> has_ehdr l h -> is_u64 (eh_phoff h) /\ is_u16 (eh_phnum h).
Proof.
  intros Hl Hs (_ & _ & _ & E4 & E5). destruct (decode_ehdr l Hl Hs) as (h' & (_ & _ & _ & F4 & F5) & Hx).
  rewrite E4 in F4. rewrite E5 in F5. injection F4 as ->. by injection F5 as ->.
Qed.

Lemma decode_phdr l p :
  bytes l -> 0 <= p -> p + PHDR_SIZE <= zlen l ->
  exists s, has_phdr l p s /\ phdr_typed s.
Proof.
  unfold PHDR_SIZE. intros Hl Hp Hs.
  destruct (le_read_ok l 4 p) as [v1 E1]; [lia..|].
  destruct (le_read_ok l 8 (p + 4)) as [v2 E2]; [lia..|].
  destruct (le_read_ok l 8 (p + 12)) as [v3 E3]; [lia..|].
  destruct (le_read_ok l 8 (p + 20)) as [v4 E4]; [lia..|].
  destruct (le_read_ok l 8 (p + 28)) as [v5 E5]; [lia..|].
  destruct (le_read_ok l 8 (p + 36)) as [v6 E6]; [lia..|].
  exists (mk_phdr v1 v2 v3 v4 v5 v6). split; [by split_and!|].
  split_and!; [exact (le_read_range _ _ _ _ Hl E6)|exact (le_read_range _ _ _ _ Hl E2)|exact (le_read_range _ _ _ _ Hl E4)].
Qed.

Lemma has_table_cons l off s t :
  has_table l off (s :: t) <-> has_phdr l off s /\ has_table l (off + PHDR_SIZE) t.
Proof.
  unfold has_table. split.
  - intros H. split; [specialize (H 0 s eq_refl); by rewrite Z.mul_0_r, Z.add_0_r in H|].
    intros i u Hi. replace (off + PHDR_SIZE + PHDR_SIZE * i) with (off + PHDR_SIZE * (i + 1)) by lia.
    apply H. apply arr_get_Ret in Hi as [Hi E]. apply arr_get_Ret. split; [lia|].
    by replace (Z.to_nat (i + 1)) with (S (Z.to_nat i)) by lia.
  - intros [H0 Ht] i u Hi. apply arr_get_Ret in Hi as [Hi E].
    destruct (decide (i = 0)) as [->|Hne].
    + cbn in E. injection E as <-. by rewrite Z.mul_0_r, Z.add_0_r.
    + replace (off + PHDR_SIZE * i) with (off + PHDR_SIZE + PHDR_SIZE * (i - 1)) by lia.
      apply Ht. apply arr_get_Ret. split; [lia|].
      by replace (Z.to_nat i) with (S (Z.to_nat (i - 1))) in E by lia.
Qed.

Lemma decode_table l n : forall off,
  bytes l -> 0 <= off -> off + PHDR_SIZE * Z.of_nat n <= zlen l ->
  exists t, length t = n /\ has_table l off t /\ Forall phdr_typed t.
Proof.
  unfold PHDR_SIZE. induction n as [|n IH]; intros off Hl Hoff Hs.
  - exists []. split_and!; [done|intros i s [_ E]%arr_get_Ret; done|done].
  - destruct (decode_phdr l off) as (s & Hp & Ha); [done|done|unfold PHDR_SIZE; lia|].
    destruct (IH (off + 44)) as (t & Hlen & Ht & Hat); [done|lia|lia|].
    exists (s :: t). split_and!; [cbn; lia|by apply has_table_cons|by constructor].
Qed.

(** The bit test for a power of two. *)
Lemma land_pred_pow2 a :
  0 < a < 2 ^ 64 -> (Z.land a (u64 (a - 1)) = 0 <-> exists k, 0 <= k /\ a = 2 ^ k).
Proof.
  intros Ha. rewrite u64_small by (unfold is_u64; lia). split.
  - intros E. exists (Z.log2 a). split; [apply Z.log2_nonneg|].
    destruct (Z.log2_spec a) as [H1 H2]; [lia|].
    destruct (decide (a = 2 ^ Z.log2 a)) as [|Hne]; [done|exfalso].
    assert (Z.log2 (a - 1) = Z.log2 a) as El 
      by (apply Z.log2_unique; [apply Z.log2_nonneg|lia]).
    assert (Z.testbit (Z.land a (a - 1)) (Z.log2 a) = true) as Hb.
    { rewrite Z.land_spec, Z.bit_log2 by lia. rewrite <- El. rewrite Z.bit_log2; [done|].
      pose proof (Z.log2_nonneg a). assert (0 < 2 ^ Z.log2 a) by (apply Z.pow_pos_nonneg; lia). lia. }
    rewrite E, Z.bits_0 in Hb. discriminate.
  - intros (k & Hk & ->). rewrite Z.sub_1_r, <- Z.ones_equiv, Z.land_ones by lia.
    apply Z_mod_same_full.
Qed.

(** ** The loop *)

(** What the code tests instead. *)
Definition inside_mod (size : Z) (s : phdr) : Prop :=
  ph_filesz s <= ph_memsz s /\ u64 (ph_offset s + ph_filesz s) <= size.

Lemma inside_mod_eq size s : phdr_typed s -> ~ seg_wraps s -> ph_type s = M11_PT_LOAD -> inside_mod size s <-> inside size s.
Proof.
  intros (_ & Ho & Hf) Hw Hl. unfold inside_mod, inside, seg_wraps, is_u64 in *.
  rewrite u64_small by (unfold is_u64; lia). done.
Qed.

Lemma good_mod_eq size s : phdr_typed s -> ~ seg_wraps s -> seg_good (inside_mod size) s <-> seg_good (inside size) s.
Proof.
  intros Ht Hw. unfold seg_good. split; intros H Hl; pose proof (inside_mod_eq size s Ht Hw Hl); specialize (H Hl); tauto.
Qed.

Lemma bad_mod_eq size st s :
  phdr_typed s -> ~ seg_wraps s -> seg_bad (inside_mod size) st s -> seg_bad (inside size) st s.
Proof.
  intros Ht Hw [Hl H]. split; [done|]. pose proof (inside_mod_eq size s Ht Hw Hl) as E. destruct st; tauto.
Qed.

Lemma plan_segment_eq l size p s pl :
  has_phdr l p s -> phdr_typed s ->
  (seg_good (inside_mod size) s /\
   plan_segment l size p pl
   = Ret (Next (if is_load s
                then mk_plan (entry_virtual_address pl) (u32 (segment_count pl + 1)) else pl))) \/
  (exists st, seg_bad (inside_mod size) st s /\ plan_segment l size p pl = Ret (Exit pl st)).
Proof.
  intros (E1 & E2 & E3 & E4 & E5 & E6) [Ha _]. unfold plan_segment, is_load, seg_good, seg_bad.
  rewrite E1. cbn. destruct (Z.eqb_spec (ph_type s) M11_PT_LOAD) as [Hl|Hl]; cbn; [|by left].
  rewrite E5. cbn. rewrite E4. cbn. unfold inside_mod.
  destruct (Z.ltb_spec (ph_memsz s) (ph_filesz s));
    [right; exists M11_ERR_SEGBOUNDS; split; [split; [done|lia]|done]|].
  rewrite E2. cbn. destruct (Z.ltb_spec size (u64 (ph_offset s + ph_filesz s)));
    [right; exists M11_ERR_SEGBOUNDS; split; [split; [done|lia]|done]|].
  rewrite E6. cbn. unfold seg_aligned, is_u64 in *.
  destruct (Z.eqb_spec (ph_align s) 0) as [Hz|Hz].
  { right. exists M11_ERR_ALIGN. split; [|done]. split_and!; [done..|]. intros (k & Hk & E).
    pose proof (Z.pow_pos_nonneg 2 k). lia. }
  pose proof (land_pred_pow2 (ph_align s) ltac:(lia)) as Hp.
  destruct (Z.eqb_spec (Z.land (ph_align s) (u64 (ph_align s - 1))) 0) as [Hb|Hb]; cbn;
    [|right; exists M11_ERR_ALIGN; split; [|done]; split_and!; [done..|]; by rewrite <- Hp].
  rewrite E3. cbn. unfold seg_in_user.
  destruct (Z.ltb_spec (ph_vaddr s) 0x400000);
    [right; exists M11_ERR_SEGRANGE; split; [|done]; split_and!; try done; [by apply Hp|lia]|].
  left. split; [|done]. intros _. split_and!; [done..|by apply Hp|done].
Qed.

(** The loop over a decoded table stops at the first bad segment or counts the loadable ones. *)
Lemma plan_loop l size off e t : forall i c,
  has_table l (off + PHDR_SIZE * i) t -> Forall phdr_typed t ->
  0 <= c -> c + zlen t < 2 ^ 32 ->
  (Forall (seg_good (inside_mod size)) t /\
   for_loop (length t) i (fun i => plan_segment l size (off + PHDR_SIZE * i)) (mk_plan e c)
   = Ret (Next (mk_plan e (c + zlen (List.filter is_load t))))) \/
  (exists t1 s t2 st, t = t1 ++ s :: t2 /\ Forall (seg_good (inside_mod size)) t1 /\ seg_bad (inside_mod size) st s /\
   for_loop (length t) i (fun i => plan_segment l size (off + PHDR_SIZE * i)) (mk_plan e c)
   = Ret (Exit (mk_plan e (c + zlen (List.filter is_load t1))) st)).
Proof.
  induction t as [|s t IH]; intros i c Ht Ha Hc Hm.
  { left. split; [done|]. cbn. by rewrite Z.add_0_r. }
  apply has_table_cons in Ht as [Hs Ht]. apply Forall_cons_1 in Ha as [Has Ha].
  unfold zlen in Hm. cbn [length] in Hm |- *. cbn [for_loop].
  destruct (plan_segment_eq l size _ s (mk_plan e c) Hs Has) as [[Hg ->]|(st & Hb & ->)];
    cbn [mbind exec_bind].
  - set (c' := if is_load s then c + 1 else c).
    replace (if is_load s then _ else _) with (mk_plan e c')
      by (subst c'; destruct (is_load s); cbn; [rewrite u32_small by (unfold is_u32; lia)|]; done).
    replace (off + PHDR_SIZE * i + PHDR_SIZE) with (off + PHDR_SIZE * (i + 1)) in Ht by lia.
    assert (forall u, c + zlen (List.filter is_load (s :: u)) = c' + zlen (List.filter is_load u)) as Hf.
    { intros u. cbn. subst c'. destruct (is_load s); unfold zlen; cbn; lia. }
    destruct (IH (i + 1) c' Ht Ha) as [[Hgs ->]|(t1 & s' & t2 & st & -> & Hgs & Hb & ->)];
      [subst c'; destruct (is_load s); lia|subst c'; unfold zlen; destruct (is_load s); lia| |].
    + left. split; [by constructor|]. by rewrite Hf.
    + right. exists (s :: t1), s', t2, st. split_and!; [done|by constructor|done|]. by rewrite Hf.
  - right. exists [], s, t, st. split_and!; [done..|]. cbn. by rewrite Z.add_0_r.
Qed.

(** The outcome when the end of the table does not wrap: the specified one, with the code's test of
    the bounds. *)
Lemma plan_load_cases l size h pl :
  bytes l -> EHDR_SIZE <= size <= zlen l -> has_ehdr l h -> ~ table_wraps h ->
  exists pl' st, m11_elf64_plan_load (Some l) size (Some pl) = Ret (Some pl', st) /\
    (st <> M11_OK /\ plan_outcome l size h pl st pl' \/
     eh_magic h = M11_ELF_MAGIC /\ eh_machine h = M11_ELF_MACHINE_X86_64 /\ 0x400000 <= eh_entry h /\
     eh_phoff h + PHDR_SIZE * eh_phnum h <= size /\
     exists t, has_table l (eh_phoff h) t /\ zlen t = eh_phnum h /\ Forall phdr_typed t /\
       (Forall (seg_good (inside_mod size)) t /\ st = M11_OK /\ pl' = mk_plan (eh_entry h) (zlen (List.filter is_load t)) \/
        exists t1 s t2, t = t1 ++ s :: t2 /\ Forall (seg_good (inside_mod size)) t1 /\ seg_bad (inside_mod size) st s /\
          pl' = mk_plan (eh_entry h) (zlen (List.filter is_load t1)))).
Proof.
  intros Hl Hs Hh Hw. destruct (decode_ehdr l Hl ltac:(lia)) as (h' & Hh' & Hoff & Hnum).
  pose proof Hh as (E1 & E2 & E3 & E4 & E5). destruct Hh' as (_ & _ & _ & E4' & E5').
  rewrite E4 in E4'. injection E4' as E4'. rewrite E5 in E5'. injection E5' as E5'.
  rewrite <- E4' in Hoff. rewrite <- E5' in Hnum.
  unfold m11_elf64_plan_load. rewrite (proj2 (Z.ltb_ge size EHDR_SIZE)) by lia.
  unfold table_wraps, is_u64, is_u16, PHDR_SIZE in *.
  rewrite E1. cbn. destruct (Z.eqb_spec (eh_magic h) M11_ELF_MAGIC) as [Hm|Hm]; cbn;
    [|eexists _, _; split; [done|left; split; [done|by constructor]]].
  rewrite E2. cbn. destruct (Z.eqb_spec (eh_machine h) M11_ELF_MACHINE_X86_64) as [Hk|Hk]; cbn;
    [|eexists _, _; split; [done|left; split; [done|by constructor]]].
  rewrite E3. cbn. destruct (Z.ltb_spec (eh_entry h) 0x400000) as [He|He];
    [eexists _, _; split; [done|left; split; [done|by constructor]]|].
  rewrite E4. cbn. rewrite E5. cbn.
  rewrite (u64_small (eh_phnum h * 44)) by (unfold is_u64; lia).
  rewrite u64_small by (unfold is_u64; lia).
  destruct (Z.ltb_spec size (eh_phoff h + eh_phnum h * 44)) as [Ht|Ht];
    [eexists _, _; split; [done|left; split; [done|constructor; unfold PHDR_SIZE; (done || lia)]]|].
  destruct (decode_table l (Z.to_nat (eh_phnum h)) (eh_phoff h)) as (t & Hlen & Htab & Hal);
    [done|lia|unfold PHDR_SIZE; lia|].
  assert (zlen t = eh_phnum h) as Hz by (unfold zlen; lia). rewrite <- Hlen.
  change 44 with PHDR_SIZE.
  destruct (plan_loop l size (eh_phoff h) (eh_entry h) t 0 0) as [[Hg ->]|(t1 & s & t2 & st & Et & Hg & Hb & ->)];
    [by rewrite Z.mul_0_r, Z.add_0_r|done|lia|lia| |]; cbn; eexists _, _; (split; [done|]); right;
    (split_and!; [done|done|done|unfold PHDR_SIZE; lia|]); exists t; (split_and!; [done..|]); [by left|].
  right. by exists t1, s, t2.
Qed.

(** No loadable segment among the headers wraps. *)
Definition no_seg_wraps (l : list Z) (h : ehdr) : Prop :=
  forall i s, 0 <= i < eh_phnum h -> has_phdr l (eh_phoff h + PHDR_SIZE * i) s -> ~ seg_wraps s.

Lemma table_no_wraps l h t :
  has_table l (eh_phoff h) t -> zlen t = eh_phnum h -> no_seg_wraps l h -> Forall (fun s => ~ seg_wraps s) t.
Proof.
  intros Ht Hz Hn. apply list.Forall_lookup. intros j s Hj. pose proof (lookup_lt_Some _ _ _ Hj).
  assert (arr_get t (Z.of_nat j) = Ret s) as E by (apply arr_get_Ret; rewrite Nat2Z.id; split; [lia|done]).
  apply (Hn (Z.of_nat j)); [unfold zlen in Hz; lia|by apply Ht].
Qed.

Lemma goods_mod_eq size t :
  Forall phdr_typed t -> Forall (fun s => ~ seg_wraps s) t ->
  Forall (seg_good (inside_mod size)) t <-> Forall (seg_good (inside size)) t.
Proof.
  intros Ht Hw. rewrite !list.Forall_forall in *.
  split; intros H s Hs; specialize (H s Hs); apply (good_mod_eq size s (Ht s Hs) (Hw s Hs)); done.
Qed.

Lemma plan_load_outcome l size h pl :
  bytes l -> EHDR_SIZE <= size <= zlen l -> has_ehdr l h -> ~ table_wraps h ->
  exists pl' st, m11_elf64_plan_load (Some l) size (Some pl) = Ret (Some pl', st) /\
    (no_seg_wraps l h -> plan_outcome l size h pl st pl').
Proof.
  intros Hl Hs Hh Hw. destruct (plan_load_cases l size h pl Hl Hs Hh Hw) as (pl' & st & E & Hc).
  exists pl', st. split; [done|]. intros Hn. destruct Hc as [[_ ?]|(Hm & Hk & He & Ht & t & Htab & Hz & Hty & Hc)]; [done|].
  pose proof (table_no_wraps l h t Htab Hz Hn) as Hnw.
  destruct Hc as [(Hg & -> & ->)|(t1 & s & t2 & -> & Hg & Hb & ->)].
  - apply out_ok; [done..|]. by apply goods_mod_eq.
  - apply Forall_app in Hty as [Hty1 [Hty2 _]%Forall_cons_1], Hnw as [Hnw1 [Hnw2 _]%Forall_cons_1].
    apply (out_segment _ _ _ _ t1 s t2); [done..| |by apply bad_mod_eq]. by apply goods_mod_eq.
Qed.

(** Headers and tables are determined by the image. *)
Lemma has_phdr_unique l p s s' : has_phdr l p s -> has_phdr l p s' -> s = s'.
Proof.
  destruct s, s'. unfold has_phdr; cbn.
  intros (E1 & E2 & E3 & E4 & E5 & E6) (F1 & F2 & F3 & F4 & F5 & F6). congruence.
Qed.

Lemma has_table_unique l t : forall off t',
  has_table l off t -> has_table l off t' -> zlen t = zlen t' -> t = t'.
Proof.
  induction t as [|s t IH]; intros off [|s' t'] H H' E; unfold zlen in E; cbn in E; [done|lia|lia|].
  apply has_table_cons in H as [Hs Ht], H' as [Hs' Ht'].
  rewrite (has_phdr_unique _ _ _ _ Hs Hs'). f_equal. apply (IH _ _ Ht Ht'). unfold zlen. lia.
Qed.

Lemma seg_bad_not_good B st s : seg_bad B st s -> ~ seg_good B s.
Proof. intros [Hl Hb] Hg. destruct (Hg Hl) as (H1 & H2 & H3). destruct st; tauto. Qed.

(** The headers of an image the planner is to accept. *)
Definition loadable (l : list Z) (size : Z) (h : ehdr) : Prop :=
  eh_magic h = M11_ELF_MAGIC /\ eh_machine h = M11_ELF_MACHINE_X86_64 /\
  0x400000 <= eh_entry h /\ eh_phoff h + PHDR_SIZE * eh_phnum h <= size /\
  exists t, has_table l (eh_phoff h) t /\ zlen t = eh_phnum h /\ Forall (seg_good (inside size)) t.

(** A loadable image has no sum that wraps. *)
Lemma loadable_no_wraps l size h : size < 2 ^ 64 -> loadable l size h -> ~ table_wraps h /\ no_seg_wraps l h.
Proof.
  intros Hs (_ & _ & _ & Ht & t & Htab & Hz & Hg). split; [unfold table_wraps; lia|].
  intros i s Hi Hp [Hl Hw]. destruct (arr_get_ok t i) as [s' E]; [lia|].
  rewrite (has_phdr_unique _ _ _ _ Hp (Htab i s' E)) in *.
  destruct (Forall_arr_get _ _ _ _ Hg E Hl) as [[_ ?] _]. lia.
Qed.

Lemma outcome_loadable l size h pl st pl' : plan_outcome l size h pl st pl' -> loadable l size h -> st = M11_OK.
Proof.
  intros Ho (Hm & Hk & He & Ht & t & Htab & Hz & Hg).
  destruct Ho as [| | |????|t1 s t2 st _ _ _ _ Htab' Hz' _ Hb|]; [lia..| |done].
  rewrite (has_table_unique _ _ _ _ Htab Htab') in Hg by lia.
  apply Forall_app in Hg as [_ [Hs _]%Forall_cons_1]. by apply seg_bad_not_good in Hb.
Qed.

(** A table at the end of the address space that passes the check is read outside the image. *)
Lemma table_wraps_faults l size h pl :
  has_ehdr l h -> EHDR_SIZE <= size -> zlen l < 2 ^ 63 -> is_u16 (eh_phnum h) -> is_u64 (eh_phoff h) ->
  eh_magic h = M11_ELF_MAGIC -> eh_machine h = M11_ELF_MACHINE_X86_64 -> 0x400000 <= eh_entry h -> table_wraps h ->
  m11_elf64_plan_load (Some l) size (Some pl)
  = if size <? u64 (eh_phoff h + PHDR_SIZE * eh_phnum h) then Ret (Some pl, M11_ERR_SEGBOUNDS) else Fault OutOfBounds.
Proof.
  intros (E1 & E2 & E3 & E4 & E5) Hs Hlen Hnum Hoff Hm Hk He Hw. unfold m11_elf64_plan_load.
  unfold table_wraps, is_u16, is_u64, PHDR_SIZE in *. rewrite (proj2 (Z.ltb_ge _ _)) by lia.
  rewrite E1. cbn. rewrite Hm. cbn. rewrite E2. cbn. rewrite Hk. cbn. rewrite E3. cbn.
  rewrite (proj2 (Z.ltb_ge _ _)) by lia. rewrite E4. cbn. rewrite E5. cbn.
  rewrite (u64_small (eh_phnum h * 44)), (Z.mul_comm (eh_phnum h)) by (unfold is_u64; lia).
  destruct (size <? _); [done|].
  replace (Z.to_nat (eh_phnum h)) with (S (Z.to_nat (eh_phnum h - 1))) by lia.
  assert (p_type l (eh_phoff h + 44 * 0) = Fault OutOfBounds) as Ep.
  { unfold p_type. cbn [le_read]. by rewrite (arr_get_bad l (eh_phoff h + 44 * 0)) by lia. }
  cbn [for_loop]. assert (plan_segment l size (eh_phoff h + 44 * 0) (mk_plan (eh_entry h) 0) = Fault OutOfBounds) as ->; [|done].
  unfold plan_segment. by rewrite Ep.
Qed.

(** Acceptance passes the checks of the first header. *)
Lemma accepted_header l size h pl pl' :
  has_ehdr l h -> m11_elf64_plan_load (Some l) size (Some pl) = Ret (Some pl', M11_OK) ->
  eh_magic h = M11_ELF_MAGIC /\ eh_machine h = M11_ELF_MACHINE_X86_64 /\ 0x400000 <= eh_entry h.
Proof.
  intros (E1 & E2 & E3 & _). unfold m11_elf64_plan_load. destruct (size <? EHDR_SIZE); [done|].
  rewrite E1. cbn. destruct (Z.eqb_spec (eh_magic h) M11_ELF_MAGIC); cbn; [|done].
  rewrite E2. cbn. destruct (Z.eqb_spec (eh_machine h) M11_ELF_MACHINE_X86_64); cbn; [|done].
  rewrite E3. cbn. by destruct (Z.ltb_spec (eh_entry h) 0x400000).
Qed.

Lemma accepted_no_table_wrap l size h pl pl' :
  bytes l -> EHDR_SIZE <= size <= zlen l -> zlen l < 2 ^ 63 -> has_ehdr l h ->
  m11_elf64_plan_load (Some l) size (Some pl) = Ret (Some pl', M11_OK) -> ~ table_wraps h.
Proof.
  intros Hl Hs Hz Hh E Hw. destruct (accepted_header l size h pl pl' Hh E) as (Hm & Hk & He).
  destruct (ehdr_typed l h Hl ltac:(lia) Hh) as [Ho Hn].
  rewrite (table_wraps_faults l size h pl Hh ltac:(lia) Hz Hn Ho Hm Hk He Hw) in E. by destruct (size <? _).
Qed.

(** ** Theorems *)


(** C25: every loadable image is accepted, and an image that is accepted is loadable unless the sum
    [offset + filesz] of one of its loadable segments wraps modulo [2^64].  Loadable means: right magic
    and machine, an entry in the user range, a header table inside the image, and every loadable
    segment with [filesz <= memsz], file contents inside the image, an alignment that is a power of
    two, and an address in the user range.  The exception is real: a segment whose contents lie
    outside the image passes the check when the sum wraps to a small number. *)
Theorem m11_elf64_plan_load_accepts l size h pl :
  bytes l -> EHDR_SIZE <= size <= zlen l -> zlen l < 2 ^ 63 -> has_ehdr l h ->
  (loadable l size h -> exists pl', m11_elf64_plan_load (Some l) size (Some pl) = Ret (Some pl', M11_OK)) /\
  (forall pl', m11_elf64_plan_load (Some l) size (Some pl) = Ret (Some pl', M11_OK) ->
     loadable l size h \/
     exists i s, 0 <= i < eh_phnum h /\ has_phdr l (eh_phoff h + PHDR_SIZE * i) s /\ seg_wraps s).
Proof.
  intros Hl Hs Hz Hh. split.
  - intros Hld. destruct (loadable_no_wraps l size h ltac:(lia) Hld) as [Hw Hn].
    destruct (plan_load_outcome l size h pl Hl Hs Hh Hw) as (pl' & st & E & Ho). exists pl'.
    by rewrite (outcome_loadable _ _ _ _ _ _ (Ho Hn) Hld) in E.
  - intros pl' E. pose proof (accepted_no_table_wrap l size h pl pl' Hl Hs Hz Hh E) as Hw.
    destruct (plan_load_cases l size h pl Hl Hs Hh Hw) as (pl2 & st & E2 & Hc). rewrite E in E2. injection E2 as <- <-.
    destruct Hc as [[? _]|(Hm & Hk & He & Ht & t & Htab & Hzt & Hty & [(Hg & _)|(t1 & s & t2 & _ & _ & [_ []] & _)])]; [done|].
    destruct (decide (Exists seg_wraps t)) as [Hx|Hx].
    + right. apply list.Exists_exists in Hx as (s & [j Hj]%list_elem_of_lookup & Hsw). exists (Z.of_nat j), s.
      pose proof (lookup_lt_Some _ _ _ Hj). split; [unfold zlen in Hzt; lia|]. split; [|done].
      apply Htab, arr_get_Ret. rewrite Nat2Z.id. split; [lia|done].
    + left. split_and!; try done. exists t. split_and!; try done. apply goods_mod_eq; [done| |done].
      by apply List.Forall_Exists_neg.
Qed.

(** ** Witnesses *)

(** The [n] bytes of [v], little endian. *)
Fixpoint le_bytes (n : nat) (v : Z) : list Z :=
  match n with
  | O => []
  | S n' => v mod 256 :: le_bytes n' (v / 256)
  end.

Definition demo_ehdr (phoff phnum : Z) : list Z :=
  le_bytes 4 M11_ELF_MAGIC ++ le_bytes 2 62 ++ le_bytes 8 0x401000 ++
  le_bytes 8 phoff ++ le_bytes 2 phnum.

(** One loadable segment of four bytes at offset 68. *)
Definition demo_phdr (align : Z) : list Z :=
  le_bytes 4 1 ++ le_bytes 8 68 ++ le_bytes 8 0x401000 ++ le_bytes 8 4 ++
  le_bytes 8 8 ++ le_bytes 8 align.

Definition demo_image (align : Z) : list Z := demo_ehdr 24 1 ++ demo_phdr align ++ [1; 2; 3; 4].

Definition demo_eh : ehdr := mk_ehdr M11_ELF_MAGIC 62 0x401000 24 1.

Lemma demo_has_ehdr align : has_ehdr (demo_image align) demo_eh.
Proof. split_and!; reflexivity. Qed.

Lemma demo_no_table_wrap : ~ table_wraps demo_eh.
Proof. unfold table_wraps, PHDR_SIZE. cbn. lia. Qed.

Lemma demo_no_seg_wraps align : 0 <= align < 2 ^ 64 -> no_seg_wraps (demo_image align) demo_eh.
Proof.
  intros Ha i s Hi (_ & Ho & _ & Hf & _) [_ Hw]. cbn in Hi. replace i with 0 in * by lia.
  assert (p_offset (demo_image align) 24 = Ret 68) as Eo by reflexivity.
  assert (p_filesz (demo_image align) 24 = Ret 4) as Ef by reflexivity.
  cbn [eh_phoff demo_eh] in Ho, Hf. rewrite Z.mul_0_r, Z.add_0_r in Ho, Hf.
  rewrite Eo in Ho. rewrite Ef in Hf. injection Ho as Ho. injection Hf as Hf. lia.
Qed.


(** A table at the end of the address space, and one segment that ends there. *)
Lemma m11_plan_load_table_wraps_witness :
  m11_elf64_plan_load (Some (demo_ehdr (2 ^ 64 - 44) 1)) 24 (Some (mk_plan 0 0)) = Fault OutOfBounds.
Proof.
  rewrite (table_wraps_faults _ 24 (mk_ehdr M11_ELF_MAGIC 62 0x401000 (2 ^ 64 - 44) 1));
    [done|split_and!; reflexivity|by_compute|by_compute|by_compute|by_compute|reflexivity|reflexivity|by_compute|].
  unfold table_wraps, PHDR_SIZE. cbn. lia.
Qed.

Definition wrapping_image : list Z :=
  demo_ehdr 24 1 ++ le_bytes 4 1 ++ le_bytes 8 (2 ^ 64 - 8) ++ le_bytes 8 0x401000 ++ le_bytes 8 16 ++
  le_bytes 8 16 ++ le_bytes 8 4096.

Lemma m11_plan_load_segment_wraps :
  m11_elf64_plan_load (Some wrapping_image) 68 (Some (mk_plan 0 0)) = Ret (Some (mk_plan 0x401000 1), M11_OK).
Proof. vm_compute. reflexivity. Qed.

Lemma m11_plan_load_accepts_witness : loadable (demo_image 4096) 72 demo_eh.
Proof.
  destruct (m11_elf64_plan_load_accepts (demo_image 4096) 72 demo_eh (mk_plan 0 0)) as [_ H];
    [by_compute|by_compute|by_compute|apply demo_has_ehdr|].
  destruct (H (mk_plan 0x401000 1)) as [Hl|(i & s & Hi & Hp & Hw)]; [vm_compute; reflexivity|exact Hl|].
  exfalso. exact (demo_no_seg_wraps 4096 ltac:(lia) i s Hi Hp Hw).
Defined.
