(* ===== verification/Sync.v ===== *)
(** * Locks (kernel/sync/m12_spinlock.c, m12_mutex.c, m12_lockdep.c)

    Both locks are a word acquired by an atomic test-and-set in a loop and released by an atomic
    store of 0.  [LockOps] is what they share; a step relation interleaves any number of CPUs
    that use one lock, and its properties are proved once for the interface.  The depth counter
    of lockdep is a separate, unprotected word. *)

From S2P Require Import Prelude.

(** ** The atomic builtins *)

(** [__sync_lock_test_and_set(p, v)]: the old value is returned, [v] is stored. *)
Definition sync_lock_test_and_set (w v : Z) : Z * Z := (v, w).

(** [__sync_lock_release(p)]. *)
Definition sync_lock_release (w : Z) : Z := 0.

(** ** Spinlock *)

Definition mcs_spin_init (w : Z) : Z := 0.

(** The new word and the C truth value returned. *)
Definition mcs_spin_try_lock (w : Z) : Z * Z :=
  let '(w', old) := sync_lock_test_and_set w 1 in (w', b2z (old =? 0)).

(** One evaluation of the condition of the loop in [mcs_spin_lock]: the new word, and whether the
    loop ends. *)
Definition spin_round (w : Z) : Z * bool :=
  let '(w', ok) := mcs_spin_try_lock w in (w', negb (ok =? 0)).

(** The loop as run by one CPU alone. *)
Fixpoint mcs_spin_lock (fuel : nat) (w : Z) : exec Z :=
  match fuel with
  | O => Fault OutOfFuel
  | S fuel' => let '(w', ends) := spin_round w in if ends : bool then Ret w' else mcs_spin_lock fuel' w'
  end.

Definition mcs_spin_unlock (w : Z) : Z := sync_lock_release w.

(** ** Mutex *)

Definition mcs_mutex_init (w : Z) : Z := 0.

(** The same of [mcs_mutex_lock], which tests the old value itself. *)
Definition mutex_round (w : Z) : Z * bool :=
  let '(w', old) := sync_lock_test_and_set w 1 in (w', old =? 0).

Fixpoint mcs_mutex_lock (fuel : nat) (w : Z) : exec Z :=
  match fuel with
  | O => Fault OutOfFuel
  | S fuel' => let '(w', ends) := mutex_round w in if ends : bool then Ret w' else mcs_mutex_lock fuel' w'
  end.

Definition mcs_mutex_unlock (w : Z) : Z := sync_lock_release w.

(** ** Lockdep *)

Definition m12_lockdep_acquire (d : Z) : Z := u32 (d + 1).
Definition m12_lockdep_release (d : Z) : Z := if 0 <? d then u32 (d - 1) else d.
Definition m12_lockdep_depth (d : Z) : Z := d.

(** ** The interface *)

(** One lock word: its initial value, one round of the acquiring loop (the new word, and whether
    the loop ends) and the release. *)
Class LockOps (L : Type) : Type := {
  lock_init : L -> Z -> Z;
  lock_round : L -> Z -> Z * bool;
  lock_release : L -> Z -> Z;
  lock_init_spec : forall l w, lock_init l w = 0;
  lock_round_spec : forall l w, lock_round l w = (1, w =? 0);
  lock_release_spec : forall l w, lock_release l w = 0
}.

Inductive spinlock : Type := Spinlock.
Inductive mutex : Type := Mutex.

#[global] Program Instance spinlock_ops : LockOps spinlock := {|
  lock_init := fun _ => mcs_spin_init;
  lock_round := fun _ => spin_round;
  lock_release := fun _ => mcs_spin_unlock
|}.
Next Obligation. reflexivity. Qed.
Next Obligation. intros ? w. cbn. by destruct (w =? 0). Qed.
Next Obligation. reflexivity. Qed.

#[global] Program Instance mutex_ops : LockOps mutex := {|
  lock_init := fun _ => mcs_mutex_init;
  lock_round := fun _ => mutex_round;
  lock_release := fun _ => mcs_mutex_unlock
|}.
Next Obligation. reflexivity. Qed.
Next Obligation. reflexivity. Qed.
Next Obligation. reflexivity. Qed.

(** ** CPUs sharing a lock *)

Inductive phase : Type :=
  | Outside
  | Waiting
  | Inside.

#[global] Instance phase_eq_dec : EqDecision phase.
Proof. solve_decision. Defined.

Section cpus.
Context {L : Type} {LO : LockOps L} (l : L).

Record machine : Type := mk_machine {
  word : Z;
  phases : list phase
}.

(** CPU [c] calls lock, runs a round of its loop, or unlocks. *)
Inductive mstep : machine -> machine -> Prop :=
  | step_call w ps c :
      ps !! c = Some Outside -> mstep (mk_machine w ps) (mk_machine w (<[c := Waiting]> ps))
  | step_acquire w ps c w' :
      ps !! c = Some Waiting -> lock_round l w = (w', true) ->
      mstep (mk_machine w ps) (mk_machine w' (<[c := Inside]> ps))
  | step_spin w ps c w' :
      ps !! c = Some Waiting -> lock_round l w = (w', false) ->
      mstep (mk_machine w ps) (mk_machine w' ps)
  | step_unlock w ps c :
      ps !! c = Some Inside ->
      mstep (mk_machine w ps) (mk_machine (lock_release l w) (<[c := Outside]> ps)).

(** All CPUs outside and the lock initialised, whatever the word held before. *)
Definition start (n : nat) (w : Z) : machine := mk_machine (lock_init l w) (replicate n Outside).

Definition reachable (n : nat) (w : Z) (m : machine) : Prop := rtc mstep (start n w) m.

(** The word is 0 and nobody is inside, or it is 1 and exactly one CPU is. *)
Definition lock_inv (m : machine) : Prop :=
  (word m = 0 /\ forall c, phases m !! c <> Some Inside) \/
  (word m = 1 /\ exists c, phases m !! c = Some Inside /\
                   forall c', phases m !! c' = Some Inside -> c' = c).

Lemma insert_inside (ps : list phase) c p c' :
  <[c := p]> ps !! c' = Some Inside -> (c' = c /\ p = Inside) \/ (c' <> c /\ ps !! c' = Some Inside).
Proof.
  destruct (decide (c' = c)) as [->|Hne].
  - rewrite list_lookup_insert_Some. intros [(_ & -> & _)|[? _]]; [by left|done].
  - rewrite list_lookup_insert_ne by done. auto.
Qed.

Lemma mstep_inv m m' : mstep m m' -> lock_inv m -> lock_inv m'.
Proof.
  intros Hs Hi. destruct Hs as [w ps c Hc|w ps c w' Hc Hr|w ps c w' Hc Hr|w ps c Hc]; unfold lock_inv in *; cbn in *.
  - destruct Hi as [[-> Hno]|[-> (k & Hk & Huniq)]]; [left|right]; (split; [done|]).
    + intros c' [(_ & ?)|(_ & H)]%insert_inside; [discriminate|by apply (Hno c')].
    + exists k. rewrite list_lookup_insert_ne by congruence. split; [done|].
      intros c' [(_ & ?)|(_ & H)]%insert_inside; [discriminate|by apply Huniq].
  - rewrite lock_round_spec in Hr. injection Hr as <- Hw%Z.eqb_eq. subst w.
    destruct Hi as [[_ Hno]|[? _]]; [|lia]. right. split; [done|]. exists c.
    split; [apply list_lookup_insert_eq; by apply lookup_lt_Some in Hc|].
    intros c' [(-> & _)|(_ & H)]%insert_inside; [done|by apply Hno in H].
  - rewrite lock_round_spec in Hr. injection Hr as <- Hw%Z.eqb_neq.
    destruct Hi as [[? _]|[_ Hi]]; [done|]. by right.
  - rewrite lock_release_spec. left. split; [done|].
    destruct Hi as [[_ Hno]|[_ (k & Hk & Huniq)]]; [by apply Hno in Hc|].
    intros c' [(_ & ?)|(Hne & H)]%insert_inside; [discriminate|].
    apply Hne. by rewrite (Huniq c' H), (Huniq c Hc).
Qed.

Lemma reachable_inv n w m : reachable n w m -> lock_inv m.
Proof.
  unfold reachable. intros Hr. refine (rtc_ind_r lock_inv _ _ _ m Hr).
  - left. cbn. rewrite lock_init_spec. split; [done|]. intros c [H _]%lookup_replicate. discriminate.
  - intros m1 m2 _ Hs Hi. by apply (mstep_inv m1).
Qed.

(** C10: mutual exclusion and progress.  However any number of CPUs interleave on one lock, started
    from an initialised word, at most one of them is ever inside; whenever nobody is inside,
    the next round of any waiting CPU acquires the lock, and whenever somebody is, a waiting
    CPU's round leaves the machine as it is. *)
Theorem lock_mutual_exclusion n w m :
  reachable n w m ->
  (forall c c', phases m !! c = Some Inside -> phases m !! c' = Some Inside -> c = c') /\
  (forall c, phases m !! c = Some Waiting ->
     ((forall k, phases m !! k <> Some Inside) ->
      mstep m (mk_machine 1 (<[c := Inside]> (phases m)))) /\
     ((exists k, phases m !! k = Some Inside) ->
      lock_round l (word m) = (word m, false) /\ mstep m m)).
Proof.
  intros Hr%reachable_inv. split.
  - intros c c' Hc Hc'. destruct Hr as [[_ Hno]|[_ (k & _ & Hu)]]; [by apply Hno in Hc|].
    by rewrite (Hu c Hc), (Hu c' Hc').
  - intros c Hc. destruct m as [v ps]. cbn in *. split.
    + intros Hno. destruct Hr as [[Hv _]|[_ (k & Hk & _)]]; [|by apply Hno in Hk]. cbn in Hv. subst v.
      apply step_acquire; [done|]. by rewrite lock_round_spec.
    + intros [k Hk]. destruct Hr as [[_ Hno]|[Hv _]]; [by apply Hno in Hk|]. cbn in Hv. subst v.
      rewrite lock_round_spec. split; [done|].
      apply (step_spin 1 ps c 1); [done|]. by rewrite lock_round_spec.
Qed.
End cpus.

(** C26: the acquiring loops run by one CPU alone.  On a free word both return after one round with
    the word taken, and unlocking restores it; on a taken word neither ever returns, so
    acquiring a lock twice without releasing it hangs. *)
Theorem lock_alone fuel w :
  (w = 0 -> mcs_spin_lock (S fuel) w = Ret 1 /\ mcs_mutex_lock (S fuel) w = Ret 1 /\
            mcs_spin_unlock 1 = w /\ mcs_mutex_unlock 1 = w) /\
  (w <> 0 -> mcs_spin_lock fuel w = Fault OutOfFuel /\ mcs_mutex_lock fuel w = Fault OutOfFuel).
Proof.
  split; [by intros ->|]. revert w. induction fuel as [|fuel IH]; intros w Hw; [done|].
  cbn. rewrite (proj2 (Z.eqb_neq w 0)) by done. cbn. by apply IH.
Qed.

(** ** Lockdep *)

Inductive ldop : Type :=
  | Acquire
  | Release.

Definition ld_step (d : Z) (o : ldop) : Z :=
  match o with Acquire => m12_lockdep_acquire d | Release => m12_lockdep_release d end.

Definition ld_run (d : Z) (os : list ldop) : Z := foldl ld_step d os.

Definition balance (os : list ldop) : Z :=
  foldr (fun o b => match o with Acquire => b + 1 | Release => b - 1 end) 0 os.

Definition delta (o : ldop) : Z := match o with Acquire => 1 | Release => -1 end.

Lemma balance_cons o os : balance (o :: os) = delta o + balance os.
Proof. unfold balance. destruct o; cbn; lia. Qed.

Lemma ld_run_balanced os : forall d,
  0 <= d -> d + zlen os < 2 ^ 32 -> (forall k, 0 <= d + balance (take k os)) ->
  ld_run d os = d + balance os.
Proof.
  induction os as [|o os IH]; intros d Hd Hlen Hk; [cbn; lia|].
  unfold zlen in Hlen. cbn [length] in Hlen.
  pose proof (Hk 1%nat) as H1. cbn [take] in H1. rewrite firstn_O, balance_cons in H1. cbn in H1.
  assert (ld_step d o = d + delta o) as Es.
  { destruct o; cbn in *; unfold m12_lockdep_acquire, m12_lockdep_release.
    - apply u32_small. unfold is_u32. lia.
    - rewrite (proj2 (Z.ltb_lt 0 d)) by lia. rewrite u32_small by (unfold is_u32; lia). lia. }
  cbn [ld_run foldl]. fold (ld_run (ld_step d o) os). rewrite Es, balance_cons.
  rewrite IH; [lia|lia|unfold zlen; destruct o; cbn; lia|].
  intros k. specialize (Hk (S k)). cbn [take] in Hk. rewrite balance_cons in Hk. lia.
Qed.

(** The depth reported is the number of acquisitions less the number of releases, as long as no
    release comes before its acquisition. *)
Theorem m12_lockdep_counts os :
  zlen os < 2 ^ 32 -> (forall k, 0 <= balance (take k os)) ->
  m12_lockdep_depth (ld_run 0 os) = balance os.
Proof.
  intros Hl Hk. unfold m12_lockdep_depth. rewrite ld_run_balanced; [lia|lia|lia|].
  intros k. specialize (Hk k). lia.
Qed.

(** ** Witnesses *)

(** Two CPUs on a spinlock: the first inside, the second waiting. *)
Lemma demo_contended : reachable Spinlock 2 77 (mk_machine 1 [Inside; Waiting]).
Proof.
  unfold reachable.
  eapply rtc_l; [apply (step_call Spinlock 0 [Outside; Outside] 0); reflexivity|].
  eapply rtc_l; [apply (step_acquire Spinlock 0 [Waiting; Outside] 0 1); reflexivity|].
  eapply rtc_l; [apply (step_call Spinlock 1 [Inside; Outside] 1); reflexivity|].
  apply rtc_refl.
Qed.

Lemma lock_mutual_exclusion_witness :
  lock_round Spinlock 1 = (1, false) /\ phases (mk_machine 1 [Inside; Waiting]) !! 0%nat = Some Inside.
Proof.
  destruct (lock_mutual_exclusion Spinlock 2 77 (mk_machine 1 [Inside; Waiting]) demo_contended) as [_ H].
  destruct (H 1%nat eq_refl) as [_ Hs]. destruct (Hs (ex_intro _ 0%nat eq_refl)) as [E _].
  split; [exact E|reflexivity].
Defined.

Lemma lock_alone_witness :
  mcs_spin_lock 1 0 = Ret 1 /\ mcs_spin_lock 100 1 = Fault OutOfFuel.
Proof.
  destruct (lock_alone 0 0) as [H _]. destruct (lock_alone 100 1) as [_ H'].
  destruct (H eq_refl) as [H1 _]. destruct (H' ltac:(lia)) as [H2 _]. split; [exact H1|exact H2].
Defined.

Lemma m12_lockdep_counts_witness : m12_lockdep_depth (ld_run 0 [Acquire; Acquire; Release]) = 1.
Proof.
  apply (m12_lockdep_counts [Acquire; Acquire; Release]); [by_compute|].
  intros [|[|[|k]]]; cbn; rewrite ?firstn_nil; cbn; lia.
Defined.
