(* ===== verification/SyncSpec.v ===== *)
(** * A counter under a lock (kernel/core/kmain.c, [m12_sync_selftest])

    The critical sections of the self test, [lock; ++m12_boot_counter; unlock], run by any number of
    CPUs, with the increment as the load and the store that it compiles to.  Under either lock no
    increment is lost and no CPU is ever stuck for good; without a lock an increment can be lost. *)

From S2P Require Import Prelude Sync.

(** Where a CPU is, with the number of increments it still has to make. *)
Inductive place : Type :=
  | Idle (n : nat)
  | Asking (n : nat)
  | Entered (n : nat)
  | Loaded (n : nat) (v : Z)
  | Stored (n : nat).

#[global] Instance place_eq_dec : EqDecision place.
Proof. solve_decision. Defined.

Record shared : Type := mk_shared {
  lockw : Z;
  counter : Z;
  cpus : list place
}.

(** The increments a CPU has not stored yet. *)
Definition owed (p : place) : nat :=
  match p with
  | Idle n | Stored n => n
  | Asking n | Entered n | Loaded n _ => S n
  end.

(** A quantity summed over the CPUs. *)
Definition sum_over (f : place -> nat) (ps : list place) : nat := foldr (fun p k => f p + k)%nat 0%nat ps.

Abbreviation owed_all := (sum_over owed).

Definition holding (p : place) : bool :=
  match p with Entered _ | Loaded _ _ | Stored _ => true | _ => false end.

Section locked.
Context {L : Type} {LO : LockOps L} (l : L).

Inductive cstep : shared -> shared -> Prop :=
  | c_call w x ps c n : ps !! c = Some (Idle (S n)) -> cstep (mk_shared w x ps) (mk_shared w x (<[c := Asking n]> ps))
  | c_acquire w x ps c n w' :
      ps !! c = Some (Asking n) -> lock_round l w = (w', true) ->
      cstep (mk_shared w x ps) (mk_shared w' x (<[c := Entered n]> ps))
  | c_spin w x ps c n w' :
      ps !! c = Some (Asking n) -> lock_round l w = (w', false) -> cstep (mk_shared w x ps) (mk_shared w' x ps)
  | c_load w x ps c n : ps !! c = Some (Entered n) -> cstep (mk_shared w x ps) (mk_shared w x (<[c := Loaded n x]> ps))
  | c_store w x ps c n v :
      ps !! c = Some (Loaded n v) -> cstep (mk_shared w x ps) (mk_shared w (u64 (v + 1)) (<[c := Stored n]> ps))
  | c_unlock w x ps c n :
      ps !! c = Some (Stored n) -> cstep (mk_shared w x ps) (mk_shared (lock_release l w) x (<[c := Idle n]> ps)).

(** Each CPU outside with its work, and the lock initialised. *)
Definition begin (w x : Z) (work : list nat) : shared := mk_shared (lock_init l w) x (map Idle work).

(** ** The invariant *)

(** The word tells whether somebody holds the lock; one CPU at most does, and what it has loaded is
    the counter; the counter and what is owed add up. *)
Record counter_inv (total : Z) (s : shared) : Prop := {
  ci_word : lockw s = 0 \/ lockw s = 1;
  ci_free : lockw s = 0 -> forall c p, cpus s !! c = Some p -> holding p = false;
  ci_held : lockw s = 1 -> exists c p, cpus s !! c = Some p /\ holding p = true;
  ci_one : forall c c' p p', cpus s !! c = Some p -> cpus s !! c' = Some p' -> holding p = true -> holding p' = true -> c = c';
  ci_loaded : forall c n v, cpus s !! c = Some (Loaded n v) -> v = counter s;
  ci_sum : u64 (counter s + Z.of_nat (owed_all (cpus s))) = u64 total /\ is_u64 (counter s)
}.

Lemma sum_over_cons f p ps : sum_over f (p :: ps) = (f p + sum_over f ps)%nat.
Proof. reflexivity. Qed.

Lemma sum_over_insert f (ps : list place) c p q :
  ps !! c = Some p -> (sum_over f (<[c := q]> ps) + f p = sum_over f ps + f q)%nat.
Proof.
  revert c. induction ps as [|r ps IH]; intros [|c] H; [done|done|..].
  - injection H as ->. change (<[0%nat := q]> (p :: ps)) with (q :: ps). rewrite !sum_over_cons. lia.
  - specialize (IH c H). change (<[S c := q]> (r :: ps)) with (r :: <[c := q]> ps). rewrite !sum_over_cons. lia.
Qed.

Lemma sum_over_positive f ps : (0 < sum_over f ps)%nat -> exists c p, ps !! c = Some p /\ (0 < f p)%nat.
Proof.
  induction ps as [|p ps IH]; [cbn; lia|]. rewrite sum_over_cons. intros H. destruct (decide (0 < f p)%nat).
  - by exists 0%nat, p.
  - destruct IH as (c & q & ? & ?); [lia|]. by exists (S c), q.
Qed.

Lemma insert_cases (ps : list place) c c' p q :
  <[c := q]> ps !! c' = Some p -> (c' = c /\ p = q) \/ (c' <> c /\ ps !! c' = Some p).
Proof.
  destruct (decide (c' = c)) as [->|Hne].
  - rewrite list_lookup_insert_Some. intros [(_ & -> & _)|[? _]]; [by left|done].
  - rewrite list_lookup_insert_ne by done. auto.
Qed.

(** A step of CPU [c] that changes neither the word nor who holds the lock. *)
Lemma keep_inv total w x x' ps c p q :
  counter_inv total (mk_shared w x ps) -> ps !! c = Some p -> holding q = holding p ->
  (forall n v, q = Loaded n v -> v = x') -> (x' = x \/ holding p = true) -> is_u64 x' ->
  u64 (x' + Z.of_nat (owed q)) = u64 (x + Z.of_nat (owed p)) ->
  counter_inv total (mk_shared w x' (<[c := q]> ps)).
Proof.
  intros [H1 H2 H3 H4 H5 [H6 H7]] Hc Hq Hl Hx Hr Hsum. cbn [lockw counter cpus] in *.
  assert (c < length ps)%nat as Hlen by (by eapply lookup_lt_Some). split; cbn [lockw counter cpus].
  - done.
  - intros Hw c' p' [(-> & ->)|(_ & H)]%insert_cases; [rewrite Hq|]; by eapply H2.
  - intros Hw. destruct (H3 Hw) as (c' & p' & Hc' & Hp'). destruct (decide (c' = c)) as [->|Hne].
    + exists c, q. rewrite list_lookup_insert_eq by done. split; [done|]. congruence.
    + exists c', p'. by rewrite list_lookup_insert_ne.
  - intros c1 c2 p1 p2 [(-> & ->)|(? & ?)]%insert_cases [(-> & ->)|(? & ?)]%insert_cases Hp1 Hp2; try done.
    + rewrite Hq in Hp1. by eapply H4.
    + rewrite Hq in Hp2. by eapply H4.
    + by eapply H4.
  - intros c' n v [(-> & E)|(Hne & H)]%insert_cases; [by eapply Hl|].
    destruct Hx as [->|Hp]; [by eapply H5|]. exfalso. apply Hne. eapply H4; [exact H|exact Hc|done|done].
  - split; [|done]. pose proof (sum_over_insert owed ps c p q Hc) as Ho. unfold u64 in *.
    replace (x' + Z.of_nat (owed_all (<[c := q]> ps)))
      with (x' + Z.of_nat (owed q) + (Z.of_nat (owed_all ps) - Z.of_nat (owed p))) by lia.
    rewrite <- H6, <- (Zplus_mod_idemp_l (x' + Z.of_nat (owed q))), Hsum, Zplus_mod_idemp_l. f_equal. lia.
Qed.

Lemma cstep_inv total s s' : cstep s s' -> counter_inv total s -> counter_inv total s'.
Proof.
  intros Hs Hi. pose proof Hi as [H1 H2 H3 H4 H5 [H6 H7]].
  destruct Hs as [w x ps c n Hc|w x ps c n w' Hc Hr|w x ps c n w' Hc Hr|w x ps c n Hc|w x ps c n v Hc|w x ps c n Hc]; cbn [lockw counter cpus] in *.
  - apply (keep_inv total w x x ps c (Idle (S n))); auto; done.
  - rewrite lock_round_spec in Hr. injection Hr as <- ->%Z.eqb_eq. clear H1 H3.
    assert (forall c' p', ps !! c' = Some p' -> holding p' = false) as Hno by (by apply H2).
    assert (c < length ps)%nat as Hlen by (by eapply lookup_lt_Some). split; cbn [lockw counter cpus]; [by right|done| | | |].
    + intros _. exists c, (Entered n). by rewrite list_lookup_insert_eq.
    + intros c1 c2 p1 p2 [(-> & ->)|(? & E1)]%insert_cases [(-> & ->)|(? & E2)]%insert_cases Hp1 Hp2; try done;
        [apply Hno in E2|apply Hno in E1|apply Hno in E1]; congruence.
    + intros c' n' v [(-> & E)|(_ & H)]%insert_cases; [done|by eapply H5].
    + pose proof (sum_over_insert owed ps c _ (Entered n) Hc) as Ho. cbn in Ho.
      replace (owed_all (<[c := Entered n]> ps)) with (owed_all ps) by lia. done.
  - rewrite lock_round_spec in Hr. injection Hr as <- Hw%Z.eqb_neq. destruct H1 as [?|Hw1]; [done|]. subst w. exact Hi.
  - apply (keep_inv total w x x ps c (Entered n)); auto; congruence.
  - pose proof (H5 c n v Hc) as ->. apply (keep_inv total w x _ ps c (Loaded n x)); auto; [done|apply u64_range|].
    cbn [owed]. unfold u64. rewrite Zplus_mod_idemp_l. f_equal. lia.
  - rewrite lock_release_spec. assert (c < length ps)%nat as Hlen by (by eapply lookup_lt_Some).
    assert (forall c' p', <[c := Idle n]> ps !! c' = Some p' -> holding p' = false) as Hno.
    { intros c' p' [(-> & ->)|(Hne & H)]%insert_cases; [done|]. destruct (holding p') eqn:E; [|done].
      exfalso. apply Hne. by eapply H4. }
    split; cbn [lockw counter cpus]; [by left|by intros _|done| | |].
    + intros c1 c2 p1 p2 E1 _ Hp1. apply Hno in E1. congruence.
    + intros c' n' v H%Hno. done.
    + pose proof (sum_over_insert owed ps c _ (Idle n) Hc) as Ho. cbn in Ho.
      replace (owed_all (<[c := Idle n]> ps)) with (owed_all ps) by lia. done.
Qed.
Lemma begin_inv w x work : is_u64 x -> counter_inv (x + Z.of_nat (owed_all (map Idle work))) (begin w x work).
Proof.
  intros Hx. unfold begin. rewrite lock_init_spec.
  assert (forall c p, map Idle work !! c = Some p -> exists n, p = Idle n) as Hid.
  { intros c p (n & -> & _)%list_lookup_fmap_Some_1. by exists n. }
  split; cbn [lockw counter cpus]; [by left| |done| | |done].
  - intros _ c p (n & ->)%Hid. done.
  - intros c c' p p' (n & ->)%Hid. done.
  - intros c n v (m & ?)%Hid. done.
Qed.

(** ** Progress *)

(** The steps a CPU still has to make, its waiting apart. *)
Definition steps_left (p : place) : nat :=
  match p with
  | Idle n => 5 * n
  | Asking n => 5 * n + 4
  | Entered n => 5 * n + 3
  | Loaded n _ => 5 * n + 2
  | Stored n => 5 * n + 1
  end.

Definition finished (s : shared) : Prop := forall c p, cpus s !! c = Some p -> p = Idle 0.

Lemma can_step total s :
  counter_inv total s -> (0 < sum_over steps_left (cpus s))%nat ->
  exists s', cstep s s' /\ (sum_over steps_left (cpus s') < sum_over steps_left (cpus s))%nat.
Proof.
  destruct s as [w x ps]. intros [H1 H2 H3 _ _ _] Hpos. cbn [lockw counter cpus] in *.
  assert (exists c p, ps !! c = Some p /\ (0 < steps_left p)%nat /\ (w = 1 -> holding p = true)) as (c & p & Hc & Hp & Hh).
  { destruct (decide (w = 1)) as [->|Hw].
    - destruct (H3 eq_refl) as (c & p & Hc & Hp). exists c, p. split_and!; [done| |done]. destruct p; cbn in *; (done || lia).
    - destruct (sum_over_positive _ _ Hpos) as (c & p & Hc & Hp). exists c, p. by split_and!. }
  assert (forall w' x' q, (steps_left q < steps_left p)%nat -> cstep (mk_shared w x ps) (mk_shared w' x' (<[c := q]> ps)) ->
    exists s', cstep (mk_shared w x ps) s' /\ (sum_over steps_left (cpus s') < sum_over steps_left ps)%nat) as K.
  { intros w' x' q Hq Hs. eexists. split; [exact Hs|]. cbn [cpus]. pose proof (sum_over_insert steps_left ps c p q Hc). lia. }
  destruct p as [[|n]|n|n|n v|n]; unfold steps_left in Hp.
  - lia.
  - eapply (K _ _ (Asking n)); [cbn; lia|by econstructor].
  - destruct H1 as [->| ->]; [|by specialize (Hh eq_refl)].
    eapply (K _ _ (Entered n)); [cbn; lia|]. econstructor; [done|]. by rewrite lock_round_spec.
  - eapply (K _ _ (Loaded n x)); [unfold steps_left; lia|by econstructor].
  - eapply (K _ _ (Stored n)); [unfold steps_left; lia|by econstructor].
  - eapply (K _ _ (Idle n)); [unfold steps_left; lia|by econstructor].
Qed.

Lemma can_finish total s : counter_inv total s -> exists s', rtc cstep s s' /\ finished s'.
Proof.
  remember (sum_over steps_left (cpus s)) as k eqn:Ek. revert s Ek.
  induction (lt_wf k) as [k _ IH]. intros s Ek Hi. destruct (decide (0 < k)%nat) as [Hk|Hk].
  - destruct (can_step total s Hi) as (s1 & Hs & Hlt); [lia|].
    destruct (IH (sum_over steps_left (cpus s1)) ltac:(lia) s1 eq_refl (cstep_inv _ _ _ Hs Hi)) as (s2 & Hr & Hf). exists s2. split; [by eapply rtc_l|done].
  - exists s. split; [apply rtc_refl|]. intros c p Hc. pose proof (sum_over_insert steps_left (cpus s) c p (Idle 0) Hc) as H.
    change (steps_left (Idle 0)) with 0%nat in H. destruct p as [n|n|n|n v|n]; unfold steps_left at 2 in H; [f_equal; lia|lia|lia|lia|lia].
Qed.

Lemma finished_owed ps : (forall c p, ps !! c = Some p -> p = Idle 0) -> owed_all ps = 0%nat.
Proof.
  induction ps as [|p ps IH]; intros H; [done|]. rewrite sum_over_cons, (H 0%nat p eq_refl), IH; [done|].
  intros c q Hc. by apply (H (S c)).
Qed.

(** C11: no increment is lost.  However any number of CPUs interleave their critical sections on one
    counter, the load and the store of each increment being separate steps: when all are done the
    counter has grown by exactly the number of increments, modulo 2^64; what a CPU is about to
    store is based on the current value; and from every state that can be reached the CPUs can
    still finish, so they are never deadlocked. *)
Theorem counter_exact w x work s :
  is_u64 x -> rtc cstep (begin w x work) s ->
  (finished s -> counter s = u64 (x + Z.of_nat (list_sum work))) /\
  (forall c n v, cpus s !! c = Some (Loaded n v) -> v = counter s) /\
  (exists s', rtc cstep s s' /\ finished s').
Proof.
  intros Hx Hr. pose proof (begin_inv w x work Hx) as H0.
  assert (owed_all (map Idle work) = list_sum work) as Ew by (clear; induction work as [|n work IH]; cbn; [done|by f_equal]).
  rewrite Ew in H0. assert (counter_inv (x + Z.of_nat (list_sum work)) s) as Hi.
  { revert s Hr. apply rtc_ind_r; [done|]. intros s1 s2 _ Hs IH. by apply (cstep_inv _ s1). }
  split_and!; [|apply Hi|by eapply can_finish].
  intros Hf. destruct (ci_sum _ _ Hi) as [Hs Hu]. rewrite (finished_owed _ Hf) in Hs.
  rewrite <- Hs, Z.add_0_r. symmetry. by apply u64_small.
Qed.
End locked.

(** ** Without a lock *)

(** The same increments with no lock around them, as the counter of lockdep is used. *)
Inductive ustep : Z * list place -> Z * list place -> Prop :=
  | u_load x ps c n : ps !! c = Some (Idle (S n)) -> ustep (x, ps) (x, <[c := Loaded n x]> ps)
  | u_store x ps c n v : ps !! c = Some (Loaded n v) -> ustep (x, ps) (u64 (v + 1), <[c := Idle n]> ps).

(** Two increments can leave the counter at one. *)
Theorem unlocked_increment_lost : rtc ustep (0, [Idle 1; Idle 1]) (1, [Idle 0; Idle 0]).
Proof.
  eapply rtc_l; [apply (u_load 0 _ 0 0); reflexivity|]. eapply rtc_l; [apply (u_load 0 _ 1 0); reflexivity|].
  eapply rtc_l; [apply (u_store 0 _ 0 0 0); reflexivity|]. eapply rtc_l; [apply (u_store _ _ 1 0 0); reflexivity|].
  apply rtc_refl.
Qed.

(** ** Witness *)

(** Two CPUs on the spinlock, one increment each, the second waiting while the first is inside. *)
Lemma demo_counted : rtc (cstep Spinlock) (begin Spinlock 5 7 [1; 1]%nat) (mk_shared 0 9 [Idle 0; Idle 0]).
Proof.
  eapply rtc_l; [apply (c_call Spinlock 0 7 _ 0 0); reflexivity|]. eapply rtc_l; [apply (c_acquire Spinlock 0 7 _ 0 0 1); reflexivity|].
  eapply rtc_l; [apply (c_call Spinlock 1 7 _ 1 0); reflexivity|]. eapply rtc_l; [apply (c_load Spinlock 1 7 _ 0 0); reflexivity|].
  eapply rtc_l; [apply (c_spin Spinlock 1 7 _ 1 0 1); reflexivity|]. eapply rtc_l; [apply (c_store Spinlock 1 7 _ 0 0 7); reflexivity|].
  eapply rtc_l; [apply (c_unlock Spinlock 1 8 _ 0 0); reflexivity|]. eapply rtc_l; [apply (c_acquire Spinlock 0 8 _ 1 0 1); reflexivity|].
  eapply rtc_l; [apply (c_load Spinlock 1 8 _ 1 0); reflexivity|]. eapply rtc_l; [apply (c_store Spinlock 1 8 _ 1 0 8); reflexivity|].
  eapply rtc_l; [apply (c_unlock Spinlock 1 9 _ 1 0); reflexivity|]. apply rtc_refl.
Qed.

Lemma counter_exact_witness : counter (mk_shared 0 9 [Idle 0; Idle 0]) = u64 (7 + 2).
Proof.
  destruct (counter_exact Spinlock 5 7 [1; 1]%nat (mk_shared 0 9 [Idle 0; Idle 0])) as [H _]; [by_compute|exact demo_counted|].
  apply H. intros [|[|c]] p E; cbn in E; [by injection E as <-|by injection E as <-|done].
Defined.
