(* ===== verification/Block.v ===== *)
(** * Block devices (kernel/block/m14_ramblk.c)

    A block device is an object with two function pointers and a pointer to its driver's
    object; the only driver of the repository keeps its blocks in a byte array.  All these
    objects live in one store, so that a device bound to a driver sees what is written to the
    array behind it, and a buffer may be the array itself. *)

From S2P Require Import Prelude Bytes.

(** ** Data *)

Definition MCS_BLOCK_SIZE : Z := 512.
Definition MCS_BLOCK_OK : Z := 0.
Definition MCS_BLOCK_EINVAL : Z := -1.

(** The functions the sources ever store in [read] and [write]; [None] is a null pointer. *)
Inductive block_read_fn : Type := fn_m14_ramblk_read.
Inductive block_write_fn : Type := fn_m14_ramblk_write.

(** Pointers are keys of the store, 0 is null. *)
Record mcs_block_device_t : Type := mk_bdev {
  block_count : Z;
  bd_read : option block_read_fn;
  bd_write : option block_write_fn;
  driver_data : Z
}.

Record mcs_ram_block_device_t : Type := mk_ramdev {
  storage : Z;
  total_blocks : Z
}.

Record bstore : Type := mk_bstore {
  arrays : gmap Z (list Z);
  ramdevs : gmap Z mcs_ram_block_device_t;
  devices : gmap Z mcs_block_device_t
}.

Definition deref {A} (m : gmap Z A) (p : Z) : exec A :=
  match m !! p with
  | Some x => Ret x
  | None => Fault NullDeref
  end.

Definition with_arrays (w : bstore) (a : gmap Z (list Z)) : bstore :=
  mk_bstore a (ramdevs w) (devices w).

(** ** Operations *)

(** One round of the copy loop: [dst[i] = src[i]], between arrays of the store. *)
Definition memcpy_step (dst doff src soff i : Z) (w : bstore) : exec bstore :=
  s ← deref (arrays w) src;
  b ← arr_get s (soff + i);
  d ← deref (arrays w) dst;
  d' ← arr_set d (doff + i) b;
  Ret (with_arrays w (<[dst := d']> (arrays w))).

Definition m14_memcpy (w : bstore) (dst doff src soff size : Z) : exec bstore :=
  for_state (Z.to_nat size) 0 (memcpy_step dst doff src soff) w.

Definition m14_ramblk_read (w : bstore) (dev lba buffer : Z) : exec (bstore * Z) :=
  if (dev =? 0) || (buffer =? 0) then Ret (w, MCS_BLOCK_EINVAL)
  else
    d ← deref (devices w) dev;
    r ← deref (ramdevs w) (driver_data d);
    if total_blocks r <=? lba then Ret (w, MCS_BLOCK_EINVAL)
    else
      w' ← m14_memcpy w buffer 0 (storage r) (u64 (lba * MCS_BLOCK_SIZE)) MCS_BLOCK_SIZE;
      Ret (w', MCS_BLOCK_OK).

Definition m14_ramblk_write (w : bstore) (dev lba buffer : Z) : exec (bstore * Z) :=
  if (dev =? 0) || (buffer =? 0) then Ret (w, MCS_BLOCK_EINVAL)
  else
    d ← deref (devices w) dev;
    r ← deref (ramdevs w) (driver_data d);
    if total_blocks r <=? lba then Ret (w, MCS_BLOCK_EINVAL)
    else
      w' ← m14_memcpy w (storage r) (u64 (lba * MCS_BLOCK_SIZE)) buffer 0 MCS_BLOCK_SIZE;
      Ret (w', MCS_BLOCK_OK).

Definition mcs_ram_block_init (w : bstore) (ramdev stor total : Z) : exec bstore :=
  _ ← deref (ramdevs w) ramdev;
  Ret (mk_bstore (arrays w) (<[ramdev := mk_ramdev stor total]> (ramdevs w)) (devices w)).

Definition mcs_block_bind_ramdev (w : bstore) (dev ramdev : Z) : exec bstore :=
  _ ← deref (devices w) dev;
  r ← deref (ramdevs w) ramdev;
  Ret (mk_bstore (arrays w) (ramdevs w)
         (<[dev := mk_bdev (total_blocks r) (Some fn_m14_ramblk_read)
                     (Some fn_m14_ramblk_write) ramdev]> (devices w))).

Definition mcs_block_read (w : bstore) (dev lba buffer : Z) : exec (bstore * Z) :=
  d ← deref (devices w) dev;
  match bd_read d with
  | None => Fault NullDeref
  | Some fn_m14_ramblk_read => m14_ramblk_read w dev lba buffer
  end.

Definition mcs_block_write (w : bstore) (dev lba buffer : Z) : exec (bstore * Z) :=
  d ← deref (devices w) dev;
  match bd_write d with
  | None => Fault NullDeref
  | Some fn_m14_ramblk_write => m14_ramblk_write w dev lba buffer
  end.

(** ** What a device promises *)

(** [dev] is bound to a driver of [n] blocks kept in the array [stor] with contents [disk]. *)
Record dev_rep (w : bstore) (dev stor n : Z) (disk : list Z) : Prop := {
  rep_dev : exists rd, devices w !! dev
    = Some (mk_bdev n (Some fn_m14_ramblk_read) (Some fn_m14_ramblk_write) rd) /\
    ramdevs w !! rd = Some (mk_ramdev stor n);
  rep_disk : arrays w !! stor = Some disk;
  rep_size : 0 <= n /\ MCS_BLOCK_SIZE * n <= zlen disk;
  rep_width : MCS_BLOCK_SIZE * n < 2 ^ 64;
  rep_nonnull : dev <> 0
}.

(** Block [lba] of a disk, and a disk with that block replaced. *)
Definition disk_block (disk : list Z) (lba : Z) : list Z :=
  slice disk (MCS_BLOCK_SIZE * lba) MCS_BLOCK_SIZE.
Definition disk_update (disk : list Z) (lba : Z) (b : list Z) : list Z :=
  splice disk (MCS_BLOCK_SIZE * lba) b.

(** Between distinct arrays the loop runs on the target alone. *)
Lemma memcpy_loop dst doff src soff s k : forall i w d r,
  dst <> src -> arrays w !! dst = Some d -> arrays w !! src = Some s ->
  for_state k i (fun i d => b ← arr_get s (soff + i); arr_set d (doff + i) b) d = Ret r ->
  for_state k i (memcpy_step dst doff src soff) w = Ret (with_arrays w (<[dst := r]> (arrays w))).
Proof.
  induction k as [|k IH]; intros i w d r Hne Hd Hs E; cbn in *.
  - injection E as <-. destruct w as [a rd dv]. cbn in *. unfold with_arrays. cbn.
    by rewrite insert_id.
  - apply exec_bind_inv in E as (d1 & E1 & E). apply exec_bind_inv in E1 as (b & Eb & Ed).
    assert (memcpy_step dst doff src soff i w = Ret (with_arrays w (<[dst := d1]> (arrays w)))) as ->
      by (unfold memcpy_step, deref; rewrite Hs, Hd; cbn; rewrite Eb; cbn; by rewrite Ed).
    cbn [mbind exec_bind].
    rewrite (IH _ _ d1 r Hne); [|cbn; by rewrite lookup_insert_eq|cbn; by rewrite lookup_insert_ne|done].
    unfold with_arrays. cbn. by rewrite insert_insert_eq.
Qed.

Lemma m14_memcpy_eq w dst doff src soff n d s :
  dst <> src -> arrays w !! dst = Some d -> arrays w !! src = Some s ->
  0 <= doff -> 0 <= soff -> 0 <= n -> doff + n <= zlen d -> soff + n <= zlen s ->
  m14_memcpy w dst doff src soff n
  = Ret (with_arrays w (<[dst := splice d doff (slice s soff n)]> (arrays w))).
Proof.
  intros Hne Hd Hs Hdo Hso Hn Hdl Hsl.
  apply (memcpy_loop dst doff src soff s _ 0 w d _ Hne Hd Hs).
  exact (byte_copy_eq d doff s soff n Hdo Hso Hn Hdl Hsl).
Qed.

(** ** The operations on a bound device *)

Lemma lba_offset n lba (disk : list Z) :
  0 <= lba < n -> MCS_BLOCK_SIZE * n <= zlen disk -> MCS_BLOCK_SIZE * n < 2 ^ 64 ->
  u64 (lba * MCS_BLOCK_SIZE) = MCS_BLOCK_SIZE * lba /\ 0 <= MCS_BLOCK_SIZE * lba /\
  MCS_BLOCK_SIZE * lba + MCS_BLOCK_SIZE <= zlen disk.
Proof.
  unfold MCS_BLOCK_SIZE. intros. rewrite u64_small by (unfold is_u64; lia). lia.
Qed.

Lemma block_write_cases w dev stor n disk lba buffer bs :
  dev_rep w dev stor n disk -> 0 <= lba -> buffer <> 0 -> buffer <> stor ->
  arrays w !! buffer = Some bs -> MCS_BLOCK_SIZE <= zlen bs ->
  if decide (lba < n) then
    let disk' := disk_update disk lba (slice bs 0 MCS_BLOCK_SIZE) in
    let w' := with_arrays w (<[stor := disk']> (arrays w)) in
    mcs_block_write w dev lba buffer = Ret (w', MCS_BLOCK_OK) /\ dev_rep w' dev stor n disk'
  else mcs_block_write w dev lba buffer = Ret (w, MCS_BLOCK_EINVAL).
Proof.
  intros [(rd & Hd & Hr) Ha Hn Hw H0] Hl Hb Hne Hbs Hlen.
  unfold mcs_block_write, m14_ramblk_write, deref. rewrite Hd. cbn.
  rewrite (proj2 (Z.eqb_neq dev 0)), (proj2 (Z.eqb_neq buffer 0)) by done. cbn.
  rewrite Hr. cbn. case_decide as Hlt.
  - rewrite (proj2 (Z.leb_gt n lba)) by lia.
    destruct (lba_offset n lba disk) as (-> & Ho & Hm); [lia|lia|done|].
    rewrite (m14_memcpy_eq _ _ _ _ _ _ disk bs); try done.
    split; [done|]. split; cbn; try done; [by exists rd|by rewrite lookup_insert_eq|].
    unfold disk_update. rewrite zlen_splice; [done|lia|rewrite zlen_slice; unfold MCS_BLOCK_SIZE in *; lia].
  - by rewrite (proj2 (Z.leb_le n lba)) by lia.
Qed.

Lemma block_read_cases w dev stor n disk lba buffer bs :
  dev_rep w dev stor n disk -> 0 <= lba -> buffer <> 0 -> buffer <> stor ->
  arrays w !! buffer = Some bs -> MCS_BLOCK_SIZE <= zlen bs ->
  if decide (lba < n) then
    let w' := with_arrays w (<[buffer := splice bs 0 (disk_block disk lba)]> (arrays w)) in
    mcs_block_read w dev lba buffer = Ret (w', MCS_BLOCK_OK) /\ dev_rep w' dev stor n disk
  else mcs_block_read w dev lba buffer = Ret (w, MCS_BLOCK_EINVAL).
Proof.
  intros [(rd & Hd & Hr) Ha Hn Hw H0] Hl Hb Hne Hbs Hlen.
  unfold mcs_block_read, m14_ramblk_read, deref. rewrite Hd. cbn.
  rewrite (proj2 (Z.eqb_neq dev 0)), (proj2 (Z.eqb_neq buffer 0)) by done. cbn.
  rewrite Hr. cbn. case_decide as Hlt.
  - rewrite (proj2 (Z.leb_gt n lba)) by lia.
    destruct (lba_offset n lba disk) as (-> & Ho & Hm); [lia|lia|done|].
    rewrite (m14_memcpy_eq _ _ _ _ _ _ bs disk); try done.
    split; [done|]. split; cbn; try done; [by exists rd|by rewrite lookup_insert_ne].
  - by rewrite (proj2 (Z.leb_le n lba)) by lia.
Qed.

Lemma disk_block_update (disk : list Z) n lba lba' b :
  MCS_BLOCK_SIZE * n <= zlen disk -> 0 <= lba < n -> 0 <= lba' < n -> zlen b = MCS_BLOCK_SIZE ->
  disk_block (disk_update disk lba b) lba' = if lba =? lba' then b else disk_block disk lba'.
Proof.
  unfold disk_block, disk_update, MCS_BLOCK_SIZE. intros Hs Hl Hl' Hb.
  destruct (Z.eqb_spec lba lba') as [->|Hne].
  - pose proof (slice_splice_same disk (512 * lba') b) as E. rewrite Hb in E. apply E; lia.
  - apply slice_splice_disjoint; lia.
Qed.

(** Binding establishes the representation. *)
Lemma bind_rep w dev rd stor n disk :
  dev <> 0 -> is_Some (ramdevs w !! rd) -> is_Some (devices w !! dev) ->
  arrays w !! stor = Some disk -> 0 <= n -> MCS_BLOCK_SIZE * n <= zlen disk ->
  MCS_BLOCK_SIZE * n < 2 ^ 64 ->
  exists w1 w2, mcs_ram_block_init w rd stor n = Ret w1 /\
    mcs_block_bind_ramdev w1 dev rd = Ret w2 /\ dev_rep w2 dev stor n disk /\
    arrays w2 = arrays w.
Proof.
  intros Hd [r Hr] [d Hdv] Ha Hn Hs Hw. unfold mcs_ram_block_init, mcs_block_bind_ramdev, deref.
  rewrite Hr. cbn. eexists _, _. split; [done|]. cbn. rewrite Hdv, lookup_insert_eq. cbn.
  split; [done|]. split; [|done]. split; cbn; try done.
  exists rd. by rewrite !lookup_insert_eq.
Qed.

(** ** Theorems *)

(** A device bound to a RAM disk is an array of blocks.  After a write of a buffer to a block
    in range, a read of any block in range into another buffer returns the written bytes when
    it is the same block and the former contents otherwise; a write or a read out of range
    reports EINVAL and changes nothing. *)
Theorem block_device_array_laws w dev rd stor n disk src dst lba lba' bs bd :
  dev <> 0 -> is_Some (ramdevs w !! rd) -> is_Some (devices w !! dev) ->
  arrays w !! stor = Some disk -> 0 <= n -> MCS_BLOCK_SIZE * n <= zlen disk ->
  MCS_BLOCK_SIZE * n < 2 ^ 64 ->
  arrays w !! src = Some bs -> MCS_BLOCK_SIZE <= zlen bs -> src <> 0 -> src <> stor ->
  arrays w !! dst = Some bd -> MCS_BLOCK_SIZE <= zlen bd -> dst <> 0 -> dst <> stor ->
  src <> dst -> 0 <= lba -> 0 <= lba' ->
  exists w1 w2, mcs_ram_block_init w rd stor n = Ret w1 /\ mcs_block_bind_ramdev w1 dev rd = Ret w2 /\
    (n <= lba -> mcs_block_write w2 dev lba src = Ret (w2, MCS_BLOCK_EINVAL)) /\
    (n <= lba -> mcs_block_read w2 dev lba dst = Ret (w2, MCS_BLOCK_EINVAL)) /\
    (lba < n -> lba' < n -> exists w3 w4,
       mcs_block_write w2 dev lba src = Ret (w3, MCS_BLOCK_OK) /\
       mcs_block_read w3 dev lba' dst = Ret (w4, MCS_BLOCK_OK) /\
       arrays w4 !! dst
       = Some (splice bd 0 (if lba =? lba' then slice bs 0 MCS_BLOCK_SIZE
                            else disk_block disk lba'))).
Proof.
  intros Hd Hrd Hdv Ha Hn Hs Hw Hbs Hls Hs0 Hss Hbd Hld Hd0 Hds Hsd Hl Hl'.
  destruct (bind_rep w dev rd stor n disk) as (w1 & w2 & E1 & E2 & Hrep & Harr); try done.
  exists w1, w2. split; [done|]. split; [done|]. rewrite <- Harr in Hbs, Hbd.
  pose proof (block_write_cases w2 dev stor n disk lba src bs Hrep Hl Hs0 Hss Hbs Hls) as HW.
  pose proof (block_read_cases w2 dev stor n disk lba dst bd Hrep Hl Hd0 Hds Hbd Hld) as HR.
  split; [intros Hge; by rewrite decide_False in HW by lia|].
  split; [intros Hge; by rewrite decide_False in HR by lia|].
  intros Hlt Hlt'. rewrite decide_True in HW by lia. destruct HW as [EW HrepW].
  eexists _, _. split; [exact EW|].
  pose proof (block_read_cases _ dev stor n _ lba' dst bd HrepW Hl' Hd0 Hds) as HR'.
  cbn [arrays with_arrays] in HR'. rewrite lookup_insert_ne in HR' by done.
  specialize (HR' Hbd Hld). rewrite decide_True in HR' by lia. destruct HR' as [ER _].
  split; [exact ER|]. cbn. rewrite lookup_insert_eq.
  rewrite (disk_block_update disk n lba lba'); [done..|].
  rewrite zlen_slice; unfold MCS_BLOCK_SIZE in *; lia.
Qed.

(** ** Witness: a disk of two blocks *)

Definition demo_bstore : bstore :=
  mk_bstore {[ 1 := replicate 1024 0; 2 := replicate 512 7; 3 := replicate 512 0 ]}
    {[ 10 := mk_ramdev 0 0 ]} {[ 20 := mk_bdev 0 None None 0 ]}.

Lemma block_device_array_laws_witness :
  exists w1 w2 w3 w4,
    mcs_ram_block_init demo_bstore 10 1 2 = Ret w1 /\ mcs_block_bind_ramdev w1 20 10 = Ret w2 /\
    mcs_block_write w2 20 1 2 = Ret (w3, 0) /\ mcs_block_read w3 20 1 3 = Ret (w4, 0) /\
    arrays w4 !! 3 = Some (replicate 512 7).
Proof.
  destruct (block_device_array_laws demo_bstore 20 10 1 2 (replicate 1024 0) 2 3 1 1
              (replicate 512 7) (replicate 512 0)) as (w1 & w2 & E1 & E2 & _ & _ & H);
    try (by_compute || reflexivity || (eexists; reflexivity)).
  destruct H as (w3 & w4 & E3 & E4 & Ha); [lia..|].
  exists w1, w2, w3, w4. split; [exact E1|]. split; [exact E2|]. split; [exact E3|].
  split; [exact E4|]. rewrite Ha. reflexivity.
Defined.
