(* ===== verification/BlockSpec.v ===== *)
(** * Sessions of block devices (kernel/block/m14_ramblk.c)

    Any number of RAM disks, each bound to a device, and sequences of reads and writes between them
    and buffers, against separate arrays of blocks. *)

From S2P Require Import Prelude Bytes Session Block.

(** A device, its driver, the array it keeps its blocks in, and their number. *)
Record disk_unit : Type := mk_unit {
  u_dev : Z;
  u_ram : Z;
  u_stor : Z;
  u_blocks : Z
}.

#[global] Instance disk_unit_eq_dec : EqDecision disk_unit.
Proof. solve_decision. Defined.

Fixpoint bind_all (w : bstore) (us : list disk_unit) : exec bstore :=
  match us with
  | [] => Ret w
  | u :: us' =>
      w1 ← mcs_ram_block_init w (u_ram u) (u_stor u) (u_blocks u);
      w2 ← mcs_block_bind_ramdev w1 (u_dev u) (u_ram u);
      bind_all w2 us'
  end.

Inductive block_op : Type :=
  | Read (dev lba buffer : Z)
  | Write (dev lba buffer : Z).

(** ** Separate arrays of blocks *)

Record adisks : Type := mk_adisks {
  blocks : gmap Z (list (list Z));
  buffers : gmap Z (list Z)
}.

(** A null buffer and a block that does not exist are refused. *)
Definition astep (a : adisks) (op : block_op) : adisks * Z :=
  match op with
  | Read dev lba buffer =>
      match blocks a !! dev ≫= (.!! Z.to_nat lba), buffers a !! buffer with
      | Some b, Some old => (mk_adisks (blocks a) (<[buffer := splice old 0 b]> (buffers a)), MCS_BLOCK_OK)
      | _, _ => (a, MCS_BLOCK_EINVAL)
      end
  | Write dev lba buffer =>
      match blocks a !! dev, buffers a !! buffer with
      | Some bs, Some data =>
          if lba <? zlen bs
          then (mk_adisks (<[dev := <[Z.to_nat lba := slice data 0 MCS_BLOCK_SIZE]> bs]> (blocks a)) (buffers a), MCS_BLOCK_OK)
          else (a, MCS_BLOCK_EINVAL)
      | _, _ => (a, MCS_BLOCK_EINVAL)
      end
  end.

(** ** The same calls on the code *)

Definition bstep (w : bstore) (op : block_op) : exec (bstore * Z) :=
  match op with
  | Read dev lba buffer => mcs_block_read w dev lba buffer
  | Write dev lba buffer => mcs_block_write w dev lba buffer
  end.

(** Calls on a bound device, with an unsigned block number and one of the buffers [bufs] or null. *)
Definition op_ok (us : list disk_unit) (bufs : gset Z) (op : block_op) : Prop :=
  match op with
  | Read dev lba buffer | Write dev lba buffer =>
      dev ∈ map u_dev us /\ 0 <= lba /\ (buffer = 0 \/ buffer ∈ bufs)
  end.

#[global] Instance op_ok_dec us bufs op : Decision (op_ok us bufs op).
Proof. destruct op; cbn; apply _. Defined.

(** What the store must hold before the devices are bound: the objects exist, the arrays have room
    for the blocks, and no device, driver or array is used twice. *)
Record unit_ready (w : bstore) (u : disk_unit) : Prop := {
  ur_dev : u_dev u <> 0 /\ is_Some (devices w !! u_dev u);
  ur_ram : is_Some (ramdevs w !! u_ram u);
  ur_size : 0 <= u_blocks u /\ MCS_BLOCK_SIZE * u_blocks u < 2 ^ 64;
  ur_room : exists disk, arrays w !! u_stor u = Some disk /\ MCS_BLOCK_SIZE * u_blocks u <= zlen disk
}.

Record units_apart (us : list disk_unit) : Prop := {
  ua_dev : NoDup (map u_dev us);
  ua_ram : NoDup (map u_ram us);
  ua_stor : NoDup (map u_stor us)
}.

(** Buffers of a block at least, apart from the arrays of the disks. *)
Definition buffers_ok (w : bstore) (us : list disk_unit) (bs : gmap Z (list Z)) : Prop :=
  bs !! 0 = None /\
  forall b l, bs !! b = Some l -> arrays w !! b = Some l /\ MCS_BLOCK_SIZE <= zlen l /\ b ∉ map u_stor us.

(** ** The relation *)

Definition blocks_of (disk : list Z) (n : Z) : list (list Z) := map (disk_block disk) (seqZ 0 n).

Record sim (us : list disk_unit) (w : bstore) (a : adisks) : Prop := {
  sm_units : forall u, u ∈ us -> exists disk, dev_rep w (u_dev u) (u_stor u) (u_blocks u) disk /\
    blocks a !! u_dev u = Some (blocks_of disk (u_blocks u));
  sm_buffers : buffers_ok w us (buffers a)
}.

Lemma zlen_blocks_of disk n : 0 <= n -> zlen (blocks_of disk n) = n.
Proof. intros Hn. unfold blocks_of, zlen. rewrite length_map, length_seqZ. lia. Qed.

Lemma blocks_of_lookup disk n lba :
  0 <= lba -> blocks_of disk n !! Z.to_nat lba = if lba <? n then Some (disk_block disk lba) else None.
Proof.
  intros Hl. unfold blocks_of. rewrite list_lookup_fmap. destruct (Z.ltb_spec lba n) as [Hlt|Hge].
  - rewrite lookup_seqZ_lt by lia. cbn [fmap option_fmap option_map]. by rewrite Z.add_0_l, Z2Nat.id.
  - by rewrite lookup_seqZ_ge by lia.
Qed.

(** An update of the bytes is an update of the list of blocks. *)
Lemma blocks_of_update disk n lba b :
  MCS_BLOCK_SIZE * n <= zlen disk -> 0 <= lba < n -> zlen b = MCS_BLOCK_SIZE ->
  blocks_of (disk_update disk lba b) n = <[Z.to_nat lba := b]> (blocks_of disk n).
Proof.
  intros Hn Hl Hb. apply list_eq. intros k. rewrite <- (Nat2Z.id k), blocks_of_lookup by lia.
  destruct (decide (Z.of_nat k = lba)) as [->|Hne].
  - rewrite (proj2 (Z.ltb_lt _ _)) by lia. pose proof (zlen_blocks_of disk n ltac:(lia)) as Hz. unfold zlen in Hz.
    rewrite list_lookup_insert_eq by lia. rewrite (disk_block_update disk n) by (done || lia). by rewrite Z.eqb_refl.
  - rewrite list_lookup_insert_ne by lia. rewrite blocks_of_lookup by lia. destruct (Z.ltb_spec (Z.of_nat k) n) as [Hk|]; [|done].
    rewrite (disk_block_update disk n) by (done || lia). by rewrite (proj2 (Z.eqb_neq _ _)) by lia.
Qed.

Lemma unit_of us dev : dev ∈ map u_dev us -> exists u, u ∈ us /\ u_dev u = dev.
Proof. intros (u & -> & Hu)%list_elem_of_fmap. by exists u. Qed.

(** Two entries of a list whose keys do not repeat are one when their keys agree. *)
Lemma key_inj {A} (f : A -> Z) l x y : NoDup (map f l) -> x ∈ l -> y ∈ l -> f x = f y -> x = y.
Proof.
  induction l as [|z l IH]; [set_solver|]. cbn [map]. intros [Hn Hd]%list.NoDup_cons [->|Hx]%elem_of_cons [->|Hy]%elem_of_cons E.
  - done.
  - destruct Hn. rewrite E. by apply list_elem_of_fmap_2.
  - destruct Hn. rewrite <- E. by apply list_elem_of_fmap_2.
  - by apply IH.
Qed.

Lemma dev_rep_other w dev stor n disk k l :
  k <> stor -> dev_rep w dev stor n disk -> dev_rep (with_arrays w (<[k := l]> (arrays w))) dev stor n disk.
Proof. intros Hk [H1 H2 H3 H4 H5]. split; try done. cbn. by rewrite lookup_insert_ne. Qed.

Section steps.
Context (us : list disk_unit) (bufs : gset Z) (w : bstore) (a : adisks).
Hypothesis Hapart : units_apart us.
Hypothesis Hsim : sim us w a.
Hypothesis Hbufs : dom (buffers a) = bufs.

Lemma null_buffer dev lba op :
  dev ∈ map u_dev us -> op = Read dev lba 0 \/ op = Write dev lba 0 ->
  bstep w op = Ret (w, MCS_BLOCK_EINVAL) /\ astep a op = (a, MCS_BLOCK_EINVAL).
Proof.
  intros (u & Hu & <-)%unit_of. destruct (sm_units us w a Hsim u Hu) as (disk & [(rd & Hd & Hr) _ _ _ H0] & Hb).
  destruct (sm_buffers us w a Hsim) as [Hz _]. intros [->| ->]; cbn [bstep astep]; rewrite Hz.
  - split; [|by destruct (_ ≫= _)]. unfold mcs_block_read, m14_ramblk_read, deref. rewrite Hd. cbn.
    by rewrite (proj2 (Z.eqb_neq _ _)).
  - split; [|by destruct (blocks a !! _)]. unfold mcs_block_write, m14_ramblk_write, deref. rewrite Hd. cbn.
    by rewrite (proj2 (Z.eqb_neq _ _)).
Qed.

Lemma block_read_sim dev lba buffer :
  dev ∈ map u_dev us -> 0 <= lba -> buffer ∈ bufs ->
  exists w', mcs_block_read w dev lba buffer = Ret (w', (astep a (Read dev lba buffer)).2) /\
    sim us w' (astep a (Read dev lba buffer)).1 /\ dom (buffers (astep a (Read dev lba buffer)).1) = bufs.
Proof.
  intros (u & Hu & <-)%unit_of Hl Hin. destruct (sm_units us w a Hsim u Hu) as (disk & Hrep & Hb).
  destruct (sm_buffers us w a Hsim) as [Hz Hall]. rewrite <- Hbufs in Hin. apply elem_of_dom in Hin as [bs Ebs].
  destruct (Hall buffer bs Ebs) as (Earr & Hlen & Hno).
  assert (buffer <> u_stor u) as Hne by (intros ->; apply Hno; by apply list_elem_of_fmap_2).
  assert (buffer <> 0) as H0 by (intros ->; congruence).
  pose proof (block_read_cases w _ _ _ disk lba buffer bs Hrep Hl H0 Hne Earr Hlen) as HR.
  cbn [astep]. rewrite Hb, Ebs. cbn [mbind option_bind]. rewrite blocks_of_lookup by done.
  destruct (decide (lba < u_blocks u)) as [Hlt|Hge]; [rewrite (proj2 (Z.ltb_lt _ _)) by done|
    rewrite (proj2 (Z.ltb_ge _ _)) by lia; by exists w].
  destruct HR as [E _]. cbn [fst snd]. eexists. split; [exact E|].
  destruct (rep_size _ _ _ _ _ Hrep) as [Hn Hsz].
  assert (zlen (disk_block disk lba) = MCS_BLOCK_SIZE) as Hzb by (apply zlen_slice; unfold MCS_BLOCK_SIZE in *; lia).
  split; [split|]; cbn [blocks buffers].
  - intros v Hv. destruct (sm_units us w a Hsim v Hv) as (dv & Hrv & Hbv). exists dv. split; [|done].
    apply dev_rep_other; [|done]. intros ->. apply Hno. by apply list_elem_of_fmap_2.
  - split; [by rewrite lookup_insert_ne|]. intros b l. destruct (decide (b = buffer)) as [->|Hb'].
    + rewrite lookup_insert_eq. intros [= <-]. cbn. rewrite lookup_insert_eq. split; [done|]. split; [|done].
      rewrite zlen_splice; lia.
    + rewrite lookup_insert_ne by done. intros El. cbn. rewrite lookup_insert_ne by done. by apply Hall.
  - rewrite dom_insert_L, Hbufs. apply elem_of_dom_2 in Ebs. set_solver.
Qed.

Lemma block_write_sim dev lba buffer :
  dev ∈ map u_dev us -> 0 <= lba -> buffer ∈ bufs ->
  exists w', mcs_block_write w dev lba buffer = Ret (w', (astep a (Write dev lba buffer)).2) /\
    sim us w' (astep a (Write dev lba buffer)).1 /\ dom (buffers (astep a (Write dev lba buffer)).1) = bufs.
Proof.
  intros (u & Hu & <-)%unit_of Hl Hin. destruct (sm_units us w a Hsim u Hu) as (disk & Hrep & Hb).
  destruct (sm_buffers us w a Hsim) as [Hz Hall]. rewrite <- Hbufs in Hin. apply elem_of_dom in Hin as [bs Ebs].
  destruct (Hall buffer bs Ebs) as (Earr & Hlen & Hno).
  assert (buffer <> u_stor u) as Hne by (intros ->; apply Hno; by apply list_elem_of_fmap_2).
  assert (buffer <> 0) as H0 by (intros ->; congruence).
  pose proof (block_write_cases w _ _ _ disk lba buffer bs Hrep Hl H0 Hne Earr Hlen) as HW.
  destruct (rep_size _ _ _ _ _ Hrep) as [Hn Hsz]. cbn [astep]. rewrite Hb, Ebs, zlen_blocks_of by done.
  destruct (decide (lba < u_blocks u)) as [Hlt|Hge]; [rewrite (proj2 (Z.ltb_lt _ _)) by done|
    rewrite (proj2 (Z.ltb_ge _ _)) by lia; by exists w].
  destruct HW as [E Hrep']. cbn [fst snd]. eexists. split; [exact E|].
  assert (zlen (slice bs 0 MCS_BLOCK_SIZE) = MCS_BLOCK_SIZE) as Hzb by (apply zlen_slice; unfold MCS_BLOCK_SIZE in *; lia).
  split; [split|done]; cbn [blocks buffers].
  - intros v Hv. destruct (decide (v = u)) as [->|Hvu].
    + eexists. split; [exact Hrep'|]. rewrite lookup_insert_eq. by rewrite blocks_of_update.
    + destruct (sm_units us w a Hsim v Hv) as (dv & Hrv & Hbv). exists dv.
      rewrite lookup_insert_ne by (intros Eu; by destruct Hvu; eapply (key_inj u_dev us); [apply Hapart|..]).
      split; [|done]. apply dev_rep_other; [|done]. intros Eu. by destruct Hvu; eapply (key_inj u_stor us); [apply Hapart|..].
  - split; [done|]. intros b l El. destruct (Hall b l El) as (Eb & Hbl & Hbn). split; [|done]. cbn.
    rewrite lookup_insert_ne; [done|]. intros <-. apply Hbn. by apply list_elem_of_fmap_2.
Qed.
End steps.

(** The relation that a session keeps: the set of buffers stays. *)
Definition sim_with (us : list disk_unit) (bufs : gset Z) (w : bstore) (a : adisks) : Prop :=
  sim us w a /\ dom (buffers a) = bufs.

Lemma block_refines us bufs : units_apart us -> Refines astep bstep (fun _ => op_ok us bufs) (sim_with us bufs).
Proof.
  intros Hap w a op [Hs Hb] Hop. destruct op as [dev lba buffer|dev lba buffer]; destruct Hop as (Hd & Hl & [->|Hin]); cbn [bstep].
  - destruct (null_buffer us w a Hs dev lba (Read dev lba 0) Hd) as [E1 ->]; [by left|]. by exists w.
  - by apply (block_read_sim us bufs).
  - destruct (null_buffer us w a Hs dev lba (Write dev lba 0) Hd) as [E1 ->]; [by right|]. by exists w.
  - by apply (block_write_sim us bufs).
Qed.

(** ** From the binding of the devices *)

(** The devices are bound one after the other, each to its own disk; the arrays stay. *)
Lemma bind_all_ok us : forall w,
  Forall (unit_ready w) us -> NoDup (map u_dev us) -> NoDup (map u_ram us) ->
  exists w', bind_all w us = Ret w' /\ arrays w' = arrays w /\
    (forall d, d ∉ map u_dev us -> devices w' !! d = devices w !! d) /\
    (forall r, r ∉ map u_ram us -> ramdevs w' !! r = ramdevs w !! r) /\
    (forall u, u ∈ us -> exists disk, arrays w !! u_stor u = Some disk /\ dev_rep w' (u_dev u) (u_stor u) (u_blocks u) disk).
Proof.
  induction us as [|u us IH]; intros w Hr Hd Hm; [exists w; split_and!; try done; intros u Hu; by apply elem_of_nil in Hu|].
  apply Forall_cons_1 in Hr as [[[Hd0 [dv Edv]] [rm Erm] [Hn Hw] (disk & Ea & Hroom)] Hr]. cbn [map] in *.
  apply list.NoDup_cons in Hd as [Hdn Hd]. apply list.NoDup_cons in Hm as [Hmn Hm].
  set (w1 := mk_bstore (arrays w) (<[u_ram u := mk_ramdev (u_stor u) (u_blocks u)]> (ramdevs w)) (devices w)).
  set (w2 := mk_bstore (arrays w) (ramdevs w1) (<[u_dev u := mk_bdev (u_blocks u) (Some fn_m14_ramblk_read)
    (Some fn_m14_ramblk_write) (u_ram u)]> (devices w))).
  assert (mcs_ram_block_init w (u_ram u) (u_stor u) (u_blocks u) = Ret w1) as E1 by (unfold mcs_ram_block_init, deref; by rewrite Erm).
  assert (mcs_block_bind_ramdev w1 (u_dev u) (u_ram u) = Ret w2) as E2.
  { unfold mcs_block_bind_ramdev, deref, w1. cbn [devices ramdevs]. rewrite Edv. cbn [mbind exec_bind].
    rewrite lookup_insert_eq. done. }
  destruct (IH w2) as (w' & E & Harr & Hdev & Hram & Hall); [|done|done|].
  { eapply list.Forall_impl; [exact Hr|]. intros v [[V1 V2] V3 V4 V5]. split; cbn; try done.
    - split; [done|]. apply lookup_insert_is_Some'. by right.
    - apply lookup_insert_is_Some'. by right. }
  exists w'. cbn [bind_all]. rewrite E1. cbn [mbind exec_bind]. rewrite E2. cbn [mbind exec_bind]. split; [done|]. split; [done|]. split_and!.
  - intros d [Hd1 Hd2]%not_elem_of_cons. rewrite Hdev by done. cbn. by rewrite lookup_insert_ne.
  - intros r [Hr1 Hr2]%not_elem_of_cons. rewrite Hram by done. cbn. by rewrite lookup_insert_ne.
  - intros v [->|Hv]%elem_of_cons; [|by apply Hall]. exists disk. split; [done|]. split; try done.
    + exists (u_ram u). rewrite Hdev, Hram by done. cbn. by rewrite !lookup_insert_eq.
    + by rewrite Harr.
Qed.

(** The disks as the arrays hold them, and the buffers. *)
Definition fresh (w : bstore) (us : list disk_unit) (bs : gmap Z (list Z)) : adisks :=
  mk_adisks (list_to_map (map (fun u => (u_dev u, blocks_of (default [] (arrays w !! u_stor u)) (u_blocks u))) us)) bs.

(** C15: devices are separate arrays of blocks.  Bind any number of devices, each to a RAM disk of its
    own, and let a client read and write blocks of any of them through buffers of its own, in any
    order.  Then every call answers, and every buffer and every disk ends, as if each device were
    a list of blocks that only writes to that device change: a block out of range and a null
    buffer report EINVAL without effect.  No call faults. *)
Theorem block_sessions_refine w us bs ops :
  Forall (unit_ready w) us -> units_apart us -> buffers_ok w us bs -> Forall (op_ok us (dom bs)) ops ->
  exists w1 w2, bind_all w us = Ret w1 /\ code_run bstep w1 ops = Ret (w2, (spec_run astep (fresh w us bs) ops).2) /\
    sim us w2 (spec_run astep (fresh w us bs) ops).1.
Proof.
  intros Hr Hap Hb Hops. destruct (bind_all_ok us w Hr (ua_dev _ Hap) (ua_ram _ Hap)) as (w1 & E & Harr & _ & _ & Hall).
  assert (sim us w1 (fresh w us bs)) as Hs.
  { split; cbn [fresh buffers].
    - intros u Hu. destruct (Hall u Hu) as (disk & Ea & Hrep). exists disk. split; [done|]. cbn [fresh blocks].
      apply elem_of_list_to_map_1; [rewrite <- list_fmap_compose; exact (ua_dev _ Hap)|].
      apply list_elem_of_fmap. exists u. by rewrite Ea.
    - unfold buffers_ok. by rewrite Harr. }
  pose proof (block_refines us (dom bs) Hap) as Href.
  destruct (session_refines astep bstep _ (sim_with us (dom bs)) ops w1 (fresh w us bs)) as (w2 & E2 & Hs2 & _);
    [done|by apply (admissible_static _ _ (op_ok us (dom bs)))|]. by exists w1, w2.
Qed.

(** ** Witness: two disks of two blocks, and a copy of a block from one to the other *)

Definition demo_store : bstore :=
  mk_bstore {[ 1 := replicate 1024 0; 2 := replicate 1024 9; 3 := replicate 512 7; 4 := replicate 512 0 ]}
    {[ 10 := mk_ramdev 0 0; 11 := mk_ramdev 0 0 ]} {[ 20 := mk_bdev 0 None None 0; 21 := mk_bdev 0 None None 0 ]}.

Definition demo_units : list disk_unit := [mk_unit 20 10 1 2; mk_unit 21 11 2 2].
Definition demo_buffers : gmap Z (list Z) := {[ 3 := replicate 512 7; 4 := replicate 512 0 ]}.
Definition demo_ops : list block_op :=
  [Write 20 1 3; Read 21 1 4; Read 20 2 4; Write 21 0 0; Write 20 0 4; Read 20 1 4].

Lemma block_sessions_witness :
  exists w1 w2, bind_all demo_store demo_units = Ret w1 /\
    code_run bstep w1 demo_ops = Ret (w2, [MCS_BLOCK_OK; MCS_BLOCK_OK; MCS_BLOCK_EINVAL; MCS_BLOCK_EINVAL; MCS_BLOCK_OK; MCS_BLOCK_OK]) /\
    arrays w2 !! 4 = Some (replicate 512 7).
Proof.
  destruct (block_sessions_refine demo_store demo_units demo_buffers demo_ops) as (w1 & w2 & E1 & E2 & Hs).
  - repeat constructor; try discriminate; try (eexists; split; [reflexivity|by_compute]); cbn; eauto.
  - split; by_compute.
  - split; [reflexivity|]. apply map_Forall_to_list. by_compute.
  - by_compute.
  - assert ((spec_run astep (fresh demo_store demo_units demo_buffers) demo_ops).2
      = [MCS_BLOCK_OK; MCS_BLOCK_OK; MCS_BLOCK_EINVAL; MCS_BLOCK_EINVAL; MCS_BLOCK_OK; MCS_BLOCK_OK]) as Ea by (vm_compute; reflexivity).
    rewrite Ea in E2. exists w1, w2. split; [exact E1|]. split; [exact E2|].
    destruct (sm_buffers _ _ _ Hs) as [_ Hb]. apply (Hb 4). vm_compute. reflexivity.
Defined.
