(* ===== verification/Journal.v ===== *)
(** * The journal (kernel/fs/m16_journal.c)

    A journal of up to 32 block images, a commit flag, and its replay onto a disk.  The disk
    and the blocks passed to [append] are byte arrays; a null pointer is [None].  Replay is
    refined to an ordered application of block writes, and a step relation at the granularity
    of one byte store describes the disks a crash can leave behind. *)

From S2P Require Import Prelude Bytes.

(** ** Data *)

Definition M16_JOURNAL_MAGIC : Z := 0x4D31364A.
Definition M16_JOURNAL_MAX_ENTRIES : Z := 32.
Definition M16_JOURNAL_BLOCK_SIZE : Z := 512.
Definition M16_JOURNAL_OK : Z := 0.
Definition M16_JOURNAL_EINVAL : Z := -1.
Definition M16_JOURNAL_EFULL : Z := -2.
Definition M16_JOURNAL_ECORRUPT : Z := -3.

Record m16_journal_entry_t : Type := mk_entry {
  target_block : Z;
  jdata : list Z;
  jvalid : bool
}.

Record m16_journal_t : Type := mk_journal {
  jmagic : Z;
  committed : Z;
  entry_count : Z;
  entries : list m16_journal_entry_t
}.

(** ** Operations *)

(** [m16_memzero] over a whole structure leaves every field zero. *)
Definition zero_entry : m16_journal_entry_t :=
  mk_entry 0 (replicate (Z.to_nat M16_JOURNAL_BLOCK_SIZE) 0) false.
Definition zero_journal : m16_journal_t :=
  mk_journal 0 0 0 (replicate (Z.to_nat M16_JOURNAL_MAX_ENTRIES) zero_entry).

Definition m16_journal_init (journal : option m16_journal_t) : option m16_journal_t :=
  match journal with
  | None => None
  | Some _ =>
      Some (mk_journal M16_JOURNAL_MAGIC (committed zero_journal) (entry_count zero_journal)
              (entries zero_journal))
  end.

Definition m16_memcpy (dst : list Z) (doff : Z) (src : list Z) (soff size : Z) : exec (list Z) :=
  byte_copy dst doff src soff size.

Definition m16_journal_append (journal : option m16_journal_t) (target : Z) (data : option (list Z))
  : exec (option m16_journal_t * Z) :=
  match journal, data with
  | None, _ | _, None => Ret (journal, M16_JOURNAL_EINVAL)
  | Some j, Some src =>
      if M16_JOURNAL_MAX_ENTRIES <=? entry_count j then Ret (journal, M16_JOURNAL_EFULL)
      else
        e ← arr_get (entries j) (entry_count j);
        d ← m16_memcpy (jdata e) 0 src 0 M16_JOURNAL_BLOCK_SIZE;
        es ← arr_set (entries j) (entry_count j) (mk_entry target d true);
        Ret (Some (mk_journal (jmagic j) (committed j) (u32 (entry_count j + 1)) es),
             M16_JOURNAL_OK)
  end.

Definition m16_journal_commit (journal : option m16_journal_t) : option m16_journal_t * Z :=
  match journal with
  | None => (None, M16_JOURNAL_EINVAL)
  | Some j => (Some (mk_journal (jmagic j) 1 (entry_count j) (entries j)), M16_JOURNAL_OK)
  end.

(** One round of the replay loop. *)
Definition replay_entry (j : m16_journal_t) (disk_block_count i : Z) (disk : list Z)
  : exec (flow (list Z) Z) :=
  e ← arr_get (entries j) i;
  if negb (jvalid e) then Ret (Next disk)
  else if disk_block_count <=? target_block e then Ret (Exit disk M16_JOURNAL_ECORRUPT)
  else
    disk' ← m16_memcpy disk (u64 (target_block e * M16_JOURNAL_BLOCK_SIZE)) (jdata e) 0
              M16_JOURNAL_BLOCK_SIZE;
    Ret (Next disk').

Definition m16_journal_replay (journal : option m16_journal_t) (disk : option (list Z))
    (disk_block_count : Z) : exec (option (list Z) * Z) :=
  match journal, disk with
  | None, _ | _, None => Ret (disk, M16_JOURNAL_EINVAL)
  | Some j, Some dk =>
      if negb (jmagic j =? M16_JOURNAL_MAGIC) then Ret (disk, M16_JOURNAL_ECORRUPT)
      else if committed j =? 0 then Ret (disk, M16_JOURNAL_OK)
      else
        r ← for_loop (Z.to_nat (entry_count j)) 0 (replay_entry j disk_block_count) dk;
        match r with
        | Next dk' => Ret (Some dk', M16_JOURNAL_OK)
        | Exit dk' rc => Ret (Some dk', rc)
        end
  end.

Definition m16_journal_fsck (journal : option m16_journal_t) : Z :=
  match journal with
  | None => M16_JOURNAL_EINVAL
  | Some j =>
      if negb (jmagic j =? M16_JOURNAL_MAGIC) then M16_JOURNAL_ECORRUPT
      else if M16_JOURNAL_MAX_ENTRIES <? entry_count j then M16_JOURNAL_ECORRUPT
      else M16_JOURNAL_OK
  end.

Definition m16_journal_clear (journal : option m16_journal_t) : option m16_journal_t :=
  match journal with
  | None => None
  | Some j =>
      Some (mk_journal (jmagic j) (committed zero_journal) (entry_count zero_journal)
              (entries zero_journal))
  end.

(** ** Specification *)

(** The journal object is laid out as declared and passes [fsck]. *)
Record journal_wf (j : m16_journal_t) : Prop := {
  jw_entries : zlen (entries j) = M16_JOURNAL_MAX_ENTRIES;
  jw_count : 0 <= entry_count j <= M16_JOURNAL_MAX_ENTRIES;
  jw_data : Forall (fun e => zlen (jdata e) = M16_JOURNAL_BLOCK_SIZE /\ 0 <= target_block e)
              (entries j)
}.

(** The entries that replay looks at and the block writes they stand for, in order. *)
Definition live_entries (j : m16_journal_t) : list m16_journal_entry_t :=
  take (Z.to_nat (entry_count j)) (entries j).

Definition writes (es : list m16_journal_entry_t) : list (Z * list Z) :=
  map (fun e => (target_block e, jdata e)) (List.filter jvalid es).

Definition write_block (disk : list Z) (w : Z * list Z) : list Z :=
  splice disk (M16_JOURNAL_BLOCK_SIZE * fst w) (snd w).

Definition write_blocks (disk : list Z) (ws : list (Z * list Z)) : list Z :=
  foldl write_block disk ws.

(** A write of one full block to a block of a disk of [n] blocks. *)
Definition write_ok (n : Z) (w : Z * list Z) : Prop :=
  0 <= fst w < n /\ zlen (snd w) = M16_JOURNAL_BLOCK_SIZE.

#[global] Instance write_ok_dec n w : Decision (write_ok n w).
Proof. unfold write_ok. apply _. Defined.

Definition disk_ok (disk : list Z) (n : Z) : Prop :=
  0 <= n /\ zlen disk = M16_JOURNAL_BLOCK_SIZE * n /\ zlen disk < 2 ^ 64.

(** [ws] cut before its first write that is out of range, and whether there was one. *)
Fixpoint good_prefix (n : Z) (ws : list (Z * list Z)) : list (Z * list Z) * bool :=
  match ws with
  | [] => ([], true)
  | w :: ws' =>
      if fst w <? n then let '(p, b) := good_prefix n ws' in (w :: p, b) else ([], false)
  end.

(** ** Block writes *)

Lemma disk_ok_write disk n w : disk_ok disk n -> write_ok n w -> disk_ok (write_block disk w) n.
Proof.
  intros (Hn & Hl & Hw) (Hr & Hb). unfold disk_ok, write_block.
  rewrite zlen_splice; unfold M16_JOURNAL_BLOCK_SIZE in *; lia.
Qed.

Lemma good_prefix_split n ws p b :
  good_prefix n ws = (p, b) ->
  (b = true /\ p = ws /\ Forall (fun w => fst w < n) ws) \/
  (b = false /\ exists w ws', ws = p ++ w :: ws' /\ n <= fst w /\ Forall (fun w => fst w < n) p).
Proof.
  revert p b. induction ws as [|w ws IH]; intros p b; cbn; [intros [= <- <-]; by left|].
  destruct (Z.ltb_spec (fst w) n) as [Hlt|Hge].
  - destruct (good_prefix n ws) as [p' b']. intros [= <- <-].
    destruct (IH _ _ eq_refl) as [(-> & -> & H)|(-> & w' & ws' & -> & Hw & H)].
    + left. split_and!; [done..|by constructor].
    + right. split; [done|]. exists w', ws'. split_and!; [done..|by constructor].
  - intros [= <- <-]. right. split; [done|]. by exists w, ws.
Qed.

Lemma good_prefix_all n ws : Forall (write_ok n) ws -> good_prefix n ws = (ws, true).
Proof.
  induction ws as [|w ws IH]; intros Hw; [done|]. apply Forall_cons_1 in Hw as [[Hr _] Hw].
  cbn. rewrite (proj2 (Z.ltb_lt _ _)) by lia. by rewrite IH.
Qed.

(** ** Replay *)

Definition entry_ok (e : m16_journal_entry_t) : Prop :=
  zlen (jdata e) = M16_JOURNAL_BLOCK_SIZE /\ 0 <= target_block e.

Lemma replay_entry_eq j n i disk e :
  arr_get (entries j) i = Ret e -> entry_ok e -> disk_ok disk n ->
  replay_entry j n i disk
  = Ret (if jvalid e then
           if target_block e <? n then Next (write_block disk (target_block e, jdata e))
           else Exit disk M16_JOURNAL_ECORRUPT
         else Next disk).
Proof.
  intros E [Hz Ht] (Hn & Hl & Hw). unfold replay_entry. rewrite E. cbn.
  destruct (jvalid e); cbn; [|done].
  destruct (Z.leb_spec n (target_block e)), (Z.ltb_spec (target_block e) n); try lia; [done|].
  unfold m16_memcpy, M16_JOURNAL_BLOCK_SIZE in *. rewrite u64_small by (unfold is_u64; lia).
  rewrite byte_copy_eq by lia. cbn. unfold write_block. cbn.
  rewrite <- Hz at 2. rewrite slice_all. unfold M16_JOURNAL_BLOCK_SIZE. by rewrite Z.mul_comm.
Qed.

Lemma replay_loop j n es : forall i disk rest,
  0 <= i -> drop (Z.to_nat i) (entries j) = es ++ rest -> Forall entry_ok es -> disk_ok disk n ->
  for_loop (length es) i (replay_entry j n) disk
  = Ret (let '(p, b) := good_prefix n (writes es) in
         if b : bool then Next (write_blocks disk p)
         else Exit (write_blocks disk p) M16_JOURNAL_ECORRUPT).
Proof.
  induction es as [|e es IH]; intros i disk rest Hi Hd Hes Hdk; [done|].
  apply Forall_cons_1 in Hes as [He Hes]. cbn [length for_loop].
  destruct (drop_cons _ _ _ _ Hi Hd) as [E Hd'].
  rewrite (replay_entry_eq _ _ _ _ _ E He Hdk). unfold writes. cbn [List.filter].
  destruct (jvalid e); cbn [mbind exec_bind map good_prefix fst].
  - destruct (Z.ltb_spec (target_block e) n) as [Hlt|Hge]; [|done].
    rewrite (IH _ _ rest); [|lia|done|done|apply disk_ok_write; [done|]; by destruct He].
    fold (writes es). by destruct (good_prefix n (writes es)) as [p []].
  - by rewrite (IH _ _ rest) by (done || lia).
Qed.

Lemma replay_committed j disk n :
  journal_wf j -> jmagic j = M16_JOURNAL_MAGIC -> committed j <> 0 -> disk_ok disk n ->
  m16_journal_replay (Some j) (Some disk) n
  = Ret (let '(p, b) := good_prefix n (writes (live_entries j)) in
         (Some (write_blocks disk p), if b : bool then M16_JOURNAL_OK else M16_JOURNAL_ECORRUPT)).
Proof.
  intros [Hl Hc Hd] Hm Hcm Hdk. unfold m16_journal_replay. rewrite Hm, Z.eqb_refl. cbn [negb].
  rewrite (proj2 (Z.eqb_neq _ _)) by done.
  assert (length (live_entries j) = Z.to_nat (entry_count j)) as Hlen.
  { unfold live_entries. rewrite length_take. unfold zlen, M16_JOURNAL_MAX_ENTRIES in *. lia. }
  rewrite <- Hlen.
  rewrite (replay_loop j n (live_entries j) 0 disk (drop (Z.to_nat (entry_count j)) (entries j))).
  - by destruct (good_prefix n _) as [p []].
  - lia.
  - cbn. rewrite drop_0. unfold live_entries. by rewrite take_drop.
  - unfold live_entries. by apply Forall_take.
  - done.
Qed.

(** ** Crashes

    The replay loop one byte store at a time: entry [i], byte [b] of it, and the disk.  A crash
    leaves the disk of any state reached. *)

Inductive replay_step (j : m16_journal_t) (n : Z) : Z * Z * list Z -> Z * Z * list Z -> Prop :=
  | rs_skip i d e :
      i < entry_count j -> arr_get (entries j) i = Ret e -> jvalid e = false ->
      replay_step j n (i, 0, d) (i + 1, 0, d)
  | rs_byte i b d d' e v :
      i < entry_count j -> arr_get (entries j) i = Ret e -> jvalid e = true ->
      target_block e < n -> b < M16_JOURNAL_BLOCK_SIZE -> arr_get (jdata e) b = Ret v ->
      arr_set d (u64 (target_block e * M16_JOURNAL_BLOCK_SIZE) + b) v = Ret d' ->
      replay_step j n (i, b, d) (i, b + 1, d')
  | rs_next i d e :
      i < entry_count j -> arr_get (entries j) i = Ret e -> jvalid e = true ->
      replay_step j n (i, M16_JOURNAL_BLOCK_SIZE, d) (i + 1, 0, d).

Definition crash_leaves (j : m16_journal_t) (n : Z) (disk disk' : list Z) : Prop :=
  exists i b, rtc (replay_step j n) (0, 0, disk) (i, b, disk').

(** The bytes a list of block writes touches. *)
Definition touched (ws : list (Z * list Z)) (x : Z) : Prop :=
  exists w, w ∈ ws /\
    M16_JOURNAL_BLOCK_SIZE * fst w <= x < M16_JOURNAL_BLOCK_SIZE * fst w + M16_JOURNAL_BLOCK_SIZE.

Lemma write_blocks_agree n ws : forall d1 d2,
  disk_ok d1 n -> disk_ok d2 n -> Forall (write_ok n) ws ->
  (forall x, touched ws x \/ arr_get d1 x = arr_get d2 x) ->
  write_blocks d1 ws = write_blocks d2 ws.
Proof.
  induction ws as [|w ws IH]; intros d1 d2 H1 H2 Hw Hx; cbn.
  - apply arr_ext; [destruct H1 as (_ & -> & _), H2 as (_ & -> & _); done|].
    intros i _. destruct (Hx i) as [(w & Hin & _)|]; [|done]. by apply elem_of_nil in Hin.
  - apply Forall_cons_1 in Hw as [Hw Hws].
    apply IH; [by apply disk_ok_write..|done|]. intros x.
    destruct H1 as (_ & L1 & _), H2 as (_ & L2 & _), Hw as [Hr Hz].
    unfold write_block, touched in *. unfold M16_JOURNAL_BLOCK_SIZE in *.
    rewrite !arr_get_splice by lia.
    destruct (_ && _) eqn:E; [by right|]. apply andb_false_iff in E.
    destruct (Hx x) as [(w' & [->|Hin]%elem_of_cons & Hr')|]; [lia|left; by exists w'|by right].
Qed.

Lemma live_in j i e :
  0 <= i < entry_count j -> arr_get (entries j) i = Ret e -> e ∈ live_entries j.
Proof.
  intros Hi [_ E]%arr_get_Ret. unfold live_entries. apply list_elem_of_lookup.
  exists (Z.to_nat i). rewrite lookup_take_lt by lia. done.
Qed.

Lemma writes_in es e : e ∈ es -> jvalid e = true -> (target_block e, jdata e) ∈ writes es.
Proof.
  intros Hin Hv. unfold writes. apply list_elem_of_In, in_map_iff. exists e. split; [done|].
  apply filter_In. split; [by apply list_elem_of_In|done].
Qed.

(** What every state reached by the byte-wise replay satisfies. *)
Lemma replay_steps_inv j n disk s :
  journal_wf j -> disk_ok disk n -> rtc (replay_step j n) (0, 0, disk) s ->
  let '(i, b, d) := s in
  0 <= i /\ 0 <= b /\ zlen d = zlen disk /\
  (forall x, touched (writes (live_entries j)) x \/ arr_get d x = arr_get disk x).
Proof.
  intros Hj Hd Hr. refine (rtc_ind_r (fun s => let '(i, b, d) := s in
    0 <= i /\ 0 <= b /\ zlen d = zlen disk /\
    (forall x, touched (writes (live_entries j)) x \/ arr_get d x = arr_get disk x)) _ _ _ s Hr).
  { split_and!; try done. by right. }
  clear s Hr. intros s1 s2 _ Hs. destruct Hs as [i d e Hi He Hv|i b d d' e v Hi He Hv Ht Hb Hg Hset|i d e Hi He Hv];
    intros (H0 & Hb0 & Hz & Hx); [split_and!; (done || lia)| |split_and!; (done || lia)].
  pose proof (Forall_arr_get _ _ _ _ (jw_data j Hj) He) as [Hlen Ht0].
  destruct Hd as (Hn & Hl & Hw). unfold M16_JOURNAL_BLOCK_SIZE in *.
  rewrite u64_small in Hset by (unfold is_u64; lia).
  split_and!; [lia|lia|by rewrite (zlen_set _ _ _ _ Hset)|].
  intros x. destruct (decide (x = target_block e * 512 + b)) as [->|Hne].
  - left. exists (target_block e, jdata e). split; [apply writes_in; [by apply (live_in j i)|done]|].
    unfold M16_JOURNAL_BLOCK_SIZE. cbn. lia.
  - rewrite (arr_get_set_ne _ _ _ _ _ Hset) by lia. apply Hx.
Qed.

(** A crash during a replay does not change what the next replay produces. *)
Lemma replay_after_crash j disk n disk' :
  journal_wf j -> disk_ok disk n -> Forall (write_ok n) (writes (live_entries j)) ->
  crash_leaves j n disk disk' ->
  disk_ok disk' n /\
  write_blocks disk' (writes (live_entries j)) = write_blocks disk (writes (live_entries j)).
Proof.
  intros Hj Hd Hw (i & b & Hr). destruct (replay_steps_inv j n disk _ Hj Hd Hr) as (_ & _ & Hz & Hx).
  assert (disk_ok disk' n) as Hd' by (unfold disk_ok in *; lia).
  split; [done|]. apply (write_blocks_agree n); done.
Qed.

(** The byte steps of one entry. *)
Lemma replay_bytes j n i e k : forall b d d',
  i < entry_count j -> arr_get (entries j) i = Ret e -> jvalid e = true -> target_block e < n ->
  0 <= b -> b + Z.of_nat k = M16_JOURNAL_BLOCK_SIZE ->
  for_state k b (fun b d => v ← arr_get (jdata e) (0 + b);
                  arr_set d (u64 (target_block e * M16_JOURNAL_BLOCK_SIZE) + b) v) d = Ret d' ->
  rtc (replay_step j n) (i, b, d) (i, M16_JOURNAL_BLOCK_SIZE, d').
Proof.
  induction k as [|k IH]; intros b d d' Hi He Hv Ht Hb Hk Hf; cbn in Hf.
  - injection Hf as <-. rewrite Z.add_0_r in Hk. by rewrite Hk.
  - apply exec_bind_inv in Hf as (d1 & H1 & Hf). apply exec_bind_inv in H1 as (v & Hg & Hset).
    eapply rtc_l; [|apply (IH (b + 1) d1 d'); (done || lia)].
    eapply rs_byte; (done || lia).
Qed.

(** The byte-wise replay reaches the disk of the full replay. *)
Lemma replay_steps_complete j n es : forall i disk rest,
  0 <= i -> i + zlen es <= entry_count j ->
  drop (Z.to_nat i) (entries j) = es ++ rest -> Forall entry_ok es -> disk_ok disk n ->
  Forall (write_ok n) (writes es) ->
  rtc (replay_step j n) (i, 0, disk) (i + zlen es, 0, write_blocks disk (writes es)).
Proof.
  induction es as [|e es IH]; intros i disk rest Hi Hc Hd Hes Hdk Hw; [by rewrite Z.add_0_r|].
  apply Forall_cons_1 in Hes as [He Hes].
  replace (i + zlen (e :: es)) with (i + 1 + zlen es) in * by (unfold zlen; cbn; lia).
  pose proof (zlen_nonneg es).
  destruct (drop_cons _ _ _ _ Hi Hd) as [E Hd'].
  unfold writes in *. cbn [List.filter] in *. destruct (jvalid e) eqn:Hv; cbn [map] in *.
  - apply Forall_cons_1 in Hw as [Hwe Hw]. pose proof (replay_entry_eq j n i disk e E He Hdk) as Hr.
    rewrite Hv, (proj2 (Z.ltb_lt _ _)) in Hr by (destruct Hwe; cbn in *; lia).
    unfold replay_entry in Hr. rewrite E in Hr. cbn in Hr. rewrite Hv in Hr. cbn in Hr.
    rewrite (proj2 (Z.leb_gt _ _)) in Hr by (destruct Hwe; cbn in *; lia).
    apply exec_bind_inv in Hr as (d1 & Hcp & [= ->]).
    etrans; [apply (replay_bytes j n i e 512 0 disk (write_block disk (target_block e, jdata e)))|];
      try done;
      [lia|destruct Hwe; cbn in *; lia|].
    eapply rtc_l; [eapply rs_next; (done || lia)|].
    apply (IH (i + 1) _ rest); try done; [lia|]. by apply disk_ok_write.
  - eapply rtc_l; [eapply rs_skip; (done || lia)|].
    apply (IH (i + 1) _ rest); (done || lia).
Qed.

Lemma replay_reaches j n disk :
  journal_wf j -> disk_ok disk n -> Forall (write_ok n) (writes (live_entries j)) ->
  crash_leaves j n disk (write_blocks disk (writes (live_entries j))).
Proof.
  intros Hj Hd Hw. exists (0 + zlen (live_entries j)), 0.
  apply (replay_steps_complete j n (live_entries j) 0 disk (drop (Z.to_nat (entry_count j)) (entries j))); try done.
  - unfold live_entries, zlen. rewrite length_take. destruct Hj. lia.
  - cbn. rewrite drop_0. unfold live_entries. by rewrite take_drop.
  - unfold live_entries. apply Forall_take. apply Hj.
Qed.

(** ** Appends *)

Lemma append_eq j t src :
  journal_wf j -> entry_count j < M16_JOURNAL_MAX_ENTRIES -> 0 <= t ->
  M16_JOURNAL_BLOCK_SIZE <= zlen src ->
  exists j', m16_journal_append (Some j) t (Some src) = Ret (Some j', M16_JOURNAL_OK) /\
    journal_wf j' /\ jmagic j' = jmagic j /\ committed j' = committed j /\
    entry_count j' = entry_count j + 1 /\
    live_entries j' = live_entries j ++ [mk_entry t (slice src 0 M16_JOURNAL_BLOCK_SIZE) true].
Proof.
  intros [Hl Hc Hd] Hlt Ht Hs. unfold m16_journal_append. unfold M16_JOURNAL_MAX_ENTRIES in *.
  rewrite (proj2 (Z.leb_gt _ _)) by lia.
  destruct (arr_get_ok (entries j) (entry_count j)) as [e E]; [lia|]. rewrite E. cbn.
  pose proof (Forall_arr_get _ _ _ _ Hd E) as [Hz _]. unfold M16_JOURNAL_BLOCK_SIZE in *.
  unfold m16_memcpy. rewrite byte_copy_eq by lia. cbn. rewrite arr_set_ok by lia. cbn.
  assert (splice (jdata e) 0 (slice src 0 512) = slice src 0 512) as ->.
  { pose proof (slice_splice_same (jdata e) 0 (slice src 0 512)) as H.
    rewrite zlen_slice in H by lia. rewrite <- H at 2 by lia.
    rewrite <- (slice_all (splice (jdata e) 0 (slice src 0 512))) at 1.
    rewrite zlen_splice by (rewrite ?zlen_slice; lia). by rewrite Hz. }
  eexists. split; [done|]. cbn. rewrite u32_small by (unfold is_u32; lia).
  split_and!; try done.
  - split; cbn; [by rewrite zlen_insert|unfold M16_JOURNAL_MAX_ENTRIES; lia|].
    apply list.Forall_insert; [done|]. unfold M16_JOURNAL_BLOCK_SIZE. cbn.
    rewrite zlen_slice by lia. lia.
  - unfold live_entries. cbn.
    replace (Z.to_nat (entry_count j + 1)) with (S (Z.to_nat (entry_count j))) by lia.
    erewrite take_S_r by (apply list_lookup_insert_eq; unfold zlen in *; lia).
    rewrite take_insert_ge by lia. done.
Qed.

(** A sequence of appends, all of which are to succeed. *)
Fixpoint append_all (j : option m16_journal_t) (ops : list (Z * list Z))
  : exec (option m16_journal_t) :=
  match ops with
  | [] => Ret j
  | (t, data) :: ops' =>
      '(j', rc) ← m16_journal_append j t (Some data);
      append_all j' ops'
  end.

Lemma append_all_eq n ops : forall j,
  journal_wf j -> entry_count j + zlen ops <= M16_JOURNAL_MAX_ENTRIES ->
  Forall (write_ok n) ops ->
  exists j', append_all (Some j) ops = Ret (Some j') /\ journal_wf j' /\
    jmagic j' = jmagic j /\ committed j' = committed j /\
    writes (live_entries j') = writes (live_entries j) ++ ops.
Proof.
  induction ops as [|[t data] ops IH]; intros j Hj Hc Hw.
  - exists j. cbn. by rewrite app_nil_r.
  - apply Forall_cons_1 in Hw as [[Ht Hz] Hw]. cbn in Ht, Hz. pose proof (zlen_nonneg ops).
    unfold zlen in Hc. cbn in Hc. fold (zlen ops) in Hc. unfold zlen in *.
    destruct (append_eq j t data Hj) as (j1 & E & Hj1 & Hm & Hcm & Hn & Hl);
      [lia|lia|unfold zlen; lia|].
    destruct (IH j1 Hj1) as (j2 & E2 & Hj2 & Hm2 & Hc2 & Hl2); [lia|done|].
    exists j2. cbn [append_all]. rewrite E. cbn [mbind exec_bind]. split_and!; [done|done|congruence|congruence|].
    rewrite Hl2, Hl. unfold writes. rewrite filter_app, map_app. cbn.
    rewrite <- app_assoc. cbn. do 3 f_equal. rewrite <- Hz. apply slice_all.
Qed.

Lemma zero_entries_ok : Forall entry_ok (entries zero_journal).
Proof. apply Forall_replicate. split; [|done]. reflexivity. Qed.

Lemma init_wf m c : journal_wf (mk_journal m c 0 (entries zero_journal)).
Proof. split; [done|done|]. exact zero_entries_ok. Qed.

(** ** Theorems *)

(** C27: replay refines the ordered application of the journal's block writes.  On a well-formed
    journal and a disk of the stated size it never leaves either object; an uncommitted
    journal changes nothing and reports OK, a foreign magic changes nothing and reports
    ECORRUPT; a committed journal applies its valid entries in order up to the first whose
    target is outside the disk, and reports ECORRUPT exactly when there is one. *)
Theorem m16_journal_replay_refines j disk n :
  journal_wf j -> disk_ok disk n ->
  (jmagic j <> M16_JOURNAL_MAGIC ->
   m16_journal_replay (Some j) (Some disk) n = Ret (Some disk, M16_JOURNAL_ECORRUPT)) /\
  (jmagic j = M16_JOURNAL_MAGIC -> committed j = 0 ->
   m16_journal_replay (Some j) (Some disk) n = Ret (Some disk, M16_JOURNAL_OK)) /\
  (jmagic j = M16_JOURNAL_MAGIC -> committed j <> 0 ->
   exists p rc, m16_journal_replay (Some j) (Some disk) n = Ret (Some (write_blocks disk p), rc) /\
     Forall (fun w => fst w < n) p /\
     ((rc = M16_JOURNAL_OK /\ p = writes (live_entries j)) \/
      (rc = M16_JOURNAL_ECORRUPT /\ exists w ws, writes (live_entries j) = p ++ w :: ws /\ n <= fst w))).
Proof.
  intros Hj Hd. split_and!.
  - intros Hm. unfold m16_journal_replay. by rewrite (proj2 (Z.eqb_neq _ _)).
  - intros Hm Hc. unfold m16_journal_replay. by rewrite Hm, Hc.
  - intros Hm Hc. rewrite (replay_committed j disk n Hj Hm Hc Hd).
    destruct (good_prefix n (writes (live_entries j))) as [p b] eqn:E.
    eexists p, _. split; [done|].
    destruct (good_prefix_split _ _ _ _ E) as [(-> & -> & H)|(-> & w & ws & Ew & Hw & H)].
    + split; [done|]. by left.
    + split; [done|]. right. split; [done|]. by exists w, ws.
Qed.

(** Recovery is atomic and survives crashes.  After initialising a journal and appending up to
    32 blocks for a disk of [n] blocks, replay before the commit leaves the disk as it is;
    after the commit, replay from the disk of any crash during any earlier replay, at any byte,
    yields all the blocks written in order on the original disk. *)
Theorem m16_journal_recovery j0 ops disk n :
  disk_ok disk n -> Forall (write_ok n) ops -> zlen ops <= M16_JOURNAL_MAX_ENTRIES ->
  exists j jc, append_all (m16_journal_init (Some j0)) ops = Ret (Some j) /\
    m16_journal_commit (Some j) = (Some jc, M16_JOURNAL_OK) /\
    m16_journal_replay (Some j) (Some disk) n = Ret (Some disk, M16_JOURNAL_OK) /\
    (forall disk', crash_leaves jc n disk disk' ->
       m16_journal_replay (Some jc) (Some disk') n
       = Ret (Some (write_blocks disk ops), M16_JOURNAL_OK)) /\
    crash_leaves jc n disk (write_blocks disk ops).
Proof.
  intros Hd Hw Hlen. cbn [m16_journal_init].
  destruct (append_all_eq n ops _ (init_wf M16_JOURNAL_MAGIC 0)) as (j & E & Hj & Hm & Hc & Hl);
    [cbn; lia|done|]. cbn in Hm, Hc, Hl.
  set (jc := mk_journal (jmagic j) 1 (entry_count j) (entries j)).
  assert (journal_wf jc) as Hjc by (destruct Hj; by split).
  change (writes (live_entries jc) = ops) in Hl.
  pose proof (good_prefix_all n ops Hw) as Hg.
  exists j, jc. split_and!; [done|done| | |].
  - unfold m16_journal_replay. by rewrite Hm, Hc.
  - intros disk' Hcr. destruct (replay_after_crash jc disk n disk' Hjc Hd) as [Hd' Ed];
      [by rewrite Hl|done|].
    rewrite (replay_committed jc disk' n Hjc) by done. rewrite Hl in *. rewrite Hg. by rewrite Ed.
  - rewrite <- Hl. apply replay_reaches; [done|done|by rewrite Hl].
Qed.

(** C28: every operation keeps the journal well formed and keeps what [fsck] reports, and [fsck]
    is exact: on a journal object of the declared layout it reports OK exactly when the magic
    is right and the count is within the array, EFULL leaves a full journal alone, and a
    cleared journal replays to nothing. *)
Theorem m16_journal_fsck_invariant j t src :
  journal_wf j -> 0 <= t -> M16_JOURNAL_BLOCK_SIZE <= zlen src ->
  m16_journal_fsck (Some j) = (if decide (jmagic j = M16_JOURNAL_MAGIC) then M16_JOURNAL_OK
                               else M16_JOURNAL_ECORRUPT) /\
  (exists j' rc, m16_journal_append (Some j) t (Some src) = Ret (Some j', rc) /\ journal_wf j' /\
     m16_journal_fsck (Some j') = m16_journal_fsck (Some j) /\
     ((entry_count j < M16_JOURNAL_MAX_ENTRIES /\ rc = M16_JOURNAL_OK /\
       entry_count j' = entry_count j + 1) \/
      (entry_count j = M16_JOURNAL_MAX_ENTRIES /\ rc = M16_JOURNAL_EFULL /\ j' = j))) /\
  (exists j', m16_journal_commit (Some j) = (Some j', M16_JOURNAL_OK) /\ journal_wf j' /\
     m16_journal_fsck (Some j') = m16_journal_fsck (Some j)) /\
  (exists j', m16_journal_clear (Some j) = Some j' /\ journal_wf j' /\
     m16_journal_fsck (Some j') = m16_journal_fsck (Some j) /\ writes (live_entries j') = []).
Proof.
  intros Hj Ht Hs.
  assert (forall k, journal_wf k -> m16_journal_fsck (Some k)
    = if decide (jmagic k = M16_JOURNAL_MAGIC) then M16_JOURNAL_OK else M16_JOURNAL_ECORRUPT) as Hf.
  { intros k [_ Hc _]. unfold m16_journal_fsck. case_decide as Hm.
    - rewrite Hm, Z.eqb_refl. cbn. by rewrite (proj2 (Z.ltb_ge _ _)) by lia.
    - by rewrite (proj2 (Z.eqb_neq _ _)). }
  rewrite (Hf j Hj). split_and!; [done| | |].
  - destruct (decide (entry_count j < M16_JOURNAL_MAX_ENTRIES)) as [Hlt|Hge].
    + destruct (append_eq j t src Hj Hlt Ht Hs) as (j' & E & Hj' & Hm & _ & Hn & _).
      exists j', M16_JOURNAL_OK. rewrite (Hf j' Hj'), Hm. split_and!; try done. by left.
    + exists j, M16_JOURNAL_EFULL. rewrite (Hf j Hj). unfold m16_journal_append.
      pose proof (jw_count j Hj). rewrite (proj2 (Z.leb_le _ _)) by lia.
      split_and!; try done. right. split_and!; (done || lia).
  - eexists. split; [done|]. assert (journal_wf (mk_journal (jmagic j) 1 (entry_count j) (entries j))) as H
      by (destruct Hj; by split). by rewrite (Hf _ H).
  - eexists. split; [done|]. split; [exact (init_wf (jmagic j) 0)|].
    split; [exact (Hf _ (init_wf (jmagic j) 0))|done].
Qed.

(** Replay does not check the count that [fsck] checks: with a count of 33 it reads past the
    entries, whatever the disk. *)
Theorem m16_journal_replay_unchecked_count disk n :
  let j := mk_journal M16_JOURNAL_MAGIC 1 33 (entries zero_journal) in
  m16_journal_fsck (Some j) = M16_JOURNAL_ECORRUPT /\
  m16_journal_replay (Some j) (Some disk) n = Fault OutOfBounds.
Proof. cbn zeta. split; reflexivity. Qed.

(** ** Witnesses: a disk of two blocks and two writes to the second *)

Definition demo_disk : list Z := replicate 1024 0.
Definition demo_ops : list (Z * list Z) := [(1, replicate 512 5); (1, replicate 512 6)].

Lemma demo_disk_ok : disk_ok demo_disk 2.
Proof. unfold disk_ok. split; [lia|]. split; [reflexivity|]. by_compute. Qed.

Lemma demo_ops_ok : Forall (write_ok 2) demo_ops.
Proof. by_compute. Qed.

(** The journal after the two appends and the commit. *)
Definition demo_journal (m : Z) (t : Z) : m16_journal_t :=
  mk_journal m 1 1 (<[0%nat := mk_entry t (replicate 512 5) true]> (entries zero_journal)).

Lemma demo_journal_wf m t : 0 <= t -> journal_wf (demo_journal m t).
Proof.
  intros Ht. split; cbn -[insert replicate]; [by rewrite zlen_insert|unfold M16_JOURNAL_MAX_ENTRIES; lia|].
  apply list.Forall_insert; [exact zero_entries_ok|]. split; [reflexivity|exact Ht].
Qed.

Lemma m16_journal_replay_refines_witness :
  exists p, m16_journal_replay (Some (demo_journal M16_JOURNAL_MAGIC 7)) (Some demo_disk) 2
    = Ret (Some (write_blocks demo_disk p), M16_JOURNAL_ECORRUPT) /\ p = [].
Proof.
  destruct (m16_journal_replay_refines (demo_journal M16_JOURNAL_MAGIC 7) demo_disk 2
              (demo_journal_wf _ 7 ltac:(lia)) demo_disk_ok) as (_ & _ & H).
  destruct H as (p & rc & E & Hp & [[_ ->]|[-> (w & ws & Ew & Hw)]]); [reflexivity|discriminate| |].
  - apply Forall_cons_1 in Hp as [Hp _]. cbn in Hp. lia.
  - exists p. split; [exact E|]. destruct p as [|w' p]; [reflexivity|].
    apply Forall_cons_1 in Hp as [Hp _]. injection Ew as <- _. cbn in Hp. lia.
Defined.

Lemma m16_journal_recovery_witness :
  exists j jc, append_all (m16_journal_init (Some zero_journal)) demo_ops = Ret (Some j) /\
    m16_journal_commit (Some j) = (Some jc, M16_JOURNAL_OK) /\
    m16_journal_replay (Some jc) (Some demo_disk) 2
    = Ret (Some (replicate 512 0 ++ replicate 512 6), M16_JOURNAL_OK).
Proof.
  destruct (m16_journal_recovery zero_journal demo_ops demo_disk 2 demo_disk_ok demo_ops_ok)
    as (j & jc & E1 & E2 & _ & H & _); [by_compute|].
  exists j, jc. split; [exact E1|]. split; [exact E2|].
  rewrite H; [reflexivity|]. exists 0, 0. apply rtc_refl.
Defined.

Lemma m16_journal_fsck_invariant_witness :
  m16_journal_fsck (Some (demo_journal 0 1)) = M16_JOURNAL_ECORRUPT.
Proof.
  apply (m16_journal_fsck_invariant (demo_journal 0 1) 1 (replicate 512 9));
    [apply demo_journal_wf; lia|lia|by_compute].
Defined.
