(* ===== verification/JournalSpec.v ===== *)
(** * Crash consistency of the journal (kernel/fs/m16_journal.c)

    A client that logs blocks, commits, replays and clears, any number of times, on a machine that
    may stop at any byte of a replay.  The specification is a disk that changes only at a commit and
    at appends after it; the journal keeps the promise that a replay produces that disk. *)

From S2P Require Import Prelude Bytes Session Journal.

Inductive event : Type :=
  | Append (target : Z) (data : list Z)
  | Commit
  | Replay
  | Crash
  | Clear
  | Fsck.

(** ** The specification *)

(** The blocks logged, whether they are committed, whether the disk itself is up to date, and the
    disk as it is promised. *)
Record alog : Type := mk_alog {
  pending : list (Z * list Z);
  final : bool;
  synced : bool;
  promised : list Z
}.

Definition block_of (data : list Z) : list Z := slice data 0 M16_JOURNAL_BLOCK_SIZE.

Definition astep (a : alog) (e : event) : alog * Z :=
  match e with
  | Append t data =>
      if M16_JOURNAL_MAX_ENTRIES <=? zlen (pending a) then (a, M16_JOURNAL_EFULL)
      else
        (if final a then mk_alog (pending a ++ [(t, block_of data)]) true false (write_block (promised a) (t, block_of data))
         else mk_alog (pending a ++ [(t, block_of data)]) false (synced a) (promised a), M16_JOURNAL_OK)
  | Commit =>
      (if final a then a else mk_alog (pending a) true false (write_blocks (promised a) (pending a)), M16_JOURNAL_OK)
  | Replay => (mk_alog (pending a) (final a) true (promised a), M16_JOURNAL_OK)
  | Crash => (mk_alog (pending a) (final a) (synced a && negb (final a)) (promised a), M16_JOURNAL_OK)
  | Clear => (mk_alog [] false true (promised a), M16_JOURNAL_OK)
  | Fsck => (a, M16_JOURNAL_OK)
  end.

(** What a client may do: log whole blocks of the disk, and clear the journal only when the disk is
    up to date. *)
Definition allowed (n : Z) (a : alog) (e : event) : Prop :=
  match e with
  | Append t data => 0 <= t < n /\ M16_JOURNAL_BLOCK_SIZE <= zlen data
  | Clear => synced a = true
  | _ => True
  end.

#[global] Instance allowed_dec n a e : Decision (allowed n a e).
Proof. destruct e; cbn; apply _. Defined.

(** ** The code *)

(** The events on the journal and the disk, with what each call returns.  A crash stops a replay
    after some of its byte stores; without a committed journal there are none. *)
Inductive jstep (n : Z) : m16_journal_t * list Z -> event -> Z -> m16_journal_t * list Z -> Prop :=
  | js_append j d t data j' rc :
      m16_journal_append (Some j) t (Some data) = Ret (Some j', rc) -> jstep n (j, d) (Append t data) rc (j', d)
  | js_commit j d j' rc : m16_journal_commit (Some j) = (Some j', rc) -> jstep n (j, d) Commit rc (j', d)
  | js_replay j d d' rc : m16_journal_replay (Some j) (Some d) n = Ret (Some d', rc) -> jstep n (j, d) Replay rc (j, d')
  | js_crash j d d' : committed j <> 0 -> crash_leaves j n d d' -> jstep n (j, d) Crash M16_JOURNAL_OK (j, d')
  | js_crash_early j d : jstep n (j, d) Crash M16_JOURNAL_OK (j, d)
  | js_clear j d j' : m16_journal_clear (Some j) = Some j' -> jstep n (j, d) Clear M16_JOURNAL_OK (j', d)
  | js_fsck j d : jstep n (j, d) Fsck (m16_journal_fsck (Some j)) (j, d).

Inductive jsteps (n : Z) : m16_journal_t * list Z -> list event -> list Z -> m16_journal_t * list Z -> Prop :=
  | jss_nil s : jsteps n s [] [] s
  | jss_cons s e r s1 es rs s2 : jstep n s e r s1 -> jsteps n s1 es rs s2 -> jsteps n s (e :: es) (r :: rs) s2.

(** ** The relation *)

Record holds (n : Z) (s : m16_journal_t * list Z) (a : alog) : Prop := {
  ho_wf : journal_wf s.1;
  ho_magic : jmagic s.1 = M16_JOURNAL_MAGIC;
  ho_final : committed s.1 = b2z (final a);
  ho_count : entry_count s.1 = zlen (pending a);
  ho_log : writes (live_entries s.1) = pending a;
  ho_writes : Forall (write_ok n) (pending a);
  ho_disk : disk_ok s.2 n;
  ho_promise : (if final a then write_blocks s.2 (pending a) else s.2) = promised a;
  ho_synced : synced a = true -> s.2 = promised a
}.

Section steps.
Context (n : Z) (j : m16_journal_t) (d : list Z) (a : alog).
Hypothesis Hh : holds n (j, d) a.

(** A replay, wherever it starts from, makes the disk the one promised. *)
Lemma replay_promised : m16_journal_replay (Some j) (Some d) n = Ret (Some (promised a), M16_JOURNAL_OK).
Proof.
  destruct Hh as [Hwf Hm Hf Hc Hl Hw Hd Hp _]. cbn [fst snd] in *. destruct (final a).
  - rewrite (replay_committed j d n Hwf Hm) by (try done; by rewrite Hf). by rewrite Hl, (good_prefix_all n _ Hw), Hp.
  - unfold m16_journal_replay. rewrite Hm, Hf. cbn. by rewrite Hp.
Qed.

(** A disk left by a replay, finished or not, still replays to the one promised. *)
Lemma crash_keeps d' b :
  committed j <> 0 -> crash_leaves j n d d' -> (b = true -> d' = promised a) ->
  holds n (j, d') (mk_alog (pending a) (final a) b (promised a)).
Proof.
  intros Hcm Hcr Hb. destruct Hh as [Hwf Hm Hf Hc Hl Hw Hd Hp _]. cbn [fst snd] in *.
  destruct (final a); [|by rewrite Hf in Hcm]. pose proof Hw as Hw'. rewrite <- Hl in Hw'.
  destruct (replay_after_crash j d n d' Hwf Hd Hw' Hcr) as [Hd' Ed]. split; cbn [fst snd pending final synced promised]; try done.
  by rewrite <- Hp, <- Hl.
Qed.

Lemma replay_holds : holds n (j, promised a) (mk_alog (pending a) (final a) true (promised a)).
Proof.
  destruct Hh as [Hwf Hm Hf Hc Hl Hw Hd Hp _]. cbn [fst snd] in *. destruct (final a) eqn:Ef.
  - rewrite <- Ef. apply crash_keeps; [by rewrite Hf| |done]. rewrite <- Hp, <- Hl.
    apply replay_reaches; [done|done|by rewrite Hl].
  - subst d. split; cbn [fst snd pending final synced promised]; (done || by rewrite Hf).
Qed.

Lemma append_full t data :
  M16_JOURNAL_MAX_ENTRIES <= zlen (pending a) -> m16_journal_append (Some j) t (Some data) = Ret (Some j, M16_JOURNAL_EFULL).
Proof.
  intros Hfull. destruct Hh as [_ _ _ Hc _ _ _ _ _]. cbn [fst] in Hc. unfold m16_journal_append.
  by rewrite Hc, (proj2 (Z.leb_le _ _)).
Qed.

Lemma append_holds t data :
  zlen (pending a) < M16_JOURNAL_MAX_ENTRIES -> 0 <= t < n -> M16_JOURNAL_BLOCK_SIZE <= zlen data ->
  exists j', m16_journal_append (Some j) t (Some data) = Ret (Some j', M16_JOURNAL_OK) /\
    holds n (j', d) (astep a (Append t data)).1.
Proof.
  intros Hroom Ht Hdata. destruct Hh as [Hwf Hm Hf Hc Hl Hw Hd Hp Hs]. cbn [fst snd] in *.
  destruct (append_eq j t data Hwf) as (j' & E & Hwf' & Hm' & Hf' & Hc' & Hl'); [lia|lia|done|].
  exists j'. split; [done|]. cbn [astep]. rewrite (proj2 (Z.leb_gt _ _)) by done. cbn [fst].
  assert (writes (live_entries j') = pending a ++ [(t, block_of data)]) as El.
  { rewrite Hl'. unfold writes in *. by rewrite List.filter_app, map_app, Hl. }
  assert (Forall (write_ok n) (pending a ++ [(t, block_of data)])) as Ew.
  { apply Forall_app_2; [done|]. constructor; [|constructor]. split; [done|]. cbn. apply zlen_slice; unfold M16_JOURNAL_BLOCK_SIZE in *; lia. }
  destruct (final a); (split; cbn [fst snd pending final synced promised]; [done|congruence|congruence| |done|done|done| |]).
  - rewrite zlen_app, Hc', Hc. done.
  - unfold write_blocks in *. by rewrite foldl_app, Hp.
  - done.
  - rewrite zlen_app, Hc', Hc. done.
  - done.
  - done.
Qed.

Lemma commit_holds :
  holds n (mk_journal (jmagic j) 1 (entry_count j) (entries j), d) (astep a Commit).1.
Proof.
  destruct Hh as [Hwf Hm Hf Hc Hl Hw Hd Hp Hs]. cbn [fst snd astep] in *.
  assert (journal_wf (mk_journal (jmagic j) 1 (entry_count j) (entries j))) as Hwf' by (destruct Hwf; by split).
  destruct (final a) eqn:Ef; (split; cbn [fst snd jmagic committed entry_count pending final synced promised]; try done).
  - by rewrite Ef.
  - by rewrite Ef.
  - by rewrite Hp.
Qed.

Lemma clear_holds : synced a = true -> holds n (mk_journal (jmagic j) 0 0 (entries zero_journal), d) (astep a Clear).1.
Proof.
  intros Hsy. destruct Hh as [Hwf Hm Hf Hc Hl Hw Hd Hp Hs]. cbn [fst snd astep] in *. specialize (Hs Hsy).
  split; cbn [fst snd jmagic committed entry_count pending final synced promised]; try done. exact (init_wf (jmagic j) 0).
Qed.

Lemma fsck_ok : m16_journal_fsck (Some j) = M16_JOURNAL_OK.
Proof.
  destruct Hh as [[_ Hc _] Hm _ _ _ _ _ _ _]. cbn [fst] in *. unfold m16_journal_fsck. rewrite Hm, Z.eqb_refl. cbn [negb].
  by rewrite (proj2 (Z.ltb_ge _ _)) by lia.
Qed.
End steps.

Lemma jstep_holds n s a e r s' :
  holds n s a -> allowed n a e -> jstep n s e r s' -> r = (astep a e).2 /\ holds n s' (astep a e).1.
Proof.
  intros Hh Ha Hs. destruct Hs as [j d t data j' rc E|j d j' rc E|j d d' rc E|j d d' Hc Hcr|j d|j d j' E|j d].
  - destruct Ha as [Ht Hdata]. destruct (Z.leb_spec M16_JOURNAL_MAX_ENTRIES (zlen (pending a))) as [Hf|Hr].
    + rewrite (append_full n j d a Hh) in E by done. injection E as <- <-. cbn [astep]. by rewrite (proj2 (Z.leb_le _ _)).
    + destruct (append_holds n j d a Hh t data) as (j2 & E2 & H2); [done|done|done|]. rewrite E in E2. injection E2 as -> ->.
      split; [|done]. cbn [astep]. by rewrite (proj2 (Z.leb_gt _ _)).
  - injection E as <- <-. split; [done|]. by apply commit_holds.
  - rewrite (replay_promised n j d a Hh) in E. injection E as <- <-. split; [done|]. by apply (replay_holds n j d a).
  - split; [done|]. apply (crash_keeps n j d a Hh d'); [done|done|]. pose proof (ho_final _ _ _ Hh) as Hf. cbn [fst] in Hf. rewrite Hf in Hc.
    destruct (final a); [by rewrite andb_false_r|done].
  - split; [done|]. destruct Hh as [Hwf Hm Hf Hc Hl Hw Hd Hp Hsy]. split; cbn [fst snd astep pending final synced promised] in *; try done.
    intros [Hx _]%andb_true_iff. by apply Hsy.
  - injection E as <-. split; [done|]. by apply clear_holds.
  - split; [by apply (fsck_ok n j d a)|done].
Qed.

Lemma jsteps_holds n es : forall s a rs s',
  holds n s a -> admissible astep (allowed n) a es -> jsteps n s es rs s' -> rs = (spec_run astep a es).2 /\ holds n s' (spec_run astep a es).1.
Proof.
  induction es as [|e es IH]; intros s a rs s' Hh Ha Hs.
  - by inversion Hs; subst.
  - destruct Ha as [Ha1 Ha2].
    inversion Hs as [|s0 e0 r s1 es0 rs0 s2 Hstep Hrest]; subst.
    destruct (jstep_holds _ _ _ _ _ _ Hh Ha1 Hstep) as [-> Hh1]. destruct (IH _ _ _ _ Hh1 Ha2 Hrest) as [-> Hh2].
    by rewrite spec_run_cons.
Qed.

(** Every event that is allowed can happen. *)
Lemma jstep_possible n s a e : holds n s a -> allowed n a e -> exists r s', jstep n s e r s'.
Proof.
  destruct s as [j d]. intros Hh Ha. destruct e as [t data| | | | |].
  - destruct Ha as [Ht Hdata]. destruct (Z.leb_spec M16_JOURNAL_MAX_ENTRIES (zlen (pending a))) as [Hf|Hr].
    + eexists _, (j, d). apply js_append. by apply (append_full n j d a).
    + destruct (append_holds n j d a Hh t data) as (j2 & E2 & _); [done|done|done|]. eexists _, (j2, d). by apply js_append.
  - eexists _, _. by apply js_commit.
  - eexists _, _. apply js_replay. by apply (replay_promised n j d a).
  - eexists _, _. apply js_crash_early.
  - eexists _, _. by apply js_clear.
  - eexists _, _. apply js_fsck.
Qed.

Definition fresh_log (disk : list Z) : alog := mk_alog [] false true disk.

Lemma init_holds n disk :
  disk_ok disk n -> holds n (mk_journal M16_JOURNAL_MAGIC 0 0 (entries zero_journal), disk) (fresh_log disk).
Proof. intros Hd. split; cbn [fst snd fresh_log pending final synced promised]; try done. exact (init_wf M16_JOURNAL_MAGIC 0). Qed.

(** C9: crash consistency.  On an initialised journal and a disk of [n] blocks, let a client append,
    commit, replay, check and, once the disk is up to date, clear, in any order and any number of times,
    with any number of replays cut off at any byte.  Then every call answers as the specification
    says, whose disk changes only at a commit, all logged blocks at once, and at appends after it; from
    whatever state is reached a replay succeeds and leaves exactly that disk; and every event that
    is allowed can happen. *)
Theorem journal_crash_consistent j0 j disk n es rs s :
  m16_journal_init (Some j0) = Some j -> disk_ok disk n -> admissible astep (allowed n) (fresh_log disk) es ->
  jsteps n (j, disk) es rs s ->
  let a := (spec_run astep (fresh_log disk) es).1 in
  rs = (spec_run astep (fresh_log disk) es).2 /\
  m16_journal_replay (Some s.1) (Some s.2) n = Ret (Some (promised a), M16_JOURNAL_OK) /\
  (forall e, allowed n a e -> exists r s', jstep n s e r s').
Proof.
  intros [= <-] Hd Ha Hs a. destruct (jsteps_holds n es _ _ _ _ (init_holds n disk Hd) Ha Hs) as [-> Hh].
  split; [done|]. split; [destruct s as [j d]; by apply (replay_promised n j d)|]. intros e. by apply jstep_possible.
Qed.

(** ** Witness *)

(** Two writes to one block, committed; a replay cut off after one byte, and the replay after it. *)
Definition demo_events : list event :=
  [Append 1 (replicate 512 5); Append 1 (replicate 512 6); Fsck; Commit; Crash; Replay; Clear; Append 0 (replicate 512 7)].

Lemma demo_steps :
  exists j s, m16_journal_init (Some zero_journal) = Some j /\ jsteps 2 (j, demo_disk) demo_events [0; 0; 0; 0; 0; 0; 0; 0] s.
Proof.
  eexists _, _. split; [reflexivity|].
  eapply jss_cons; [eapply js_append; vm_compute; reflexivity|]. eapply jss_cons; [eapply js_append; vm_compute; reflexivity|].
  eapply jss_cons; [apply js_fsck|]. eapply jss_cons; [by apply js_commit|]. eapply jss_cons.
  { apply js_crash; [done|]. exists 0, 1. apply rtc_once.
    eapply (rs_byte _ _ 0 0); [done|reflexivity|done|done|done|reflexivity|vm_compute; reflexivity]. }
  eapply jss_cons; [eapply js_replay; vm_compute; reflexivity|]. eapply jss_cons; [by apply js_clear|].
  eapply jss_cons; [eapply js_append; vm_compute; reflexivity|]. apply jss_nil.
Qed.

Lemma journal_crash_consistent_witness :
  exists j s, jsteps 2 (j, demo_disk) demo_events [0; 0; 0; 0; 0; 0; 0; 0] s /\
    m16_journal_replay (Some s.1) (Some s.2) 2 = Ret (Some (replicate 512 0 ++ replicate 512 6), M16_JOURNAL_OK).
Proof.
  destruct demo_steps as (j & s & Ej & Hs).
  destruct (journal_crash_consistent zero_journal j demo_disk 2 demo_events _ s Ej demo_disk_ok ltac:(by_compute) Hs)
    as (_ & Hr & _).
  exists j, s. split; [exact Hs|]. rewrite Hr. vm_compute. reflexivity.
Defined.
