(* ===== verification/Ramfs.v ===== *)
(** * The RAM file system (kernel/fs/m13_ramfs.c)

    A fixed table of nodes and a data area; every file owns 256 bytes of it.  Node pointers are
    subscripts of the table.  The abstract view of a file system is the list of its files, each
    a name and its contents, in order of creation. *)

From S2P Require Import Prelude Bytes.

(** ** Data *)

Definition MCS_MAX_NAME : Z := 32.
Definition MCS_MAX_NODES : Z := 64.
Definition MCS_RAMFS_DATA_BYTES : Z := 8192.

Definition MCS_OK : Z := 0.
Definition MCS_EINVAL : Z := -1.
Definition MCS_ENOENT : Z := -2.
Definition MCS_ENFILE : Z := -3.
Definition MCS_EBADF : Z := -4.
Definition MCS_ENOSPC : Z := -5.

Inductive mcs_vnode_type_t : Type :=
  | MCS_VNODE_DIR
  | MCS_VNODE_FILE.

Record mcs_vnode_t : Type := mk_vnode {
  vid : Z;
  vparent : Z;
  vtype : mcs_vnode_type_t;
  vname : list Z;
  vsize : Z;
  data_offset : Z;
  data_capacity : Z
}.

Record mcs_ramfs_t : Type := mk_ramfs {
  nodes : list mcs_vnode_t;
  rdata : list Z;
  node_count : Z;
  data_used : Z
}.

Definition m13_strcmp : list Z -> list Z -> exec Z := c_strcmp.
Definition m13_strcpy (dst src : list Z) : exec (list Z) := c_strcpy dst 0 src.
#[global] Arguments m13_strcpy dst src : simpl never.

(** ** Operations *)

(** The string literal ["/"]. *)
Definition root_name : list Z := [47; 0].

Definition mcs_ramfs_init (fs : mcs_ramfs_t) : exec mcs_ramfs_t :=
  nd ← arr_get (nodes fs) 0;
  nm ← m13_strcpy (vname nd) root_name;
  ns ← arr_set (nodes fs) 0 (mk_vnode 0 0 MCS_VNODE_DIR nm 0 0 0);
  Ret (mk_ramfs ns (rdata fs) 1 0).

Definition mcs_ramfs_lookup (fs : mcs_ramfs_t) (path : list Z) : exec (option Z) :=
  r ← for_loop (Z.to_nat (node_count fs)) 0
        (fun i (_ : unit) =>
           nd ← arr_get (nodes fs) i;
           c ← m13_strcmp (vname nd) path;
           Ret (if c =? 0 then Exit () i else Next ())) ();
  Ret (match r with Next _ => None | Exit _ i => Some i end).

Definition mcs_ramfs_create_file (fs : mcs_ramfs_t) (path : list Z)
  : exec (mcs_ramfs_t * option Z) :=
  if MCS_MAX_NODES <=? node_count fs then Ret (fs, None)
  else if MCS_RAMFS_DATA_BYTES <=? u64 (data_used fs + 256) then Ret (fs, None)
  else
    nd ← arr_get (nodes fs) (node_count fs);
    nm ← m13_strcpy (vname nd) path;
    ns ← arr_set (nodes fs) (node_count fs)
           (mk_vnode (node_count fs) 0 MCS_VNODE_FILE nm 0 (data_used fs) 256);
    Ret (mk_ramfs ns (rdata fs) (u32 (node_count fs + 1)) (u64 (data_used fs + 256)),
         Some (node_count fs)).

Definition set_vsize (nd : mcs_vnode_t) (size : Z) : mcs_vnode_t :=
  mk_vnode (vid nd) (vparent nd) (vtype nd) (vname nd) size (data_offset nd) (data_capacity nd).

Definition mcs_ramfs_seed_file (fs : mcs_ramfs_t) (path data : list Z) (size : Z)
  : exec (mcs_ramfs_t * Z) :=
  '(fs1, r) ← mcs_ramfs_create_file fs path;
  match r with
  | None => Ret (fs1, MCS_ENOSPC)
  | Some i =>
      nd ← arr_get (nodes fs1) i;
      if data_capacity nd <? size then Ret (fs1, MCS_ENOSPC)
      else
        d ← byte_copy (rdata fs1) (data_offset nd) data 0 size;
        ns ← arr_set (nodes fs1) i (set_vsize nd size);
        Ret (mk_ramfs ns d (node_count fs1) (data_used fs1), MCS_OK)
  end.

(** ** The invariant *)

Record node_ok (i : Z) (nd : mcs_vnode_t) : Prop := {
  no_id : vid nd = i;
  no_parent : vparent nd = 0;
  no_type : vtype nd = MCS_VNODE_FILE;
  no_offset : data_offset nd = 256 * (i - 1);
  no_capacity : data_capacity nd = 256;
  no_size : 0 <= vsize nd <= 256
}.

Record root_ok (nd : mcs_vnode_t) : Prop := {
  ro_type : vtype nd = MCS_VNODE_DIR;
  ro_name : cstr (vname nd) = [47];
  ro_size : vsize nd = 0;
  ro_offset : data_offset nd = 0;
  ro_capacity : data_capacity nd = 0
}.

Definition name_ok (nd : mcs_vnode_t) : Prop := has_nul (vname nd).

Record ramfs_wf (fs : mcs_ramfs_t) : Prop := {
  rw_nodes : zlen (nodes fs) = MCS_MAX_NODES;
  rw_data : zlen (rdata fs) = MCS_RAMFS_DATA_BYTES;
  rw_names : Forall (fun nd => zlen (vname nd) = MCS_MAX_NAME /\ bytes (vname nd)) (nodes fs);
  rw_count : 1 <= node_count fs <= 32;
  rw_used : data_used fs = 256 * (node_count fs - 1);
  rw_root : forall nd, arr_get (nodes fs) 0 = Ret nd -> root_ok nd /\ name_ok nd;
  rw_files : forall i nd, 0 < i < node_count fs -> arr_get (nodes fs) i = Ret nd ->
               node_ok i nd /\ name_ok nd
}.

(** ** The abstract view *)

(** The name of node [i] and the contents of its file. *)
Definition node_name (fs : mcs_ramfs_t) (i : Z) : list Z :=
  match arr_get (nodes fs) i with Ret nd => cstr (vname nd) | Fault _ => [] end.

Definition contents (fs : mcs_ramfs_t) (i : Z) : list Z :=
  match arr_get (nodes fs) i with
  | Ret nd => slice (rdata fs) (data_offset nd) (vsize nd)
  | Fault _ => []
  end.

(** A path the caller may pass: a C string of bytes. *)
Definition path_ok (path : list Z) : Prop := bytes path /\ has_nul path.

#[global] Instance path_ok_dec path : Decision (path_ok path).
Proof. unfold path_ok, has_nul. apply _. Defined.

(** The first node with a given name. *)
Definition find_name (fs : mcs_ramfs_t) (s : list Z) : option Z :=
  find_first (fun i => bool_decide (node_name fs i = s)) (Z.to_nat (node_count fs)) 0.

(** ** Nodes of a well-formed file system *)

(** A node in use: its name, and an area of the data that is its own. *)
Lemma wf_node fs i :
  ramfs_wf fs -> 0 <= i < node_count fs ->
  exists nd, arr_get (nodes fs) i = Ret nd /\ zlen (vname nd) = MCS_MAX_NAME /\
    bytes (vname nd) /\ has_nul (vname nd) /\
    data_offset nd = 256 * Z.max 0 (i - 1) /\ data_capacity nd = (if i =? 0 then 0 else 256) /\
    0 <= vsize nd <= data_capacity nd.
Proof.
  intros [Hn Hd Hnm Hc Hu Hr Hf] Hi. unfold MCS_MAX_NODES in *.
  destruct (arr_get_ok (nodes fs) i) as [nd E]; [lia|]. exists nd.
  pose proof (Forall_arr_get _ _ _ _ Hnm E) as [Hz Hb].
  split; [done|]. split; [done|]. split; [done|].
  destruct (decide (i = 0)) as [->|Hne].
  - destruct (Hr nd E) as [[] Hnul]. split; [done|]. cbn. lia.
  - destruct (Hf i nd ltac:(lia) E) as [[] Hnul]. split; [done|].
    rewrite (proj2 (Z.eqb_neq i 0)) by done. lia.
Qed.

Lemma set_vsize_same nd : set_vsize nd (vsize nd) = nd.
Proof. by destruct nd. Qed.

(** ** Copying a name *)

Lemma strcpy_name (dst path : list Z) :
  path_ok path -> bytes dst -> zlen dst = MCS_MAX_NAME -> zlen (cstr path) < MCS_MAX_NAME ->
  exists nm, m13_strcpy dst path = Ret nm /\ zlen nm = MCS_MAX_NAME /\ bytes nm /\
    has_nul nm /\ cstr nm = cstr path.
Proof.
  intros [Hb Hn] Hd Hz Hl. unfold m13_strcpy. rewrite c_strcpy_eq by (done || lia).
  destruct (cstr_split path Hn) as [rest Er].
  assert (bytes (cstr path ++ [0])) as Hbp.
  { unfold bytes in *. rewrite Er in Hb. apply Forall_app in Hb as [H1 [H2 _]%Forall_cons_1].
    apply Forall_app_2; [done|]. constructor; [done|constructor]. }
  eexists. split; [done|]. pose proof (zlen_nonneg (cstr path)).
  assert (zlen (cstr path ++ [0]) = zlen (cstr path) + 1) as Hz1 by (by rewrite zlen_app).
  split; [rewrite zlen_splice; lia|]. split; [by apply Forall_splice|].
  apply splice_cstr.
Qed.

Lemma strcpy_name_overflow (dst path : list Z) :
  has_nul path -> zlen dst <= zlen (cstr path) -> m13_strcpy dst path = Fault OutOfBounds.
Proof.
  intros Hn Hl. pose proof (zlen_nonneg dst). apply c_strcpy_overflow; (done || lia).
Qed.

(** ** The operations *)

Lemma ramfs_init_wf fs :
  zlen (nodes fs) = MCS_MAX_NODES -> zlen (rdata fs) = MCS_RAMFS_DATA_BYTES ->
  Forall (fun nd => zlen (vname nd) = MCS_MAX_NAME /\ bytes (vname nd)) (nodes fs) ->
  exists fs', mcs_ramfs_init fs = Ret fs' /\ ramfs_wf fs' /\ node_count fs' = 1 /\
    rdata fs' = rdata fs.
Proof.
  intros Hn Hd Hnm. unfold mcs_ramfs_init. unfold MCS_MAX_NODES in *.
  destruct (arr_get_ok (nodes fs) 0) as [nd E]; [lia|]. rewrite E. cbn.
  pose proof (Forall_arr_get _ _ _ _ Hnm E) as [Hz Hb].
  destruct (strcpy_name (vname nd) root_name) as (nm & -> & Hz' & Hb' & Hnul & Hc);
    [by_compute|done|done|by_compute|]. cbn.
  rewrite arr_set_ok by lia. cbn [mbind exec_bind]. eexists. split; [done|]. split; [|done].
  split; cbn [nodes rdata node_count data_used]; try (done || lia).
  - by rewrite zlen_insert.
  - by apply list.Forall_insert.
  - intros nd'. rewrite (arr_get_insert_eq (nodes fs) 0) by lia. intros [= <-]. by split.
Qed.

Lemma lookup_eq fs path :
  ramfs_wf fs -> path_ok path -> mcs_ramfs_lookup fs path = Ret (find_name fs (cstr path)).
Proof.
  intros Hwf [Hb Hn]. unfold mcs_ramfs_lookup, find_name.
  rewrite (for_loop_search (fun i => bool_decide (node_name fs i = cstr path))
             (fun _ => ()) (fun i => i) _ ()).
  - cbn. by destruct (find_first _ _ _).
  - intros i Hi. pose proof (rw_count fs Hwf) as Hc.
    destruct (wf_node fs i Hwf ltac:(lia)) as (nd & E & _ & Hbn & Hnn & _).
    unfold node_name, m13_strcmp. rewrite E. cbn.
    destruct (c_strcmp_spec (vname nd) path Hbn Hb Hnn Hn) as (r & -> & Hr). cbn.
    destruct (Z.eqb_spec r 0) as [H0|H0].
    + rewrite bool_decide_true by (by apply Hr). done.
    + rewrite bool_decide_false by (by intros ?%Hr). done.
Qed.

(** A new node at the end of the table. *)
Lemma create_eq fs path :
  ramfs_wf fs -> path_ok path -> zlen (cstr path) < MCS_MAX_NAME ->
  if decide (node_count fs < 32) then
    exists fs', mcs_ramfs_create_file fs path = Ret (fs', Some (node_count fs)) /\ ramfs_wf fs' /\
      node_count fs' = node_count fs + 1 /\ rdata fs' = rdata fs /\
      (exists nd, arr_get (nodes fs') (node_count fs) = Ret nd /\
         cstr (vname nd) = cstr path /\ vsize nd = 0) /\
      (forall i, i <> node_count fs -> arr_get (nodes fs') i = arr_get (nodes fs) i)
  else mcs_ramfs_create_file fs path = Ret (fs, None).
Proof.
  intros Hwf Hp Hl. pose proof Hwf as [Hn Hd Hnm Hc Hu Hr Hf].
  unfold mcs_ramfs_create_file, MCS_MAX_NODES, MCS_RAMFS_DATA_BYTES in *.
  rewrite (proj2 (Z.leb_gt _ _)) by lia. rewrite u64_small by (unfold is_u64; lia).
  case_decide as Hlt; [|by rewrite (proj2 (Z.leb_le _ _)) by lia].
  rewrite (proj2 (Z.leb_gt _ _)) by lia.
  destruct (arr_get_ok (nodes fs) (node_count fs)) as [nd0 E]; [lia|]. rewrite E. cbn.
  pose proof (Forall_arr_get _ _ _ _ Hnm E) as [Hz Hb].
  destruct (strcpy_name (vname nd0) path Hp Hb Hz Hl) as (nm & -> & Hz' & Hb' & Hnul & Hcs). cbn.
  rewrite arr_set_ok by lia. cbn. rewrite u32_small by (unfold is_u32; lia).
  eexists. split; [done|].
  cbn [nodes rdata node_count data_used]. split_and!; try done.
  - split; cbn [nodes rdata node_count data_used]; try (done || lia).
    + by rewrite zlen_insert.
    + by apply list.Forall_insert.
    + intros nd. rewrite arr_get_insert_ne by lia. apply Hr.
    + intros i nd Hi. rewrite arr_get_insert by lia.
      destruct (Z.eqb_spec (node_count fs) i) as [<-|]; [|intros Ei; apply (Hf i nd); [lia|done]].
      intros [= <-]. split; [split; cbn; (done || lia)|done].
  - eexists. split; [apply arr_get_insert_eq; lia|]. by split.
  - intros i Hi. apply arr_get_insert_ne; (done || lia).
Qed.

(** The search for a name in a table with one more node. *)
Lemma find_name_append fs fs' s :
  0 <= node_count fs -> node_count fs' = node_count fs + 1 -> node_name fs' (node_count fs) = s ->
  (forall i, 0 <= i < node_count fs -> node_name fs' i = node_name fs i) ->
  find_name fs' s
  = match find_name fs s with Some i => Some i | None => Some (node_count fs) end.
Proof.
  intros H0 Hc Hs Hold. unfold find_name at 2. destruct (find_first _ _ _) as [i|] eqn:E.
  - apply find_first_Some in E as (Hi & Hp & Hk). apply find_first_Some.
    split; [lia|]. rewrite Hold by lia. split; [done|]. intros k Hk'. rewrite Hold by lia.
    by apply Hk.
  - rewrite find_first_None in E. apply find_first_Some. split; [lia|].
    split; [by apply bool_decide_eq_true|]. intros k Hk. rewrite Hold by lia. apply E. lia.
Qed.

Lemma create_overflow fs path :
  ramfs_wf fs -> path_ok path -> MCS_MAX_NAME <= zlen (cstr path) -> node_count fs < 32 ->
  mcs_ramfs_create_file fs path = Fault OutOfBounds.
Proof.
  intros Hwf [_ Hp] Hl Hlt. pose proof Hwf as [Hn Hd Hnm Hc Hu Hr Hf].
  unfold mcs_ramfs_create_file, MCS_MAX_NODES, MCS_RAMFS_DATA_BYTES in *.
  rewrite (proj2 (Z.leb_gt _ _)) by lia. rewrite u64_small by (unfold is_u64; lia).
  rewrite (proj2 (Z.leb_gt _ _)) by lia.
  destruct (arr_get_ok (nodes fs) (node_count fs)) as [nd0 E]; [lia|]. rewrite E. cbn.
  pose proof (Forall_arr_get _ _ _ _ Hnm E) as [Hz Hb].
  by rewrite strcpy_name_overflow by (done || lia).
Qed.

(** ** Writing into the area of a node *)

(** [bs] at offset [o] of node [i], whose size becomes [sz]. *)
Definition put_area (fs : mcs_ramfs_t) (i : Z) (nd : mcs_vnode_t) (o : Z) (bs : list Z) (sz : Z)
  : mcs_ramfs_t :=
  mk_ramfs (<[Z.to_nat i := set_vsize nd sz]> (nodes fs)) (splice (rdata fs) (data_offset nd + o) bs)
    (node_count fs) (data_used fs).

Lemma put_area_wf fs i nd o bs sz :
  ramfs_wf fs -> 0 <= i < node_count fs -> arr_get (nodes fs) i = Ret nd ->
  0 <= o -> o + zlen bs <= data_capacity nd -> 0 <= sz <= data_capacity nd ->
  ramfs_wf (put_area fs i nd o bs sz).
Proof.
  intros Hwf Hi E Ho Hcap Hsz. destruct (wf_node fs i Hwf Hi) as (nd' & E' & Hz & Hb & Hnul & Hoff & Hc & _).
  rewrite E in E'. injection E' as <-. pose proof Hwf as [Hn Hd Hnm Hcnt Hu Hr Hf].
  pose proof (zlen_nonneg bs). unfold MCS_MAX_NODES, MCS_RAMFS_DATA_BYTES in *.
  assert (data_offset nd + data_capacity nd <= 8192) by (rewrite Hc; destruct (Z.eqb_spec i 0); lia).
  split; cbn [put_area nodes rdata node_count data_used]; try (done || lia).
  - by rewrite zlen_insert.
  - rewrite zlen_splice; [done|lia|lia].
  - by apply list.Forall_insert.
  - intros x. rewrite arr_get_insert by lia. destruct (Z.eqb_spec i 0) as [->|]; [|apply Hr].
    intros [= <-]. destruct (Hr nd E) as [[] ?]. split; [split; cbn; (done || lia)|done].
  - intros k x Hk. rewrite arr_get_insert by lia. destruct (Z.eqb_spec i k) as [<-|]; [|by apply Hf].
    intros [= <-]. destruct (Hf i nd ltac:(lia) E) as [[] ?]. split; [split; cbn; (done || lia)|done].
Qed.

Lemma put_area_name fs i nd o bs sz k :
  0 <= i < zlen (nodes fs) -> arr_get (nodes fs) i = Ret nd ->
  node_name (put_area fs i nd o bs sz) k = node_name fs k.
Proof.
  intros Hi E. unfold node_name. cbn. rewrite arr_get_insert by done.
  destruct (Z.eqb_spec i k) as [<-|]; [by rewrite E|done].
Qed.

(** The areas of distinct nodes are disjoint. *)
Lemma put_area_other fs i nd o bs sz k :
  ramfs_wf fs -> 0 <= i < node_count fs -> arr_get (nodes fs) i = Ret nd ->
  0 <= o -> o + zlen bs <= data_capacity nd -> 0 <= k < node_count fs -> k <> i ->
  contents (put_area fs i nd o bs sz) k = contents fs k.
Proof.
  intros Hwf Hi E Ho Hcap Hk Hne. pose proof Hwf as [Hn Hd _ Hcnt _ _ _].
  destruct (wf_node fs i Hwf Hi) as (nd' & E' & _ & _ & _ & Hoff & Hc & _).
  rewrite E in E'. injection E' as <-.
  destruct (wf_node fs k Hwf Hk) as (nk & Ek & _ & _ & _ & Hoffk & Hck & Hszk).
  pose proof (zlen_nonneg bs). unfold MCS_MAX_NODES, MCS_RAMFS_DATA_BYTES in *.
  unfold contents. cbn. rewrite arr_get_insert_ne by lia. rewrite Ek.
  destruct (Z.eqb_spec i 0), (Z.eqb_spec k 0); try lia;
    apply slice_splice_disjoint; lia.
Qed.

Lemma put_area_self fs i nd o bs :
  ramfs_wf fs -> 0 <= i < node_count fs -> arr_get (nodes fs) i = Ret nd ->
  0 <= o <= vsize nd -> o + zlen bs <= data_capacity nd ->
  contents (put_area fs i nd o bs (Z.max (vsize nd) (o + zlen bs))) i = splice (contents fs i) o bs.
Proof.
  intros Hwf Hi E Ho Hcap. pose proof Hwf as [Hn Hd _ Hcnt _ _ _].
  destruct (wf_node fs i Hwf Hi) as (nd' & E' & _ & _ & _ & Hoff & Hc & Hs).
  rewrite E in E'. injection E' as <-. unfold MCS_MAX_NODES, MCS_RAMFS_DATA_BYTES in *.
  unfold contents. cbn. rewrite arr_get_insert_eq by lia. rewrite E. cbn.
  destruct (Z.eqb_spec i 0); apply slice_splice_grow; lia.
Qed.

Lemma seed_eq fs path data size :
  ramfs_wf fs -> path_ok path -> zlen (cstr path) < MCS_MAX_NAME -> node_count fs < 32 ->
  0 <= size <= zlen data ->
  exists fs' rc, mcs_ramfs_seed_file fs path data size = Ret (fs', rc) /\ ramfs_wf fs' /\
    node_count fs' = node_count fs + 1 /\ node_name fs' (node_count fs) = cstr path /\
    (forall i, 0 <= i < node_count fs -> node_name fs' i = node_name fs i /\
       contents fs' i = contents fs i) /\
    ((size <= 256 /\ rc = MCS_OK /\ contents fs' (node_count fs) = slice data 0 size) \/
     (256 < size /\ rc = MCS_ENOSPC /\ contents fs' (node_count fs) = [])).
Proof.
  intros Hwf Hp Hl Hlt Hsz. pose proof (create_eq fs path Hwf Hp Hl) as H.
  rewrite decide_True in H by lia.
  destruct H as (fs1 & E & Hwf1 & Hc & Hd & (nd & En & Hnm & Hs) & Ho).
  pose proof (rw_count fs Hwf) as Hcnt. pose proof (rw_nodes fs1 Hwf1) as Hn1. unfold MCS_MAX_NODES in Hn1.
  unfold mcs_ramfs_seed_file. rewrite E. cbn. rewrite En. cbn.
  destruct (wf_node fs1 (node_count fs) Hwf1 ltac:(lia)) as (nd' & E' & _ & _ & _ & Hoff & Hcap & _).
  rewrite En in E'. injection E' as <-. rewrite (proj2 (Z.eqb_neq _ _)) in Hcap by lia.
  assert (forall i, 0 <= i < node_count fs -> node_name fs1 i = node_name fs i /\
            contents fs1 i = contents fs i) as Hold.
  { intros i Hi. unfold node_name, contents. rewrite Ho, Hd by lia. done. }
  assert (node_name fs1 (node_count fs) = cstr path) as Hname by (unfold node_name; by rewrite En).
  rewrite Hcap. destruct (Z.ltb_spec 256 size) as [Hbig|Hok].
  - exists fs1, MCS_ENOSPC. split_and!; try done. right. split_and!; [lia|done|].
    unfold contents. rewrite En, Hs. done.
  - pose proof (rw_data fs1 Hwf1) as Hd1. unfold MCS_RAMFS_DATA_BYTES in Hd1.
    rewrite byte_copy_eq by lia. cbn. rewrite arr_set_ok by lia. cbn.
    assert (zlen (slice data 0 size) = size) as Hzs by (apply zlen_slice; lia).
    replace (mk_ramfs _ _ _ _)
      with (put_area fs1 (node_count fs) nd 0 (slice data 0 size)
              (Z.max (vsize nd) (0 + zlen (slice data 0 size)))).
    2:{ unfold put_area. rewrite Hs, Hzs, Z.add_0_r. do 2 f_equal. f_equal. lia. }
    eexists _, _. split; [done|]. split; [apply put_area_wf; (done || lia)|]. split; [done|].
    rewrite put_area_name by (done || lia). split; [done|]. split.
    + intros i Hi. rewrite put_area_name, put_area_other by (done || lia). by apply Hold.
    + left. split_and!; [done..|]. rewrite put_area_self by (done || lia).
      unfold contents. rewrite En, Hs. unfold slice, splice. cbn. change (Z.to_nat 0) with 0%nat.
      by rewrite !take_0, drop_nil, app_nil_r.
Qed.

(** ** Theorems *)

(** C30: creation of a file in a well-formed file system.  It returns a new node with the given
    name and no contents, keeps every other node, and the file system stays well formed; with
    31 files it returns null and changes nothing; and a name of 32 characters or more is
    written past the name field. *)
Theorem mcs_ramfs_create_file_spec fs path :
  ramfs_wf fs -> path_ok path ->
  (zlen (cstr path) < MCS_MAX_NAME -> node_count fs < 32 ->
   exists fs', mcs_ramfs_create_file fs path = Ret (fs', Some (node_count fs)) /\ ramfs_wf fs' /\
     node_count fs' = node_count fs + 1 /\
     node_name fs' (node_count fs) = cstr path /\ contents fs' (node_count fs) = [] /\
     (forall i, i <> node_count fs -> node_name fs' i = node_name fs i /\
        contents fs' i = contents fs i)) /\
  (node_count fs = 32 -> mcs_ramfs_create_file fs path = Ret (fs, None)) /\
  (MCS_MAX_NAME <= zlen (cstr path) -> node_count fs < 32 ->
   mcs_ramfs_create_file fs path = Fault OutOfBounds).
Proof.
  intros Hwf Hp. split_and!.
  - intros Hl Hlt. pose proof (create_eq fs path Hwf Hp Hl) as H. rewrite decide_True in H by lia.
    destruct H as (fs' & E & Hwf' & Hc & Hd & (nd & En & Hnm & Hs) & Ho).
    exists fs'. unfold node_name, contents. rewrite En, Hnm, Hs, Hd.
    split_and!; try done. intros i Hi. by rewrite Ho.
  - intros Hc. unfold mcs_ramfs_create_file. rewrite (rw_used fs Hwf), Hc. done.
  - intros Hl Hlt. by apply create_overflow.
Qed.

(** Seeding a file appends it with exactly the given bytes, at most 256, and the file is found
    under its name afterwards unless an older node has the same name; the contents and names
    of all older nodes stay; a larger seed is refused but leaves an empty file behind. *)
Theorem mcs_ramfs_seed_file_spec fs path data size :
  ramfs_wf fs -> path_ok path -> zlen (cstr path) < MCS_MAX_NAME -> node_count fs < 32 ->
  0 <= size <= zlen data ->
  exists fs' rc, mcs_ramfs_seed_file fs path data size = Ret (fs', rc) /\ ramfs_wf fs' /\
    node_count fs' = node_count fs + 1 /\ node_name fs' (node_count fs) = cstr path /\
    (forall i, 0 <= i < node_count fs -> node_name fs' i = node_name fs i /\
       contents fs' i = contents fs i) /\
    ((size <= 256 /\ rc = MCS_OK /\ contents fs' (node_count fs) = slice data 0 size) \/
     (256 < size /\ rc = MCS_ENOSPC /\ contents fs' (node_count fs) = [])) /\
    mcs_ramfs_lookup fs' path
    = Ret (match find_name fs (cstr path) with Some i => Some i | None => Some (node_count fs) end).
Proof.
  intros Hwf Hp Hl Hlt Hsz.
  destruct (seed_eq fs path data size Hwf Hp Hl Hlt Hsz)
    as (fs' & rc & E & Hwf' & Hc & Hnm & Hold & Hcase).
  exists fs', rc. split_and!; try done. rewrite lookup_eq by done. f_equal.
  pose proof (rw_count fs Hwf) as Hcnt. apply (find_name_append fs fs'); (done || lia || idtac).
  intros i Hi. by apply Hold.
Qed.

(** ** Witnesses *)

Definition blank_ramfs : mcs_ramfs_t :=
  mk_ramfs (replicate 64 (mk_vnode 0 0 MCS_VNODE_FILE (replicate 32 0) 0 0 0)) (replicate 8192 0) 0 0.

(** The file system after initialisation. *)
Lemma fresh_ramfs :
  exists fs, mcs_ramfs_init blank_ramfs = Ret fs /\ ramfs_wf fs /\ node_count fs = 1 /\
    node_name fs 0 = [47].
Proof.
  destruct (ramfs_init_wf blank_ramfs) as (fs & E & Hwf & Hc & _).
  - reflexivity.
  - unfold zlen. cbn [rdata blank_ramfs]. by rewrite length_replicate.
  - apply Forall_replicate. split; [reflexivity|by_compute].
  - exists fs. split_and!; try done. unfold node_name.
    pose proof (rw_nodes fs Hwf) as Hn. unfold MCS_MAX_NODES in Hn.
    destruct (arr_get_ok (nodes fs) 0) as [nd En]; [lia|]. rewrite En.
    by destruct (rw_root fs Hwf nd En) as [[] _].
Qed.

(** The path ["a"], and one of 32 characters. *)
Definition path_a : list Z := [97; 0].
Definition path_long : list Z := replicate 32 97 ++ [0].

Lemma mcs_ramfs_create_file_witness :
  exists fs fs', mcs_ramfs_init blank_ramfs = Ret fs /\
    mcs_ramfs_create_file fs path_a = Ret (fs', Some 1) /\ node_name fs' 1 = [97] /\
    mcs_ramfs_create_file fs path_long = Fault OutOfBounds.
Proof.
  destruct fresh_ramfs as (fs & E & Hwf & Hc & _).
  destruct (mcs_ramfs_create_file_spec fs path_a Hwf ltac:(by_compute)) as (H1 & _ & _).
  destruct (mcs_ramfs_create_file_spec fs path_long Hwf ltac:(by_compute)) as (_ & _ & H3).
  destruct H1 as (fs' & E' & _ & _ & Hn & _); [by_compute|lia|]. rewrite Hc in *.
  exists fs, fs'. split; [exact E|]. split; [exact E'|]. split; [exact Hn|].
  apply H3; [by_compute|lia].
Defined.

Lemma mcs_ramfs_seed_file_witness :
  exists fs fs', mcs_ramfs_init blank_ramfs = Ret fs /\
    mcs_ramfs_seed_file fs path_a [1; 2; 3] 3 = Ret (fs', MCS_OK) /\ contents fs' 1 = [1; 2; 3].
Proof.
  destruct fresh_ramfs as (fs & E & Hwf & Hc & _).
  destruct (mcs_ramfs_seed_file_spec fs path_a [1; 2; 3] 3 Hwf)
    as (fs' & rc & E' & _ & _ & _ & _ & [(_ & -> & Hcont)|[? _]] & _);
    [by_compute|by_compute|lia|by_compute| |lia].
  rewrite Hc in *. exists fs, fs'. split; [exact E|]. split; [exact E'|exact Hcont].
Defined.
