(* ===== verification/Vfs.v ===== *)
(** * The virtual file system (kernel/fs/m13_vfs.c)

    A table of open files over the RAM file systems of [Ramfs].  An open file keeps a pointer
    to its file system and one to a node inside it, so the model keeps the file systems in a
    store and several descriptors may share a node. *)

From S2P Require Import Prelude Bytes Ramfs.

(** ** Data *)

Definition MCS_MAX_OPEN_FILES : Z := 16.
Definition MCS_O_RDONLY : Z := 0x0001.
Definition MCS_O_CREAT : Z := 0x0100.
Definition MCS_SEEK_SET : Z := 0.
Definition MCS_SEEK_CUR : Z := 1.
Definition MCS_SEEK_END : Z := 2.

(** A pointer to a file system is its key in the store, a pointer to a node the key of its file
    system and its subscript there. *)
Record mcs_file_t : Type := mk_file {
  flags : Z;
  offset : Z;
  fnode : Z * Z;
  ffs : Z;
  used : bool
}.

Record vfs : Type := mk_vfs {
  stores : gmap Z mcs_ramfs_t;
  files : list mcs_file_t
}.

Definition get_fs (v : vfs) (k : Z) : exec mcs_ramfs_t :=
  match stores v !! k with
  | Some fs => Ret fs
  | None => Fault NullDeref
  end.

Definition put_fs (v : vfs) (k : Z) (fs : mcs_ramfs_t) : vfs :=
  mk_vfs (<[k := fs]> (stores v)) (files v).

(** The node a pointer designates. *)
Definition get_node (v : vfs) (p : Z * Z) : exec mcs_vnode_t :=
  fs ← get_fs v (fst p); arr_get (nodes fs) (snd p).

Definition put_node (v : vfs) (p : Z * Z) (nd : mcs_vnode_t) : exec vfs :=
  fs ← get_fs v (fst p);
  ns ← arr_set (nodes fs) (snd p) nd;
  Ret (put_fs v (fst p) (mk_ramfs ns (rdata fs) (node_count fs) (data_used fs))).

Definition put_file (v : vfs) (fd : Z) (f : mcs_file_t) : exec vfs :=
  l ← arr_set (files v) fd f;
  Ret (mk_vfs (stores v) l).

Definition set_offset (f : mcs_file_t) (o : Z) : mcs_file_t :=
  mk_file (flags f) o (fnode f) (ffs f) (used f).

Definition set_used (f : mcs_file_t) (b : bool) : mcs_file_t :=
  mk_file (flags f) (offset f) (fnode f) (ffs f) b.

(** ** Operations *)

Definition mcs_fd_table_init (v : vfs) : exec vfs :=
  for_state (Z.to_nat MCS_MAX_OPEN_FILES) 0
    (fun i v => f ← arr_get (files v) i; put_file v i (set_used f false)) v.

(** The global pointer [mcs_active_ramfs_for_test], null at the start; no other function uses it. *)
Definition mcs_active_ramfs_for_test : option Z := None.
Definition mcs_vfs_set_active_ramfs_for_test (active fs : option Z) : option Z := fs.

(** The search for a free descriptor and its initialisation. *)
Definition install_fd (v : vfs) (k node flg : Z) : exec (vfs * Z) :=
  r ← for_loop (Z.to_nat MCS_MAX_OPEN_FILES) 0
        (fun fd v =>
           f ← arr_get (files v) fd;
           if negb (used f) then
             v' ← put_file v fd (mk_file flg 0 (k, node) k true);
             Ret (Exit v' fd)
           else Ret (Next v)) v;
  Ret (match r with Next v' => (v', MCS_ENFILE) | Exit v' fd => (v', fd) end).

Definition mcs_vfs_open (v : vfs) (k : Z) (path : list Z) (flg : Z) : exec (vfs * Z) :=
  fs ← get_fs v k;
  node ← mcs_ramfs_lookup fs path;
  match node with
  | Some i => install_fd v k i flg
  | None =>
      if Z.land flg MCS_O_CREAT =? 0 then Ret (v, MCS_ENOENT)
      else
        '(fs', r) ← mcs_ramfs_create_file fs path;
        match r with
        | None => Ret (put_fs v k fs', MCS_ENOSPC)
        | Some i => install_fd (put_fs v k fs') k i flg
        end
  end.

(** The check common to the calls on a descriptor; [fd] is an [int]. *)
Definition bad_fd (fd : Z) : bool := (fd <? 0) || (MCS_MAX_OPEN_FILES <=? u32 fd).

(** The buffer is a byte array; its new contents are part of the result. *)
Definition mcs_vfs_read (v : vfs) (fd : Z) (buffer : list Z) (size : Z)
  : exec (vfs * list Z * Z) :=
  if bad_fd fd then Ret (v, buffer, MCS_EBADF)
  else
    f ← arr_get (files v) fd;
    if negb (used f) then Ret (v, buffer, MCS_EBADF)
    else
      nd ← get_node v (fnode f);
      let remain := u64 (vsize nd - offset f) in
      let size := if remain <? size then remain else size in
      fs ← get_fs v (ffs f);
      dst ← byte_copy buffer 0 (rdata fs) (u64 (data_offset nd + offset f)) size;
      v' ← put_file v fd (set_offset f (u64 (offset f + size)));
      Ret (v', dst, s64 size).

Definition mcs_vfs_write (v : vfs) (fd : Z) (buffer : list Z) (size : Z) : exec (vfs * Z) :=
  if bad_fd fd then Ret (v, MCS_EBADF)
  else
    f ← arr_get (files v) fd;
    if negb (used f) then Ret (v, MCS_EBADF)
    else
      nd ← get_node v (fnode f);
      if data_capacity nd <? u64 (offset f + size) then Ret (v, MCS_ENOSPC)
      else
        fs ← get_fs v (ffs f);
        d ← byte_copy (rdata fs) (u64 (data_offset nd + offset f)) buffer 0 size;
        let v1 := put_fs v (ffs f) (mk_ramfs (nodes fs) d (node_count fs) (data_used fs)) in
        let o := u64 (offset f + size) in
        v2 ← put_file v1 fd (set_offset f o);
        nd' ← get_node v2 (fnode f);
        v3 ← (if vsize nd' <? o then put_node v2 (fnode f) (set_vsize nd' o) else Ret v2);
        Ret (v3, s64 size).

Definition mcs_vfs_lseek (v : vfs) (fd off whence : Z) : exec (vfs * Z) :=
  if bad_fd fd then Ret (v, MCS_EBADF)
  else
    f ← arr_get (files v) fd;
    if negb (used f) then Ret (v, MCS_EBADF)
    else
      new_offset ← (if whence =? MCS_SEEK_SET then Ret (Some (u64 off))
                    else if whence =? MCS_SEEK_CUR then Ret (Some (u64 (offset f + u64 off)))
                    else if whence =? MCS_SEEK_END then
                      nd ← get_node v (fnode f); Ret (Some (u64 (vsize nd + u64 off)))
                    else Ret None);
      match new_offset with
      | None => Ret (v, MCS_EINVAL)
      | Some o =>
          nd ← get_node v (fnode f);
          if vsize nd <? o then Ret (v, MCS_EINVAL)
          else v' ← put_file v fd (set_offset f o); Ret (v', s64 o)
      end.

Definition mcs_vfs_close (v : vfs) (fd : Z) : exec (vfs * Z) :=
  if bad_fd fd then Ret (v, MCS_EBADF)
  else
    f ← arr_get (files v) fd;
    v' ← put_file v fd (set_used f false);
    Ret (v', MCS_OK).

(** ** The invariant *)

(** An open file points at a node in use and stands within it. *)
Definition file_ok (st : gmap Z mcs_ramfs_t) (f : mcs_file_t) : Prop :=
  used f = true ->
  exists fs nd, st !! ffs f = Some fs /\ fst (fnode f) = ffs f /\
    0 <= snd (fnode f) < node_count fs /\ arr_get (nodes fs) (snd (fnode f)) = Ret nd /\
    0 <= offset f <= vsize nd.

Record vfs_wf (v : vfs) : Prop := {
  vw_files : zlen (files v) = MCS_MAX_OPEN_FILES;
  vw_fs : forall k fs, stores v !! k = Some fs -> ramfs_wf fs;
  vw_open : Forall (file_ok (stores v)) (files v)
}.

(** The contents a node pointer designates. *)
Definition node_contents (v : vfs) (p : Z * Z) : list Z :=
  match stores v !! fst p with Some fs => contents fs (snd p) | None => [] end.

(** [p] points at a node in use. *)
Definition node_live (v : vfs) (p : Z * Z) : Prop :=
  exists fs, stores v !! fst p = Some fs /\ 0 <= snd p < node_count fs.

(** ** Open files *)

Lemma good_fd fd : 0 <= fd < MCS_MAX_OPEN_FILES -> bad_fd fd = false.
Proof.
  unfold MCS_MAX_OPEN_FILES, bad_fd, MCS_MAX_OPEN_FILES. intros H.
  rewrite u32_small by (unfold is_u32; lia).
  rewrite (proj2 (Z.ltb_ge fd 0)), (proj2 (Z.leb_gt 16 fd)) by lia. done.
Qed.

Lemma bad_fd_iff fd : - 2 ^ 31 <= fd < 2 ^ 31 -> (bad_fd fd = true <-> ~ 0 <= fd < MCS_MAX_OPEN_FILES).
Proof.
  unfold bad_fd, MCS_MAX_OPEN_FILES. intros Hr. destruct (Z.ltb_spec fd 0); cbn; [split; [lia|done]|].
  rewrite u32_small by (unfold is_u32; lia). rewrite Z.leb_le. lia.
Qed.

(** What an open descriptor gives access to. *)
Lemma open_file v fd f :
  vfs_wf v -> arr_get (files v) fd = Ret f -> used f = true ->
  exists fs i nd, stores v !! ffs f = Some fs /\ ramfs_wf fs /\ fnode f = (ffs f, i) /\
    0 <= i < node_count fs /\ arr_get (nodes fs) i = Ret nd /\ get_node v (fnode f) = Ret nd /\
    get_fs v (ffs f) = Ret fs /\ 0 <= offset f <= vsize nd /\ 0 <= vsize nd <= data_capacity nd /\
    0 <= data_offset nd /\ data_offset nd + data_capacity nd <= MCS_RAMFS_DATA_BYTES /\
    data_capacity nd <= 256 /\
    node_contents v (fnode f) = slice (rdata fs) (data_offset nd) (vsize nd).
Proof.
  intros [_ Hfs Hop] E Hu. destruct (Forall_arr_get _ _ _ _ Hop E Hu) as (fs & nd & Hk & Hp & Hi & Hn & Ho).
  destruct (fnode f) as [k i] eqn:Ef. cbn in Hp, Hi, Hn. subst k. exists fs, i, nd.
  pose proof (Hfs _ _ Hk) as Hwf. pose proof (rw_count fs Hwf) as Hcnt.
  destruct (wf_node fs i Hwf Hi) as (nd' & E' & _ & _ & _ & Hoff & Hc & Hs).
  rewrite Hn in E'. injection E' as <-. unfold MCS_RAMFS_DATA_BYTES.
  unfold get_node, get_fs, node_contents, contents. cbn. rewrite Hk. cbn. rewrite Hn.
  destruct (Z.eqb_spec i 0); split_and!; (done || lia).
Qed.

(** The invariant after moving the offset of one descriptor. *)
Lemma wf_set_offset v fd f o :
  vfs_wf v -> arr_get (files v) fd = Ret f -> used f = true ->
  (forall nd, get_node v (fnode f) = Ret nd -> 0 <= o <= vsize nd) ->
  vfs_wf (mk_vfs (stores v) (<[Z.to_nat fd := set_offset f o]> (files v))).
Proof.
  intros Hwf E Hu Ho. destruct (open_file v fd f Hwf E Hu) as (fs & i & nd & Hk & _ & Ef & Hi & Hn & Hg & _).
  destruct Hwf as [Hl Hfs Hop]. split; cbn; [by rewrite zlen_insert|done|].
  apply list.Forall_insert; [done|]. intros _. exists fs, nd. cbn. rewrite Ef. cbn.
  pose proof (Ho nd Hg). split_and!; (done || lia).
Qed.

Lemma fd_range v fd f : vfs_wf v -> arr_get (files v) fd = Ret f -> 0 <= fd < MCS_MAX_OPEN_FILES.
Proof. intros [Hl _ _] E%arr_get_in_range. by rewrite <- Hl. Qed.

Lemma put_file_eq v fd f g :
  arr_get (files v) fd = Ret f ->
  put_file v fd g = Ret (mk_vfs (stores v) (<[Z.to_nat fd := g]> (files v))).
Proof. intros E%arr_get_in_range. unfold put_file. by rewrite arr_set_ok. Qed.

(** ** Reading *)

Lemma vfs_read_eq v fd f buffer size :
  vfs_wf v -> arr_get (files v) fd = Ret f -> used f = true -> 0 <= size < 2 ^ 64 ->
  let c := node_contents v (fnode f) in
  let n := Z.min size (zlen c - offset f) in
  n <= zlen buffer ->
  mcs_vfs_read v fd buffer size
  = Ret (mk_vfs (stores v) (<[Z.to_nat fd := set_offset f (offset f + n)]> (files v)),
         splice buffer 0 (slice c (offset f) n), n) /\
  0 <= n /\ offset f <= zlen c /\
  vfs_wf (mk_vfs (stores v) (<[Z.to_nat fd := set_offset f (offset f + n)]> (files v))).
Proof.
  intros Hwf E Hu Hsz. pose proof (fd_range v fd f Hwf E) as Hfd.
  destruct (open_file v fd f Hwf E Hu) as (fs & i & nd & Hk & Hfs & Ef & Hi & Hn & Hg & Hgf & Ho & Hs & Hd & Hdc & Hcap & Hc).
  cbn zeta. rewrite Hc. pose proof (rw_data fs Hfs) as Hz. unfold MCS_RAMFS_DATA_BYTES in *.
  rewrite zlen_slice by lia. intros Hb.
  set (n := Z.min size (vsize nd - offset f)) in *.
  assert (0 <= n <= vsize nd - offset f) as Hn0 by lia.
  split_and!; [|lia|lia|].
  2:{ apply wf_set_offset; [done..|]. intros nd' Hnd'. rewrite Hg in Hnd'. injection Hnd' as <-. lia. }
  unfold mcs_vfs_read. rewrite (good_fd fd Hfd), E. cbn. rewrite Hu. cbn. rewrite Hg. cbn.
  rewrite (u64_small (vsize nd - offset f)) by (unfold is_u64; lia).
  assert ((if vsize nd - offset f <? size then vsize nd - offset f else size) = n) as ->
    by (subst n; destruct (Z.ltb_spec (vsize nd - offset f) size); lia).
  rewrite Hgf. cbn. rewrite (u64_small (data_offset nd + offset f)) by (unfold is_u64; lia).
  rewrite byte_copy_eq by lia. cbn.
  rewrite u64_small by (unfold is_u64; lia). rewrite (put_file_eq _ _ _ _ E). cbn.
  rewrite s64_small by lia. by rewrite slice_slice by lia.
Qed.

(** ** Writing *)

Lemma vfs_write_eq v fd f buffer size :
  vfs_wf v -> arr_get (files v) fd = Ret f -> used f = true -> 0 <= size <= zlen buffer ->
  offset f + size < 2 ^ 64 ->
  exists fs i nd, stores v !! ffs f = Some fs /\ ramfs_wf fs /\ fnode f = (ffs f, i) /\
    0 <= i < node_count fs /\ arr_get (nodes fs) i = Ret nd /\ 0 <= offset f <= vsize nd /\
    mcs_vfs_write v fd buffer size
    = Ret (if decide (offset f + size <= data_capacity nd) then
             (mk_vfs (<[ffs f := put_area fs i nd (offset f) (slice buffer 0 size)
                                   (Z.max (vsize nd) (offset f + size))]> (stores v))
                (<[Z.to_nat fd := set_offset f (offset f + size)]> (files v)), size)
           else (v, MCS_ENOSPC)).
Proof.
  intros Hwf E Hu Hsz Hw. pose proof (fd_range v fd f Hwf E) as Hfd.
  destruct (open_file v fd f Hwf E Hu) as (fs & i & nd & Hk & Hfs & Ef & Hi & Hn & Hg & Hgf & Ho & Hs & Hd & Hdc & Hcap & Hc).
  exists fs, i, nd. split_and!; try (done || lia).
  pose proof (rw_data fs Hfs) as Hz. pose proof (rw_nodes fs Hfs) as Hzn.
  pose proof (rw_count fs Hfs) as Hcnt. unfold MCS_RAMFS_DATA_BYTES, MCS_MAX_NODES in *.
  unfold mcs_vfs_write. rewrite (good_fd fd Hfd), E. cbn. rewrite Hu. cbn. rewrite Hg. cbn.
  rewrite (u64_small (offset f + size)) by (unfold is_u64; lia).
  case_decide as Hok; [|by rewrite (proj2 (Z.ltb_lt _ _)) by lia].
  rewrite (proj2 (Z.ltb_ge _ _)) by lia. rewrite Hgf. cbn.
  rewrite u64_small by (unfold is_u64; lia). rewrite byte_copy_eq by lia. cbn.
  rewrite (put_file_eq _ _ f _) by done. cbn. rewrite s64_small by lia.
  unfold get_node, get_fs. rewrite Ef. cbn. rewrite lookup_insert_eq. cbn. rewrite Hn. cbn.
  unfold put_area. destruct (Z.ltb_spec (vsize nd) (offset f + size)) as [Hgrow|Hkeep].
  - unfold put_node, get_fs. cbn. rewrite lookup_insert_eq. cbn. rewrite arr_set_ok by lia. cbn.
    unfold put_fs. cbn. rewrite insert_insert_eq.
    rewrite Z.max_r by lia. done.
  - cbn. rewrite Z.max_l by lia. rewrite set_vsize_same. unfold put_fs. cbn.
    rewrite (list_insert_id (nodes fs)); [done|]. by apply arr_get_Ret in Hn as [_ ?].
Qed.

(** A write to the store of one node keeps the invariant of every descriptor. *)
Lemma wf_write v fd f fs i nd bs :
  vfs_wf v -> arr_get (files v) fd = Ret f -> used f = true ->
  stores v !! ffs f = Some fs -> fnode f = (ffs f, i) -> 0 <= i < node_count fs ->
  arr_get (nodes fs) i = Ret nd -> 0 <= offset f <= vsize nd ->
  offset f + zlen bs <= data_capacity nd ->
  vfs_wf (mk_vfs (<[ffs f := put_area fs i nd (offset f) bs (Z.max (vsize nd) (offset f + zlen bs))]> (stores v))
            (<[Z.to_nat fd := set_offset f (offset f + zlen bs)]> (files v))).
Proof.
  intros Hwf E Hu Hk Ef Hi Hn Ho Hcap. pose proof Hwf as [Hl Hfs Hop]. pose proof (zlen_nonneg bs).
  pose proof (rw_nodes fs (Hfs _ _ Hk)) as Hzn. pose proof (rw_count fs (Hfs _ _ Hk)) as Hcnt.
  destruct (wf_node fs i (Hfs _ _ Hk) Hi) as (nd' & E' & _ & _ & _ & _ & _ & Hs).
  rewrite Hn in E'. injection E' as <-. unfold MCS_MAX_NODES in *.
  split; cbn; [by rewrite zlen_insert| |].
  - intros k fs'. destruct (decide (k = ffs f)) as [->|Hne]; [|rewrite lookup_insert_ne by done; apply Hfs].
    rewrite lookup_insert_eq. intros [= <-]. apply put_area_wf; try (done || lia). by apply (Hfs (ffs f)).
  - apply list.Forall_insert.
    + eapply Forall_impl; [|exact Hop]. intros g Hg Hug.
      destruct (Hg Hug) as (fs' & nd' & Hk' & Hp' & Hi' & Hn' & Ho').
      destruct (decide (ffs g = ffs f)) as [Heq|Hne].
      2:{ exists fs', nd'. rewrite lookup_insert_ne by congruence. split_and!; (done || lia). }
      rewrite Heq in *. rewrite Hk in Hk'. injection Hk' as <-.
      rewrite lookup_insert_eq. destruct (decide (snd (fnode g) = i)) as [Hsame|Hdiff].
      * rewrite Hsame in *. rewrite Hn in Hn'. injection Hn' as <-.
        eexists _, _. split; [done|]. split; [done|]. split; [done|].
        split; [apply arr_get_insert_eq; lia|cbn; lia].
      * eexists _, nd'. split; [done|]. split; [done|]. split; [done|].
        split; [|done]. cbn. by rewrite arr_get_insert_ne by lia.
    + intros _. cbn. rewrite Ef, lookup_insert_eq. eexists _, _. split; [done|]. split; [done|].
      split; [done|]. split; [cbn; apply (arr_get_insert_eq (nodes fs)); cbn; lia|cbn; lia].
Qed.

(** What a write that fits does to the contents of the nodes. *)
Lemma vfs_write_ok v fd f buffer size :
  vfs_wf v -> arr_get (files v) fd = Ret f -> used f = true -> 0 <= size <= zlen buffer ->
  (forall nd, get_node v (fnode f) = Ret nd -> offset f + size <= data_capacity nd) ->
  exists v', mcs_vfs_write v fd buffer size = Ret (v', size) /\ vfs_wf v' /\
    files v' = <[Z.to_nat fd := set_offset f (offset f + size)]> (files v) /\
    node_contents v' (fnode f) = splice (node_contents v (fnode f)) (offset f) (slice buffer 0 size) /\
    (forall p, node_live v p -> p <> fnode f -> node_contents v' p = node_contents v p).
Proof.
  intros Hwf E Hu Hsz Hcap.
  destruct (open_file v fd f Hwf E Hu) as (fs0 & i0 & nd0 & Hk0 & _ & Ef0 & _ & Hn0 & Hg & _ & Ho0 & Hs0 & _ & _ & H256 & _).
  specialize (Hcap nd0 Hg).
  destruct (vfs_write_eq v fd f buffer size Hwf E Hu Hsz ltac:(lia))
    as (fs & i & nd & Hk & Hfs & Ef & Hi & Hn & Ho & Hw).
  rewrite Hk in Hk0. injection Hk0 as <-. rewrite Ef in Ef0. injection Ef0 as <-.
  rewrite Hn in Hn0. injection Hn0 as <-. rewrite decide_True in Hw by lia.
  assert (zlen (slice buffer 0 size) = size) as Hz by (apply zlen_slice; lia).
  pose proof (rw_nodes fs Hfs) as Hzn. pose proof (rw_count fs Hfs) as Hcnt. unfold MCS_MAX_NODES in *.
  pose proof (wf_write v fd f fs i nd (slice buffer 0 size) Hwf E Hu Hk Ef Hi Hn Ho) as Hwf'.
  pose proof (put_area_self fs i nd (offset f) (slice buffer 0 size) Hfs Hi Hn Ho) as Hself.
  rewrite Hz in Hwf', Hself.
  eexists. split; [exact Hw|]. split; [apply Hwf'; lia|]. split; [done|]. split.
  - unfold node_contents. cbn. rewrite Ef. cbn. rewrite lookup_insert_eq, Hk.
    apply Hself. lia.
  - intros [k j] (fs' & Hk' & Hj) Hne. unfold node_contents. cbn in *.
    destruct (decide (k = ffs f)) as [->|Hkne]; [|by rewrite lookup_insert_ne].
    rewrite lookup_insert_eq, Hk. rewrite Hk in Hk'. injection Hk' as <-.
    apply put_area_other; try (done || lia). congruence.
Qed.

(** ** Seeking *)

Lemma vfs_seek_set v fd f o :
  vfs_wf v -> arr_get (files v) fd = Ret f -> used f = true ->
  0 <= o <= zlen (node_contents v (fnode f)) ->
  mcs_vfs_lseek v fd o MCS_SEEK_SET
  = Ret (mk_vfs (stores v) (<[Z.to_nat fd := set_offset f o]> (files v)), o) /\
  vfs_wf (mk_vfs (stores v) (<[Z.to_nat fd := set_offset f o]> (files v))).
Proof.
  intros Hwf E Hu. pose proof (fd_range v fd f Hwf E) as Hfd.
  destruct (open_file v fd f Hwf E Hu) as (fs & i & nd & Hk & Hfs & Ef & Hi & Hn & Hg & Hgf & Hof & Hs & Hd & Hdc & Hcap & Hc).
  rewrite Hc. pose proof (rw_data fs Hfs) as Hz. unfold MCS_RAMFS_DATA_BYTES in *.
  rewrite zlen_slice by lia. intros Ho. split.
  - unfold mcs_vfs_lseek. rewrite (good_fd fd Hfd), E. cbn. rewrite Hu. cbn. rewrite Hg. cbn.
    rewrite u64_small by (unfold is_u64; lia). rewrite (proj2 (Z.ltb_ge _ _)) by lia.
    rewrite (put_file_eq _ _ _ _ E). cbn. by rewrite s64_small by lia.
  - apply wf_set_offset; [done..|]. intros nd' Hnd'. rewrite Hg in Hnd'. injection Hnd' as <-. lia.
Qed.

(** ** Opening *)

Definition fd_free (v : vfs) (fd : Z) : bool :=
  match arr_get (files v) fd with Ret f => negb (used f) | Fault _ => false end.

Definition least_free (v : vfs) : option Z := find_first (fd_free v) 16 0.

Lemma install_eq v k i flg :
  vfs_wf v ->
  install_fd v k i flg
  = Ret (match least_free v with
         | Some fd => (mk_vfs (stores v) (<[Z.to_nat fd := mk_file flg 0 (k, i) k true]> (files v)), fd)
         | None => (v, MCS_ENFILE)
         end).
Proof.
  intros [Hl _ _]. unfold MCS_MAX_OPEN_FILES in Hl. unfold install_fd, least_free.
  change (Z.to_nat MCS_MAX_OPEN_FILES) with 16%nat.
  rewrite (for_loop_search (fd_free v)
    (fun fd => mk_vfs (stores v) (<[Z.to_nat fd := mk_file flg 0 (k, i) k true]> (files v)))
    (fun fd => fd) _ v).
  - by destruct (find_first (fd_free v) 16 0).
  - intros j Hj. destruct (arr_get_ok (files v) j) as [f E]; [lia|].
    unfold fd_free. rewrite E. cbn. destruct (used f); cbn; [done|].
    by rewrite (put_file_eq _ _ _ _ E).
Qed.

Lemma install_wf v k i flg fs fd :
  vfs_wf v -> stores v !! k = Some fs -> 0 <= i < node_count fs ->
  vfs_wf (mk_vfs (stores v) (<[Z.to_nat fd := mk_file flg 0 (k, i) k true]> (files v))).
Proof.
  intros [Hl Hfs Hop] Hk Hi. split; cbn; [by rewrite zlen_insert|done|].
  apply list.Forall_insert; [done|]. intros _. cbn.
  destruct (wf_node fs i (Hfs _ _ Hk) Hi) as (nd & E & _ & _ & _ & _ & _ & Hs).
  exists fs, nd. split_and!; (done || lia).
Qed.

(** A file system with one more file keeps every descriptor valid. *)
Lemma wf_create v k fs fs' :
  vfs_wf v -> stores v !! k = Some fs -> ramfs_wf fs' -> node_count fs <= node_count fs' ->
  (forall i, 0 <= i < node_count fs -> arr_get (nodes fs') i = arr_get (nodes fs) i) ->
  vfs_wf (put_fs v k fs').
Proof.
  intros [Hl Hfs Hop] Hk Hwf' Hc Hold. split; cbn; [done| |].
  - intros k' x. destruct (decide (k' = k)) as [->|Hne]; [|rewrite lookup_insert_ne by done; apply Hfs].
    rewrite lookup_insert_eq. by intros [= <-].
  - eapply Forall_impl; [|exact Hop]. intros g Hg Hug.
    destruct (Hg Hug) as (x & nd & Hx & Hp & Hi & Hn & Ho).
    destruct (decide (ffs g = k)) as [Hgk|Hne].
    + rewrite Hgk, Hk in Hx. injection Hx as <-. unfold file_ok. rewrite Hgk in *. exists fs', nd. rewrite lookup_insert_eq, Hold by lia.
      split_and!; (done || lia).
    + exists x, nd. rewrite lookup_insert_ne by congruence. split_and!; (done || lia).
Qed.

(** Installing a descriptor for node [i]: what the caller of [open] sees. *)
Definition opened (v v' : vfs) (k : Z) (path : list Z) (flg fd : Z) : Prop :=
  least_free v = Some fd /\
  exists i, files v' = <[Z.to_nat fd := mk_file flg 0 (k, i) k true]> (files v) /\
    node_live v' (k, i) /\
    (exists fs', stores v' !! k = Some fs' /\ node_name fs' i = cstr path /\
       find_name fs' (cstr path) = Some i).

Lemma install_opened v0 v k fs path i flg :
  vfs_wf v -> files v = files v0 -> stores v !! k = Some fs -> 0 <= i < node_count fs ->
  node_name fs i = cstr path -> find_name fs (cstr path) = Some i ->
  exists v' r, install_fd v k i flg = Ret (v', r) /\ vfs_wf v' /\ stores v' = stores v /\
    ((least_free v0 = None /\ r = MCS_ENFILE /\ v' = v) \/ opened v0 v' k path flg r).
Proof.
  intros Hwf Hf Hk Hi Hn Hfind. rewrite install_eq by done.
  assert (least_free v = least_free v0) as El by (unfold least_free, fd_free; by rewrite Hf).
  rewrite El. destruct (least_free v0) as [fd|] eqn:E.
  - eexists _, fd. split; [done|]. split; [by eapply install_wf|]. split; [done|]. right.
    split; [done|]. exists i. cbn. rewrite Hf. split; [done|].
    split; [by exists fs|by exists fs].
  - exists v, MCS_ENFILE. split_and!; try done. by left.
Qed.

Lemma find_name_Some fs s i :
  find_name fs s = Some i -> 0 <= i < node_count fs /\ node_name fs i = s.
Proof. intros (? & ?%bool_decide_eq_true & _)%find_first_Some. split; [lia|done]. Qed.

Lemma vfs_open_cases v k fs path flg :
  vfs_wf v -> stores v !! k = Some fs -> path_ok path -> zlen (cstr path) < MCS_MAX_NAME ->
  exists v' r, mcs_vfs_open v k path flg = Ret (v', r) /\ vfs_wf v' /\
    (forall p, node_live v p -> node_live v' p /\ node_contents v' p = node_contents v p) /\
    let missing := find_name fs (cstr path) = None in
    ((r = MCS_ENOENT /\ v' = v /\ missing /\ Z.land flg MCS_O_CREAT = 0) \/
     (r = MCS_ENOSPC /\ files v' = files v /\ missing /\ Z.land flg MCS_O_CREAT <> 0 /\ node_count fs = 32) \/
     (r = MCS_ENFILE /\ files v' = files v /\ least_free v = None) \/
     (opened v v' k path flg r /\ (missing -> Z.land flg MCS_O_CREAT <> 0 /\ node_contents v' (k, node_count fs) = []))).
Proof.
  intros Hwf Hk Hp Hl. pose proof (vw_fs v Hwf k fs Hk) as Hfs. cbn zeta.
  unfold mcs_vfs_open, get_fs. rewrite Hk. cbn. rewrite lookup_eq by done. cbn.
  destruct (find_name fs (cstr path)) as [i|] eqn:Ef.
  { destruct (find_name_Some _ _ _ Ef) as [Hi Hn].
    destruct (install_opened v v k fs path i flg) as (v' & r & -> & Hwf' & Hst & Hcase); try done.
    exists v', r. split; [done|]. split; [done|].
    split; [intros p Hlive; unfold node_live, node_contents; by rewrite Hst|].
    destruct Hcase as [(? & ? & ->)|Hop]; [right; right; left; done|].
    do 3 right. split; [done|discriminate]. }
  destruct (Z.eqb_spec (Z.land flg MCS_O_CREAT) 0) as [Hc|Hc].
  { exists v, MCS_ENOENT. split_and!; try done. by left. }
  pose proof (create_eq fs path Hfs Hp Hl) as H. pose proof (rw_count fs Hfs) as Hcnt. case_decide as Hlt.
  - destruct H as (fs' & -> & Hfs' & Hc' & Hd & (nd & En & Hnm & Hs) & Hold). cbn.
    assert (node_name fs' (node_count fs) = cstr path) as Hn' by (unfold node_name; by rewrite En).
    assert (find_name fs' (cstr path) = Some (node_count fs)) as Hfn.
    { rewrite (find_name_append fs fs') by (done || lia || (intros; unfold node_name; by rewrite Hold by lia)).
      by rewrite Ef. }
    assert (stores (put_fs v k fs') !! k = Some fs') as Hk' by (cbn; apply lookup_insert_eq).
    destruct (install_opened v (put_fs v k fs') k fs' path (node_count fs) flg)
      as (v' & r & -> & Hwf' & Hst & Hcase); try (done || lia).
    { apply (wf_create v k fs); try (done || lia). intros i Hi. apply Hold. lia. }
    exists v', r. split; [done|]. split; [done|]. split.
    + intros [k1 i1] (fs1 & Hk1 & Hi1). cbn in *. unfold node_live, node_contents. rewrite Hst. cbn.
      destruct (decide (k1 = k)) as [->|Hne]; [|rewrite lookup_insert_ne by done; split; [by exists fs1|done]].
      rewrite Hk in Hk1. injection Hk1 as <-. rewrite lookup_insert_eq, Hk.
      split; [exists fs'; split; [done|lia]|]. unfold contents. by rewrite Hold, Hd by lia.
    + destruct Hcase as [(? & ? & ->)|Hop]; [right; right; left; done|].
      do 3 right. split; [done|]. intros _. split; [done|].
      unfold node_contents. rewrite Hst. cbn. rewrite lookup_insert_eq. unfold contents. by rewrite En, Hs.
  - rewrite H. cbn. exists (put_fs v k fs), MCS_ENOSPC.
    assert (put_fs v k fs = v) as ->.
    { destruct v as [st fl]. unfold put_fs. cbn in *. by rewrite insert_id. }
    split_and!; try done. right. left. split_and!; (done || lia).
Qed.

Lemma lseek_cases v fd f nd off whence :
  vfs_wf v -> arr_get (files v) fd = Ret f -> used f = true -> get_node v (fnode f) = Ret nd ->
  - 2 ^ 63 <= off < 2 ^ 63 ->
  let base := if whence =? MCS_SEEK_SET then Some 0
              else if whence =? MCS_SEEK_CUR then Some (offset f)
              else if whence =? MCS_SEEK_END then Some (vsize nd) else None in
  match base with
  | None => mcs_vfs_lseek v fd off whence = Ret (v, MCS_EINVAL)
  | Some b =>
      if decide (0 <= b + off <= vsize nd) then
        exists v', mcs_vfs_lseek v fd off whence = Ret (v', b + off) /\ vfs_wf v' /\
          stores v' = stores v /\ files v' = <[Z.to_nat fd := set_offset f (b + off)]> (files v)
      else mcs_vfs_lseek v fd off whence = Ret (v, MCS_EINVAL)
  end.
Proof.
  intros Hwf E Hu Hg Hoff. pose proof (fd_range v fd f Hwf E) as Hfd.
  destruct (open_file v fd f Hwf E Hu) as (fs & i & nd' & _ & _ & _ & _ & _ & Hg' & _ & Ho & Hs & _ & _ & Hcap & _).
  rewrite Hg in Hg'. injection Hg' as <-.
  assert (forall b, 0 <= b <= 256 ->
    (vsize nd <? u64 (b + u64 off)) = negb (bool_decide (0 <= b + off <= vsize nd)) /\
    (0 <= b + off <= vsize nd -> u64 (b + u64 off) = b + off)) as Hcmp.
  { intros b Hb. unfold u64. rewrite Zplus_mod_idemp_r. destruct (decide (0 <= b + off)) as [Hp|Hp].
    - rewrite Z.mod_small by lia. split; [|done]. case_bool_decide; cbn; [apply Z.ltb_ge|apply Z.ltb_lt]; lia.
    - rewrite bool_decide_false by lia. split; [|lia]. cbn. apply Z.ltb_lt.
      rewrite <- (Z_mod_plus_full _ 1), Z.mod_small by lia. lia. }
  cbn zeta. unfold mcs_vfs_lseek. rewrite (good_fd fd Hfd), E. cbn. rewrite Hu. cbn. rewrite Hg. cbn.
  assert (forall b, 0 <= b <= 256 ->
    if decide (0 <= b + off <= vsize nd) then
      exists v', (if vsize nd <? u64 (b + u64 off) then Ret (v, MCS_EINVAL)
                  else v' ← put_file v fd (set_offset f (u64 (b + u64 off)));
                       Ret (v', s64 (u64 (b + u64 off)))) = Ret (v', b + off) /\ vfs_wf v' /\
        stores v' = stores v /\ files v' = <[Z.to_nat fd := set_offset f (b + off)]> (files v)
    else (if vsize nd <? u64 (b + u64 off) then Ret (v, MCS_EINVAL)
          else v' ← put_file v fd (set_offset f (u64 (b + u64 off)));
               Ret (v', s64 (u64 (b + u64 off)))) = Ret (v, MCS_EINVAL)) as Hseek.
  { intros b Hb. destruct (Hcmp b Hb) as [-> Hv]. case_decide as Hin.
    - rewrite bool_decide_true by done. cbn. rewrite Hv by done. rewrite (put_file_eq _ _ _ _ E). cbn.
      rewrite s64_small by lia. eexists. split; [done|]. split_and!; try done.
      apply wf_set_offset; try done. intros x Hx. rewrite Hg in Hx. injection Hx as <-. lia.
    - by rewrite bool_decide_false. }
  destruct (whence =? MCS_SEEK_SET); cbn.
  { specialize (Hseek 0 ltac:(lia)). rewrite !Z.add_0_l in Hseek.
    assert (u64 (u64 off) = u64 off) as Hi by (unfold u64; by rewrite Zmod_mod).
    rewrite Hi in Hseek. exact Hseek. }
  destruct (whence =? MCS_SEEK_CUR); cbn; [apply Hseek; lia|].
  destruct (whence =? MCS_SEEK_END); cbn; [apply Hseek; lia|done].
Qed.

(** ** Theorems *)

(** Opening a path.  [open] never faults on a well-formed state and a name that fits; it keeps
    the invariant and the contents of every node; it fails with ENOENT exactly when the name
    does not exist and CREAT is not set, with ENOSPC when it would have to create a file and
    there is no room, with ENFILE when no descriptor is free; otherwise it returns the least
    free descriptor, at offset 0 of the first node with that name, which it creates if needed. *)
Theorem mcs_vfs_open_spec v k fs path flg :
  vfs_wf v -> stores v !! k = Some fs -> path_ok path -> zlen (cstr path) < MCS_MAX_NAME ->
  exists v' r, mcs_vfs_open v k path flg = Ret (v', r) /\ vfs_wf v' /\
    (forall p, node_live v p -> node_live v' p /\ node_contents v' p = node_contents v p) /\
    let missing := find_name fs (cstr path) = None in
    ((r = MCS_ENOENT /\ v' = v /\ missing /\ Z.land flg MCS_O_CREAT = 0) \/
     (r = MCS_ENOSPC /\ files v' = files v /\ missing /\ Z.land flg MCS_O_CREAT <> 0 /\ node_count fs = 32) \/
     (r = MCS_ENFILE /\ files v' = files v /\ least_free v = None) \/
     (opened v v' k path flg r /\ (missing -> Z.land flg MCS_O_CREAT <> 0 /\ node_contents v' (k, node_count fs) = []))).
Proof. apply vfs_open_cases. Qed.

(** Reading.  A read through an open descriptor returns the bytes of the node from the
    descriptor's offset on, as many as were asked for and are left, advances the offset by
    that number, changes no file, and keeps the invariant; closed or impossible descriptors
    report EBADF and change nothing. *)
Theorem mcs_vfs_read_spec v fd buffer size :
  vfs_wf v -> - 2 ^ 31 <= fd < 2 ^ 31 -> 0 <= size < 2 ^ 64 ->
  (~ (exists f, arr_get (files v) fd = Ret f /\ used f = true) ->
   mcs_vfs_read v fd buffer size = Ret (v, buffer, MCS_EBADF)) /\
  (forall f, arr_get (files v) fd = Ret f -> used f = true ->
   let c := node_contents v (fnode f) in
   let n := Z.min size (zlen c - offset f) in
   n <= zlen buffer ->
   exists v', mcs_vfs_read v fd buffer size = Ret (v', splice buffer 0 (slice c (offset f) n), n) /\
     0 <= n /\ stores v' = stores v /\
     files v' = <[Z.to_nat fd := set_offset f (offset f + n)]> (files v) /\ vfs_wf v').
Proof.
  intros Hwf Hr Hsz. split.
  - intros Hno. unfold mcs_vfs_read. destruct (bad_fd fd) eqn:Eb; [done|].
    assert (0 <= fd < zlen (files v)) as Hfd.
    { pose proof (bad_fd_iff fd Hr) as Hiff. rewrite (vw_files v Hwf). unfold MCS_MAX_OPEN_FILES in *.
      destruct (decide (0 <= fd < 16)); [done|]. rewrite (proj2 Hiff) in Eb by done. discriminate. }
    destruct (arr_get_ok (files v) fd Hfd) as [f E]. rewrite E. cbn.
    destruct (used f) eqn:Eu; [|done]. exfalso. apply Hno. by exists f.
  - intros f E Hu. cbn zeta. intros Hn.
    destruct (vfs_read_eq v fd f buffer size Hwf E Hu Hsz Hn) as (Er & H0 & _ & Hwf').
    eexists. split; [exact Er|]. by split_and!.
Qed.

(** C29: writing.  A write that fits the file's capacity replaces or extends the node's bytes at the
    descriptor's offset, advances the offset, keeps the invariant of all descriptors, also of
    those that share the node, and leaves the contents of every other node alone; one that
    does not fit reports ENOSPC and changes nothing. *)
Theorem mcs_vfs_write_spec v fd f nd buffer size :
  vfs_wf v -> arr_get (files v) fd = Ret f -> used f = true -> get_node v (fnode f) = Ret nd ->
  0 <= size <= zlen buffer -> offset f + size < 2 ^ 64 ->
  (offset f + size <= data_capacity nd ->
   exists v', mcs_vfs_write v fd buffer size = Ret (v', size) /\ vfs_wf v' /\
     files v' = <[Z.to_nat fd := set_offset f (offset f + size)]> (files v) /\
     node_contents v' (fnode f) = splice (node_contents v (fnode f)) (offset f) (slice buffer 0 size) /\
     (forall p, node_live v p -> p <> fnode f -> node_contents v' p = node_contents v p)) /\
  (data_capacity nd < offset f + size -> mcs_vfs_write v fd buffer size = Ret (v, MCS_ENOSPC)).
Proof.
  intros Hwf E Hu Hg Hsz Hw. split.
  - intros Hfit. apply vfs_write_ok; try done. intros nd' Hg'. rewrite Hg in Hg'. by injection Hg' as <-.
  - intros Hbig. destruct (vfs_write_eq v fd f buffer size Hwf E Hu Hsz Hw)
      as (fs & i & nd' & Hk & _ & Ef & _ & Hn & _ & ->).
    unfold get_node, get_fs in Hg. rewrite Ef in Hg. cbn in Hg. rewrite Hk in Hg. cbn in Hg.
    rewrite Hn in Hg. injection Hg as <-. by rewrite decide_False by lia.
Qed.

(** Seeking stays inside the file.  A seek through an open descriptor sets the offset to the
    position asked for and returns it when that position lies between 0 and the size, also
    when the sum wraps on the way, and otherwise reports EINVAL and changes nothing. *)
Theorem mcs_vfs_lseek_spec v fd f nd off whence :
  vfs_wf v -> arr_get (files v) fd = Ret f -> used f = true -> get_node v (fnode f) = Ret nd ->
  - 2 ^ 63 <= off < 2 ^ 63 ->
  let base := if whence =? MCS_SEEK_SET then Some 0
              else if whence =? MCS_SEEK_CUR then Some (offset f)
              else if whence =? MCS_SEEK_END then Some (vsize nd) else None in
  match base with
  | None => mcs_vfs_lseek v fd off whence = Ret (v, MCS_EINVAL)
  | Some b =>
      if decide (0 <= b + off <= vsize nd) then
        exists v', mcs_vfs_lseek v fd off whence = Ret (v', b + off) /\ vfs_wf v' /\
          stores v' = stores v /\ files v' = <[Z.to_nat fd := set_offset f (b + off)]> (files v)
      else mcs_vfs_lseek v fd off whence = Ret (v, MCS_EINVAL)
  end.
Proof. apply lseek_cases. Qed.

(** What is written is what is read, through any descriptor of the same file.  After a write
    of [size] bytes that fits, a second descriptor on the same node, or the same one, moved to
    where the write began, reads back exactly those bytes. *)
Theorem mcs_vfs_write_seek_read v fd1 f1 fd2 f2 nd data buffer size :
  vfs_wf v -> arr_get (files v) fd1 = Ret f1 -> used f1 = true ->
  arr_get (files v) fd2 = Ret f2 -> used f2 = true -> fnode f2 = fnode f1 ->
  get_node v (fnode f1) = Ret nd -> offset f1 + size <= data_capacity nd ->
  0 <= size <= zlen data -> size <= zlen buffer ->
  exists v1 v2 v3, mcs_vfs_write v fd1 data size = Ret (v1, size) /\
    mcs_vfs_lseek v1 fd2 (offset f1) MCS_SEEK_SET = Ret (v2, offset f1) /\
    mcs_vfs_read v2 fd2 buffer size = Ret (v3, splice buffer 0 (slice data 0 size), size).
Proof.
  intros Hwf E1 U1 E2 U2 Hnode Hg Hfit Hsz Hbuf.
  destruct (vfs_write_ok v fd1 f1 data size Hwf E1 U1 Hsz) as (v1 & Ew & Hwf1 & Hf1 & Hc1 & _).
  { intros nd' Hg'. rewrite Hg in Hg'. by injection Hg' as <-. }
  destruct (open_file v fd1 f1 Hwf E1 U1) as (fs & i & nd' & _ & Hfs & _ & _ & _ & Hg' & _ & Ho & Hs & Hd & Hdc & Hcap & Hc).
  rewrite Hg in Hg'. injection Hg' as <-.
  assert (offset f1 <= zlen (node_contents v (fnode f1))) as Hol.
  { rewrite Hc, zlen_slice by (rewrite ?(rw_data fs Hfs); unfold MCS_RAMFS_DATA_BYTES in *; lia). lia. }
  assert (zlen (slice data 0 size) = size) as Hzd by (apply zlen_slice; lia).
  assert (exists f2', arr_get (files v1) fd2 = Ret f2' /\ used f2' = true /\ fnode f2' = fnode f1) as (f2' & E2' & U2' & N2').
  { rewrite Hf1. pose proof (arr_get_in_range _ _ _ E1). rewrite arr_get_insert by done.
    destruct (Z.eqb_spec fd1 fd2) as [->|]; [by eexists|by exists f2]. }
  assert (zlen (node_contents v1 (fnode f2')) = Z.max (zlen (node_contents v (fnode f1))) (offset f1 + size)) as Hzc.
  { rewrite N2', Hc1, zlen_splice_ext by lia. lia. }
  destruct (vfs_seek_set v1 fd2 f2' (offset f1) Hwf1 E2' U2') as [Es Hwf2]; [lia|].
  set (v2 := mk_vfs (stores v1) (<[Z.to_nat fd2 := set_offset f2' (offset f1)]> (files v1))) in *.
  assert (arr_get (files v2) fd2 = Ret (set_offset f2' (offset f1))) as E3
    by (cbn; apply arr_get_insert_eq; by apply arr_get_in_range in E2').
  assert (node_contents v2 (fnode (set_offset f2' (offset f1))) = node_contents v1 (fnode f2')) as Hc2 by done.
  destruct (vfs_read_eq v2 fd2 _ buffer size Hwf2 E3 U2') as (Er & _); [lia|rewrite Hc2; cbn; lia|].
  rewrite Hc2 in Er. cbn [offset set_offset] in Er. rewrite Z.min_l in Er by lia.
  eexists v1, v2, _. split; [done|]. split; [done|]. rewrite Er. rewrite N2', Hc1.
  pose proof (slice_splice_same_ext (node_contents v (fnode f1)) (offset f1) (slice data 0 size)) as Hss.
  rewrite Hzd in Hss. rewrite Hss by lia. done.
Qed.

(** ** Witnesses: a fresh file system and two descriptors on one new file *)

Definition closed_file : mcs_file_t := mk_file 0 0 (0, 0) 0 false.

Definition demo_vfs (fs : mcs_ramfs_t) : vfs := mk_vfs {[ 1 := fs ]} (replicate 16 closed_file).

Lemma demo_vfs_wf fs : ramfs_wf fs -> vfs_wf (demo_vfs fs).
Proof.
  intros Hfs. split; cbn [demo_vfs stores files]; [done| |].
  - intros k fs' H. apply lookup_singleton_Some in H as [_ <-]. done.
  - apply Forall_replicate. intros H. discriminate.
Qed.

(** A file system with one empty file, node 1. *)
Lemma one_file : exists fs nd, ramfs_wf fs /\ node_count fs = 2 /\ arr_get (nodes fs) 1 = Ret nd /\
  vsize nd = 0 /\ data_capacity nd = 256.
Proof.
  destruct fresh_ramfs as (fs & _ & Hwf & Hc & _).
  pose proof (create_eq fs path_a Hwf ltac:(by_compute) ltac:(by_compute)) as H.
  rewrite decide_True in H by lia.
  destruct H as (fs' & _ & Hwf' & Hc' & _ & (nd & En & _ & Hs) & _). rewrite Hc in *.
  exists fs', nd. split_and!; try (done || lia).
  destruct (rw_files fs' Hwf' 1 nd ltac:(lia) En) as [[] _]. done.
Qed.

(** Descriptor 0 opened for writing and descriptor 1 read-only, both on that file. *)
Definition demo_open (fs : mcs_ramfs_t) : vfs :=
  mk_vfs {[ 1 := fs ]}
    (<[Z.to_nat 1 := mk_file MCS_O_RDONLY 0 (1, 1) 1 true]>
       (<[Z.to_nat 0 := mk_file MCS_O_CREAT 0 (1, 1) 1 true]> (replicate 16 closed_file))).

Lemma demo_open_wf fs : ramfs_wf fs -> node_count fs = 2 -> vfs_wf (demo_open fs).
Proof.
  intros Hfs Hc.
  pose proof (install_wf (demo_vfs fs) 1 1 MCS_O_CREAT fs 0 (demo_vfs_wf fs Hfs)
                (lookup_singleton_eq _ _) ltac:(lia)) as H1.
  exact (install_wf _ 1 1 MCS_O_RDONLY fs 1 H1 (lookup_singleton_eq _ _) ltac:(lia)).
Qed.

Lemma mcs_vfs_open_witness :
  exists fs v' r, mcs_ramfs_init blank_ramfs = Ret fs /\
    mcs_vfs_open (demo_vfs fs) 1 path_a 0 = Ret (v', r) /\ r = MCS_ENOENT.
Proof.
  destruct fresh_ramfs as (fs & E & Hwf & Hc & Hn).
  destruct (mcs_vfs_open_spec (demo_vfs fs) 1 fs path_a 0 (demo_vfs_wf fs Hwf) eq_refl)
    as (v' & r & Eo & _ & _ & H); [by_compute|by_compute|].
  assert (find_name fs (cstr path_a) = None) as Hnone.
  { apply find_first_None. intros k Hk. assert (k = 0) as -> by lia. by rewrite Hn. }
  exists fs, v', r. split; [exact E|]. split; [exact Eo|].
  destruct H as [(-> & _)|[(_ & _ & _ & Hx & _)|[(_ & _ & Hx)|[_ Hx]]]];
    [reflexivity|contradiction Hx; reflexivity|discriminate|].
  destruct (Hx Hnone) as [Hy _]. contradiction Hy. reflexivity.
Defined.

Lemma mcs_vfs_read_witness :
  exists fs v', mcs_vfs_read (demo_open fs) 0 [9] 1 = Ret (v', [9], 0) /\
    mcs_vfs_read (demo_open fs) 5 [9] 1 = Ret (demo_open fs, [9], MCS_EBADF).
Proof.
  destruct one_file as (fs & nd & Hwf & Hc & En & Hs & _).
  pose proof (demo_open_wf fs Hwf Hc) as Hv.
  destruct (mcs_vfs_read_spec (demo_open fs) 0 [9] 1 Hv) as [_ H0]; [lia|lia|].
  destruct (mcs_vfs_read_spec (demo_open fs) 5 [9] 1 Hv) as [H5 _]; [lia|lia|].
  specialize (H0 _ eq_refl eq_refl). cbn zeta in H0.
  assert (node_contents (demo_open fs) (1, 1) = []) as Hcont
    by (unfold node_contents, contents; cbn [demo_open stores fst snd]; rewrite lookup_singleton_eq, En, Hs; reflexivity).
  cbn [fnode offset] in H0. rewrite Hcont in H0.
  destruct H0 as (v' & E & _); [by_compute|].
  exists fs, v'. split; [exact E|]. apply H5. intros (f & Ef & Hu). injection Ef as <-. discriminate.
Defined.

Lemma mcs_vfs_write_witness :
  exists fs v', mcs_vfs_write (demo_open fs) 1 [4; 5] 2 = Ret (v', 2) /\ node_contents v' (1, 1) = [4; 5].
Proof.
  destruct one_file as (fs & nd & Hwf & Hc & En & Hs & Hcap).
  destruct (mcs_vfs_write_spec (demo_open fs) 1 (mk_file MCS_O_RDONLY 0 (1, 1) 1 true) nd [4; 5] 2)
    as [H _]; [by apply demo_open_wf|reflexivity|reflexivity|exact En|by_compute|by_compute|].
  destruct H as (v' & E & _ & _ & Hcont & _); [rewrite Hcap; cbn; lia|].
  exists fs, v'. split; [exact E|]. cbn [fnode offset] in Hcont. rewrite Hcont.
  unfold node_contents, contents. cbn [demo_open stores fst snd].
  rewrite lookup_singleton_eq, En, Hs. reflexivity.
Defined.

Lemma mcs_vfs_lseek_witness :
  exists fs, mcs_vfs_lseek (demo_open fs) 0 (-1) MCS_SEEK_CUR = Ret (demo_open fs, MCS_EINVAL).
Proof.
  destruct one_file as (fs & nd & Hwf & Hc & En & Hs & _). exists fs.
  pose proof (mcs_vfs_lseek_spec (demo_open fs) 0 (mk_file MCS_O_CREAT 0 (1, 1) 1 true) nd (-1) MCS_SEEK_CUR
                (demo_open_wf fs Hwf Hc) eq_refl eq_refl En ltac:(lia)) as H.
  cbn [Z.eqb MCS_SEEK_CUR MCS_SEEK_SET Pos.eqb offset] in H.
  rewrite decide_False in H by lia. exact H.
Defined.

Lemma mcs_vfs_write_seek_read_witness :
  exists fs v1 v2 v3, mcs_vfs_write (demo_open fs) 0 [4; 5; 6] 3 = Ret (v1, 3) /\
    mcs_vfs_lseek v1 1 0 MCS_SEEK_SET = Ret (v2, 0) /\
    mcs_vfs_read v2 1 [0; 0; 0; 0] 3 = Ret (v3, [4; 5; 6; 0], 3).
Proof.
  destruct one_file as (fs & nd & Hwf & Hc & En & Hs & Hcap). exists fs.
  apply (mcs_vfs_write_seek_read (demo_open fs) 0 (mk_file MCS_O_CREAT 0 (1, 1) 1 true)
           1 (mk_file MCS_O_RDONLY 0 (1, 1) 1 true) nd [4; 5; 6] [0; 0; 0; 0] 3);
    [by apply demo_open_wf|reflexivity|reflexivity|reflexivity|reflexivity|reflexivity|exact En|
     rewrite Hcap; cbn; lia|by_compute|by_compute].
Defined.
