(* ===== verification/VfsSpec.v ===== *)
(** * Sessions of file operations (kernel/fs/m13_vfs.c over m13_ramfs.c)

    An abstract file system, a list of named contents and a table of open files, and the proof
    that every sequence of calls on one RAM file system behaves as on the abstract one: the same
    results, the same bytes in the callers' buffers, and related states. *)

From S2P Require Import Prelude Bytes Session Ramfs Vfs.

(** ** The abstract file system *)

(** Names with contents in order of creation, the root first, and for every descriptor the file
    and the offset it stands at. *)
Record afs : Type := mk_afs {
  a_files : list (list Z * list Z);
  a_fds : list (option (Z * Z))
}.

Inductive vop : Type :=
  | Open (path : list Z) (flg : Z)
  | Read (fd : Z) (buffer : list Z) (size : Z)
  | Write (fd : Z) (buffer : list Z) (size : Z)
  | Seek (fd off whence : Z)
  | Close (fd : Z).

(** What a call returns, and the caller's buffer after it. *)
Abbreviation answer := (Z * list Z)%type.

Definition a_find (nm : list Z) (fl : list (list Z * list Z)) : option Z :=
  find_first (fun i => bool_decide (fst <$> fl !! Z.to_nat i = Some nm)) (length fl) 0.

Definition a_free (fds : list (option (Z * Z))) : option Z :=
  find_first (fun i => bool_decide (fds !! Z.to_nat i = Some None)) 16 0.

Definition a_fd (a : afs) (fd : Z) : option (Z * Z) :=
  if (0 <=? fd) && (fd <? 16) then mjoin (a_fds a !! Z.to_nat fd) else None.

Definition a_contents (a : afs) (i : Z) : list Z := default [] (snd <$> a_files a !! Z.to_nat i).

Definition set_fd (a : afs) (fd : Z) (x : option (Z * Z)) : afs :=
  mk_afs (a_files a) (<[Z.to_nat fd := x]> (a_fds a)).

Definition set_contents (a : afs) (i : Z) (c : list Z) : afs :=
  mk_afs (alter (fun f => (fst f, c)) (Z.to_nat i) (a_files a)) (a_fds a).

(** The root cannot hold data, a file up to 256 bytes. *)
Definition capacity (i : Z) : Z := if i =? 0 then 0 else 256.

Definition a_install (a : afs) (i : Z) : afs * Z :=
  match a_free (a_fds a) with
  | Some fd => (set_fd a fd (Some (i, 0)), fd)
  | None => (a, MCS_ENFILE)
  end.

Definition a_open (a : afs) (nm : list Z) (flg : Z) : afs * Z :=
  match a_find nm (a_files a) with
  | Some i => a_install a i
  | None =>
      if Z.land flg MCS_O_CREAT =? 0 then (a, MCS_ENOENT)
      else if 32 <=? zlen (a_files a) then (a, MCS_ENOSPC)
      else a_install (mk_afs (a_files a ++ [(nm, [])]) (a_fds a)) (zlen (a_files a))
  end.

Definition a_seek_base (a : afs) (i o whence : Z) : option Z :=
  if whence =? MCS_SEEK_SET then Some 0
  else if whence =? MCS_SEEK_CUR then Some o
  else if whence =? MCS_SEEK_END then Some (zlen (a_contents a i)) else None.

Definition astep (a : afs) (op : vop) : afs * answer :=
  match op with
  | Open path flg => let '(a', r) := a_open a (cstr path) flg in (a', (r, []))
  | Read fd buffer size =>
      match a_fd a fd with
      | None => (a, (MCS_EBADF, buffer))
      | Some (i, o) =>
          let c := a_contents a i in
          let n := Z.min size (zlen c - o) in
          (set_fd a fd (Some (i, o + n)), (n, splice buffer 0 (slice c o n)))
      end
  | Write fd buffer size =>
      match a_fd a fd with
      | None => (a, (MCS_EBADF, []))
      | Some (i, o) =>
          if decide (o + size <= capacity i) then
            (set_fd (set_contents a i (splice (a_contents a i) o (slice buffer 0 size))) fd (Some (i, o + size)), (size, []))
          else (a, (MCS_ENOSPC, []))
      end
  | Seek fd off whence =>
      match a_fd a fd with
      | None => (a, (MCS_EBADF, []))
      | Some (i, o) =>
          match a_seek_base a i o whence with
          | Some b =>
              if decide (0 <= b + off <= zlen (a_contents a i)) then
                (set_fd a fd (Some (i, b + off)), (b + off, []))
              else (a, (MCS_EINVAL, []))
          | None => (a, (MCS_EINVAL, []))
          end
      end
  | Close fd => if (0 <=? fd) && (fd <? 16) then (set_fd a fd None, (MCS_OK, [])) else (a, (MCS_EBADF, []))
  end.

(** ** The same calls on the code *)

Definition vstep (k : Z) (v : vfs) (op : vop) : exec (vfs * answer) :=
  match op with
  | Open path flg => '(v', r) ← mcs_vfs_open v k path flg; Ret (v', (r, []))
  | Read fd buffer size => '(v', b, r) ← mcs_vfs_read v fd buffer size; Ret (v', (r, b))
  | Write fd buffer size => '(v', r) ← mcs_vfs_write v fd buffer size; Ret (v', (r, []))
  | Seek fd off whence => '(v', r) ← mcs_vfs_lseek v fd off whence; Ret (v', (r, []))
  | Close fd => '(v', r) ← mcs_vfs_close v fd; Ret (v', (r, []))
  end.

(** Calls a C program can make without undefined behaviour: arguments of their types, buffers as
    large as the sizes say, and names that fit a node. *)
Definition op_ok (op : vop) : Prop :=
  match op with
  | Open path flg => path_ok path /\ zlen (cstr path) < MCS_MAX_NAME
  | Read fd buffer size => - 2 ^ 31 <= fd < 2 ^ 31 /\ 0 <= size <= zlen buffer /\ size < 2 ^ 64
  | Write fd buffer size => - 2 ^ 31 <= fd < 2 ^ 31 /\ 0 <= size <= zlen buffer /\ size < 2 ^ 63
  | Seek fd off whence => - 2 ^ 31 <= fd < 2 ^ 31 /\ - 2 ^ 63 <= off < 2 ^ 63
  | Close fd => - 2 ^ 31 <= fd < 2 ^ 31
  end.

#[global] Instance op_ok_dec op : Decision (op_ok op).
Proof. destruct op; cbn; apply _. Defined.

(** ** The relation *)

Definition abs_files (fs : mcs_ramfs_t) : list (list Z * list Z) :=
  map (fun i => (node_name fs i, contents fs i)) (seqZ 0 (node_count fs)).

Definition abs_fd (f : mcs_file_t) : option (Z * Z) :=
  if used f then Some (snd (fnode f), offset f) else None.

Record sim (k : Z) (v : vfs) (a : afs) : Prop := {
  sm_wf : vfs_wf v;
  sm_fs : exists fs, stores v !! k = Some fs /\ a_files a = abs_files fs;
  sm_own : Forall (fun f => used f = true -> ffs f = k) (files v);
  sm_fds : a_fds a = map abs_fd (files v)
}.

(** ** Files *)

Lemma abs_files_length fs : 0 <= node_count fs -> zlen (abs_files fs) = node_count fs.
Proof. intros H. unfold abs_files, zlen. rewrite length_map, length_seqZ. lia. Qed.

Lemma abs_files_lookup fs i :
  0 <= i < node_count fs -> abs_files fs !! Z.to_nat i = Some (node_name fs i, contents fs i).
Proof.
  intros Hi. unfold abs_files. rewrite list_lookup_fmap. rewrite lookup_seqZ_lt by lia. cbn. by rewrite Z2Nat.id by lia.
Qed.

Lemma a_find_name fs nm : 0 <= node_count fs -> a_find nm (abs_files fs) = find_name fs nm.
Proof.
  intros H. unfold a_find, find_name. pose proof (abs_files_length fs H) as Hl. unfold zlen in Hl.
  replace (length (abs_files fs)) with (Z.to_nat (node_count fs)) by lia. apply find_first_ext. intros i Hi.
  rewrite abs_files_lookup by lia. cbn. apply bool_decide_ext. naive_solver.
Qed.

(** The list of files is determined by its entries. *)
Lemma abs_files_eq fs l :
  0 <= node_count fs -> zlen l = node_count fs ->
  (forall i, 0 <= i < node_count fs -> l !! Z.to_nat i = Some (node_name fs i, contents fs i)) -> l = abs_files fs.
Proof.
  intros H Hl Hi. pose proof (abs_files_length fs H) as Hl'. unfold zlen in *.
  apply list_eq. intros j. destruct (decide (Z.of_nat j < node_count fs)) as [Hj|Hj].
  - specialize (Hi (Z.of_nat j) ltac:(lia)). rewrite Nat2Z.id in Hi. rewrite Hi.
    pose proof (abs_files_lookup fs (Z.of_nat j) ltac:(lia)) as E. by rewrite Nat2Z.id in E.
  - rewrite !lookup_ge_None_2 by lia. done.
Qed.

(** ** Descriptors *)

Section sim.
Context (k : Z) (v : vfs) (a : afs).
Hypothesis Hsim : sim k v a.

Lemma sim_count : exists fs, stores v !! k = Some fs /\ ramfs_wf fs /\ a_files a = abs_files fs /\ 1 <= node_count fs <= 32.
Proof.
  destruct Hsim as [Hwf (fs & Hk & Ha) _ _]. pose proof (vw_fs v Hwf k fs Hk) as Hfs. exists fs.
  split_and!; try done; apply (rw_count fs Hfs).
Qed.

Lemma sim_fd_lookup fd f : arr_get (files v) fd = Ret f -> a_fds a !! Z.to_nat fd = Some (abs_fd f).
Proof. intros [_ E]%arr_get_Ret. rewrite (sm_fds k v a Hsim), list_lookup_fmap, E. done. Qed.

Lemma sim_in_range fd : - 2 ^ 31 <= fd < 2 ^ 31 ->
  (bad_fd fd = true /\ (0 <=? fd) && (fd <? 16) = false) \/
  (bad_fd fd = false /\ (0 <=? fd) && (fd <? 16) = true /\ exists f, arr_get (files v) fd = Ret f).
Proof.
  intros Hr. pose proof (bad_fd_iff fd Hr) as Hb. unfold MCS_MAX_OPEN_FILES in Hb.
  pose proof (vw_files v (sm_wf k v a Hsim)) as Hl. unfold MCS_MAX_OPEN_FILES in Hl.
  destruct (decide (0 <= fd < 16)) as [Hi|Hi].
  - right. split; [destruct (bad_fd fd); [naive_solver|done]|].
    split; [apply andb_true_iff; split; [apply Z.leb_le|apply Z.ltb_lt]; lia|]. apply arr_get_ok. lia.
  - left. split; [by apply Hb|]. apply andb_false_iff.
    destruct (Z.leb_spec 0 fd); [right; apply Z.ltb_ge; lia|by left].
Qed.

(** A call on a descriptor finds it closed, or open on a file. *)
Lemma sim_fd_cases fd : - 2 ^ 31 <= fd < 2 ^ 31 ->
  (a_fd a fd = None /\ (bad_fd fd = true \/ bad_fd fd = false /\ exists f, arr_get (files v) fd = Ret f /\ used f = false)) \/
  (exists f fs i nd, a_fd a fd = Some (i, offset f) /\ bad_fd fd = false /\ arr_get (files v) fd = Ret f /\ used f = true /\
     0 <= fd < 16 /\ ffs f = k /\ fnode f = (k, i) /\ stores v !! k = Some fs /\ ramfs_wf fs /\ 0 <= i < node_count fs /\
     arr_get (nodes fs) i = Ret nd /\ a_files a = abs_files fs /\ node_contents v (fnode f) = a_contents a i /\
     a_contents a i = contents fs i /\ zlen (a_contents a i) = vsize nd /\ data_capacity nd = capacity i /\
     0 <= offset f <= vsize nd /\ get_node v (fnode f) = Ret nd).
Proof.
  intros Hr. unfold a_fd. destruct (sim_in_range fd Hr) as [[Hb ->]|(Hb & -> & f & E)]; [left; auto|].
  rewrite (sim_fd_lookup fd f E). cbn. unfold abs_fd. destruct (used f) eqn:Eu; [|left; eauto 6].
  right. pose proof (sm_wf k v a Hsim) as Hwf.
  destruct (open_file v fd f Hwf E Eu) as (fs & i & nd & Hk & Hfs & Ef & Hi & Hn & Hg & _ & Ho & Hs & _ & Hd & _ & Hc).
  pose proof (Forall_arr_get _ _ _ _ (sm_own k v a Hsim) E Eu) as Hown. rewrite Hown in *.
  destruct sim_count as (fs' & Hk' & _ & Ha & _). rewrite Hk in Hk'. injection Hk' as <-.
  destruct (wf_node fs i Hfs Hi) as (nd' & En' & _ & _ & _ & Hoff & Hcap & _). rewrite Hn in En'. injection En' as <-.
  pose proof (rw_data fs Hfs) as Hz.
  assert (a_contents a i = contents fs i) as Hac by (unfold a_contents; by rewrite Ha, abs_files_lookup).
  assert (contents fs i = slice (rdata fs) (data_offset nd) (vsize nd)) as Hcs by (unfold contents; by rewrite Hn).
  exists f, fs, i, nd. rewrite Hac, Hcs. pose proof (fd_range v fd f Hwf E) as Hfd. unfold MCS_MAX_OPEN_FILES in Hfd.
  rewrite zlen_slice by (unfold MCS_RAMFS_DATA_BYTES in *; destruct (Z.eqb_spec i 0); lia).
  rewrite Ef in Hc. split_and!; try done; rewrite ?Ef; try done; lia.
Qed.

(** A change of one descriptor. *)
Lemma sim_put_fd fd g :
  0 <= fd < 16 -> vfs_wf (mk_vfs (stores v) (<[Z.to_nat fd := g]> (files v))) -> (used g = true -> ffs g = k) ->
  sim k (mk_vfs (stores v) (<[Z.to_nat fd := g]> (files v))) (set_fd a fd (abs_fd g)).
Proof.
  intros Hfd Hwf Hg. destruct Hsim as [_ Hfs Hown Hfds]. split; cbn; [done|done|by apply list.Forall_insert|].
  rewrite Hfds. by rewrite list_fmap_insert.
Qed.
End sim.

(** ** One call *)

(** The call answers as the abstract one and leads to related states. *)
Definition step_sim (k : Z) (v : vfs) (a : afs) (op : vop) : Prop :=
  exists v', vstep k v op = Ret (v', (astep a op).2) /\ sim k v' (astep a op).1.

Lemma read_sim k v a fd buffer size :
  sim k v a -> op_ok (Read fd buffer size) -> step_sim k v a (Read fd buffer size).
Proof.
  intros Hs (Hr & Hsz & Hlt). unfold step_sim. cbn [vstep astep].
  destruct (sim_fd_cases k v a Hs fd Hr) as [(-> & Hc)|(f & fs & i & nd & -> & Hb & E & Hu & Hfd & Hown & Ef & Hk & Hfs & Hi & Hn & Ha & Hnc & Hac & Hzc & Hcap & Ho & Hg)].
  - unfold mcs_vfs_read. exists v. destruct Hc as [->|(-> & f & -> & Hu)]; cbn; [done|]. by rewrite Hu.
  - destruct (vfs_read_eq v fd f buffer size (sm_wf k v a Hs) E Hu ltac:(lia)) as (Er & _ & _ & Hwf').
    { rewrite Hnc. lia. }
    rewrite Hnc in *. rewrite Er. cbn. eexists. split; [done|].
    pose proof (sim_put_fd k v a Hs fd _ Hfd Hwf' (fun _ => Hown)) as H.
    unfold abs_fd in H. cbn in H. by rewrite Hu, Ef in H.
Qed.

Lemma seek_sim k v a fd off whence :
  sim k v a -> op_ok (Seek fd off whence) -> step_sim k v a (Seek fd off whence).
Proof.
  intros Hs (Hr & Hoff). unfold step_sim. cbn [vstep astep].
  destruct (sim_fd_cases k v a Hs fd Hr) as [(-> & Hc)|(f & fs & i & nd & -> & Hb & E & Hu & Hfd & Hown & Ef & Hk & Hfs & Hi & Hn & Ha & Hnc & Hac & Hzc & Hcap & Ho & Hg)].
  - unfold mcs_vfs_lseek. exists v. destruct Hc as [->|(-> & f & -> & Hu)]; cbn; [done|]. by rewrite Hu.
  - pose proof (lseek_cases v fd f nd off whence (sm_wf k v a Hs) E Hu Hg Hoff) as H. cbn zeta in H.
    unfold a_seek_base. rewrite Hzc.
    destruct (if whence =? MCS_SEEK_SET then Some 0 else _) as [b|]; [|rewrite H; by exists v].
    case_decide; [|rewrite H; by exists v]. destruct H as (v' & -> & Hwf' & Hst & Hf). cbn. eexists. split; [done|].
    destruct v' as [st fl]. cbn in *. subst st fl.
    pose proof (sim_put_fd k v a Hs fd _ Hfd Hwf' (fun _ => Hown)) as Hp. unfold abs_fd in Hp. cbn in Hp. by rewrite Hu, Ef in Hp.
Qed.

Lemma close_sim k v a fd : sim k v a -> op_ok (Close fd) -> step_sim k v a (Close fd).
Proof.
  intros Hs Hr. unfold step_sim. cbn [vstep astep]. unfold mcs_vfs_close.
  destruct (sim_in_range k v a Hs fd Hr) as [[-> ->]|(-> & Hin & f & E)]; [by exists v|]. rewrite Hin, E. cbn.
  apply andb_true_iff in Hin as [?%Z.leb_le ?%Z.ltb_lt].
  rewrite (put_file_eq v fd f (set_used f false)) by done. cbn. eexists. split; [done|].
  apply (sim_put_fd k v a Hs fd (set_used f false)); [lia| |done].
  destruct (sm_wf k v a Hs) as [Hl Hfs Hop]. split; cbn; [by rewrite zlen_insert|done|]. apply list.Forall_insert; [done|]. discriminate.
Qed.

Lemma write_sim k v a fd buffer size :
  sim k v a -> op_ok (Write fd buffer size) -> step_sim k v a (Write fd buffer size).
Proof.
  intros Hs (Hr & Hsz & Hlt). unfold step_sim. cbn [vstep astep].
  destruct (sim_fd_cases k v a Hs fd Hr) as [(-> & Hc)|(f & fs & i & nd & -> & Hb & E & Hu & Hfd & Hown & Ef & Hk & Hfs & Hi & Hn & Ha & Hnc & Hac & Hzc & Hcap & Ho & Hg)].
  { unfold mcs_vfs_write. exists v. destruct Hc as [->|(-> & f & -> & Hu)]; cbn; [done|]. by rewrite Hu. }
  destruct (wf_node fs i Hfs Hi) as (nd0 & En0 & _ & _ & _ & _ & Hcap0 & Hvs). rewrite Hn in En0. injection En0 as <-.
  assert (vsize nd <= 256) by (destruct (Z.eqb_spec i 0); lia).
  destruct (vfs_write_eq v fd f buffer size (sm_wf k v a Hs) E Hu ltac:(lia) ltac:(lia))
    as (fs' & i' & nd' & Hk' & _ & Ef' & _ & Hn' & _ & Ew).
  rewrite Hown, Hk in Hk'. injection Hk' as <-. rewrite Hown, Ef in Ef'. injection Ef' as <-. rewrite Hn in Hn'. injection Hn' as <-.
  rewrite Ew, Hcap. destruct (decide (offset f + size <= capacity i)) as [Hfit|Hfit]; cbn; [|by exists v]. eexists. split; [done|].
  assert (zlen (slice buffer 0 size) = size) as Hz by (apply zlen_slice; lia).
  pose proof (rw_nodes fs Hfs) as Hzn. pose proof (rw_count fs Hfs) as Hcnt. unfold MCS_MAX_NODES in *.
  pose proof (wf_write v fd f fs i nd (slice buffer 0 size) (sm_wf k v a Hs) E Hu) as Hwf.
  rewrite Hown, Hz in Hwf. rewrite Hown. destruct Hs as [_ _ Hall Hfds].
  split; cbn [stores files a_files a_fds set_fd set_contents].
  - apply Hwf; (done || lia).
  - eexists. split; [apply lookup_insert_eq|]. rewrite Hac, Ha. apply abs_files_eq; cbn [put_area node_count]; [lia| |].
    + unfold zlen. rewrite length_alter. apply abs_files_length. lia.
    + intros j Hj. fold (put_area fs i nd (offset f) (slice buffer 0 size) (Z.max (vsize nd) (offset f + size))).
      rewrite put_area_name by (done || lia). destruct (decide (j = i)) as [->|Hne].
      * rewrite list_lookup_alter_eq, abs_files_lookup by done. cbn. do 2 f_equal.
        pose proof (put_area_self fs i nd (offset f) (slice buffer 0 size) Hfs Hi Hn Ho ltac:(lia)) as Hself.
        by rewrite Hz in Hself.
      * rewrite list_lookup_alter_ne by lia. rewrite abs_files_lookup by done.
        rewrite put_area_other by (done || lia). done.
  - apply list.Forall_insert; [done|]. by cbn.
  - rewrite Hfds, list_fmap_insert. f_equal. unfold abs_fd. cbn. by rewrite Hu, Ef.
Qed.

Lemma least_free_sim k v a : sim k v a -> a_free (a_fds a) = least_free v.
Proof.
  intros Hs. unfold a_free, least_free. apply find_first_ext. intros i Hi.
  pose proof (vw_files v (sm_wf k v a Hs)) as Hl. unfold MCS_MAX_OPEN_FILES in Hl.
  destruct (arr_get_ok (files v) i) as [f E]; [lia|]. rewrite (sim_fd_lookup k v a Hs i f E). unfold fd_free. rewrite E.
  unfold abs_fd. destruct (used f); cbn; [by apply bool_decide_eq_false|by apply bool_decide_eq_true].
Qed.

(** The end of an open: node [i] gets the least free descriptor. *)
Lemma install_sim k v a fs i flg :
  sim k v a -> stores v !! k = Some fs -> 0 <= i < node_count fs ->
  exists v', install_fd v k i flg = Ret (v', (a_install a i).2) /\ sim k v' (a_install a i).1.
Proof.
  intros Hs Hk Hi. rewrite install_eq by apply Hs. unfold a_install. rewrite (least_free_sim k v a Hs).
  destruct (least_free v) as [fd|] eqn:E; [|by exists v]. eexists. split; [done|]. cbn.
  apply find_first_Some in E as (Hfd & _ & _).
  apply (sim_put_fd k v a Hs fd (mk_file flg 0 (k, i) k true)); [lia| |done].
  apply (install_wf v k i flg fs fd); [apply Hs|done|done].
Qed.

Lemma open_sim k v a path flg : sim k v a -> op_ok (Open path flg) -> step_sim k v a (Open path flg).
Proof.
  intros Hs (Hp & Hl). destruct (sim_count k v a Hs) as (fs & Hk & Hfs & Ha & Hcnt).
  unfold step_sim. cbn [vstep astep]. unfold mcs_vfs_open, get_fs, a_open. rewrite Hk. cbn [mbind exec_bind].
  rewrite lookup_eq by done. cbn [mbind exec_bind]. rewrite Ha, a_find_name by lia. rewrite abs_files_length by lia.
  destruct (find_name fs (cstr path)) as [i|] eqn:Ef.
  { destruct (find_name_Some _ _ _ Ef) as [Hi _]. destruct (install_sim k v a fs i flg Hs Hk Hi) as (v' & -> & Hs').
    destruct (a_install a i). by exists v'. }
  destruct (Z.land flg MCS_O_CREAT =? 0); [by exists v|].
  pose proof (create_eq fs path Hfs Hp Hl) as H. case_decide as Hlt.
  2:{ rewrite H, (proj2 (Z.leb_le _ _)) by lia. cbn. exists (put_fs v k fs). split; [done|].
      replace (put_fs v k fs) with v; [done|]. destruct v as [st fl]. unfold put_fs. cbn in *. by rewrite insert_id. }
  destruct H as (fs' & -> & Hfs' & Hc' & Hd & (nd & En & Hnm & Hsz) & Hold). cbn [mbind exec_bind].
  rewrite (proj2 (Z.leb_gt _ _)) by lia. rewrite <- Ha.
  destruct (install_sim k (put_fs v k fs') (mk_afs (a_files a ++ [(cstr path, [])]) (a_fds a)) fs' (node_count fs) flg)
    as (v' & -> & Hs'); [|apply lookup_insert_eq|lia|].
  - destruct Hs as [Hwf _ Hown Hfds]. split; cbn [stores files put_fs a_files a_fds]; [|exists fs'|done|done].
    + apply (wf_create v k fs); try (done || lia). intros i Hi. apply Hold. lia.
    + split; [apply lookup_insert_eq|]. rewrite Ha. pose proof (abs_files_length fs ltac:(lia)) as Hlen.
      apply abs_files_eq; [lia|rewrite zlen_app, Hlen; change (zlen [_]) with 1; lia|]. intros i Hi. unfold zlen in Hlen.
      destruct (decide (i = node_count fs)) as [->|Hne].
      * rewrite lookup_app_r by lia. replace (Z.to_nat (node_count fs) - length (abs_files fs))%nat with 0%nat by lia.
        cbn. unfold node_name, contents. by rewrite En, Hnm, Hsz.
      * rewrite lookup_app_l by lia. rewrite abs_files_lookup by lia. unfold node_name, contents. by rewrite Hold, Hd by lia.
  - destruct (a_install _ _). by exists v'.
Qed.

#[global] Instance vfs_refines k : Refines astep (vstep k) (fun _ => op_ok) (sim k).
Proof.
  intros v a op Hs Hop. destruct op; [by apply open_sim|by apply read_sim|by apply write_sim|by apply seek_sim|by apply close_sim].
Qed.

(** ** From power-on *)

(** The root alone and sixteen closed descriptors. *)
Definition fresh_afs : afs := mk_afs [([47], [])] (replicate 16 None).

Lemma fd_table_init_closes v :
  zlen (files v) = 16 ->
  exists v', mcs_fd_table_init v = Ret v' /\ stores v' = stores v /\ zlen (files v') = 16 /\
    Forall (fun f => used f = false) (files v').
Proof.
  intros Hz.
  edestruct (for_state_inv (fun i v' => stores v' = stores v /\ zlen (files v') = 16 /\
     forall j f, 0 <= j < i -> arr_get (files v') j = Ret f -> used f = false)) as (v' & E & Hst & Hl & Hall); cycle 2.
  - exists v'. split; [exact E|]. split_and!; [done|done|]. apply list.Forall_lookup. intros j f Hj.
    pose proof (lookup_lt_Some _ _ _ Hj) as Hlt. unfold zlen in Hl.
    apply (Hall (Z.of_nat j)); [change (0 + Z.of_nat (Z.to_nat MCS_MAX_OPEN_FILES)) with 16; lia|]. apply arr_get_Ret. split; [lia|]. by rewrite Nat2Z.id.
  - split_and!; [done|done|lia].
  - cbn beta. intros i w Hi (Hst & Hl & Hall). change (Z.of_nat (Z.to_nat MCS_MAX_OPEN_FILES)) with 16 in Hi.
    destruct (arr_get_ok (files w) i) as [f Ef]; [lia|]. rewrite Ef. cbn [mbind exec_bind].
    rewrite (put_file_eq w i f (set_used f false) Ef). eexists. split; [done|]. cbn [stores files].
    split_and!; [done|by rewrite zlen_insert|]. intros j g Hj.
    destruct (decide (j = i)) as [->|Hne].
    + rewrite arr_get_insert_eq by lia. by intros [= <-].
    + rewrite arr_get_insert_ne by lia. intros E. apply (Hall j g); [lia|done].
Qed.

Lemma fresh_sim k fs v :
  ramfs_wf fs -> node_count fs = 1 -> stores v = {[ k := fs ]} -> zlen (files v) = 16 ->
  Forall (fun f => used f = false) (files v) -> sim k v fresh_afs.
Proof.
  intros Hfs Hc Hst Hl Hu. split.
  - split; [exact Hl| |].
    + rewrite Hst. intros k' fs' H. apply lookup_singleton_Some in H as [_ <-]. done.
    + eapply list.Forall_impl; [exact Hu|]. intros f Hf Ht. congruence.
  - exists fs. rewrite Hst, lookup_singleton_eq. split; [done|].
    apply abs_files_eq; [lia|by rewrite Hc|]. rewrite Hc. intros i Hi. replace i with 0 by lia. cbn.
    pose proof (rw_nodes fs Hfs) as Hn. unfold MCS_MAX_NODES in Hn.
    destruct (arr_get_ok (nodes fs) 0) as [nd E]; [lia|]. destruct (rw_root fs Hfs nd E) as [[_ Hnm Hsz _ _] _].
    unfold node_name, contents. by rewrite E, Hnm, Hsz.
  - eapply list.Forall_impl; [exact Hu|]. cbn. intros f Hf Ht. congruence.
  - cbn [a_fds fresh_afs]. unfold zlen in Hl. apply list_eq. intros j. rewrite list_lookup_fmap.
    destruct (files v !! j) as [f|] eqn:Ej; cbn [fmap option_fmap option_map].
    + pose proof (lookup_lt_Some _ _ _ Ej). rewrite lookup_replicate_2 by lia.
      unfold abs_fd. by rewrite (list.Forall_lookup_1 _ _ _ _ Hu Ej).
    + apply lookup_ge_None in Ej. apply lookup_ge_None_2. rewrite length_replicate. lia.
Qed.

(** C5: Whatever the memory holds at power-on, [mcs_ramfs_init] and [mcs_fd_table_init] give a file
    system on which every sequence of opens, reads, writes, seeks and closes answers as the abstract
    file system does from its fresh state, error codes and buffers included, and the two end in
    related states: the same names with the same contents, and the same files open at the same
    offsets. No call faults.  The arguments are of their types, the buffers as large as the sizes
    given with them, and a path names a file in fewer than 32 characters ([op_ok]; a longer name
    overruns its node, [Ramfs]).  The abstract file system keeps the limits of the code: a file
    holds 256 bytes, and closing a descriptor that is not open answers [MCS_OK]. *)
Theorem vfs_sessions_refine k raw table ops :
  zlen (nodes raw) = MCS_MAX_NODES -> zlen (rdata raw) = MCS_RAMFS_DATA_BYTES ->
  Forall (fun nd => zlen (vname nd) = MCS_MAX_NAME /\ bytes (vname nd)) (nodes raw) ->
  zlen table = MCS_MAX_OPEN_FILES -> Forall op_ok ops ->
  exists fs v v', mcs_ramfs_init raw = Ret fs /\ mcs_fd_table_init (mk_vfs {[ k := fs ]} table) = Ret v /\
    code_run (vstep k) v ops = Ret (v', (spec_run astep fresh_afs ops).2) /\ sim k v' (spec_run astep fresh_afs ops).1.
Proof.
  intros Hn Hd Hnm Ht Hops. destruct (ramfs_init_wf raw Hn Hd Hnm) as (fs & E & Hfs & Hc & _).
  destruct (fd_table_init_closes (mk_vfs {[ k := fs ]} table) Ht) as (v & Ev & Hst & Hl & Hu).
  destruct (session_refines astep (vstep k) (fun _ => op_ok) (sim k) ops v fresh_afs) as (v' & Er & Hs);
    [by apply (fresh_sim k fs)|by apply (admissible_static _ _ op_ok)|]. by exists fs, v, v'.
Qed.

(** A session: create a file, write to it, read it through a second descriptor, seek, overwrite,
    close one descriptor twice, and the errors for a closed descriptor, a missing file, the root and
    a full file. *)
Definition demo_session : list vop :=
  [Open path_a 0; Open path_a MCS_O_CREAT; Write 0 [1; 2; 3; 4] 4; Open path_a 0; Read 1 [0; 0; 0; 0; 0; 0] 6;
   Seek 0 (-2) MCS_SEEK_END; Write 0 [9] 1; Seek 1 0 MCS_SEEK_SET; Read 1 [0; 0; 0; 0; 0] 4; Close 0; Close 0; Read 0 [7] 1;
   Write 1 (replicate 253 5) 253; Open [47; 0] 0; Write 0 [1] 1; Seek 1 1 MCS_SEEK_CUR; Close 16].

Lemma vfs_sessions_witness :
  exists fs v v', mcs_ramfs_init blank_ramfs = Ret fs /\
    mcs_fd_table_init (mk_vfs {[ 1 := fs ]} (replicate 16 closed_file)) = Ret v /\
    code_run (vstep 1) v demo_session = Ret (v',
      [(MCS_ENOENT, []); (0, []); (4, []); (1, []); (4, [1; 2; 3; 4; 0; 0]); (2, []); (1, []); (0, []);
       (4, [1; 2; 9; 4; 0]); (MCS_OK, []); (MCS_OK, []); (MCS_EBADF, [7]); (MCS_ENOSPC, []); (0, []); (MCS_ENOSPC, []); (MCS_EINVAL, []);
       (MCS_EBADF, [])]).
Proof.
  destruct (vfs_sessions_refine 1 blank_ramfs (replicate 16 closed_file) demo_session) as (fs & v & v' & E1 & E2 & E3 & _);
    [done|unfold zlen; cbn [rdata blank_ramfs]; by rewrite length_replicate| |done| |].
  - apply Forall_replicate. split; [reflexivity|by_compute].
  - by_compute.
  - exists fs, v, v'. split; [exact E1|]. split; [exact E2|exact E3].
Defined.
