(* ===== verification/Mcsfs1.v ===== *)
(** * The standalone file system (fs/mcsfs1/mcsfs1.c)

    A table of 32 inodes, each with a name of up to 31 characters and 256 bytes of data.  There
    is no deletion, so the inodes in use are the first [inode_count] of the table, and the
    abstract view is the list of their names and contents in order of creation. *)

From S2P Require Import Prelude Bytes.

(** ** Data *)

Definition MCSFS1_MAGIC : Z := 0x4D435331.
Definition MCSFS1_OK : Z := 0.
Definition MCSFS1_EINVAL : Z := -1.
Definition MCSFS1_ENOSPC : Z := -2.
Definition MCSFS1_ENOENT : Z := -3.
Definition MCSFS1_MAX_FILES : Z := 32.
Definition MCSFS1_NAME_LEN : Z := 32.
Definition MCSFS1_DATA_SIZE : Z := 256.

Record mcsfs1_inode_t : Type := mk_inode {
  used : Z;
  name : list Z;
  size : Z;
  data : list Z
}.

Record mcsfs1_t : Type := mk_fs {
  magic : Z;
  inode_count : Z;
  inodes : list mcsfs1_inode_t
}.

(** ** String helpers *)

(** The loop of [m15_strlen] runs off the array when there is no terminator. *)
Fixpoint m15_strlen (s : list Z) : exec Z :=
  match s with
  | [] => Fault OutOfBounds
  | c :: s' => if c =? 0 then Ret 0 else n ← m15_strlen s'; Ret (n + 1)
  end.

Fixpoint m15_streq (a b : list Z) : exec bool :=
  match a, b with
  | x :: a', y :: b' =>
      if negb (x =? 0) && negb (y =? 0) then
        if negb (x =? y) then Ret false else m15_streq a' b'
      else Ret (x =? y)
  | _, _ => Fault OutOfBounds
  end.

Definition m15_memcpy (dst src : list Z) (size : Z) : exec (list Z) := byte_copy dst 0 src 0 size.

(** ** Operations *)

Definition set_inode (fs : mcsfs1_t) (i : Z) (nd : mcsfs1_inode_t) : exec mcsfs1_t :=
  l ← arr_set (inodes fs) i nd; Ret (mk_fs (magic fs) (inode_count fs) l).

Definition mcsfs1_init (fs : mcsfs1_t) : exec mcsfs1_t :=
  for_state (Z.to_nat MCSFS1_MAX_FILES) 0
    (fun i fs => nd ← arr_get (inodes fs) i;
                 set_inode fs i (mk_inode 0 (name nd) (size nd) (data nd)))
    (mk_fs MCSFS1_MAGIC 0 (inodes fs)).

(** [name[j]] copied up to and including the terminator. *)
Definition copy_name (dst src : list Z) : exec (list Z) :=
  r ← for_loop (Z.to_nat MCSFS1_NAME_LEN) 0
        (fun j d =>
           c ← arr_get src j;
           d' ← arr_set d j c;
           Ret (if c =? 0 then Exit d' () else Next d')) dst;
  Ret (match r with Next d => d | Exit d _ => d end).

Definition mcsfs1_create (fs : option mcsfs1_t) (nm : option (list Z))
  : exec (option mcsfs1_t * Z) :=
  match fs, nm with
  | None, _ | _, None => Ret (fs, MCSFS1_EINVAL)
  | Some f, Some s =>
      len ← m15_strlen s;
      if MCSFS1_NAME_LEN <=? len then Ret (fs, MCSFS1_EINVAL)
      else
        r ← for_loop (Z.to_nat MCSFS1_MAX_FILES) 0
              (fun i f =>
                 nd ← arr_get (inodes f) i;
                 if used nd =? 0 then
                   n ← copy_name (name nd) s;
                   f' ← set_inode f i (mk_inode 1 n 0 (data nd));
                   Ret (Exit (mk_fs (magic f') (u32 (inode_count f' + 1)) (inodes f')) MCSFS1_OK)
                 else Ret (Next f)) f;
        Ret (match r with
             | Next f' => (Some f', MCSFS1_ENOSPC)
             | Exit f' rc => (Some f', rc)
             end)
  end.

(** The test of the search loops of [write] and [read]. *)
Definition matches (nd : mcsfs1_inode_t) (nm : list Z) : exec bool :=
  if used nd =? 0 then Ret false else m15_streq (name nd) nm.

Definition mcsfs1_write (fs : mcsfs1_t) (nm src : list Z) (sz : Z) : exec (mcsfs1_t * Z) :=
  if MCSFS1_DATA_SIZE <? sz then Ret (fs, MCSFS1_ENOSPC)
  else
    r ← for_loop (Z.to_nat MCSFS1_MAX_FILES) 0
          (fun i f =>
             nd ← arr_get (inodes f) i;
             b ← matches nd nm;
             if b : bool then
               d ← m15_memcpy (data nd) src sz;
               f' ← set_inode f i (mk_inode (used nd) (name nd) sz d);
               Ret (Exit f' MCSFS1_OK)
             else Ret (Next f)) fs;
    Ret (match r with Next f => (f, MCSFS1_ENOENT) | Exit f rc => (f, rc) end).

(** The new contents of the buffer and the result. *)
Definition mcsfs1_read (fs : mcsfs1_t) (nm buffer : list Z) (sz : Z) : exec (list Z * Z) :=
  r ← for_loop (Z.to_nat MCSFS1_MAX_FILES) 0
        (fun i buf =>
           nd ← arr_get (inodes fs) i;
           b ← matches nd nm;
           if b : bool then
             let n := if size nd <? sz then size nd else sz in
             buf' ← m15_memcpy buf (data nd) n;
             Ret (Exit buf' (s32 n))
           else Ret (Next buf)) buffer;
  Ret (match r with Next buf => (buf, MCSFS1_ENOENT) | Exit buf rc => (buf, rc) end).

(** ** The invariant and the abstract view *)

Record inode_ok (inuse : bool) (nd : mcsfs1_inode_t) : Prop := {
  io_used : (used nd =? 0) = negb inuse;
  io_name : zlen (name nd) = MCSFS1_NAME_LEN;
  io_data : zlen (data nd) = MCSFS1_DATA_SIZE;
  io_nul : inuse = true -> has_nul (name nd);
  io_size : inuse = true -> 0 <= size nd <= MCSFS1_DATA_SIZE
}.

Record mcsfs1_wf (fs : mcsfs1_t) : Prop := {
  mw_inodes : zlen (inodes fs) = MCSFS1_MAX_FILES;
  mw_count : 0 <= inode_count fs <= MCSFS1_MAX_FILES;
  mw_slots : forall i nd, arr_get (inodes fs) i = Ret nd -> inode_ok (i <? inode_count fs) nd
}.

(** A file is its name and its contents. *)
Definition file_of (nd : mcsfs1_inode_t) : list Z * list Z :=
  (cstr (name nd), slice (data nd) 0 (size nd)).

Definition files (fs : mcsfs1_t) : list (list Z * list Z) :=
  map file_of (take (Z.to_nat (inode_count fs)) (inodes fs)).

(** The first file of a given name. *)
Fixpoint lookup_file (s : list Z) (fl : list (list Z * list Z)) : option (list Z) :=
  match fl with
  | [] => None
  | (n, c) :: fl' => if decide (n = s) then Some c else lookup_file s fl'
  end.

(** Replacing its contents. *)
Fixpoint update_file (s c : list Z) (fl : list (list Z * list Z)) : list (list Z * list Z) :=
  match fl with
  | [] => []
  | (n, c') :: fl' => if decide (n = s) then (n, c) :: fl' else (n, c') :: update_file s c fl'
  end.

(** ** Strings *)

Lemma m15_strlen_eq s : has_nul s -> m15_strlen s = Ret (zlen (cstr s)).
Proof.
  induction s as [|c s IH]; intros Hn; [by apply elem_of_nil in Hn|]. cbn.
  destruct (Z.eqb_spec c 0) as [->|Hc]; [done|].
  apply has_nul_cons in Hn as [?|Hn]; [done|]. rewrite IH by done. cbn. f_equal. unfold zlen. cbn. lia.
Qed.

Lemma m15_streq_eq a : forall b,
  has_nul a -> has_nul b -> m15_streq a b = Ret (bool_decide (cstr a = cstr b)).
Proof.
  induction a as [|x a IH]; intros [|y b] Ha Hb;
    [by apply elem_of_nil in Ha|by apply elem_of_nil in Ha|by apply elem_of_nil in Hb|].
  cbn. apply has_nul_cons in Ha, Hb.
  destruct (Z.eqb_spec x 0) as [->|Hx], (Z.eqb_spec y 0) as [->|Hy]; cbn [negb andb]; [done| | |].
  - by rewrite (proj2 (Z.eqb_neq 0 y)) by done.
  - by rewrite (proj2 (Z.eqb_neq x 0)) by done.
  - destruct Ha as [?|Ha]; [done|]. destruct Hb as [?|Hb]; [done|].
    destruct (Z.eqb_spec x y) as [->|Hxy]; cbn [negb].
    + rewrite IH by done. f_equal. apply bool_decide_ext. split; [by intros ->|by intros [= ->]].
    + rewrite bool_decide_false; [done|]. by intros [= ->].
Qed.

(** Copying a name is [strcpy] as long as the loop's bound is not reached. *)
Lemma copy_name_loop src full : forall k j d,
  has_nul src -> 0 <= j -> zlen (cstr src) < Z.of_nat k -> drop (Z.to_nat j) full = src ->
  for_loop k j
    (fun j d => c ← arr_get full j; d' ← arr_set d j c; Ret (if c =? 0 then Exit d' () else Next d')) d
  = (d' ← c_strcpy d j src; Ret (Exit d' ())).
Proof.
  induction src as [|c src IH]; intros k j d Hn Hj Hk Hd; [by apply elem_of_nil in Hn|].
  pose proof (zlen_nonneg (cstr (c :: src))). destruct k as [|k]; [lia|].
  destruct (drop_cons _ _ _ _ Hj Hd) as [E Hd'].
  cbn [for_loop c_strcpy]. rewrite E. cbn [mbind exec_bind]. cbn [cstr] in Hk.
  destruct (Z.eqb_spec c 0) as [->|Hc].
  - by destruct (arr_set d j 0).
  - apply has_nul_cons in Hn as [?|Hn]; [done|].
    destruct (arr_set d j c) as [d'|]; [|done]. cbn [mbind exec_bind].
    apply IH; try done; [lia|]. unfold zlen in *. cbn in Hk. lia.
Qed.

Lemma copy_name_eq (dst src : list Z) :
  has_nul src -> zlen dst = MCSFS1_NAME_LEN -> zlen (cstr src) < MCSFS1_NAME_LEN ->
  exists n, copy_name dst src = Ret n /\ zlen n = MCSFS1_NAME_LEN /\ has_nul n /\ cstr n = cstr src.
Proof.
  intros Hn Hz Hl. unfold copy_name, MCSFS1_NAME_LEN in *.
  rewrite (copy_name_loop src src) by (done || lia). rewrite c_strcpy_eq by (done || lia).
  cbn [mbind exec_bind]. eexists. split; [done|].
  assert (zlen (cstr src ++ [0]) = zlen (cstr src) + 1) as Hz1 by (by rewrite zlen_app).
  split; [rewrite zlen_splice; lia|].
  apply splice_cstr.
Qed.

(** ** Searching *)

Definition hit (fs : mcsfs1_t) (s : list Z) (i : Z) : bool :=
  match arr_get (inodes fs) i with
  | Ret nd => negb (used nd =? 0) && bool_decide (cstr (name nd) = s)
  | Fault _ => false
  end.

Definition find_file (fs : mcsfs1_t) (s : list Z) : option Z := find_first (hit fs s) 32 0.

Lemma matches_eq fs i nd nm :
  mcsfs1_wf fs -> arr_get (inodes fs) i = Ret nd -> has_nul nm ->
  matches nd nm = Ret (hit fs (cstr nm) i).
Proof.
  intros Hwf E Hn. unfold matches, hit. rewrite E.
  destruct (mw_slots fs Hwf i nd E) as [Hu _ _ Hnul _]. rewrite Hu.
  destruct (i <? inode_count fs); cbn; [|done]. apply m15_streq_eq; [by apply Hnul|done].
Qed.

(** The files around an inode in use, and after it is overwritten. *)
Lemma files_split fs i nd nd' :
  mcsfs1_wf fs -> 0 <= i < inode_count fs -> arr_get (inodes fs) i = Ret nd ->
  exists p q, files fs = p ++ file_of nd :: q /\
    files (mk_fs (magic fs) (inode_count fs) (<[Z.to_nat i := nd']> (inodes fs))) = p ++ file_of nd' :: q /\
    length p = Z.to_nat i.
Proof.
  intros [Hl Hc _] Hi E. unfold MCSFS1_MAX_FILES in *.
  set (m := take (Z.to_nat (inode_count fs)) (inodes fs)).
  assert (arr_get m i = Ret nd) as Em.
  { apply arr_get_Ret in E as [H0 E]. apply arr_get_Ret. split; [done|].
    unfold m. by rewrite lookup_take_lt by lia. }
  destruct (arr_split m i nd nd' Em) as [E1 E2].
  exists (map file_of (take (Z.to_nat i) m)), (map file_of (drop (S (Z.to_nat i)) m)).
  unfold files. cbn [inode_count inodes]. fold m. split_and!.
  - rewrite E1 at 1. by rewrite map_app.
  - rewrite take_insert_lt by lia. fold m. rewrite E2. by rewrite map_app.
  - rewrite length_map, length_take. unfold m, zlen in *. rewrite length_take. lia.
Qed.

Lemma files_lookup fs k f :
  files fs !! k = Some f <->
  exists nd, Z.of_nat k < inode_count fs /\ arr_get (inodes fs) (Z.of_nat k) = Ret nd /\ f = file_of nd.
Proof.
  unfold files. rewrite list_lookup_fmap, fmap_Some. split.
  - intros (nd & E & ->). apply lookup_take_Some in E as [E Hk]. exists nd.
    split; [lia|]. split; [|done]. apply arr_get_Ret. rewrite Nat2Z.id. split; [lia|done].
  - intros (nd & Hk & [_ E]%arr_get_Ret & ->). rewrite Nat2Z.id in E. exists nd.
    rewrite lookup_take_lt by lia. done.
Qed.

(** ** Association lists *)

Lemma lookup_file_app s p c q :
  Forall (fun f => fst f <> s) p -> lookup_file s (p ++ (s, c) :: q) = Some c.
Proof.
  induction p as [|[n c'] p IH]; intros Hp; cbn; [by rewrite decide_True|].
  apply Forall_cons_1 in Hp as [Hn Hp]. by rewrite decide_False, IH.
Qed.

Lemma update_file_app s c' p c q :
  Forall (fun f => fst f <> s) p -> update_file s c' (p ++ (s, c) :: q) = p ++ (s, c') :: q.
Proof.
  induction p as [|[n d] p IH]; intros Hp; cbn; [by rewrite decide_True|].
  apply Forall_cons_1 in Hp as [Hn Hp]. by rewrite decide_False, IH.
Qed.

Lemma lookup_file_None s fl : lookup_file s fl = None <-> Forall (fun f => fst f <> s) fl.
Proof.
  induction fl as [|[n c] fl IH]; cbn; [done|]. rewrite list.Forall_cons. cbn.
  case_decide; [split; [discriminate|tauto]|]. rewrite IH. tauto.
Qed.

Lemma lookup_update s s' c fl :
  lookup_file s' (update_file s c fl)
  = if decide (s' = s) then match lookup_file s fl with Some _ => Some c | None => None end
    else lookup_file s' fl.
Proof.
  induction fl as [|[n d] fl IH]; cbn; [by case_decide|].
  destruct (decide (n = s)) as [->|Hn]; cbn.
  - destruct (decide (s' = s)) as [->|Hs]; [by rewrite decide_True|by rewrite !decide_False].
  - rewrite IH. destruct (decide (s' = s)) as [->|Hs]; [by rewrite !decide_False|done].
Qed.

(** The search by index is the search by name. *)
Lemma find_file_spec fs s :
  mcsfs1_wf fs ->
  match find_file fs s with
  | Some i => exists nd p q, 0 <= i < inode_count fs /\ arr_get (inodes fs) i = Ret nd /\
                cstr (name nd) = s /\ files fs = p ++ file_of nd :: q /\ length p = Z.to_nat i /\
                Forall (fun f => fst f <> s) p
  | None => lookup_file s (files fs) = None
  end.
Proof.
  intros Hwf. pose proof Hwf as [Hl Hc Hsl]. unfold MCSFS1_MAX_FILES in *.
  destruct (find_file fs s) as [i|] eqn:Ef; unfold find_file in Ef.
  - apply find_first_Some in Ef as (Hi & Hp & Hk). unfold hit in Hp.
    destruct (arr_get (inodes fs) i) as [nd|] eqn:E; [|discriminate].
    destruct (Hsl i nd E) as [Hu _ _ _ _]. rewrite Hu, negb_involutive in Hp.
    apply andb_prop in Hp as [Hlt%Z.ltb_lt Hn%bool_decide_eq_true].
    destruct (files_split fs i nd nd Hwf ltac:(lia) E) as (p & q & Hf & _ & Hlen).
    exists nd, p, q. split_and!; try (done || lia).
    apply Forall_lookup_2. intros k f Hkf. pose proof (lookup_lt_Some _ _ _ Hkf) as Hkl.
    assert (files fs !! k = Some f) as Hkf' by (rewrite Hf; by apply lookup_app_l_Some).
    apply files_lookup in Hkf' as (nk & Hkc & Ek & ->). specialize (Hk (Z.of_nat k) ltac:(lia)).
    unfold hit in Hk. rewrite Ek in Hk. destruct (Hsl _ nk Ek) as [Huk _ _ _ _].
    rewrite Huk, (proj2 (Z.ltb_lt _ _)) in Hk by lia. by apply bool_decide_eq_false in Hk.
  - rewrite find_first_None in Ef. apply lookup_file_None, Forall_lookup_2. intros k f Hkf.
    apply files_lookup in Hkf as (nk & Hkc & Ek & ->). specialize (Ef (Z.of_nat k) ltac:(lia)).
    unfold hit in Ef. rewrite Ek in Ef. destruct (Hsl _ nk Ek) as [Huk _ _ _ _].
    rewrite Huk, (proj2 (Z.ltb_lt _ _)) in Ef by lia. by apply bool_decide_eq_false in Ef.
Qed.

(** ** The operations *)

Lemma write_cases fs nm src sz :
  mcsfs1_wf fs -> has_nul nm -> 0 <= sz <= MCSFS1_DATA_SIZE -> sz <= zlen src ->
  exists fs' rc, mcsfs1_write fs nm src sz = Ret (fs', rc) /\ mcsfs1_wf fs' /\
    match lookup_file (cstr nm) (files fs) with
    | Some _ => rc = MCSFS1_OK /\ files fs' = update_file (cstr nm) (slice src 0 sz) (files fs)
    | None => rc = MCSFS1_ENOENT /\ fs' = fs
    end.
Proof.
  intros Hwf Hn Hsz Hs. pose proof Hwf as [Hl Hc Hsl]. unfold MCSFS1_MAX_FILES, MCSFS1_DATA_SIZE in *.
  set (put := fun i => match arr_get (inodes fs) i with
    | Ret nd => mk_fs (magic fs) (inode_count fs)
        (<[Z.to_nat i := mk_inode (used nd) (name nd) sz (splice (data nd) 0 (slice src 0 sz))]> (inodes fs))
    | Fault _ => fs end).
  assert (mcsfs1_write fs nm src sz = Ret (match find_file fs (cstr nm) with
    | Some i => (put i, MCSFS1_OK) | None => (fs, MCSFS1_ENOENT) end)) as Ew.
  { unfold mcsfs1_write, MCSFS1_DATA_SIZE. rewrite (proj2 (Z.ltb_ge _ _)) by lia.
    rewrite (for_loop_search (hit fs (cstr nm)) put (fun _ => MCSFS1_OK) _ fs).
    - unfold find_file. change (Z.to_nat MCSFS1_MAX_FILES) with 32%nat. cbn [mbind exec_bind].
      by destruct (find_first (hit fs (cstr nm)) 32 0).
    - change (Z.to_nat MCSFS1_MAX_FILES) with 32%nat. intros i Hi.
      destruct (arr_get_ok (inodes fs) i) as [nd E]; [lia|]. unfold put. rewrite E. cbn [mbind exec_bind].
      rewrite (matches_eq fs i nd nm Hwf E Hn). cbn [mbind exec_bind].
      destruct (hit fs (cstr nm) i); [|done]. destruct (Hsl i nd E) as [_ _ Hd _ _].
      unfold m15_memcpy, MCSFS1_DATA_SIZE in *. rewrite byte_copy_eq by lia. cbn [mbind exec_bind].
      unfold set_inode. by rewrite arr_set_ok by lia. }
  rewrite Ew. pose proof (find_file_spec fs (cstr nm) Hwf) as Hf.
  destruct (find_file fs (cstr nm)) as [i|]; [|rewrite Hf; by exists fs, MCSFS1_ENOENT].
  destruct Hf as (nd & p & q & Hi & E & Hnm & Hfs & Hlen & Hp). exists (put i), MCSFS1_OK.
  unfold put. rewrite E. split; [done|]. destruct (Hsl i nd E) as [Hu Hnl Hd Hnul Hsize].
  unfold MCSFS1_DATA_SIZE in *. assert (zlen (slice src 0 sz) = sz) as Hzs by (apply zlen_slice; lia).
  split.
  - split; cbn [inodes inode_count]; [by rewrite zlen_insert|done|].
    intros k x. rewrite arr_get_insert by lia. destruct (Z.eqb_spec i k) as [<-|]; [|apply Hsl].
    intros [= <-]. split; cbn; try done. unfold MCSFS1_DATA_SIZE. rewrite zlen_splice; lia.
  - rewrite Hfs. destruct (files_split fs i nd (mk_inode (used nd) (name nd) sz (splice (data nd) 0 (slice src 0 sz))) Hwf Hi E)
      as (p' & q' & Hfs' & Hnew & Hlen').
    rewrite Hfs in Hfs'. apply app_inj_1 in Hfs' as [<- [= <-]]; [|lia].
    unfold file_of at 1 2. rewrite Hnm, lookup_file_app by done. split; [done|].
    rewrite Hnew. unfold file_of. cbn [name size data]. rewrite Hnm, update_file_app by done.
    do 3 f_equal. pose proof (slice_splice_same (data nd) 0 (slice src 0 sz)) as H.
    rewrite Hzs in H. apply H; lia.
Qed.

Lemma read_cases fs nm buffer sz :
  mcsfs1_wf fs -> has_nul nm -> 0 <= sz ->
  match lookup_file (cstr nm) (files fs) with
  | Some c => Z.min sz (zlen c) <= zlen buffer ->
      mcsfs1_read fs nm buffer sz
      = Ret (splice buffer 0 (slice c 0 (Z.min sz (zlen c))), Z.min sz (zlen c))
  | None => mcsfs1_read fs nm buffer sz = Ret (buffer, MCSFS1_ENOENT)
  end.
Proof.
  intros Hwf Hn Hsz. pose proof Hwf as [Hl Hc Hsl]. unfold MCSFS1_MAX_FILES in *.
  pose proof (find_file_spec fs (cstr nm) Hwf) as Hf.
  set (put := fun i => match arr_get (inodes fs) i with
    | Ret nd => splice buffer 0 (slice (data nd) 0 (Z.min sz (size nd))) | Fault _ => buffer end).
  set (num := fun i => match arr_get (inodes fs) i with Ret nd => Z.min sz (size nd) | Fault _ => 0 end).
  assert ((forall i, find_file fs (cstr nm) = Some i -> num i <= zlen buffer) ->
    mcsfs1_read fs nm buffer sz = Ret (match find_file fs (cstr nm) with
      | Some i => (put i, num i) | None => (buffer, MCSFS1_ENOENT) end)) as Er.
  { intros Hb. unfold mcsfs1_read. change (Z.to_nat MCSFS1_MAX_FILES) with 32%nat.
    rewrite (for_loop_search_first (hit fs (cstr nm)) put num _ buffer).
    - unfold find_file. cbn [mbind exec_bind]. by destruct (find_first (hit fs (cstr nm)) 32 0).
    - intros i Hi Hbefore. destruct (arr_get_ok (inodes fs) i) as [nd E]; [lia|]. rewrite E. cbn [mbind exec_bind].
      rewrite (matches_eq fs i nd nm Hwf E Hn). cbn [mbind exec_bind].
      destruct (hit fs (cstr nm) i) eqn:Eh; [|done].
      assert (find_file fs (cstr nm) = Some i) as Efi by (by apply find_first_Some).
      specialize (Hb i Efi). unfold num, put in *. rewrite E in *.
      unfold hit in Eh. rewrite E in Eh. apply andb_prop in Eh as [Hu%negb_true_iff _].
      destruct (Hsl i nd E) as [Hu' _ Hd _ Hsize]. rewrite Hu in Hu'.
      specialize (Hsize ltac:(by destruct (i <? inode_count fs))). unfold MCSFS1_DATA_SIZE in *.
      replace (if size nd <? sz then size nd else sz) with (Z.min sz (size nd))
        by (destruct (Z.ltb_spec (size nd) sz); lia).
      unfold m15_memcpy. rewrite byte_copy_eq by lia. cbn [mbind exec_bind]. by rewrite s32_small by lia. }
  destruct (find_file fs (cstr nm)) as [i|] eqn:Ef; [|rewrite Hf; by apply Er].
  destruct Hf as (nd & p & q & Hi & E & Hnm & Hfs & _ & Hp). rewrite Hfs. unfold file_of at 1.
  rewrite Hnm, lookup_file_app by done. destruct (Hsl i nd E) as [_ _ Hd _ Hsize].
  specialize (Hsize ltac:(apply Z.ltb_lt; lia)). unfold MCSFS1_DATA_SIZE in *.
  rewrite zlen_slice by lia. intros Hb. rewrite Er; unfold num, put; rewrite ?E; [|intros k [= <-]; by rewrite E].
  rewrite slice_slice by lia. done.
Qed.

Lemma create_cases fs nm :
  mcsfs1_wf fs -> has_nul nm ->
  exists fs' rc, mcsfs1_create (Some fs) (Some nm) = Ret (Some fs', rc) /\ mcsfs1_wf fs' /\
    ((rc = MCSFS1_EINVAL /\ fs' = fs /\ MCSFS1_NAME_LEN <= zlen (cstr nm)) \/
     (rc = MCSFS1_ENOSPC /\ fs' = fs /\ zlen (cstr nm) < MCSFS1_NAME_LEN /\ zlen (files fs) = MCSFS1_MAX_FILES) \/
     (rc = MCSFS1_OK /\ zlen (cstr nm) < MCSFS1_NAME_LEN /\ zlen (files fs) < MCSFS1_MAX_FILES /\
      files fs' = files fs ++ [(cstr nm, [])])).
Proof.
  intros Hwf Hn. pose proof Hwf as [Hl Hc Hsl]. unfold MCSFS1_MAX_FILES in *.
  assert (zlen (files fs) = inode_count fs) as Hzf.
  { unfold files, zlen in *. rewrite length_map, length_take. lia. }
  unfold mcsfs1_create. rewrite m15_strlen_eq by done. cbn [mbind exec_bind].
  destruct (Z.leb_spec MCSFS1_NAME_LEN (zlen (cstr nm))) as [Hlong|Hshort].
  { exists fs, MCSFS1_EINVAL. split_and!; try done. by left. }
  set (put := fun i => match arr_get (inodes fs) i with
    | Ret nd => match copy_name (name nd) nm with
                | Ret n => mk_fs (magic fs) (inode_count fs + 1) (<[Z.to_nat i := mk_inode 1 n 0 (data nd)]> (inodes fs))
                | Fault _ => fs end
    | Fault _ => fs end).
  rewrite (for_loop_search_first (fun i => inode_count fs <=? i) put (fun _ => MCSFS1_OK) _ fs).
  2:{ change (Z.to_nat MCSFS1_MAX_FILES) with 32%nat. intros i Hi _.
      destruct (arr_get_ok (inodes fs) i) as [nd E]; [lia|]. unfold put. rewrite E. cbn [mbind exec_bind].
      destruct (Hsl i nd E) as [Hu Hnl _ _ _]. rewrite Hu, <- Z.leb_antisym.
      destruct (Z.leb_spec (inode_count fs) i); [|done].
      destruct (copy_name_eq (name nd) nm Hn Hnl Hshort) as (n & -> & _). cbn [mbind exec_bind].
      unfold set_inode. rewrite arr_set_ok by lia. cbn. by rewrite u32_small by (unfold is_u32; lia). }
  change (Z.to_nat MCSFS1_MAX_FILES) with 32%nat.
  destruct (decide (inode_count fs = 32)) as [Hfull|Hroom].
  - assert (find_first (fun i => inode_count fs <=? i) 32 0 = None) as ->.
    { apply find_first_None. intros k Hk. apply Z.leb_gt. lia. }
    exists fs, MCSFS1_ENOSPC. split_and!; try done. right. left. split_and!; (done || lia).
  - assert (find_first (fun i => inode_count fs <=? i) 32 0 = Some (inode_count fs)) as ->.
    { apply find_first_Some. split; [lia|]. split; [apply Z.leb_refl|]. intros k Hk. apply Z.leb_gt. lia. }
    destruct (arr_get_ok (inodes fs) (inode_count fs)) as [nd E]; [lia|].
    destruct (Hsl _ nd E) as [_ Hnl Hd _ _].
    destruct (copy_name_eq (name nd) nm Hn Hnl Hshort) as (n & En & Hzn & Hnn & Hcn).
    eexists _, MCSFS1_OK. unfold put. rewrite E, En. cbn [mbind exec_bind]. split; [done|]. split.
    + split; cbn [inodes inode_count]; [by rewrite zlen_insert|unfold MCSFS1_MAX_FILES; lia|].
      intros k x. rewrite arr_get_insert by lia. destruct (Z.eqb_spec (inode_count fs) k) as [<-|Hne].
      * intros [= <-]. rewrite (proj2 (Z.ltb_lt _ _)) by lia. split; cbn; try done.
      * intros Ex. replace (k <? inode_count fs + 1) with (k <? inode_count fs); [by apply Hsl|].
        destruct (Z.ltb_spec k (inode_count fs)), (Z.ltb_spec k (inode_count fs + 1)); (done || lia).
    + right. right. split_and!; try (done || lia). unfold files. cbn [inodes inode_count].
      replace (Z.to_nat (inode_count fs + 1)) with (S (Z.to_nat (inode_count fs))) by lia.
      erewrite take_S_r by (apply list_lookup_insert_eq; unfold zlen in *; lia).
      rewrite take_insert_ge, map_app by lia. cbn. unfold file_of. cbn. by rewrite Hcn.
Qed.

(** Initialisation from any memory of the right layout. *)
Lemma mcsfs1_init_wf fs :
  zlen (inodes fs) = MCSFS1_MAX_FILES ->
  Forall (fun nd => zlen (name nd) = MCSFS1_NAME_LEN /\ zlen (data nd) = MCSFS1_DATA_SIZE) (inodes fs) ->
  exists fs', mcsfs1_init fs = Ret fs' /\ mcsfs1_wf fs' /\ magic fs' = MCSFS1_MAGIC /\ files fs' = [].
Proof.
  intros Hl Hn. unfold mcsfs1_init, MCSFS1_MAX_FILES in *.
  edestruct (for_state_inv (fun i f => magic f = MCSFS1_MAGIC /\ inode_count f = 0 /\ zlen (inodes f) = 32 /\
    forall k nd, arr_get (inodes f) k = Ret nd ->
      zlen (name nd) = MCSFS1_NAME_LEN /\ zlen (data nd) = MCSFS1_DATA_SIZE /\ (k < i -> used nd = 0)))
    as (f & Ef & Hm & Hc & Hz & Hall).
  3:{ exists f. split; [exact Ef|]. split; [|split; [done|unfold files; by rewrite Hc]].
      split; [done|rewrite Hc; unfold MCSFS1_MAX_FILES; lia|]. intros k nd E.
      pose proof (arr_get_in_range _ _ _ E) as Hk. destruct (Hall k nd E) as (H1 & H2 & H3).
      rewrite Hc, (proj2 (Z.ltb_ge k 0)) by lia. split; try done. rewrite H3 by lia. done. }
  - cbn. split_and!; try done. intros k nd E. destruct (Forall_arr_get _ _ _ _ Hn E).
    split_and!; try done. apply arr_get_in_range in E. lia.
  - cbn beta. intros j f Hj (Hm & Hc & Hz & Hall). destruct (arr_get_ok (inodes f) j) as [nd E]; [lia|].
    rewrite E. cbn [mbind exec_bind]. unfold set_inode. rewrite arr_set_ok by lia. eexists. split; [done|].
    cbn [inodes magic inode_count]. split_and!; try done; [by rewrite zlen_insert|].
    intros k x. rewrite arr_get_insert by lia. destruct (Z.eqb_spec j k) as [<-|Hne].
    + intros [= <-]. destruct (Hall j nd E) as (H1 & H2 & _). by split_and!.
    + intros Ex. destruct (Hall k x Ex) as (H1 & H2 & H3). split_and!; try done. intros. apply H3. lia.
Qed.

(** ** Theorems *)

(** Creating a file refines appending an empty file to the list of files.  Names of 32
    characters or more are refused, a full table is reported, and in both cases nothing
    changes; otherwise the file is appended, after an older one of the same name if there is
    one, and no other file is affected. *)
Theorem mcsfs1_create_refines fs nm :
  mcsfs1_wf fs -> has_nul nm ->
  exists fs' rc, mcsfs1_create (Some fs) (Some nm) = Ret (Some fs', rc) /\ mcsfs1_wf fs' /\
    ((rc = MCSFS1_EINVAL /\ fs' = fs /\ MCSFS1_NAME_LEN <= zlen (cstr nm)) \/
     (rc = MCSFS1_ENOSPC /\ fs' = fs /\ zlen (cstr nm) < MCSFS1_NAME_LEN /\ zlen (files fs) = MCSFS1_MAX_FILES) \/
     (rc = MCSFS1_OK /\ zlen (cstr nm) < MCSFS1_NAME_LEN /\ zlen (files fs) < MCSFS1_MAX_FILES /\
      files fs' = files fs ++ [(cstr nm, [])])).
Proof. apply create_cases. Qed.

(** Reads return what was written.  A write of at most 256 bytes to an existing file succeeds,
    and afterwards a read of any name returns the written bytes for that name and the former
    contents for every other, cut to the size asked for, and ENOENT for a name without a
    file; a write to a name without a file, or of more than 256 bytes, changes nothing. *)
Theorem mcsfs1_write_read fs nm src sz :
  mcsfs1_wf fs -> has_nul nm -> 0 <= sz -> sz <= zlen src ->
  exists fs' rc, mcsfs1_write fs nm src sz = Ret (fs', rc) /\ mcsfs1_wf fs' /\
    (MCSFS1_DATA_SIZE < sz -> rc = MCSFS1_ENOSPC /\ fs' = fs) /\
    (sz <= MCSFS1_DATA_SIZE -> lookup_file (cstr nm) (files fs) = None -> rc = MCSFS1_ENOENT /\ fs' = fs) /\
    (sz <= MCSFS1_DATA_SIZE -> lookup_file (cstr nm) (files fs) <> None -> rc = MCSFS1_OK /\
     forall nm2 buffer n, has_nul nm2 -> 0 <= n ->
       match (if decide (cstr nm2 = cstr nm) then Some (slice src 0 sz)
              else lookup_file (cstr nm2) (files fs)) with
       | None => mcsfs1_read fs' nm2 buffer n = Ret (buffer, MCSFS1_ENOENT)
       | Some c => Z.min n (zlen c) <= zlen buffer ->
           mcsfs1_read fs' nm2 buffer n
           = Ret (splice buffer 0 (slice c 0 (Z.min n (zlen c))), Z.min n (zlen c))
       end).
Proof.
  intros Hwf Hn H0 Hs. destruct (decide (sz <= MCSFS1_DATA_SIZE)) as [Hfit|Hbig].
  - destruct (write_cases fs nm src sz Hwf Hn ltac:(lia) Hs) as (fs' & rc & E & Hwf' & Hcase).
    exists fs', rc. split; [done|]. split; [done|]. split; [lia|].
    destruct (lookup_file (cstr nm) (files fs)) as [c|] eqn:El; [|done].
    destruct Hcase as [-> Hf]. split; [discriminate|]. intros _ _. split; [done|].
    intros nm2 buffer n Hn2 Hn0. pose proof (read_cases fs' nm2 buffer n Hwf' Hn2 Hn0) as Hr.
    rewrite Hf, lookup_update, El in Hr. by destruct (decide (cstr nm2 = cstr nm)).
  - exists fs, MCSFS1_ENOSPC. unfold mcsfs1_write. rewrite (proj2 (Z.ltb_lt _ _)) by lia.
    split_and!; (done || lia).
Qed.

(** ** Witnesses *)

Definition blank_mcsfs1 : mcsfs1_t := mk_fs 0 0 (replicate 32 (mk_inode 7 (replicate 32 1) 9 (replicate 256 0))).

(** A file system with the file ["a"]. *)
Lemma demo_mcsfs1 : exists fs, mcsfs1_wf fs /\ files fs = [([97], [])].
Proof.
  destruct (mcsfs1_init_wf blank_mcsfs1) as (fs & _ & Hwf & _ & Hf);
    [reflexivity|apply Forall_replicate; by_compute|].
  destruct (create_cases fs [97; 0] Hwf ltac:(by_compute)) as (fs' & rc & _ & Hwf' & Hc).
  exists fs'. split; [done|]. rewrite Hf in Hc. unfold MCSFS1_MAX_FILES, MCSFS1_NAME_LEN, zlen in Hc. cbn in Hc.
  destruct Hc as [(_ & _ & ?)|[(_ & _ & _ & ?)|(_ & _ & _ & ?)]]; (done || lia).
Qed.

Lemma mcsfs1_create_witness :
  exists fs fs', mcsfs1_init blank_mcsfs1 = Ret fs /\
    mcsfs1_create (Some fs) (Some [97; 0]) = Ret (Some fs', MCSFS1_OK) /\ files fs' = [([97], [])].
Proof.
  destruct (mcsfs1_init_wf blank_mcsfs1) as (fs & E & Hwf & _ & Hf);
    [reflexivity|apply Forall_replicate; by_compute|].
  destruct (mcsfs1_create_refines fs [97; 0] Hwf ltac:(by_compute)) as (fs' & rc & E' & _ & Hc).
  rewrite Hf in Hc. exists fs, fs'. split; [exact E|].
  destruct Hc as [(_ & _ & Hx)|[(_ & _ & _ & Hx)|(-> & _ & _ & Hx)]]; 
    [exfalso; exact (Hx eq_refl)|exfalso; discriminate Hx|].
  split; [exact E'|exact Hx].
Defined.

Lemma mcsfs1_write_read_witness :
  exists fs fs', mcsfs1_write fs [97; 0] [1; 2; 3] 3 = Ret (fs', MCSFS1_OK) /\
    mcsfs1_read fs' [97; 0] [0; 0; 0; 0] 2 = Ret ([1; 2; 0; 0], 2).
Proof.
  destruct demo_mcsfs1 as (fs & Hwf & Hf).
  destruct (mcsfs1_write_read fs [97; 0] [1; 2; 3] 3 Hwf) as (fs' & rc & E & _ & _ & _ & H);
    [by_compute|lia|by_compute|].
  rewrite Hf in H. destruct H as [-> Hr]; [by_compute|discriminate|].
  exists fs, fs'. split; [exact E|].
  specialize (Hr [97; 0] [0; 0; 0; 0] 2 ltac:(by_compute) ltac:(lia)).
  rewrite decide_True in Hr by reflexivity. apply Hr. by_compute.
Defined.
