(* ===== verification/Mcsfs1Spec.v ===== *)
(** * Sessions of the standalone file system (fs/mcsfs1/mcsfs1.c)

    Sequences of creations, writes and reads, from initialisation on, against a list of named
    contents. *)

From S2P Require Import Prelude Bytes Session Mcsfs1.

(** Files in the order of their creation; a name stands for the first file that has it. *)
Abbreviation catalogue := (list (list Z * list Z)).

Inductive fs_op : Type :=
  | Create (nm : list Z)
  | Write (nm src : list Z) (sz : Z)
  | Read (nm buffer : list Z) (sz : Z).

(** What a call returns, and the caller's buffer after it. *)
Abbreviation answer := (Z * list Z)%type.

(** ** The abstract file system *)

Definition astep (fl : catalogue) (op : fs_op) : catalogue * answer :=
  match op with
  | Create nm =>
      if MCSFS1_NAME_LEN <=? zlen (cstr nm) then (fl, (MCSFS1_EINVAL, []))
      else if zlen fl =? MCSFS1_MAX_FILES then (fl, (MCSFS1_ENOSPC, []))
      else (fl ++ [(cstr nm, [])], (MCSFS1_OK, []))
  | Write nm src sz =>
      if MCSFS1_DATA_SIZE <? sz then (fl, (MCSFS1_ENOSPC, []))
      else
        match lookup_file (cstr nm) fl with
        | Some _ => (update_file (cstr nm) (slice src 0 sz) fl, (MCSFS1_OK, []))
        | None => (fl, (MCSFS1_ENOENT, []))
        end
  | Read nm buffer sz =>
      (fl, match lookup_file (cstr nm) fl with
           | Some c => let n := Z.min sz (zlen c) in (n, splice buffer 0 (slice c 0 n))
           | None => (MCSFS1_ENOENT, buffer)
           end)
  end.

(** ** The same calls on the code *)

Definition fstep (fs : mcsfs1_t) (op : fs_op) : exec (mcsfs1_t * answer) :=
  match op with
  | Create nm => '(o, rc) ← mcsfs1_create (Some fs) (Some nm); Ret (default fs o, (rc, []))
  | Write nm src sz => '(fs', rc) ← mcsfs1_write fs nm src sz; Ret (fs', (rc, []))
  | Read nm buffer sz => '(b, rc) ← mcsfs1_read fs nm buffer sz; Ret (fs, (rc, b))
  end.

(** Calls a C program can make: names that are strings, sizes of their type, and buffers as large
    as the sizes say. *)
Definition op_ok (op : fs_op) : Prop :=
  match op with
  | Create nm => has_nul nm
  | Write nm src sz => has_nul nm /\ 0 <= sz <= zlen src
  | Read nm buffer sz => has_nul nm /\ 0 <= sz <= zlen buffer
  end.

#[global] Instance op_ok_dec op : Decision (op_ok op).
Proof. destruct op; cbn; unfold has_nul; apply _. Defined.

(** ** Refinement *)

Definition sim (fs : mcsfs1_t) (fl : catalogue) : Prop := mcsfs1_wf fs /\ files fs = fl.

#[global] Instance mcsfs1_refines : Refines astep fstep (fun _ => op_ok) sim.
Proof.
  intros fs fl op [Hwf <-] Hop. destruct op as [nm|nm src sz|nm buffer sz]; cbn [fstep astep].
  - destruct (create_cases fs nm Hwf Hop) as (fs' & rc & -> & Hwf' & Hc). cbn [mbind exec_bind default from_option].
    exists fs'. destruct Hc as [(-> & -> & Hl)|[(-> & -> & Hl & Hz)|(-> & Hl & Hz & Hf)]].
    + by rewrite (proj2 (Z.leb_le _ _)).
    + rewrite (proj2 (Z.leb_gt _ _)) by done. by rewrite (proj2 (Z.eqb_eq _ _)).
    + rewrite (proj2 (Z.leb_gt _ _)) by done. by rewrite (proj2 (Z.eqb_neq _ _)) by lia.
  - destruct Hop as (Hn & Hsz). destruct (Z.ltb_spec MCSFS1_DATA_SIZE sz) as [Hbig|Hfit].
    { unfold mcsfs1_write. rewrite (proj2 (Z.ltb_lt _ _)) by done. by exists fs. }
    destruct (write_cases fs nm src sz Hwf Hn ltac:(lia) ltac:(lia)) as (fs' & rc & -> & Hwf' & Hc). exists fs'.
    destruct (lookup_file (cstr nm) (files fs)); destruct Hc as [-> Hf]; [done|by subst fs'].
  - destruct Hop as (Hn & Hsz). pose proof (read_cases fs nm buffer sz Hwf Hn ltac:(lia)) as Hr. exists fs.
    destruct (lookup_file (cstr nm) (files fs)) as [c|]; [|by rewrite Hr]. rewrite Hr; [done|]. lia.
Qed.

(** C13: after [mcsfs1_init], whatever the memory held before, every sequence of creations, writes and
    reads answers as a list of at most 32 named files of at most 256 bytes does, error codes and
    buffers included, and leaves exactly the files of that list.  No call faults.  The list takes any
    name of fewer than 32 characters, also one that is empty, holds a slash or is taken already, and
    a name stands for the first file that has it. *)
Theorem mcsfs1_sessions_refine raw ops :
  zlen (inodes raw) = MCSFS1_MAX_FILES ->
  Forall (fun nd => zlen (name nd) = MCSFS1_NAME_LEN /\ zlen (data nd) = MCSFS1_DATA_SIZE) (inodes raw) ->
  Forall op_ok ops ->
  exists fs fs', mcsfs1_init raw = Ret fs /\ code_run fstep fs ops = Ret (fs', (spec_run astep [] ops).2) /\
    files fs' = (spec_run astep [] ops).1.
Proof.
  intros Hl Hn Hops. destruct (mcsfs1_init_wf raw Hl Hn) as (fs & E & Hwf & _ & Hf).
  destruct (session_refines astep fstep (fun _ => op_ok) sim ops fs []) as (fs' & E' & _ & Hf'); [done| |by exists fs, fs'].
  by apply (admissible_static _ _ op_ok).
Qed.

(** ** Witness *)

Definition demo_ops : list fs_op :=
  [Read [97; 0] [8; 8] 2; Create [97; 0]; Create [98; 0]; Write [98; 0] [1; 2; 3] 3; Write [97; 0] [4; 5] 2;
   Read [98; 0] [0; 0; 0; 0] 4; Write [98; 0] [9] 1; Read [98; 0] [0; 0] 2; Write [99; 0] [1] 1; Write [97; 0] (replicate 257 0) 257;
   Create (replicate 32 65 ++ [0]); Read [97; 0] [7; 7] 1; Create [97; 0]; Create [0]; Write [97; 0] [6] 1].

Lemma mcsfs1_sessions_witness :
  exists fs fs', mcsfs1_init blank_mcsfs1 = Ret fs /\
    code_run fstep fs demo_ops = Ret (fs',
      [(MCSFS1_ENOENT, [8; 8]); (MCSFS1_OK, []); (MCSFS1_OK, []); (MCSFS1_OK, []); (MCSFS1_OK, []); (3, [1; 2; 3; 0]); (MCSFS1_OK, []);
       (1, [9; 0]); (MCSFS1_ENOENT, []); (MCSFS1_ENOSPC, []); (MCSFS1_EINVAL, []); (1, [4; 7]);
       (MCSFS1_OK, []); (MCSFS1_OK, []); (MCSFS1_OK, [])]) /\
    files fs' = [([97], [6]); ([98], [9]); ([97], []); ([], [])].
Proof.
  destruct (mcsfs1_sessions_refine blank_mcsfs1 demo_ops) as (fs & fs' & E & E' & Hf);
    [reflexivity|apply Forall_replicate; by_compute|by_compute|].
  exists fs, fs'. split; [exact E|]. split; [exact E'|exact Hf].
Defined.
