(* ===== verification/M15fs.v ===== *)
(** * The kernel's copy of the file system (kernel/fs/m15_mcsfs1.c)

    Up to 32 files that share one data area of 4096 bytes.  A file's place in the area is fixed
    when it is created, at the end of the data written last. *)

From S2P Require Import Prelude Bytes.

(** ** Data *)

Definition M15_MCSFS1_MAGIC : Z := 0x4D4353465331.
Definition M15_MCSFS1_OK : Z := 0.
Definition M15_MCSFS1_EINVAL : Z := -1.
Definition M15_MCSFS1_ENOENT : Z := -2.
Definition M15_MCSFS1_ENOSPC : Z := -3.
Definition M15_MCSFS1_MAX_FILES : Z := 32.
Definition M15_MCSFS1_NAME_LEN : Z := 64.
Definition M15_MCSFS1_DATA_SIZE : Z := 4096.

Record m15_mcsfs1_inode_t : Type := mk_m15_inode {
  iname : list Z;
  ioffset : Z;
  isize : Z;
  iused : Z
}.

Record m15_mcsfs1_t : Type := mk_m15 {
  m15_magic : Z;
  m15_inode_count : Z;
  m15_data_used : Z;
  m15_inodes : list m15_mcsfs1_inode_t;
  m15_data : list Z
}.

Definition m15_strcmp : list Z -> list Z -> exec Z := c_strcmp.
Definition m15_strcpy (dst src : list Z) : exec (list Z) := c_strcpy dst 0 src.

(** The pointers as an array and an offset into it. *)
Definition m15_memcpy (dst : list Z) (doff : Z) (src : list Z) (soff size : Z) : exec (list Z) :=
  byte_copy dst doff src soff size.
#[global] Arguments m15_strcpy dst src : simpl never.

(** ** Operations *)

(** The inode found is its subscript. *)
Definition m15_find_inode (fs : m15_mcsfs1_t) (nm : list Z) : exec (option Z) :=
  r ← for_loop (Z.to_nat (m15_inode_count fs)) 0
        (fun i (_ : unit) =>
           nd ← arr_get (m15_inodes fs) i;
           if iused nd =? 0 then Ret (Next ())
           else
             c ← m15_strcmp (iname nd) nm;
             Ret (if c =? 0 then Exit () i else Next ())) ();
  Ret (match r with Next _ => None | Exit _ i => Some i end).

Definition m15_mcsfs1_init (fs : m15_mcsfs1_t) : exec m15_mcsfs1_t :=
  l ← for_state (Z.to_nat M15_MCSFS1_MAX_FILES) 0
        (fun i l => nd ← arr_get l i;
                    arr_set l i (mk_m15_inode (iname nd) (ioffset nd) (isize nd) 0)) (m15_inodes fs);
  Ret (mk_m15 M15_MCSFS1_MAGIC 0 0 l (m15_data fs)).

Definition m15_mcsfs1_create (fs : option m15_mcsfs1_t) (nm : option (list Z))
  : exec (option m15_mcsfs1_t * Z) :=
  match fs, nm with
  | None, _ | _, None => Ret (fs, M15_MCSFS1_EINVAL)
  | Some f, Some s =>
      if M15_MCSFS1_MAX_FILES <=? m15_inode_count f then Ret (fs, M15_MCSFS1_ENOSPC)
      else
        nd ← arr_get (m15_inodes f) (m15_inode_count f);
        n ← m15_strcpy (iname nd) s;
        l ← arr_set (m15_inodes f) (m15_inode_count f) (mk_m15_inode n (m15_data_used f) 0 1);
        Ret (Some (mk_m15 (m15_magic f) (u64 (m15_inode_count f + 1)) (m15_data_used f) l (m15_data f)),
             M15_MCSFS1_OK)
  end.

Definition m15_mcsfs1_write (fs : m15_mcsfs1_t) (nm buffer : list Z) (sz : Z)
  : exec (m15_mcsfs1_t * Z) :=
  r ← m15_find_inode fs nm;
  match r with
  | None => Ret (fs, M15_MCSFS1_ENOENT)
  | Some i =>
      nd ← arr_get (m15_inodes fs) i;
      if M15_MCSFS1_DATA_SIZE <=? u64 (ioffset nd + sz) then Ret (fs, M15_MCSFS1_ENOSPC)
      else
        d ← m15_memcpy (m15_data fs) (ioffset nd) buffer 0 sz;
        l ← arr_set (m15_inodes fs) i (mk_m15_inode (iname nd) (ioffset nd) sz (iused nd));
        Ret (mk_m15 (m15_magic fs) (m15_inode_count fs) (u64 (ioffset nd + sz)) l d, s32 sz)
  end.

Definition m15_mcsfs1_read (fs : m15_mcsfs1_t) (nm buffer : list Z) (sz : Z) : exec (list Z * Z) :=
  r ← m15_find_inode fs nm;
  match r with
  | None => Ret (buffer, M15_MCSFS1_ENOENT)
  | Some i =>
      nd ← arr_get (m15_inodes fs) i;
      let n := if isize nd <? sz then isize nd else sz in
      b ← m15_memcpy buffer 0 (m15_data fs) (ioffset nd) n;
      Ret (b, s64 n)
  end.

(** ** Invariants *)

Record m15_wf (fs : m15_mcsfs1_t) : Prop := {
  kw_inodes : zlen (m15_inodes fs) = M15_MCSFS1_MAX_FILES;
  kw_data : zlen (m15_data fs) = M15_MCSFS1_DATA_SIZE;
  kw_names : Forall (fun nd => zlen (iname nd) = M15_MCSFS1_NAME_LEN /\ bytes (iname nd)) (m15_inodes fs);
  kw_count : 0 <= m15_inode_count fs <= M15_MCSFS1_MAX_FILES;
  kw_used : 0 <= m15_data_used fs < M15_MCSFS1_DATA_SIZE;
  kw_files : forall i nd, i < m15_inode_count fs -> arr_get (m15_inodes fs) i = Ret nd ->
    iused nd <> 0 /\ has_nul (iname nd) /\ 0 <= ioffset nd /\ 0 <= isize nd /\
    ioffset nd + isize nd < M15_MCSFS1_DATA_SIZE
}.

(** The files lie one after the other, before the end of the data used. *)
Record packed (fs : m15_mcsfs1_t) : Prop := {
  pk_wf : m15_wf fs;
  pk_end : forall i nd, i < m15_inode_count fs -> arr_get (m15_inodes fs) i = Ret nd ->
    ioffset nd + isize nd <= m15_data_used fs;
  pk_order : forall i j a b, i < j -> j < m15_inode_count fs ->
    arr_get (m15_inodes fs) i = Ret a -> arr_get (m15_inodes fs) j = Ret b ->
    ioffset a + isize a <= ioffset b
}.

Definition iname_at (fs : m15_mcsfs1_t) (i : Z) : list Z :=
  match arr_get (m15_inodes fs) i with Ret nd => cstr (iname nd) | Fault _ => [] end.

Definition icontents (fs : m15_mcsfs1_t) (i : Z) : list Z :=
  match arr_get (m15_inodes fs) i with
  | Ret nd => slice (m15_data fs) (ioffset nd) (isize nd)
  | Fault _ => []
  end.

Definition find_iname (fs : m15_mcsfs1_t) (s : list Z) : option Z :=
  find_first (fun i => bool_decide (iname_at fs i = s)) (Z.to_nat (m15_inode_count fs)) 0.

(** ** Lemmas *)

Lemma wf_inode fs i :
  m15_wf fs -> 0 <= i < m15_inode_count fs -> exists nd, arr_get (m15_inodes fs) i = Ret nd.
Proof. intros [Hl _ _ Hc _ _] Hi. apply arr_get_ok. lia. Qed.

Lemma find_inode_eq fs nm :
  m15_wf fs -> bytes nm -> has_nul nm -> m15_find_inode fs nm = Ret (find_iname fs (cstr nm)).
Proof.
  intros Hwf Hb Hn. pose proof Hwf as [_ _ Hnm Hc _ Hf]. unfold m15_find_inode, find_iname.
  rewrite (for_loop_search (fun i => bool_decide (iname_at fs i = cstr nm)) (fun _ => ()) (fun i => i) _ ()).
  - cbn [mbind exec_bind]. by destruct (find_first _ _ _).
  - intros i Hi. destruct (wf_inode fs i Hwf ltac:(lia)) as [nd E].
    destruct (Hf i nd ltac:(lia) E) as (Hu & Hnul & _).
    destruct (Forall_arr_get _ _ _ _ Hnm E) as [_ Hbn].
    unfold iname_at, m15_strcmp. rewrite E. cbn [mbind exec_bind].
    rewrite (proj2 (Z.eqb_neq _ _)) by done.
    destruct (c_strcmp_spec (iname nd) nm Hbn Hb Hnul Hn) as (r & -> & Hr). cbn [mbind exec_bind].
    destruct (Z.eqb_spec r 0) as [H0|H0].
    + by rewrite bool_decide_true by (by apply Hr).
    + by rewrite bool_decide_false by (by intros ?%Hr).
Qed.

Lemma find_iname_Some fs s i :
  find_iname fs s = Some i -> 0 <= i < m15_inode_count fs /\ iname_at fs i = s.
Proof. intros (? & ?%bool_decide_eq_true & _)%find_first_Some. split; [lia|done]. Qed.

(** The state after a write of [bs] to inode [i]. *)
Definition put_file (fs : m15_mcsfs1_t) (i : Z) (nd : m15_mcsfs1_inode_t) (bs : list Z) : m15_mcsfs1_t :=
  mk_m15 (m15_magic fs) (m15_inode_count fs) (ioffset nd + zlen bs)
    (<[Z.to_nat i := mk_m15_inode (iname nd) (ioffset nd) (zlen bs) (iused nd)]> (m15_inodes fs))
    (splice (m15_data fs) (ioffset nd) bs).

Lemma m15_write_eq fs nm src sz i nd :
  m15_wf fs -> bytes nm -> has_nul nm -> find_iname fs (cstr nm) = Some i ->
  arr_get (m15_inodes fs) i = Ret nd -> 0 <= sz <= zlen src ->
  ioffset nd + sz < M15_MCSFS1_DATA_SIZE ->
  m15_mcsfs1_write fs nm src sz = Ret (put_file fs i nd (slice src 0 sz), sz).
Proof.
  intros Hwf Hb Hn Hf E Hsz Hfit. pose proof Hwf as [Hl Hd _ Hc _ Hfl].
  unfold M15_MCSFS1_MAX_FILES, M15_MCSFS1_DATA_SIZE in *.
  destruct (find_iname_Some _ _ _ Hf) as [Hi _]. destruct (Hfl i nd ltac:(lia) E) as (_ & _ & Ho & _).
  unfold m15_mcsfs1_write. rewrite find_inode_eq by done. rewrite Hf. cbn [mbind exec_bind]. rewrite E.
  cbn [mbind exec_bind]. rewrite u64_small by (unfold is_u64; lia).
  rewrite (proj2 (Z.leb_gt _ _)) by (unfold M15_MCSFS1_DATA_SIZE; lia). unfold m15_memcpy. rewrite byte_copy_eq by lia. cbn [mbind exec_bind].
  rewrite arr_set_ok by lia. cbn [mbind exec_bind]. rewrite s32_small by lia.
  unfold put_file. by rewrite zlen_slice by lia.
Qed.

(** The writes without effect: to a place too close to the end, and to an unknown name. *)
Lemma m15_write_full fs nm src sz i nd :
  m15_wf fs -> bytes nm -> has_nul nm -> find_iname fs (cstr nm) = Some i ->
  arr_get (m15_inodes fs) i = Ret nd -> 0 <= sz < 2 ^ 63 -> M15_MCSFS1_DATA_SIZE <= ioffset nd + sz ->
  m15_mcsfs1_write fs nm src sz = Ret (fs, M15_MCSFS1_ENOSPC).
Proof.
  intros Hwf Hb Hn Hf E Hsz Hbig. destruct (find_iname_Some _ _ _ Hf) as [Hi _].
  destruct (kw_files fs Hwf i nd ltac:(lia) E) as (_ & _ & Ho & ? & ?). unfold m15_mcsfs1_write.
  rewrite find_inode_eq by done. rewrite Hf. cbn [mbind exec_bind]. rewrite E. cbn [mbind exec_bind].
  unfold M15_MCSFS1_DATA_SIZE in *. rewrite u64_small by (unfold is_u64; lia). by rewrite (proj2 (Z.leb_le _ _)) by lia.
Qed.

Lemma m15_write_missing fs nm src sz :
  m15_wf fs -> bytes nm -> has_nul nm -> find_iname fs (cstr nm) = None ->
  m15_mcsfs1_write fs nm src sz = Ret (fs, M15_MCSFS1_ENOENT).
Proof. intros Hwf Hb Hn Hf. unfold m15_mcsfs1_write. rewrite find_inode_eq by done. by rewrite Hf. Qed.

Lemma m15_read_missing fs nm buffer sz :
  m15_wf fs -> bytes nm -> has_nul nm -> find_iname fs (cstr nm) = None ->
  m15_mcsfs1_read fs nm buffer sz = Ret (buffer, M15_MCSFS1_ENOENT).
Proof. intros Hwf Hb Hn Hf. unfold m15_mcsfs1_read. rewrite find_inode_eq by done. by rewrite Hf. Qed.

Lemma put_file_wf fs i nd bs :
  m15_wf fs -> 0 <= i < m15_inode_count fs -> arr_get (m15_inodes fs) i = Ret nd ->
  ioffset nd + zlen bs < M15_MCSFS1_DATA_SIZE -> m15_wf (put_file fs i nd bs).
Proof.
  intros Hwf Hi E Hfit. pose proof Hwf as [Hl Hd Hnm Hc Hu Hfl]. pose proof (zlen_nonneg bs).
  unfold M15_MCSFS1_MAX_FILES, M15_MCSFS1_DATA_SIZE in *.
  destruct (Hfl i nd ltac:(lia) E) as (Hus & Hnul & Ho & Hs & _).
  destruct (Forall_arr_get _ _ _ _ Hnm E) as [Hz Hb].
  split; cbn [put_file m15_inodes m15_data m15_inode_count m15_data_used];
    unfold M15_MCSFS1_DATA_SIZE; try (done || lia).
  - by rewrite zlen_insert.
  - rewrite zlen_splice; [done|lia|lia].
  - by apply list.Forall_insert.
  - intros k x Hk. rewrite arr_get_insert by lia. destruct (Z.eqb_spec i k) as [<-|]; [|by apply Hfl].
    intros [= <-]. cbn. split_and!; (done || lia).
Qed.

Lemma put_file_names fs i nd bs s :
  0 <= i < zlen (m15_inodes fs) -> arr_get (m15_inodes fs) i = Ret nd ->
  find_iname (put_file fs i nd bs) s = find_iname fs s.
Proof.
  intros Hi E. apply find_first_ext. intros k _. unfold iname_at. cbn. rewrite arr_get_insert by done.
  destruct (Z.eqb_spec i k) as [<-|]; [by rewrite E|done].
Qed.

Lemma m15_read_eq fs nm i buffer sz :
  m15_wf fs -> bytes nm -> has_nul nm -> find_iname fs (cstr nm) = Some i -> 0 <= sz ->
  Z.min sz (zlen (icontents fs i)) <= zlen buffer ->
  m15_mcsfs1_read fs nm buffer sz
  = Ret (splice buffer 0 (slice (icontents fs i) 0 (Z.min sz (zlen (icontents fs i)))),
         Z.min sz (zlen (icontents fs i))).
Proof.
  intros Hwf Hb Hn Hf Hsz. pose proof Hwf as [Hl Hd _ Hc _ Hfl]. unfold M15_MCSFS1_DATA_SIZE in *.
  destruct (find_iname_Some _ _ _ Hf) as [Hi _]. destruct (wf_inode fs i Hwf Hi) as [nd E].
  destruct (Hfl i nd ltac:(lia) E) as (_ & _ & Ho & Hs & He). unfold icontents. rewrite E.
  unfold M15_MCSFS1_DATA_SIZE in *. rewrite zlen_slice by lia. intros Hbuf.
  unfold m15_mcsfs1_read. rewrite find_inode_eq by done. rewrite Hf. cbn [mbind exec_bind]. rewrite E.
  cbn [mbind exec_bind]. replace (if isize nd <? sz then isize nd else sz) with (Z.min sz (isize nd))
    by (destruct (Z.ltb_spec (isize nd) sz); lia).
  unfold m15_memcpy. rewrite byte_copy_eq by lia. cbn [mbind exec_bind]. rewrite s64_small by lia.
  rewrite slice_slice, Z.add_0_r by lia. done.
Qed.

Lemma put_file_contents fs i nd bs :
  m15_wf fs -> 0 <= i < m15_inode_count fs -> arr_get (m15_inodes fs) i = Ret nd ->
  ioffset nd + zlen bs < M15_MCSFS1_DATA_SIZE -> icontents (put_file fs i nd bs) i = bs.
Proof.
  intros Hwf Hi E Hfit. pose proof Hwf as [Hl Hd _ Hc _ Hfl]. unfold M15_MCSFS1_DATA_SIZE, M15_MCSFS1_MAX_FILES in *.
  destruct (Hfl i nd ltac:(lia) E) as (_ & _ & Ho & _). unfold icontents. cbn.
  rewrite arr_get_insert_eq by lia. cbn. apply slice_splice_same; lia.
Qed.

Lemma m15_create_eq fs nm :
  m15_wf fs -> bytes nm -> has_nul nm -> zlen (cstr nm) < M15_MCSFS1_NAME_LEN ->
  m15_inode_count fs < M15_MCSFS1_MAX_FILES ->
  exists fs' nd, m15_mcsfs1_create (Some fs) (Some nm) = Ret (Some fs', M15_MCSFS1_OK) /\ m15_wf fs' /\
    m15_inode_count fs' = m15_inode_count fs + 1 /\ m15_data fs' = m15_data fs /\
    m15_data_used fs' = m15_data_used fs /\
    arr_get (m15_inodes fs') (m15_inode_count fs) = Ret nd /\ cstr (iname nd) = cstr nm /\
    ioffset nd = m15_data_used fs /\ isize nd = 0 /\
    (forall i, i <> m15_inode_count fs -> arr_get (m15_inodes fs') i = arr_get (m15_inodes fs) i).
Proof.
  intros Hwf Hb Hn Hlen Hlt. pose proof Hwf as [Hl Hd Hnm Hc Hu Hfl].
  unfold M15_MCSFS1_MAX_FILES, M15_MCSFS1_NAME_LEN in *.
  unfold m15_mcsfs1_create. rewrite (proj2 (Z.leb_gt _ _)) by (unfold M15_MCSFS1_MAX_FILES; lia).
  destruct (arr_get_ok (m15_inodes fs) (m15_inode_count fs)) as [nd0 E]; [lia|]. rewrite E. cbn [mbind exec_bind].
  destruct (Forall_arr_get _ _ _ _ Hnm E) as [Hz Hbn].
  unfold m15_strcpy. rewrite c_strcpy_eq by (done || lia). cbn [mbind exec_bind].
  set (nm' := splice (iname nd0) 0 (cstr nm ++ [0])).
  destruct (splice_cstr (iname nd0) nm) as [Hnul Hcs]. fold nm' in Hnul, Hcs.
  assert (zlen nm' = 64 /\ bytes nm') as [Hz' Hb'].
  { pose proof (zlen_nonneg (cstr nm)). assert (zlen (cstr nm ++ [0]) = zlen (cstr nm) + 1) by (by rewrite zlen_app).
    split; [unfold nm'; rewrite zlen_splice; lia|]. apply Forall_splice; [done|].
    destruct (cstr_split nm Hn) as [rest Er]. unfold bytes in Hb. rewrite Er in Hb.
    apply Forall_app in Hb as [H1 [H2 _]%Forall_cons_1]. apply Forall_app_2; [done|by constructor]. }
  rewrite arr_set_ok by lia. cbn [mbind exec_bind]. rewrite u64_small by (unfold is_u64; lia).
  eexists _, (mk_m15_inode nm' (m15_data_used fs) 0 1). split; [done|].
  cbn [m15_inodes m15_data m15_inode_count m15_data_used]. split_and!; try done.
  - split; cbn [m15_inodes m15_data m15_inode_count m15_data_used];
      unfold M15_MCSFS1_MAX_FILES, M15_MCSFS1_DATA_SIZE in *; try (done || lia).
    + by rewrite zlen_insert.
    + by apply list.Forall_insert.
    + intros i x Hi. rewrite arr_get_insert by lia.
      destruct (Z.eqb_spec (m15_inode_count fs) i) as [<-|]; [|apply Hfl; lia].
      intros [= <-]. cbn. split_and!; (done || lia).
  - apply arr_get_insert_eq. lia.
  - intros i Hi. apply arr_get_insert_ne; (done || lia).
Qed.

(** A write to the last file of a packed file system keeps it packed and touches no other. *)
Lemma put_last_packed fs i nd bs :
  packed fs -> i = m15_inode_count fs - 1 -> 0 <= i -> arr_get (m15_inodes fs) i = Ret nd ->
  ioffset nd + zlen bs < M15_MCSFS1_DATA_SIZE ->
  packed (put_file fs i nd bs) /\
  (forall k, 0 <= k < i -> icontents (put_file fs i nd bs) k = icontents fs k).
Proof.
  intros [Hwf Hend Hord] Hlast Hi E Hfit. pose proof Hwf as [Hl Hd _ Hc _ Hfl]. pose proof (zlen_nonneg bs).
  unfold M15_MCSFS1_DATA_SIZE, M15_MCSFS1_MAX_FILES in *.
  destruct (Hfl i nd ltac:(lia) E) as (_ & _ & Ho & _). split; [split|].
  - apply put_file_wf; (done || lia).
  - cbn. intros k x Hk. rewrite arr_get_insert by lia. destruct (Z.eqb_spec i k) as [<-|Hne]; [intros [= <-]; cbn; lia|].
    intros Ek. pose proof (arr_get_in_range _ _ _ Ek). specialize (Hord k i x nd ltac:(lia) ltac:(lia) Ek E). lia.
  - cbn. intros a b x y Hab Hb Ea Eb. rewrite arr_get_insert_ne in Ea by lia. rewrite arr_get_insert in Eb by lia.
    destruct (Z.eqb_spec i b) as [<-|Hne]; [|by apply (Hord a b)].
    injection Eb as <-. cbn. by apply (Hord a i).
  - intros k Hk. unfold icontents. cbn. rewrite arr_get_insert_ne by lia.
    destruct (wf_inode fs k Hwf ltac:(lia)) as [nk Ek]. rewrite Ek.
    specialize (Hord k i nk nd ltac:(lia) ltac:(lia) Ek E).
    destruct (Hfl k nk ltac:(lia) Ek) as (_ & _ & Hok & Hsk & _).
    apply slice_splice_disjoint; lia.
Qed.

Lemma create_packed fs fs' nd :
  packed fs -> m15_wf fs' -> m15_inode_count fs' = m15_inode_count fs + 1 ->
  m15_data_used fs' = m15_data_used fs -> arr_get (m15_inodes fs') (m15_inode_count fs) = Ret nd ->
  ioffset nd = m15_data_used fs -> isize nd = 0 ->
  (forall i, i <> m15_inode_count fs -> arr_get (m15_inodes fs') i = arr_get (m15_inodes fs) i) ->
  packed fs'.
Proof.
  intros [Hwf Hend Hord] Hwf' Hc Hu E Ho Hs Hold. split; [done| |].
  - intros i x Hi Ei. rewrite Hu. destruct (decide (i = m15_inode_count fs)) as [->|Hne].
    + rewrite E in Ei. injection Ei as <-. lia.
    + rewrite Hold in Ei by done. apply (Hend i); [lia|done].
  - intros i j a b Hij Hj Ea Eb. rewrite Hold in Ea by lia.
    destruct (decide (j = m15_inode_count fs)) as [->|Hne].
    + rewrite E in Eb. injection Eb as <-. rewrite Ho. apply (Hend i); [lia|done].
    + rewrite Hold in Eb by done. apply (Hord i j); (done || lia).
Qed.

(** ** Theorems *)

(** C31: a read right after a write returns what was written.  On a well-formed file system a write
    to an existing file whose place leaves room succeeds, returns the size and keeps the file system
    well formed, and if the next call is a read of that name it returns the bytes written, cut to
    the size asked for; a write that would reach the end of the area reports ENOSPC and one to an
    unknown name ENOENT, both without effect.  Calls in between may destroy the bytes:
    [m15_mcsfs1_create_create_overlap]. *)
Theorem m15_mcsfs1_write_read fs nm src sz buffer n :
  m15_wf fs -> bytes nm -> has_nul nm -> 0 <= sz <= zlen src -> sz < 2 ^ 63 ->
  0 <= n -> Z.min n sz <= zlen buffer ->
  match find_iname fs (cstr nm) with
  | None => m15_mcsfs1_write fs nm src sz = Ret (fs, M15_MCSFS1_ENOENT)
  | Some i =>
      exists nd, arr_get (m15_inodes fs) i = Ret nd /\
      (M15_MCSFS1_DATA_SIZE <= ioffset nd + sz ->
       m15_mcsfs1_write fs nm src sz = Ret (fs, M15_MCSFS1_ENOSPC)) /\
      (ioffset nd + sz < M15_MCSFS1_DATA_SIZE ->
       exists fs', m15_mcsfs1_write fs nm src sz = Ret (fs', sz) /\ m15_wf fs' /\
         m15_mcsfs1_read fs' nm buffer n
         = Ret (splice buffer 0 (slice src 0 (Z.min n sz)), Z.min n sz))
  end.
Proof.
  intros Hwf Hb Hn Hsz H63 Hn0 Hbuf. destruct (find_iname fs (cstr nm)) as [i|] eqn:Ef.
  - destruct (find_iname_Some _ _ _ Ef) as [Hi _]. destruct (wf_inode fs i Hwf Hi) as [nd E].
    assert (zlen (slice src 0 sz) = sz) as Hz by (apply zlen_slice; lia).
    exists nd. split; [done|]. split.
    + intros Hbig. apply (m15_write_full fs nm src sz i nd); (done || lia).
    + intros Hfit. exists (put_file fs i nd (slice src 0 sz)). split; [by apply m15_write_eq|].
      assert (m15_wf (put_file fs i nd (slice src 0 sz))) as Hwf' by (apply put_file_wf; (done || lia)).
      split; [done|].
      assert (find_iname (put_file fs i nd (slice src 0 sz)) (cstr nm) = Some i) as Ef'.
      { rewrite put_file_names; [done| |done]. rewrite (kw_inodes fs Hwf). pose proof (kw_count fs Hwf). lia. }
      pose proof (m15_read_eq _ nm i buffer n Hwf' Hb Hn Ef' Hn0) as Hr.
      rewrite put_file_contents, Hz in Hr by (done || lia). rewrite Hr by done.
      by rewrite slice_slice by lia.
  - by apply m15_write_missing.
Qed.

(** Files created and written one at a time do not disturb each other.  In a packed file system,
    creating a file and writing it before the next one is created succeeds, reads back, leaves
    the contents of every older file alone and the file system packed. *)
Theorem m15_mcsfs1_sequential_isolation fs nm src sz :
  packed fs -> bytes nm -> has_nul nm -> zlen (cstr nm) < M15_MCSFS1_NAME_LEN ->
  m15_inode_count fs < M15_MCSFS1_MAX_FILES -> find_iname fs (cstr nm) = None ->
  0 <= sz <= zlen src -> m15_data_used fs + sz < M15_MCSFS1_DATA_SIZE ->
  exists fs1 fs2, m15_mcsfs1_create (Some fs) (Some nm) = Ret (Some fs1, M15_MCSFS1_OK) /\
    m15_mcsfs1_write fs1 nm src sz = Ret (fs2, sz) /\ packed fs2 /\
    m15_inode_count fs2 = m15_inode_count fs + 1 /\
    icontents fs2 (m15_inode_count fs) = slice src 0 sz /\
    (forall i, 0 <= i < m15_inode_count fs -> icontents fs2 i = icontents fs i).
Proof.
  intros Hp Hb Hn Hlen Hlt Hnone Hsz Hfit. pose proof (pk_wf fs Hp) as Hwf.
  destruct (m15_create_eq fs nm Hwf Hb Hn Hlen Hlt)
    as (fs1 & nd & E1 & Hwf1 & Hc & Hd & Hu & En & Hnm & Ho & Hs & Hold).
  pose proof (create_packed fs fs1 nd Hp Hwf1 Hc Hu En Ho Hs Hold) as Hp1.
  pose proof (kw_count fs Hwf) as Hcnt.
  assert (find_iname fs1 (cstr nm) = Some (m15_inode_count fs)) as Hf.
  { unfold find_iname in *. rewrite find_first_None in Hnone. apply find_first_Some.
    split; [lia|]. split; [apply bool_decide_eq_true; unfold iname_at; by rewrite En|].
    intros k Hk. unfold iname_at in *. rewrite Hold by lia. apply Hnone. lia. }
  assert (zlen (slice src 0 sz) = sz) as Hz by (apply zlen_slice; lia).
  destruct (put_last_packed fs1 (m15_inode_count fs) nd (slice src 0 sz) Hp1) as [Hp2 Hkeep]; try (done || lia).
  exists fs1, (put_file fs1 (m15_inode_count fs) nd (slice src 0 sz)). split; [done|].
  split; [apply m15_write_eq; (done || lia)|]. split; [done|]. split; [done|].
  split; [apply put_file_contents; (done || lia)|].
  intros i Hi. rewrite Hkeep by lia. unfold icontents. by rewrite Hold, Hd by lia.
Qed.

(** Two files created before either is written share their place in the data area: writing the
    second replaces the contents of the first. *)
Theorem m15_mcsfs1_create_create_overlap fs n1 n2 s1 s2 sz :
  packed fs -> bytes n1 -> has_nul n1 -> zlen (cstr n1) < M15_MCSFS1_NAME_LEN ->
  bytes n2 -> has_nul n2 -> zlen (cstr n2) < M15_MCSFS1_NAME_LEN -> cstr n1 <> cstr n2 ->
  m15_inode_count fs + 1 < M15_MCSFS1_MAX_FILES ->
  find_iname fs (cstr n1) = None -> find_iname fs (cstr n2) = None ->
  0 <= sz -> zlen s1 = sz -> zlen s2 = sz -> m15_data_used fs + sz < M15_MCSFS1_DATA_SIZE ->
  exists f1 f2 f3 f4, m15_mcsfs1_create (Some fs) (Some n1) = Ret (Some f1, M15_MCSFS1_OK) /\
    m15_mcsfs1_create (Some f1) (Some n2) = Ret (Some f2, M15_MCSFS1_OK) /\
    m15_mcsfs1_write f2 n1 s1 sz = Ret (f3, sz) /\ m15_mcsfs1_write f3 n2 s2 sz = Ret (f4, sz) /\
    icontents f3 (m15_inode_count fs) = s1 /\ icontents f4 (m15_inode_count fs) = s2.
Proof.
  intros Hp B1 N1 L1 B2 N2 L2 Hne Hlt F1 F2 Hsz Z1 Z2 Hfit. pose proof (pk_wf fs Hp) as Hwf.
  pose proof (kw_count fs Hwf) as Hcnt.
  destruct (m15_create_eq fs n1 Hwf B1 N1 L1 ltac:(lia))
    as (f1 & a & E1 & Hwf1 & Hc1 & Hd1 & Hu1 & Ea & Hna & Hoa & Hsa & Hold1).
  destruct (m15_create_eq f1 n2 Hwf1 B2 N2 L2 ltac:(lia))
    as (f2 & b & E2 & Hwf2 & Hc2 & Hd2 & Hu2 & Eb & Hnb & Hob & Hsb & Hold2).
  rewrite Hc1 in *. rewrite <- Hold2 in Ea by lia.
  assert (find_iname f2 (cstr n1) = Some (m15_inode_count fs)) as G1.
  { unfold find_iname in *. rewrite find_first_None in F1. apply find_first_Some. split; [lia|].
    split; [apply bool_decide_eq_true; unfold iname_at; by rewrite Ea|].
    intros k Hk. unfold iname_at in *. rewrite Hold2, Hold1 by lia. apply F1. lia. }
  assert (find_iname f2 (cstr n2) = Some (m15_inode_count fs + 1)) as G2.
  { unfold find_iname in *. rewrite find_first_None in F2. apply find_first_Some. split; [lia|].
    split; [apply bool_decide_eq_true; unfold iname_at; by rewrite Eb|].
    intros k Hk. unfold iname_at in *. destruct (decide (k = m15_inode_count fs)) as [->|Hk'].
    - rewrite Ea, Hna. by apply bool_decide_eq_false.
    - rewrite Hold2, Hold1 by lia. apply F2. lia. }
  assert (slice s1 0 sz = s1) as S1 by (rewrite <- Z1; apply slice_all).
  assert (slice s2 0 sz = s2) as S2 by (rewrite <- Z2; apply slice_all).
  pose proof (m15_write_eq f2 n1 s1 sz _ a Hwf2 B1 N1 G1 Ea ltac:(lia) ltac:(lia)) as W1. rewrite S1 in W1.
  pose proof (put_file_wf f2 (m15_inode_count fs) a s1 Hwf2 ltac:(lia) Ea ltac:(lia)) as Hwf3.
  pose proof (kw_inodes f2 Hwf2) as Hl2. unfold M15_MCSFS1_MAX_FILES in *.
  set (f3 := put_file f2 (m15_inode_count fs) a s1) in *.
  assert (arr_get (m15_inodes f3) (m15_inode_count fs + 1) = Ret b) as Eb3
    by (cbn; rewrite arr_get_insert_ne by lia; done).
  assert (find_iname f3 (cstr n2) = Some (m15_inode_count fs + 1)) as G3
    by (unfold f3; rewrite put_file_names by (done || lia); done).
  pose proof (m15_write_eq f3 n2 s2 sz _ b Hwf3 B2 N2 G3 Eb3 ltac:(lia) ltac:(lia)) as W2. rewrite S2 in W2.
  exists f1, f2, f3, (put_file f3 (m15_inode_count fs + 1) b s2).
  split; [done|]. split; [done|]. split; [done|]. split; [done|].
  split; [unfold f3; apply put_file_contents; (done || lia)|].
  unfold icontents. cbn. rewrite arr_get_insert_ne by lia. rewrite arr_get_insert_eq by lia. cbn.
  rewrite Hoa, Hob, Hu1. pose proof (kw_data f2 Hwf2) as Hz. pose proof (kw_used fs Hwf) as Hu.
  unfold M15_MCSFS1_DATA_SIZE in *. rewrite splice_splice_same by lia.
  rewrite Z1, <- Z2. apply slice_splice_same; lia.
Qed.

(** Initialisation from any memory of the right layout. *)
Lemma m15_init_packed fs :
  zlen (m15_inodes fs) = M15_MCSFS1_MAX_FILES -> zlen (m15_data fs) = M15_MCSFS1_DATA_SIZE ->
  Forall (fun nd => zlen (iname nd) = M15_MCSFS1_NAME_LEN /\ bytes (iname nd)) (m15_inodes fs) ->
  exists fs', m15_mcsfs1_init fs = Ret fs' /\ packed fs' /\ m15_inode_count fs' = 0 /\ m15_data_used fs' = 0.
Proof.
  intros Hl Hd Hn. unfold m15_mcsfs1_init, M15_MCSFS1_MAX_FILES in *.
  edestruct (for_state_inv (fun (_ : Z) l => zlen l = 32 /\
    Forall (fun nd => zlen (iname nd) = M15_MCSFS1_NAME_LEN /\ bytes (iname nd)) l))
    as (l & -> & Hzl & Hnl).
  3:{ cbn [mbind exec_bind]. eexists. split; [done|]. split; [|done].
      assert (m15_wf (mk_m15 M15_MCSFS1_MAGIC 0 0 l (m15_data fs))) as Hwf.
      { split; cbn; try (done || (unfold M15_MCSFS1_MAX_FILES, M15_MCSFS1_DATA_SIZE; lia)).
        intros i nd Hi E%arr_get_in_range. lia. }
      split; [done|cbn; intros i nd Hi E%arr_get_in_range; lia|].
      cbn. intros i j a b Hij Hj E%arr_get_in_range. lia. }
  - done.
  - intros j l Hj [Hz Hf]. destruct (arr_get_ok l j) as [nd E]; [lia|]. rewrite E. cbn [mbind exec_bind].
    rewrite arr_set_ok by lia. eexists. split; [done|]. split; [by rewrite zlen_insert|].
    apply list.Forall_insert; [done|]. by apply (Forall_arr_get _ _ _ _ Hf E).
Qed.

(** ** Witnesses *)

Definition blank_m15 : m15_mcsfs1_t :=
  mk_m15 0 7 7 (replicate 32 (mk_m15_inode (replicate 64 1) 3 3 3)) (replicate (Z.to_nat 4096) 0).

Lemma demo_m15 : exists fs, m15_mcsfs1_init blank_m15 = Ret fs /\ packed fs /\
  m15_inode_count fs = 0 /\ m15_data_used fs = 0.
Proof.
  apply m15_init_packed; [reflexivity| |apply Forall_replicate; by_compute].
  unfold zlen. cbn [m15_data blank_m15]. by rewrite length_replicate.
Qed.

Lemma no_files fs s : m15_inode_count fs = 0 -> find_iname fs s = None.
Proof. intros H. unfold find_iname. by rewrite H. Qed.

Lemma m15_write_read_witness :
  exists fs fs', m15_mcsfs1_write fs [97; 0] [1; 2; 3] 3 = Ret (fs', 3) /\
    m15_mcsfs1_read fs' [97; 0] [7; 7; 7] 2 = Ret ([1; 2; 7], 2) /\
    m15_mcsfs1_write fs [98; 0] [1] 1 = Ret (fs, M15_MCSFS1_ENOENT).
Proof.
  destruct demo_m15 as (fs0 & _ & Hp & Hc & Hu).
  destruct (m15_create_eq fs0 [97; 0] (pk_wf fs0 Hp)) as (fs & nd & _ & Hwf & Hc1 & _ & _ & En & Hnm & Ho & _);
    [by_compute|by_compute|by_compute|rewrite Hc; unfold M15_MCSFS1_MAX_FILES; lia|].
  rewrite Hc in Hc1, En. exists fs.
  assert (forall s, find_iname fs s = if bool_decide ([97] = s) then Some 0 else None) as Hf.
  { intros s. assert (iname_at fs 0 = [97]) as Hn by (unfold iname_at; rewrite En; exact Hnm).
    case_bool_decide; unfold find_iname; rewrite Hc1; [apply find_first_Some|apply find_first_None].
    - split; [lia|]. split; [by apply bool_decide_eq_true_2; rewrite Hn|lia].
    - intros k Hk. assert (k = 0) as -> by lia. apply bool_decide_eq_false_2. by rewrite Hn. }
  pose proof (m15_mcsfs1_write_read fs [97; 0] [1; 2; 3] 3 [7; 7; 7] 2 Hwf ltac:(by_compute) ltac:(by_compute)
                ltac:(by_compute) ltac:(lia) ltac:(lia) ltac:(by_compute)) as H.
  pose proof (m15_mcsfs1_write_read fs [98; 0] [1] 1 [] 0 Hwf ltac:(by_compute) ltac:(by_compute)
                ltac:(by_compute) ltac:(lia) ltac:(lia) ltac:(by_compute)) as H'.
  rewrite Hf in H, H'. cbn in H, H'. destruct H as (nd' & En' & _ & H). rewrite En in En'. injection En' as <-.
  destruct H as (fs' & E1 & _ & E2); [rewrite Ho, Hu; by_compute|]. exists fs'.
  split; [exact E1|]. split; [exact E2|exact H'].
Defined.

Lemma m15_sequential_isolation_witness :
  exists fs fs1 fs2, m15_mcsfs1_create (Some fs) (Some [97; 0]) = Ret (Some fs1, 0) /\
    m15_mcsfs1_write fs1 [97; 0] [1; 2] 2 = Ret (fs2, 2) /\ icontents fs2 0 = [1; 2].
Proof.
  destruct demo_m15 as (fs & _ & Hp & Hc & Hu).
  destruct (m15_mcsfs1_sequential_isolation fs [97; 0] [1; 2] 2 Hp) as (fs1 & fs2 & E1 & E2 & _ & _ & H & _);
    [by_compute|by_compute|by_compute|rewrite Hc; unfold M15_MCSFS1_MAX_FILES; lia|exact (no_files fs _ Hc)|
     by_compute|rewrite Hu; by_compute|].
  rewrite Hc in H. exists fs, fs1, fs2. split; [exact E1|]. split; [exact E2|exact H].
Defined.

Lemma m15_create_create_overlap_witness :
  exists fs f1 f2 f3 f4, m15_mcsfs1_create (Some fs) (Some [97; 0]) = Ret (Some f1, 0) /\
    m15_mcsfs1_create (Some f1) (Some [98; 0]) = Ret (Some f2, 0) /\
    m15_mcsfs1_write f2 [97; 0] [1] 1 = Ret (f3, 1) /\ m15_mcsfs1_write f3 [98; 0] [2] 1 = Ret (f4, 1) /\
    icontents f3 0 = [1] /\ icontents f4 0 = [2].
Proof.
  destruct demo_m15 as (fs & _ & Hp & Hc & Hu).
  destruct (m15_mcsfs1_create_create_overlap fs [97; 0] [98; 0] [1] [2] 1 Hp)
    as (f1 & f2 & f3 & f4 & E1 & E2 & E3 & E4 & H1 & H2);
    [by_compute|by_compute|by_compute|by_compute|by_compute|by_compute|discriminate|
     rewrite Hc; unfold M15_MCSFS1_MAX_FILES; lia|exact (no_files fs _ Hc)|exact (no_files fs _ Hc)|
     lia|reflexivity|reflexivity|rewrite Hu; by_compute|].
  rewrite Hc in *. exists fs, f1, f2, f3, f4.
  split; [exact E1|]. split; [exact E2|]. split; [exact E3|]. split; [exact E4|]. split; [exact H1|exact H2].
Defined.
