(* ===== verification/M15Spec.v ===== *)
(** * Sessions of the kernel file system with a shared data area (kernel/fs/m15_mcsfs1.c)

    Sequences of creations, writes and reads, from initialisation on, against a list of named
    contents that share 4096 bytes.  A file is placed behind the last byte written, so the
    equivalence holds for callers that write only the file created last; [M15fs] shows what goes
    wrong otherwise. *)

From S2P Require Import Prelude Bytes Session M15fs.

Abbreviation catalogue := (list (list Z * list Z)).

Inductive fs_op : Type :=
  | Create (nm : list Z)
  | Write (nm src : list Z) (sz : Z)
  | Read (nm buffer : list Z) (sz : Z).

(** What a call returns, and the caller's buffer after it. *)
Abbreviation answer := (Z * list Z)%type.

(** ** The abstract file system *)

(** The first file of a name. *)
Definition index_of (s : list Z) (fl : catalogue) : option Z :=
  find_first (fun i => bool_decide (fst <$> fl !! Z.to_nat i = Some s)) (length fl) 0.

(** The bytes of all files of a list. *)
Fixpoint total (fl : catalogue) : Z :=
  match fl with [] => 0 | f :: fl' => zlen (snd f) + total fl' end.

(** The place of a file: behind the files before it. *)
Definition place (fl : catalogue) (i : Z) : Z := total (take (Z.to_nat i) fl).

Definition set_file (i : Z) (c : list Z) (fl : catalogue) : catalogue := alter (fun f => (fst f, c)) (Z.to_nat i) fl.

Definition astep (fl : catalogue) (op : fs_op) : catalogue * answer :=
  match op with
  | Create nm =>
      if M15_MCSFS1_MAX_FILES <=? zlen fl then (fl, (M15_MCSFS1_ENOSPC, []))
      else (fl ++ [(cstr nm, [])], (M15_MCSFS1_OK, []))
  | Write nm src sz =>
      match index_of (cstr nm) fl with
      | None => (fl, (M15_MCSFS1_ENOENT, []))
      | Some i =>
          if place fl i + sz <? M15_MCSFS1_DATA_SIZE then (set_file i (slice src 0 sz) fl, (sz, []))
          else (fl, (M15_MCSFS1_ENOSPC, []))
      end
  | Read nm buffer sz =>
      (fl, match index_of (cstr nm) fl ≫= fun i => snd <$> fl !! Z.to_nat i with
           | Some c => let n := Z.min sz (zlen c) in (n, splice buffer 0 (slice c 0 n))
           | None => (M15_MCSFS1_ENOENT, buffer)
           end)
  end.

(** ** The same calls on the code *)

Definition fstep (fs : m15_mcsfs1_t) (op : fs_op) : exec (m15_mcsfs1_t * answer) :=
  match op with
  | Create nm => '(o, rc) ← m15_mcsfs1_create (Some fs) (Some nm); Ret (default fs o, (rc, []))
  | Write nm src sz => '(fs', rc) ← m15_mcsfs1_write fs nm src sz; Ret (fs', (rc, []))
  | Read nm buffer sz => '(b, rc) ← m15_mcsfs1_read fs nm buffer sz; Ret (fs, (rc, b))
  end.

(** Calls a C program can make without undefined behaviour: names that are strings of bytes and
    fit a node, sizes of their type, and buffers as large as the sizes say. *)
Definition name_ok (nm : list Z) : Prop := bytes nm /\ has_nul nm.

Definition op_ok (op : fs_op) : Prop :=
  match op with
  | Create nm => name_ok nm /\ zlen (cstr nm) < M15_MCSFS1_NAME_LEN
  | Write nm src sz => name_ok nm /\ 0 <= sz <= zlen src /\ sz < 2 ^ 63
  | Read nm buffer sz => name_ok nm /\ 0 <= sz <= zlen buffer
  end.

#[global] Instance op_ok_dec op : Decision (op_ok op).
Proof. destruct op; cbn; unfold name_ok, bytes, has_nul; apply _. Defined.

(** Only the file created last is written. *)
Definition writes_last (fl : catalogue) (op : fs_op) : Prop :=
  match op with
  | Write nm _ _ => default (zlen fl - 1) (index_of (cstr nm) fl) = zlen fl - 1
  | _ => True
  end.

Definition step_ok (fl : catalogue) (op : fs_op) : Prop := op_ok op /\ writes_last fl op.

#[global] Instance step_ok_dec fl op : Decision (step_ok fl op).
Proof. unfold step_ok. destruct op; cbn [writes_last]; apply _. Defined.

(** ** The relation *)

(** The files lie one behind the other, without gaps, up to the end of the data used. *)
Record sim (fs : m15_mcsfs1_t) (fl : catalogue) : Prop := {
  sm_wf : m15_wf fs;
  sm_count : zlen fl = m15_inode_count fs;
  sm_files : forall i nd, 0 <= i < m15_inode_count fs -> arr_get (m15_inodes fs) i = Ret nd ->
    fl !! Z.to_nat i = Some (cstr (iname nd), icontents fs i) /\ ioffset nd = place fl i;
  sm_used : m15_data_used fs = total fl
}.

Lemma total_app a b : total (a ++ b) = total a + total b.
Proof. induction a as [|f a IH]; cbn; lia. Qed.

Lemma total_nonneg fl : 0 <= total fl.
Proof. induction fl as [|f fl IH]; cbn; [lia|]. pose proof (zlen_nonneg (snd f)). lia. Qed.

Lemma place_succ fl i f : 0 <= i -> fl !! Z.to_nat i = Some f -> place fl (i + 1) = place fl i + zlen (snd f).
Proof.
  intros Hi E. unfold place. replace (Z.to_nat (i + 1)) with (S (Z.to_nat i)) by lia.
  rewrite (take_S_r _ _ f E), total_app. cbn. lia.
Qed.

Lemma place_mono fl i j : 0 <= i <= j -> place fl i <= place fl j.
Proof.
  intros Hij. unfold place. rewrite <- (take_drop (Z.to_nat i) (take (Z.to_nat j) fl)), total_app, take_take.
  replace (Z.to_nat i `min` Z.to_nat j)%nat with (Z.to_nat i) by lia. pose proof (total_nonneg (drop (Z.to_nat i) (take (Z.to_nat j) fl))). lia.
Qed.

Lemma place_end fl : place fl (zlen fl) = total fl.
Proof. unfold place, zlen. by rewrite Nat2Z.id, take_ge. Qed.

Section sim.
Context (fs : m15_mcsfs1_t) (fl : catalogue).
Hypothesis Hsim : sim fs fl.

Lemma sim_size i nd :
  0 <= i < m15_inode_count fs -> arr_get (m15_inodes fs) i = Ret nd -> zlen (icontents fs i) = isize nd.
Proof.
  intros Hi E. destruct (kw_files fs (sm_wf fs fl Hsim) i nd ltac:(lia) E) as (_ & _ & ? & ? & ?).
  pose proof (kw_data fs (sm_wf fs fl Hsim)). unfold icontents. rewrite E. unfold M15_MCSFS1_DATA_SIZE in *.
  apply zlen_slice; lia.
Qed.

Lemma sim_end i nd :
  0 <= i < m15_inode_count fs -> arr_get (m15_inodes fs) i = Ret nd -> ioffset nd + isize nd = place fl (i + 1).
Proof.
  intros Hi E. destruct (sm_files fs fl Hsim i nd Hi E) as [Hf Ho].
  rewrite (place_succ fl i _ ltac:(lia) Hf), Ho. cbn [snd]. rewrite (sim_size i nd Hi E). done.
Qed.

Lemma sim_packed : packed fs.
Proof.
  pose proof (sm_count fs fl Hsim) as Hc. split; [apply Hsim| |].
  - intros i nd Hi E. pose proof (arr_get_in_range _ _ _ E). rewrite (sim_end i nd ltac:(lia) E), (sm_used fs fl Hsim), <- place_end.
    apply place_mono. lia.
  - intros i j a b Hij Hj Ea Eb. pose proof (arr_get_in_range _ _ _ Ea). rewrite (sim_end i a ltac:(lia) Ea).
    destruct (sm_files fs fl Hsim j b ltac:(lia) Eb) as [_ ->]. apply place_mono. lia.
Qed.

Lemma sim_index s : find_iname fs s = index_of s fl.
Proof.
  pose proof (sm_count fs fl Hsim) as Hc. unfold find_iname, index_of. unfold zlen in Hc.
  replace (length fl) with (Z.to_nat (m15_inode_count fs)) by lia. apply find_first_ext. intros i Hi.
  destruct (wf_inode fs i (sm_wf fs fl Hsim) ltac:(lia)) as [nd E].
  destruct (sm_files fs fl Hsim i nd ltac:(lia) E) as [-> _]. unfold iname_at. rewrite E. cbn. apply bool_decide_ext. naive_solver.
Qed.
End sim.

(** ** Steps *)

Lemma place_app fl f i : 0 <= i <= zlen fl -> place (fl ++ [f]) i = place fl i.
Proof. intros Hi. unfold place. rewrite take_app_le; [done|]. unfold zlen in Hi. lia. Qed.

Lemma place_set fl i c j : 0 <= j <= i -> place (set_file i c fl) j = place fl j.
Proof. intros Hj. unfold place, set_file. rewrite take_alter_ge by lia. done. Qed.

Lemma set_file_lookup fl i c f : fl !! Z.to_nat i = Some f -> set_file i c fl !! Z.to_nat i = Some (fst f, c).
Proof. intros E. unfold set_file. rewrite list_lookup_alter_eq, E. done. Qed.

Lemma set_file_other fl i c k : 0 <= i -> 0 <= k -> k <> i -> set_file i c fl !! Z.to_nat k = fl !! Z.to_nat k.
Proof. intros Hi Hk Hne. apply list_lookup_alter_ne. lia. Qed.

Lemma set_file_zlen fl i c : zlen (set_file i c fl) = zlen fl.
Proof. unfold zlen, set_file. by rewrite length_alter. Qed.

Lemma m15_create_sim fs fl nm :
  sim fs fl -> op_ok (Create nm) -> zlen fl < M15_MCSFS1_MAX_FILES ->
  exists fs', fstep fs (Create nm) = Ret (fs', (M15_MCSFS1_OK, [])) /\ sim fs' (fl ++ [(cstr nm, [])]).
Proof.
  intros [Hwf Hc Hf Hu] [[Hb Hn] Hlen] Hlt. rewrite Hc in Hlt.
  destruct (m15_create_eq fs nm Hwf Hb Hn Hlen Hlt)
    as (fs' & nd & E & Hwf' & Hc' & Hd' & Hu' & En & Hnm & Ho & Hs & Hold).
  exists fs'. split; [cbn [fstep]; by rewrite E|]. split; [done| | |].
  - rewrite zlen_app, Hc, Hc'. done.
  - intros i x Hi Ei. destruct (decide (i = m15_inode_count fs)) as [->|Hne].
    + rewrite En in Ei. injection Ei as <-. unfold icontents. rewrite En, Hs, Ho, Hu, place_app, <- Hc, place_end by lia.
      unfold zlen. rewrite Nat2Z.id, lookup_app_r, Nat.sub_diag by lia. cbn. by rewrite Hnm.
    + rewrite Hold in Ei by done. destruct (Hf i x ltac:(lia) Ei) as [El Ep].
      unfold icontents in *. rewrite Hold, Hd' by done. rewrite place_app by lia.
      rewrite lookup_app_l; [done|]. by apply lookup_lt_Some in El.
  - rewrite Hu', Hu, total_app. symmetry. exact (Z.add_0_r _).
Qed.

Lemma m15_write_sim fs fl nm src sz i :
  sim fs fl -> op_ok (Write nm src sz) -> index_of (cstr nm) fl = Some i -> i = zlen fl - 1 ->
  place fl i + sz < M15_MCSFS1_DATA_SIZE ->
  exists fs', fstep fs (Write nm src sz) = Ret (fs', (sz, [])) /\ sim fs' (set_file i (slice src 0 sz) fl).
Proof.
  intros Hsim ((Hb & Hn) & Hsz & _) Hix Hlast Hfit. pose proof Hsim as [Hwf Hc Hf Hu].
  rewrite <- (sim_index fs fl Hsim) in Hix. destruct (find_iname_Some _ _ _ Hix) as [Hi _].
  destruct (wf_inode fs i Hwf Hi) as [nd E]. destruct (Hf i nd Hi E) as [El Ho].
  assert (zlen (slice src 0 sz) = sz) as Hz by (apply zlen_slice; lia).
  assert (ioffset nd + zlen (slice src 0 sz) < M15_MCSFS1_DATA_SIZE) as Hfit' by lia.
  destruct (put_last_packed fs i nd (slice src 0 sz) (sim_packed fs fl Hsim) ltac:(lia) ltac:(lia) E Hfit') as [[Hwf' _ _] Hkeep].
  pose proof (put_file_contents fs i nd (slice src 0 sz) Hwf Hi E Hfit') as Hnew.
  pose proof (kw_inodes fs Hwf) as Hl. pose proof (kw_count fs Hwf) as Hcnt.
  exists (put_file fs i nd (slice src 0 sz)).
  split; [cbn [fstep]; rewrite (m15_write_eq fs nm src sz i nd) by (done || lia); done|]. split; [done| | |].
  - by rewrite set_file_zlen.
  - cbn [put_file m15_inode_count m15_inodes]. intros k x Hk Ek. rewrite arr_get_insert in Ek by lia.
    destruct (Z.eqb_spec i k) as [<-|Hne].
    + injection Ek as <-. cbn [iname ioffset]. rewrite Hnew, place_set by lia. by rewrite (set_file_lookup _ _ _ _ El).
    + rewrite place_set, set_file_other, Hkeep by lia. by apply Hf.
  - cbn [put_file m15_data_used]. rewrite <- place_end, set_file_zlen. replace (zlen fl) with (i + 1) by lia.
    rewrite (place_succ _ i _ ltac:(lia) (set_file_lookup fl i (slice src 0 sz) _ El)), place_set by lia. cbn [snd]. lia.
Qed.

Lemma m15_read_sim fs fl nm buffer sz :
  sim fs fl -> op_ok (Read nm buffer sz) -> fstep fs (Read nm buffer sz) = Ret (fs, (astep fl (Read nm buffer sz)).2).
Proof.
  intros Hsim ((Hb & Hn) & Hsz). pose proof Hsim as [Hwf Hc Hf _]. cbn [fstep astep snd].
  rewrite <- (sim_index fs fl Hsim). destruct (find_iname fs (cstr nm)) as [i|] eqn:Ei; [|by rewrite m15_read_missing].
  destruct (find_iname_Some _ _ _ Ei) as [Hi _]. destruct (wf_inode fs i Hwf Hi) as [nd E].
  destruct (Hf i nd Hi E) as [El _]. cbn [mbind option_bind]. rewrite El. cbn [fmap option_fmap option_map snd].
  rewrite (m15_read_eq fs nm i buffer sz) by (done || lia). done.
Qed.

#[global] Instance m15_refines : Refines astep fstep step_ok sim.
Proof.
  intros fs fl op Hsim [Hop Hl]. pose proof (sm_wf fs fl Hsim) as Hwf. destruct op as [nm|nm src sz|nm buffer sz].
  - cbn [astep]. destruct (Z.leb_spec M15_MCSFS1_MAX_FILES (zlen fl)) as [Hfull|Hroom]; [|by apply m15_create_sim].
    exists fs. cbn [fstep m15_mcsfs1_create]. rewrite <- (sm_count fs fl Hsim).
    by rewrite (proj2 (Z.leb_le _ _)) by done.
  - cbn [astep]. cbn [writes_last] in Hl. destruct (index_of (cstr nm) fl) as [i|] eqn:Ei; cbn [default from_option] in Hl.
    + destruct (Z.ltb_spec (place fl i + sz) M15_MCSFS1_DATA_SIZE) as [Hfit|Hbig]; [apply m15_write_sim; (done || lia)|].
      exists fs. destruct Hop as ((Hb & Hn) & Hsz & H63). rewrite <- (sim_index fs fl Hsim) in Ei.
      destruct (find_iname_Some _ _ _ Ei) as [Hi _]. destruct (wf_inode fs i Hwf Hi) as [nd E].
      destruct (sm_files fs fl Hsim i nd Hi E) as [_ Ho]. cbn [fstep]. by rewrite (m15_write_full fs nm src sz i nd) by (done || lia).
    + exists fs. destruct Hop as ((Hb & Hn) & _). rewrite <- (sim_index fs fl Hsim) in Ei. cbn [fstep].
      by rewrite m15_write_missing.
  - exists fs. split; [by apply m15_read_sim|done].
Qed.

(** The files of a state, in the order of their creation. *)
Definition ifiles (fs : m15_mcsfs1_t) : catalogue :=
  (fun i => (iname_at fs i, icontents fs i)) <$> seqZ 0 (m15_inode_count fs).

Lemma sim_ifiles fs fl : sim fs fl -> ifiles fs = fl.
Proof.
  intros Hsim. pose proof (sm_count fs fl Hsim) as Hc. apply list_eq. intros k. unfold ifiles. rewrite list_lookup_fmap.
  destruct (decide (k < length fl)%nat) as [Hk|Hk].
  - rewrite (lookup_seqZ_lt _ _ _) by (unfold zlen in Hc; lia). cbn [fmap option_fmap option_map]. rewrite Z.add_0_l.
    destruct (wf_inode fs (Z.of_nat k) (sm_wf fs fl Hsim)) as [nd E]; [unfold zlen in Hc; lia|].
    destruct (sm_files fs fl Hsim (Z.of_nat k) nd) as [El _]; [unfold zlen in Hc; lia|done|]. rewrite Nat2Z.id in El.
    rewrite El. unfold iname_at. by rewrite E.
  - rewrite (lookup_seqZ_ge _ _ _) by (unfold zlen in Hc; lia). cbn. symmetry. apply lookup_ge_None_2. lia.
Qed.

(** C14: after [m15_mcsfs1_init], whatever the memory held before, every sequence of creations, writes
    to the file created last and reads answers as a list of at most 32 named files does, error codes
    and buffers included, and leaves exactly the files of that list: none has lost a byte to another.
    A write fails for want of space when the files up to its own would reach 4096 bytes.  The names
    have fewer than 64 characters; the code does not check. *)
Theorem m15_sessions_refine raw ops :
  zlen (m15_inodes raw) = M15_MCSFS1_MAX_FILES -> zlen (m15_data raw) = M15_MCSFS1_DATA_SIZE ->
  Forall (fun nd => zlen (iname nd) = M15_MCSFS1_NAME_LEN /\ bytes (iname nd)) (m15_inodes raw) ->
  admissible astep step_ok [] ops ->
  exists fs fs', m15_mcsfs1_init raw = Ret fs /\ code_run fstep fs ops = Ret (fs', (spec_run astep [] ops).2) /\
    ifiles fs' = (spec_run astep [] ops).1.
Proof.
  intros Hl Hd Hn Hops. destruct (m15_init_packed raw Hl Hd Hn) as (fs & E & [Hwf _ _] & Hc & Hu).
  assert (sim fs []) as Hsim by (split; [done|done|lia|done]).
  destruct (session_refines astep fstep step_ok sim ops fs [] Hsim Hops) as (fs' & E' & Hs'). exists fs, fs'.
  split; [done|]. split; [done|]. by apply sim_ifiles.
Qed.

(** ** Witness *)

Definition demo_ops : list fs_op :=
  [Read [97; 0] [8; 8] 2; Create [97; 0]; Write [97; 0] [1; 2; 3] 3; Write [97; 0] [4; 5] 2; Create [98; 0];
   Write [98; 0] [6; 7; 8] 3; Read [97; 0] [0; 0; 0] 3; Read [98; 0] [0; 0; 0] 2; Write [99; 0] [1] 1;
   Write [98; 0] (replicate (Z.to_nat 4094) 0) 4094; Read [98; 0] [0; 0; 0] 3].

Lemma m15_sessions_witness :
  exists fs fs', m15_mcsfs1_init blank_m15 = Ret fs /\
    code_run fstep fs demo_ops = Ret (fs',
      [(M15_MCSFS1_ENOENT, [8; 8]); (M15_MCSFS1_OK, []); (3, []); (2, []); (M15_MCSFS1_OK, []); (3, []);
       (2, [4; 5; 0]); (2, [6; 7; 0]); (M15_MCSFS1_ENOENT, []); (M15_MCSFS1_ENOSPC, []); (3, [6; 7; 8])]) /\
    ifiles fs' = [([97], [4; 5]); ([98], [6; 7; 8])].
Proof.
  destruct (m15_sessions_refine blank_m15 demo_ops) as (fs & fs' & E & E' & Hf);
    [reflexivity|vm_compute; reflexivity|apply Forall_replicate; by_compute|by_compute|].
  exists fs, fs'. split; [exact E|]. split; [exact E'|exact Hf].
Defined.
