(* ===== verification/Console.v ===== *)
(** * Port I/O, the serial line and the log (kernel/core/serial.c, log.c, kernel/lib/serial_hex.c)

    The hardware behind the ports is a parameter: what a read of a port returns, given all the
    reads and writes made before.  The state keeps these accesses, oldest first, and the log's
    flag.  Nothing is assumed of the serial line: it may be busy for as long as it likes, and what
    the code makes of that is part of the specification. *)

From Stdlib Require Import Ascii String.
From S2P Require Import Prelude Bytes.

(** ** Data *)

(** An access to a port, with the byte read or written. *)
Inductive event : Type :=
  | PortIn (port value : Z)
  | PortOut (port value : Z).

Record con : Type := mk_con {
  trace : list event;
  g_log_ready : Z
}.

(** The writes among the accesses. *)
Fixpoint writes (t : list event) : list (Z * Z) :=
  match t with
  | [] => []
  | PortIn _ _ :: t' => writes t'
  | PortOut p v :: t' => (p, v) :: writes t'
  end.

Definition outs (k : con) : list (Z * Z) := writes (trace k).

Definition COM1_PORT : Z := 0x3F8.
Definition SERIAL_TIMEOUT_LIMIT : Z := 100000.

(** The characters of a string literal, without its terminator. *)
Fixpoint chars (s : string) : list Z :=
  match s with
  | EmptyString => []
  | String a s' => Z.of_nat (nat_of_ascii a) :: chars s'
  end.

Section console.
(** What the hardware answers to a read after the given accesses. *)
Variable env : list event -> Z -> Z.

Implicit Types (k : con) (c value : Z) (s : list Z).

(** ** Ports *)

Definition outb (k : con) (port value : Z) : con :=
  mk_con (trace k ++ [PortOut port (u8 value)]) (g_log_ready k).

Definition inb (k : con) (port : Z) : con * Z :=
  let v := u8 (env (trace k) port) in (mk_con (trace k ++ [PortIn port v]) (g_log_ready k), v).

(** ** The serial line *)

Definition serial_transmit_empty (k : con) : con * bool :=
  let '(k', v) := inb k (COM1_PORT + 5) in (k', negb (Z.land v 0x20 =? 0)).

Definition serial_init (k : con) : con :=
  let k := outb k (COM1_PORT + 1) 0x00 in
  let k := outb k (COM1_PORT + 3) 0x80 in
  let k := outb k (COM1_PORT + 0) 0x03 in
  let k := outb k (COM1_PORT + 1) 0x00 in
  let k := outb k (COM1_PORT + 3) 0x03 in
  let k := outb k (COM1_PORT + 2) 0xC7 in
  outb k (COM1_PORT + 4) 0x0B.

(** The waiting loop with [n] rounds left before the timeout; whether the line became ready. *)
Fixpoint serial_wait (n : nat) (k : con) : con * bool :=
  let '(k', ready) := serial_transmit_empty k in
  if ready then (k', true)
  else match n with
       | O | S O => (k', false)
       | S n' => serial_wait n' k'
       end.

(** One character, after the carriage return was dealt with. *)
Definition serial_putc_raw (k : con) (c : Z) : con :=
  let '(k', ready) := serial_wait (Z.to_nat SERIAL_TIMEOUT_LIMIT) k in
  if ready then outb k' COM1_PORT (u8 c) else k'.

Definition serial_putc (k : con) (c : Z) : con :=
  let k := if c =? 10 then serial_putc_raw k 13 else k in
  serial_putc_raw k c.

(** The loop of [serial_write] over the characters before the terminator. *)
Fixpoint serial_chars (k : con) (s : list Z) : con :=
  match s with
  | [] => k
  | c :: s' => serial_chars (serial_putc k c) s'
  end.

(** The argument is the array the pointer designates, [None] for a null pointer. *)
Definition serial_write (k : con) (s : option (list Z)) : exec con :=
  match s with
  | None => Ret k
  | Some a => if bool_decide (has_nul a) then Ret (serial_chars k (cstr a)) else Fault OutOfBounds
  end.

(** ** The log *)

Definition set_ready (k : con) : con := mk_con (trace k) 1.

Definition log_init (k : con) : con := set_ready (serial_init k).

Definition log_ensure (k : con) : con := if g_log_ready k =? 0 then set_ready (serial_init k) else k.

Definition log_putc (k : con) (c : Z) : con := serial_putc (log_ensure k) c.

Definition log_write (k : con) (s : option (list Z)) : exec con := serial_write (log_ensure k) s.

Definition log_writeln (k : con) (s : option (list Z)) : exec con :=
  k' ← log_write k s; Ret (log_putc k' 10).

(** A string literal as an argument. *)
Definition lit (s : string) : option (list Z) := Some (chars s ++ [0]).

Definition hex_digits : list Z := chars "0123456789abcdef" ++ [0].

Definition log_hex64 (k : con) (value : Z) : exec con :=
  k ← log_write k (lit "0x");
  for_state 16 0
    (fun j k =>
       let shift := 60 - 4 * j in
       let nibble := u8 (Z.land (Z.shiftr value shift) 0x0F) in
       d ← arr_get hex_digits nibble;
       Ret (log_putc k d)) k.

Definition log_key_value_hex64 (k : con) (key : option (list Z)) (value : Z) : exec con :=
  k ← log_write k key;
  k ← log_write k (lit "=");
  k ← log_hex64 k value;
  Ret (log_putc k 10).

(** The digit loop of [log_dec64]: the buffer, the next index and the rest of the number. *)
Fixpoint dec_digits (n : nat) (buf : list Z) (i value : Z) : exec (list Z * Z) :=
  match n with
  | O => Ret (buf, i)
  | S n' =>
      if negb (value =? 0) then
        b ← arr_set buf i (48 + value mod 10);
        dec_digits n' b (i + 1) (value / 10)
      else Ret (buf, i)
  end.

(** The loop that prints the buffer backwards. *)
Fixpoint dec_print (n : nat) (buf : list Z) (k : con) : exec con :=
  match n with
  | O => Ret k
  | S n' => d ← arr_get buf (Z.of_nat n'); dec_print n' buf (log_putc k d)
  end.

(** The buffer is 21 uninitialised bytes. *)
Definition log_dec64 (k : con) (buf : list Z) (value : Z) : exec con :=
  if value =? 0 then Ret (log_putc k 48)
  else
    '(b, i) ← dec_digits 20 buf 0 value;
    dec_print (Z.to_nat i) b k.

(** [serial_write_hex64] of kernel/lib/serial_hex.c, with its 19-byte buffer. *)
Definition upper_digits : list Z := chars "0123456789ABCDEF" ++ [0].

Definition serial_write_hex64 (k : con) (buf : list Z) (v : Z) : exec con :=
  b ← arr_set buf 0 48;
  b ← arr_set b 1 120;
  b ← for_state 16 0
        (fun i b =>
           d ← arr_get upper_digits (Z.land (Z.shiftr v (60 - i * 4)) 0xF);
           arr_set b (2 + i) d) b;
  b ← arr_set b 18 0;
  serial_write k (Some b).

(** ** Specification *)

(** What appears on the line for a text: a carriage return before every line feed. *)
Fixpoint crlf (s : list Z) : list Z :=
  match s with
  | [] => []
  | c :: s' => if c =? 10 then 13 :: 10 :: crlf s' else c :: crlf s'
  end.

(** The bytes of a text that is sent completely. *)
Definition sent (s : list Z) : list (Z * Z) := map (fun c => (COM1_PORT, u8 c)) (crlf s).

(** A read of the line status register, and the bit that says the transmitter is empty. *)
Definition poll (v : Z) : event := PortIn (COM1_PORT + 5) v.
Definition thr_empty (v : Z) : bool := negb (Z.land v 0x20 =? 0).

(** What happens on the ports for one character: it is written right after the first poll that
    finds the transmitter empty, at the latest the 100000th, or given up after as many polls. *)
Inductive attempt (c : Z) : list event -> Prop :=
  | attempt_sent bs v :
      Forall (fun b => thr_empty b = false) bs -> zlen bs < SERIAL_TIMEOUT_LIMIT -> thr_empty v = true ->
      attempt c (map poll bs ++ [poll v; PortOut COM1_PORT (u8 c)])
  | attempt_dropped bs :
      Forall (fun b => thr_empty b = false) bs -> zlen bs = SERIAL_TIMEOUT_LIMIT ->
      attempt c (map poll bs).

(** A text is one attempt after the other for its characters. *)
Definition transmits (s : list Z) (e : list event) : Prop :=
  exists es, Forall2 attempt (crlf s) es /\ e = concat es.

(** Every read among [e], made after [h], has the answer of the hardware. *)
Fixpoint answered (h e : list event) : Prop :=
  match e with
  | [] => True
  | PortIn p v :: e' => v = u8 (env h p) /\ answered (h ++ [PortIn p v]) e'
  | PortOut p v :: e' => answered (h ++ [PortOut p v]) e'
  end.

(** From [k] to [k'] the text [s] was transmitted. *)
Definition sends (k : con) (s : list Z) (k' : con) : Prop :=
  exists e, transmits s e /\ answered (trace k) e /\ k' = mk_con (trace k ++ e) (g_log_ready k).

(** A call that returns after transmitting [s]. *)
Definition logs (k : con) (s : list Z) (r : exec con) : Prop := exists k', r = Ret k' /\ sends k s k'.

(** A line that is always ready, and one that never is. *)
Definition line_ready : Prop := forall h, thr_empty (u8 (env h (COM1_PORT + 5))) = true.
Definition line_stuck : Prop := forall h, thr_empty (u8 (env h (COM1_PORT + 5))) = false.

(** ** Lemmas *)

Lemma writes_app t1 t2 : writes (t1 ++ t2) = writes t1 ++ writes t2.
Proof. induction t1 as [|[p v|p v] t1 IH]; cbn; [done|done|by rewrite IH]. Qed.

Lemma writes_polls bs : writes (map poll bs) = [].
Proof. by induction bs. Qed.

Lemma answered_app h e1 e2 : answered h (e1 ++ e2) <-> answered h e1 /\ answered (h ++ e1) e2.
Proof.
  revert h. induction e1 as [|[p v|p v] e1 IH]; intros h; cbn; [by rewrite app_nil_r; tauto|..];
    rewrite IH, <- app_assoc; cbn; tauto.
Qed.

Lemma crlf_app s1 s2 : crlf (s1 ++ s2) = crlf s1 ++ crlf s2.
Proof. induction s1 as [|c s1 IH]; cbn; [done|]. destruct (c =? 10); by rewrite IH. Qed.

Lemma u8_u8 z : u8 (u8 z) = u8 z.
Proof. unfold u8. by rewrite Zmod_mod. Qed.

Lemma outb_outs k p v : outs (outb k p v) = outs k ++ [(p, u8 v)].
Proof. unfold outs, outb. cbn. by rewrite writes_app. Qed.

Lemma inb_outs k p : outs (inb k p).1 = outs k.
Proof. unfold outs, inb. cbn. by rewrite writes_app, app_nil_r. Qed.

Lemma lit_nul (s : string) : has_nul (chars s ++ [0]).
Proof. unfold has_nul. set_solver. Qed.

(** *** Transmission *)

Lemma transmits_app s1 s2 e1 e2 : transmits s1 e1 -> transmits s2 e2 -> transmits (s1 ++ s2) (e1 ++ e2).
Proof.
  intros (es1 & H1 & ->) (es2 & H2 & ->). exists (es1 ++ es2). rewrite crlf_app, concat_app.
  split; [by apply Forall2_app|done].
Qed.

Lemma sends_nil k : sends k [] k.
Proof.
  exists []. split; [by exists []; split; [constructor|]|]. split; [done|]. destruct k. cbn. by rewrite app_nil_r.
Qed.

Lemma sends_app k k' k'' s1 s2 : sends k s1 k' -> sends k' s2 k'' -> sends k (s1 ++ s2) k''.
Proof.
  intros (e1 & T1 & A1 & ->) (e2 & T2 & A2 & ->). exists (e1 ++ e2). cbn in *. rewrite app_assoc.
  split; [by apply transmits_app|]. split; [by apply answered_app|done].
Qed.

Lemma sends_flag k s k' : sends k s k' -> g_log_ready k' = g_log_ready k.
Proof. by intros (e & _ & _ & ->). Qed.

(** Only the data port of the line is written. *)
Lemma transmits_ports s e : transmits s e -> Forall (fun pv => pv.1 = COM1_PORT) (writes e).
Proof.
  intros (es & Hes & ->). induction Hes as [|c es1 cs es H _ IH]; [constructor|]. cbn. rewrite writes_app.
  apply Forall_app_2; [|done]. destruct H as [bs v _ _ _|bs _ _]; rewrite ?writes_app, writes_polls; by repeat constructor.
Qed.

(** Nothing is lost as long as no poll finds the line busy, and nothing is sent if every poll does. *)
Lemma transmits_all s e :
  transmits s e -> (forall v, poll v ∈ e -> thr_empty v = true) -> writes e = sent s.
Proof.
  unfold sent. intros (es & Hes & ->). induction Hes as [|c e1 cs es H _ IH]; [done|]. cbn. intros Hv.
  rewrite writes_app, IH by (intros v Hin; apply Hv, elem_of_app; by right).
  assert (forall b bs, poll b ∈ map poll (b :: bs)) as Hb by (intros; cbn; by left).
  destruct H as [[|b bs] v Hbs _ _|[|b bs] Hbs Hn]; [done| |discriminate|].
  all: exfalso; apply Forall_cons_1 in Hbs as [Hf _]; rewrite Hv in Hf; [done|rewrite !elem_of_app].
  - left. left. apply Hb.
  - left. apply Hb.
Qed.

Lemma transmits_none s e :
  transmits s e -> (forall v, poll v ∈ e -> thr_empty v = false) ->
  writes e = [] /\ zlen e = SERIAL_TIMEOUT_LIMIT * zlen (crlf s).
Proof.
  intros (es & Hes & ->). induction Hes as [|c e1 cs es H _ IH]; [done|]. cbn. intros Hv.
  destruct IH as [Ew El]; [intros v Hin; apply Hv, elem_of_app; by right|]. rewrite writes_app, zlen_app, Ew, El, app_nil_r.
  destruct H as [bs v _ _ He|bs Hbs Hn].
  - rewrite Hv in He; [done|]. rewrite !elem_of_app. left. right. by left.
  - rewrite writes_polls. split; [done|]. unfold zlen in *. rewrite length_map. cbn [length]. lia.
Qed.

Lemma answered_polls h e v : answered h e -> poll v ∈ e -> exists h', v = u8 (env h' (COM1_PORT + 5)).
Proof.
  revert h. induction e as [|[p w|p w] e IH]; intros h; cbn.
  - by intros _ ?%elem_of_nil.
  - intros [-> He] [[= <- ->]|Hin]%elem_of_cons; [by eexists|by eapply IH].
  - intros He [Hx|Hin]%elem_of_cons; [done|by eapply IH].
Qed.

Lemma sends_ready k s k' : line_ready -> sends k s k' -> outs k' = outs k ++ sent s.
Proof.
  intros Hr (e & T & A & ->). unfold outs. cbn. rewrite writes_app. f_equal. apply transmits_all; [done|].
  intros v Hv. destruct (answered_polls _ _ v A Hv) as [h ->]. apply Hr.
Qed.

Lemma sends_stuck k s k' :
  line_stuck -> sends k s k' ->
  outs k' = outs k /\ zlen (trace k') = zlen (trace k) + SERIAL_TIMEOUT_LIMIT * zlen (crlf s).
Proof.
  intros Hr (e & T & A & ->). unfold outs. cbn. rewrite writes_app, zlen_app.
  destruct (transmits_none s e T) as [-> ->]; [|by rewrite app_nil_r].
  intros v Hv. destruct (answered_polls _ _ v A Hv) as [h ->]. apply Hr.
Qed.

(** *** The code *)

Lemma wait_polls n : forall k, (0 < n)%nat ->
  exists bs, Forall (fun b => thr_empty b = false) bs /\
    ((length bs < n)%nat /\ (exists v, thr_empty v = true /\ answered (trace k) (map poll bs ++ [poll v]) /\
       serial_wait n k = (mk_con (trace k ++ map poll bs ++ [poll v]) (g_log_ready k), true)) \/
     length bs = n /\ answered (trace k) (map poll bs) /\
       serial_wait n k = (mk_con (trace k ++ map poll bs) (g_log_ready k), false)).
Proof.
  induction n as [|n IH]; intros k Hn; [lia|]. cbn [serial_wait]. unfold serial_transmit_empty, inb. cbn zeta iota.
  set (v := u8 (env (trace k) (COM1_PORT + 5))). fold (thr_empty v). destruct (thr_empty v) eqn:Ev.
  - exists []. split; [constructor|]. left. split; [cbn; lia|]. by exists v.
  - destruct n as [|n].
    { exists [v]. split; [by repeat constructor|]. by right. }
    destruct (IH (mk_con (trace k ++ [poll v]) (g_log_ready k)) ltac:(lia)) as (bs & Hbs & [(Hl & w & Hw & Ha & E)|(Hl & Ha & E)]);
      change (PortIn (COM1_PORT + 5) v) with (poll v); rewrite E; exists (v :: bs); (split; [by constructor|]); cbn in *.
    + left. split; [lia|]. exists w. rewrite <- app_assoc. by split_and!.
    + right. rewrite <- app_assoc. split_and!; [lia|done..].
Qed.

Lemma putc_raw_attempt k c :
  exists e, attempt c e /\ answered (trace k) e /\ serial_putc_raw k c = mk_con (trace k ++ e) (g_log_ready k).
Proof.
  unfold serial_putc_raw.
  destruct (wait_polls (Z.to_nat SERIAL_TIMEOUT_LIMIT) k) as (bs & Hbs & [(Hl & v & Hv & Ha & ->)|(Hl & Ha & ->)]);
    [unfold SERIAL_TIMEOUT_LIMIT; lia|..].
  - exists (map poll bs ++ [poll v; PortOut COM1_PORT (u8 c)]). split; [constructor; [done| |done]|].
    { unfold zlen, SERIAL_TIMEOUT_LIMIT in *. lia. }
    split; [apply answered_app in Ha as [H1 [H2 _]]; apply answered_app; by cbn|].
    unfold outb. cbn. by rewrite u8_u8, <- !app_assoc.
  - exists (map poll bs). split; [|done]. constructor; [done|]. unfold zlen, SERIAL_TIMEOUT_LIMIT in *. lia.
Qed.

Lemma putc_sends k c : sends k [c] (serial_putc k c).
Proof.
  unfold serial_putc, sends, transmits. cbn [crlf]. destruct (c =? 10) eqn:Ec.
  - zbool. subst. destruct (putc_raw_attempt k 13) as (e1 & T1 & A1 & ->).
    destruct (putc_raw_attempt (mk_con (trace k ++ e1) (g_log_ready k)) 10) as (e2 & T2 & A2 & ->). cbn in *.
    exists (e1 ++ e2). split; [|split; [by apply answered_app|by rewrite app_assoc]].
    exists [e1; e2]. cbn. rewrite app_nil_r. split; [by repeat constructor|done].
  - destruct (putc_raw_attempt k c) as (e1 & T1 & A1 & ->). exists e1. split; [|done].
    exists [e1]. cbn. rewrite app_nil_r. split; [by repeat constructor|done].
Qed.

Lemma chars_sends s : forall k, sends k s (serial_chars k s).
Proof.
  induction s as [|c s IH]; intros k; cbn [serial_chars]; [apply sends_nil|].
  change (c :: s) with ([c] ++ s). eapply sends_app; [apply putc_sends|apply IH].
Qed.

Lemma log_putc_sends k c : g_log_ready k = 1 -> sends k [c] (log_putc k c).
Proof. intros Hl. unfold log_putc, log_ensure. rewrite Hl. apply putc_sends. Qed.

(** *** Calls of the log in sequence *)

Lemma logs_bind k s s' r (next : con -> exec con) :
  g_log_ready k = 1 -> logs k s r -> (forall k', g_log_ready k' = 1 -> logs k' s' (next k')) -> logs k (s ++ s') (r ≫= next).
Proof.
  intros Hl (k1 & -> & H1) Hn. destruct (Hn k1) as (k2 & E & H2); [by rewrite (sends_flag _ _ _ H1)|].
  exists k2. split; [exact E|by eapply sends_app].
Qed.

Lemma logs_ret k s k' : sends k s k' -> logs k s (Ret k').
Proof. intros H. by exists k'. Qed.

Lemma log_write_sends k a : g_log_ready k = 1 -> has_nul a -> logs k (cstr a) (log_write k (Some a)).
Proof.
  intros Hl Ha. unfold log_write, log_ensure, serial_write. rewrite Hl. cbn.
  rewrite bool_decide_true by done. apply logs_ret, chars_sends.
Qed.

Lemma log_writeln_sends k a : g_log_ready k = 1 -> has_nul a -> logs k (cstr a ++ [10]) (log_writeln k (Some a)).
Proof.
  intros Hl Ha. apply logs_bind; [done|by apply log_write_sends|]. intros k' Hl'. by apply logs_ret, log_putc_sends.
Qed.

(** ** Numbers *)

Definition hexval (d : Z) : Z := if d <=? 57 then d - 48 else d - 87.
Definition parse_hex (ds : list Z) : Z := foldl (fun acc d => 16 * acc + hexval d) 0 ds.
Definition parse_dec (ds : list Z) : Z := foldl (fun acc d => 10 * acc + (d - 48)) 0 ds.

Lemma hex_digit n :
  0 <= n < 16 -> exists d, arr_get hex_digits n = Ret d /\ hexval d = n /\ d <> 10.
Proof.
  intros Hn.
  assert (Forall (fun n => match arr_get hex_digits n with
                           | Ret d => hexval d = n /\ d <> 10
                           | Fault _ => False
                           end) (seqZ 0 16)) as Hall by (repeat constructor; discriminate).
  rewrite list.Forall_forall in Hall. specialize (Hall n ltac:(apply elem_of_seqZ; lia)).
  destruct (arr_get hex_digits n) as [d|]; [|done]. by exists d.
Qed.

Lemma parse_hex_snoc ds d : parse_hex (ds ++ [d]) = 16 * parse_hex ds + hexval d.
Proof. unfold parse_hex. by rewrite foldl_app. Qed.

(** Four more bits of a number. *)
Lemma shiftr_nibble v (sh : Z) :
  0 <= v -> 0 <= sh -> Z.shiftr v sh = 16 * Z.shiftr v (sh + 4) + Z.land (Z.shiftr v sh) 0x0F.
Proof.
  intros Hv Hs. change 0x0F with (Z.ones 4). rewrite Z.land_ones by lia.
  rewrite !Z.shiftr_div_pow2 by lia. rewrite Z.pow_add_r by lia.
  rewrite <- Z.div_div by (try apply Z.pow_nonzero; lia). change (2 ^ 4) with 16.
  apply Z.div_mod. lia.
Qed.

Lemma log_hex64_sends k v :
  g_log_ready k = 1 -> is_u64 v ->
  exists ds, logs k ([48; 120] ++ ds) (log_hex64 k v) /\ length ds = 16%nat /\
    Forall (fun d => d <> 10) ds /\ parse_hex ds = v.
Proof.
  intros Hl Hv. unfold is_u64 in Hv. unfold log_hex64, lit.
  destruct (log_write_sends k (chars "0x" ++ [0]) Hl (lit_nul _)) as (k0 & -> & H0). cbn [mbind exec_bind].
  change (cstr (chars "0x" ++ [0])) with [48; 120] in H0.
  edestruct (for_state_inv (fun j k' => exists ds, sends k ([48; 120] ++ ds) k' /\
      zlen ds = j /\ Forall (fun d => d <> 10) ds /\ parse_hex ds = Z.shiftr v (64 - 4 * j)))
    as (k' & E & ds & Hk & Hlen & Hp & Hval).
  3:{ exists ds. split; [by exists k'|]. split; [unfold zlen in Hlen; lia|]. split; [done|].
      rewrite Hval. apply Z.shiftr_0_r. }
  - exists []. split_and!; try done. cbn. symmetry. rewrite Z.shiftr_div_pow2 by lia. apply Z.div_small. lia.
  - cbn beta. intros j k' Hj (ds & Hk & Hlen & Hp & Hval).
    pose proof (shiftr_nibble v (60 - 4 * j) ltac:(lia) ltac:(lia)) as Hn.
    assert (0 <= Z.land (Z.shiftr v (60 - 4 * j)) 0x0F < 16) as Hr.
    { change 0x0F with (Z.ones 4). rewrite Z.land_ones by lia. apply Z.mod_pos_bound. lia. }
    rewrite u8_small by (unfold is_u8; lia).
    destruct (hex_digit _ Hr) as (d & -> & Hd & Hne). cbn [mbind exec_bind].
    eexists. split; [done|]. exists (ds ++ [d]). split.
    { rewrite app_assoc. eapply sends_app; [exact Hk|]. apply log_putc_sends. by rewrite (sends_flag _ _ _ Hk). }
    split; [rewrite zlen_app; change (zlen [d]) with 1; lia|]. split; [apply Forall_app_2; [done|by constructor]|].
    rewrite parse_hex_snoc, Hval, Hd.
    replace (64 - 4 * j) with (60 - 4 * j + 4) by lia.
    replace (64 - 4 * (j + 1)) with (60 - 4 * j) by lia. by rewrite <- Hn.
Qed.

Lemma log_key_value_sends k a v :
  g_log_ready k = 1 -> has_nul a -> is_u64 v -> exists text, logs k text (log_key_value_hex64 k (Some a) v).
Proof.
  intros Hl Ha Hv. unfold log_key_value_hex64, lit.
  destruct (log_write_sends k a Hl Ha) as (k1 & -> & H1). cbn [mbind exec_bind].
  pose proof (sends_flag _ _ _ H1) as F1. rewrite Hl in F1.
  destruct (log_write_sends k1 (chars "=" ++ [0]) F1 (lit_nul _)) as (k2 & -> & H2). cbn [mbind exec_bind].
  pose proof (sends_flag _ _ _ H2) as F2. rewrite F1 in F2.
  destruct (log_hex64_sends k2 v F2 Hv) as (ds & (k3 & -> & H3) & _). cbn [mbind exec_bind].
  eexists. apply logs_ret. do 3 (eapply sends_app; [eassumption|]). apply log_putc_sends.
  by rewrite (sends_flag _ _ _ H3).
Qed.

(** The value of decimal digits, least significant first. *)
Definition dec_value (ds : list Z) : Z := foldr (fun d acc => (d - 48) + 10 * acc) 0 ds.

Lemma parse_dec_rev ds : parse_dec (rev ds) = dec_value ds.
Proof.
  unfold parse_dec, dec_value. induction ds as [|d ds IH]; cbn; [done|].
  rewrite foldl_app. cbn. rewrite IH. lia.
Qed.

Lemma dec_digits_eq n : forall buf i v,
  0 <= i -> i + Z.of_nat n <= zlen buf -> 0 <= v < 10 ^ Z.of_nat n ->
  exists ds b, dec_digits n buf i v = Ret (b, i + zlen ds) /\ zlen b = zlen buf /\
    take (Z.to_nat (i + zlen ds)) b = take (Z.to_nat i) buf ++ ds /\
    Forall (fun d => 48 <= d <= 57) ds /\ dec_value ds = v /\ (v <> 0 -> list.last ds <> Some 48) /\
    (v = 0 -> ds = []).
Proof.
  induction n as [|n IH]; intros buf i v Hi Hlen Hv.
  - exists [], buf. cbn. rewrite app_nil_r, Z.add_0_r. split_and!; try (done || lia).
  - cbn [dec_digits]. destruct (Z.eqb_spec v 0) as [->|Hne]; cbn [negb].
    { exists [], buf. change (zlen (@nil Z)) with 0. rewrite app_nil_r, Z.add_0_r. split_and!; (done || lia). }
    rewrite arr_set_ok by lia. cbn [mbind exec_bind].
    rewrite Nat2Z.inj_succ, Z.pow_succ_r in Hv by lia.
    pose proof (Z.div_mod v 10 ltac:(lia)) as Hdm. pose proof (Z.mod_pos_bound v 10 ltac:(lia)) as Hm.
    destruct (IH (<[Z.to_nat i := 48 + v mod 10]> buf) (i + 1) (v / 10)) as (ds & b & E & Hz & Ht & Hd & Hval & Hlast & Hzero);
      [lia|rewrite zlen_insert; lia|nia|].
    rewrite zlen_insert in Hz.
    assert (zlen (48 + v mod 10 :: ds) = 1 + zlen ds) as Hzc by (unfold zlen; cbn; lia).
    exists (48 + v mod 10 :: ds), b. rewrite E, Hzc. split; [do 2 f_equal; lia|]. split; [done|].
    replace (i + (1 + zlen ds)) with (i + 1 + zlen ds) by lia. split.
    { rewrite Ht. replace (Z.to_nat (i + 1)) with (S (Z.to_nat i)) by lia.
      erewrite take_S_r by (apply list_lookup_insert_eq; unfold zlen in *; lia).
      rewrite take_insert_ge, <- app_assoc by lia. done. }
    split; [constructor; [lia|done]|]. split; [cbn; fold (dec_value ds); lia|]. split; [|lia].
    intros _. destruct (decide (v / 10 = 0)) as [H0|H0].
    + rewrite (Hzero H0). cbn. intros [= Hx]. lia.
    + rewrite list.last_cons. specialize (Hlast H0). destruct (list.last ds) eqn:El; [done|].
      apply list.last_None in El. rewrite El in Hval. cbn in Hval. lia.
Qed.

Lemma dec_print_sends n : forall buf k,
  g_log_ready k = 1 -> (n <= length buf)%nat -> logs k (rev (take n buf)) (dec_print n buf k).
Proof.
  induction n as [|n IH]; intros buf k Hl Hn; cbn [dec_print]; [apply logs_ret, sends_nil|].
  destruct (lookup_lt_is_Some_2 buf n) as [d E]; [lia|].
  assert (arr_get buf (Z.of_nat n) = Ret d) as -> by (apply arr_get_Ret; rewrite Nat2Z.id; split; [lia|done]).
  cbn [mbind exec_bind]. erewrite take_S_r by done. rewrite rev_app_distr.
  pose proof (log_putc_sends k d Hl) as H1.
  destruct (IH buf (log_putc k d)) as (k2 & E2 & H2); [by rewrite (sends_flag _ _ _ H1)|lia|].
  exists k2. split; [done|]. by apply (sends_app k (log_putc k d) k2 [d]).
Qed.

(** A buffer filled by the digit loop, printed. *)
Lemma dec_loops_send n buf k v :
  g_log_ready k = 1 -> Z.of_nat n <= zlen buf -> 0 < v < 10 ^ Z.of_nat n ->
  exists ds, logs k ds ('(b, i) ← dec_digits n buf 0 v; dec_print (Z.to_nat i) b k) /\
    Forall (fun d => 48 <= d <= 57) ds /\ parse_dec ds = v /\ ds <> [] /\ list.head ds <> Some 48.
Proof.
  intros Hl Hn Hv.
  destruct (dec_digits_eq n buf 0 v) as (ds & b & -> & Hzb & Ht & Hd & Hval & Hlast & _); [lia|lia|lia|].
  pose proof (zlen_nonneg ds). cbn [mbind exec_bind]. rewrite Z.add_0_l in *.
  assert (length ds <= length b)%nat as Hle.
  { apply (f_equal length) in Ht. rewrite length_take, length_app in Ht. unfold zlen in *. cbn in Ht. lia. }
  pose proof (dec_print_sends (Z.to_nat (zlen ds)) b k Hl ltac:(unfold zlen; lia)) as Hp. rewrite Ht in Hp. cbn [take app Z.to_nat] in Hp.
  exists (rev ds). split; [done|]. split; [by apply Forall_rev|]. split; [by rewrite parse_dec_rev|].
  assert (ds <> []) as Hnil by (intros ->; cbn in Hval; lia). split.
  + intros Hr. apply Hnil. by rewrite <- (rev_involutive ds), Hr.
  + destruct (exists_last Hnil) as (ds' & d & ->). rewrite rev_app_distr. cbn.
    specialize (Hlast ltac:(lia)). by rewrite list.last_snoc in Hlast.
Qed.

Lemma log_dec64_sends k buf v :
  g_log_ready k = 1 -> is_u64 v -> zlen buf = 21 ->
  exists ds, logs k ds (log_dec64 k buf v) /\ Forall (fun d => 48 <= d <= 57) ds /\
    parse_dec ds = v /\ ds <> [] /\ (v <> 0 -> list.head ds <> Some 48).
Proof.
  intros Hl Hv Hz. unfold log_dec64. destruct (Z.eqb_spec v 0) as [->|Hne].
  - exists [48]. split; [by apply logs_ret, log_putc_sends|]. split_and!; try done. constructor; [lia|done].
  - unfold is_u64 in Hv. destruct (dec_loops_send 20 buf k v Hl) as (ds & H1 & H2 & H3 & H4 & H5); [lia|lia|].
    by exists ds.
Qed.

(** ** Theorems *)

(** C32: what a string becomes on the serial line, whatever the line does.  Writing it always returns.
    Each character in turn, with a carriage return before every line feed, is written right after
    the first poll that finds the transmitter empty, or given up after 100000 polls that find it
    busy; nothing else is accessed.  So on a line that is always ready exactly the string is sent,
    and on one that never is nothing, after 100000 polls for each character.  A null pointer is
    ignored. *)
Theorem serial_write_delivers k a :
  has_nul a ->
  serial_write k None = Ret k /\
  exists k', serial_write k (Some a) = Ret k' /\ sends k (cstr a) k' /\
    (line_ready -> outs k' = outs k ++ sent (cstr a)) /\
    (line_stuck -> outs k' = outs k /\ zlen (trace k') = zlen (trace k) + SERIAL_TIMEOUT_LIMIT * zlen (crlf (cstr a))).
Proof.
  intros Ha. split; [done|]. unfold serial_write. rewrite bool_decide_true by done.
  pose proof (chars_sends (cstr a) k) as H. eexists. split; [done|]. split; [done|].
  split; intros Hl; [by apply sends_ready|by apply sends_stuck].
Qed.

(** C33: numbers printed by the log can be read back.  [log_hex64] transmits [0x] and sixteen digits
    whose value is the argument, and [log_dec64] the decimal digits of the argument without
    leading zeros, inside its buffer; on a line that is always ready all of them are sent. *)
Theorem log_numbers_roundtrip k buf v :
  g_log_ready k = 1 -> is_u64 v -> zlen buf = 21 ->
  (exists ds k', log_hex64 k v = Ret k' /\ sends k ([48; 120] ++ ds) k' /\
     (line_ready -> outs k' = outs k ++ sent ([48; 120] ++ ds)) /\
     length ds = 16%nat /\ Forall (fun d => d <> 10) ds /\ parse_hex ds = v) /\
  (exists ds k', log_dec64 k buf v = Ret k' /\ sends k ds k' /\ (line_ready -> outs k' = outs k ++ sent ds) /\
     Forall (fun d => 48 <= d <= 57) ds /\ parse_dec ds = v /\ ds <> [] /\ (v <> 0 -> list.head ds <> Some 48)).
Proof.
  intros Hl Hv Hz. destruct (log_hex64_sends k v Hl Hv) as (ds & (k1 & E1 & H1) & Hx).
  destruct (log_dec64_sends k buf v Hl Hv Hz) as (ds2 & (k2 & E2 & H2) & Hx2). split.
  - exists ds, k1. split; [done|]. split; [done|]. split; [intros Hr; by apply sends_ready|done].
  - exists ds2, k2. split; [done|]. split; [done|]. split; [intros Hr; by apply sends_ready|done].
Qed.
End console.

(** ** Witnesses *)

(** A line whose status register always reads 0x20, and one that reads 0. *)
Definition ready_env (h : list event) (port : Z) : Z := 0x20.
Definition stuck_env (h : list event) (port : Z) : Z := 0.

Lemma ready_env_ok : line_ready ready_env.
Proof. intros h. reflexivity. Qed.

Lemma stuck_env_ok : line_stuck stuck_env.
Proof. intros h. reflexivity. Qed.

Lemma serial_write_witness :
  (exists k', serial_write ready_env (mk_con [] 1) (Some [104; 10; 0]) = Ret k' /\
     outs k' = [(0x3F8, 104); (0x3F8, 13); (0x3F8, 10)]) /\
  (exists k', serial_write stuck_env (mk_con [] 1) (Some [104; 0]) = Ret k' /\ outs k' = []).
Proof.
  split.
  - destruct (serial_write_delivers ready_env (mk_con [] 1) [104; 10; 0]) as (_ & k' & E & _ & H & _); [by_compute|].
    exists k'. split; [exact E|exact (H ready_env_ok)].
  - destruct (serial_write_delivers stuck_env (mk_con [] 1) [104; 0]) as (_ & k' & E & _ & _ & H); [by_compute|].
    destruct (H stuck_env_ok) as (Ho & _). exists k'. split; [exact E|exact Ho].
Defined.

Lemma log_numbers_witness :
  exists ds k', log_dec64 ready_env (mk_con [] 1) (replicate 21 7) 260502 = Ret k' /\ outs k' = sent ds /\
    parse_dec ds = 260502.
Proof.
  destruct (log_numbers_roundtrip ready_env (mk_con [] 1) (replicate 21 7) 260502) as [_ (ds & k' & E & _ & Ho & _ & H & _)];
    [reflexivity|by_compute|reflexivity|].
  exists ds, k'. split; [exact E|]. split; [exact (Ho ready_env_ok)|exact H].
Defined.
