(* ===== verification/Irq.v ===== *)
(** * Interrupt controller, timer and descriptor table (kernel/arch/x86_64/pic.c, pit.c, idt.c)

    The controllers are driven through the ports of [Console]; the interrupt descriptor table is
    an array of gates. *)

From Stdlib Require Import String.
From S2P Require Import Prelude Bytes Console.

Section irq.
Variable env : list event -> Z -> Z.

(** ** The 8259 interrupt controllers *)

Definition PIC_MASTER_OFFSET : Z := 0x20.
Definition PIC_SLAVE_OFFSET : Z := 0x28.
Definition PIC1_COMMAND : Z := 0x20.
Definition PIC1_DATA : Z := 0x21.
Definition PIC2_COMMAND : Z := 0xA0.
Definition PIC2_DATA : Z := 0xA1.
Definition PIC_EOI : Z := 0x20.

Definition io_wait (k : con) : con := outb k 0x80 0.

Definition pic_remap (k : con) (master_offset slave_offset : Z) : con :=
  let '(k, master_mask) := inb env k PIC1_DATA in
  let '(k, slave_mask) := inb env k PIC2_DATA in
  let k := io_wait (outb k PIC1_COMMAND 0x11) in
  let k := io_wait (outb k PIC2_COMMAND 0x11) in
  let k := io_wait (outb k PIC1_DATA master_offset) in
  let k := io_wait (outb k PIC2_DATA slave_offset) in
  let k := io_wait (outb k PIC1_DATA 0x04) in
  let k := io_wait (outb k PIC2_DATA 0x02) in
  let k := io_wait (outb k PIC1_DATA 0x01) in
  let k := io_wait (outb k PIC2_DATA 0x01) in
  let k := outb k PIC1_DATA master_mask in
  outb k PIC2_DATA slave_mask.

Definition pic_mask_all (k : con) : con := outb (outb k PIC1_DATA 0xFF) PIC2_DATA 0xFF.

Definition pic_unmask_irq (k : con) (irq : Z) : con :=
  let '(port, line) := if irq <? 8 then (PIC1_DATA, irq) else (PIC2_DATA, u8 (irq - 8)) in
  let '(k, mask) := inb env k port in
  let mask := u8 (Z.land mask (u8 (Z.lnot (Z.shiftl 1 line)))) in
  outb k port mask.

Definition pic_send_eoi (k : con) (irq : Z) : con :=
  let k := if 8 <=? irq then outb k PIC2_COMMAND PIC_EOI else k in
  outb k PIC1_COMMAND PIC_EOI.

Definition pic_read_master_mask (k : con) : con * Z := inb env k PIC1_DATA.
Definition pic_read_slave_mask (k : con) : con * Z := inb env k PIC2_DATA.

(** ** The 8254 timer *)

Definition PIT_BASE_FREQUENCY_HZ : Z := 1193182.
Definition PIT_CHANNEL0 : Z := 0x40.
Definition PIT_COMMAND : Z := 0x43.

Definition pit_divisor (hz : Z) : Z :=
  let hz := if hz =? 0 then 100 else hz in
  let divisor := PIT_BASE_FREQUENCY_HZ / hz in
  let divisor := if divisor =? 0 then 1 else divisor in
  if 0xFFFF <? divisor then 0xFFFF else divisor.

Definition pit_configure_hz (k : con) (hz : Z) : con :=
  let divisor := pit_divisor hz in
  let k := outb k PIT_COMMAND 0x36 in
  let k := outb k PIT_CHANNEL0 (u8 (Z.land divisor 0xFF)) in
  outb k PIT_CHANNEL0 (u8 (Z.land (Z.shiftr divisor 8) 0xFF)).

(** The tick counter [g_ticks] is passed and returned; [buf] is the uninitialised buffer of
    [log_dec64]. *)
Definition timer_ticks (g_ticks : Z) : Z := g_ticks.

Definition timer_on_irq0 (k : con) (buf : list Z) (g_ticks : Z) : exec (con * Z) :=
  let t := u64 (g_ticks + 1) in
  if t mod 100 =? 0 then
    k ← log_write env k (lit "[MCSOS:TIMER] ticks=");
    k ← log_dec64 env k buf t;
    k ← log_writeln env k (lit "");
    Ret (k, t)
  else Ret (k, t).

(** ** The interrupt descriptor table *)

Definition X86_64_IDT_VECTOR_COUNT : Z := 256.
Definition X86_64_KERNEL_CODE_SELECTOR : Z := 0x28.
Definition X86_64_IDT_GATE_INTERRUPT : Z := 0x8E.
Definition X86_64_IDT_GATE_TRAP : Z := 0x8F.

Record x86_64_idt_entry_t : Type := mk_gate {
  offset_low : Z;
  selector : Z;
  ist : Z;
  type_attributes : Z;
  offset_mid : Z;
  offset_high : Z;
  reserved : Z
}.

Record x86_64_idtr_t : Type := mk_idtr {
  limit : Z;
  base : Z
}.

Definition gate (handler attrs : Z) : x86_64_idt_entry_t :=
  mk_gate (u16 (Z.land handler 0xFFFF)) (u16 X86_64_KERNEL_CODE_SELECTOR) 0 attrs
    (u16 (Z.land (Z.shiftr handler 16) 0xFFFF)) (u32 (Z.land (Z.shiftr handler 32) 0xFFFFFFFF)) 0.

Definition x86_64_idt_set_gate (idt : list x86_64_idt_entry_t) (vector handler attrs : Z)
  : exec (list x86_64_idt_entry_t) :=
  arr_set idt vector (gate handler attrs).

(** The two loops of [x86_64_idt_init]; [stubs] is the array of the assembly file. *)
Definition idt_fill (stubs : list Z) (idt : list x86_64_idt_entry_t) : exec (list x86_64_idt_entry_t) :=
  idt ← for_state (Z.to_nat X86_64_IDT_VECTOR_COUNT) 0
          (fun i idt => x86_64_idt_set_gate idt (u8 i) 0 0) idt;
  for_state 48 0
    (fun v idt =>
       let gate_type := if v =? 3 then X86_64_IDT_GATE_TRAP else X86_64_IDT_GATE_INTERRUPT in
       s ← arr_get stubs v;
       x86_64_idt_set_gate idt v s gate_type) idt.

(** The table, the register loaded, and the log; [base] is the address of the table.  The two
    assertions compare constants of the layout and hold. *)
Definition x86_64_idt_init (k : con) (stubs : list Z) (idt : list x86_64_idt_entry_t) (base : Z)
  : exec (con * list x86_64_idt_entry_t * x86_64_idtr_t) :=
  idt ← idt_fill stubs idt;
  let idtr := mk_idtr (u16 (16 * X86_64_IDT_VECTOR_COUNT - 1)) base in
  k ← log_key_value_hex64 env k (lit "idt_base") base;
  k ← log_key_value_hex64 env k (lit "idt_limit") (limit idtr);
  k ← log_writeln env k (lit "[M4] IDT loaded");
  Ret (k, idt, idtr).

(** ** What the hardware makes of them *)

(** The handler address a gate designates. *)
Definition gate_handler (g : x86_64_idt_entry_t) : Z :=
  offset_low g + Z.shiftl (offset_mid g) 16 + Z.shiftl (offset_high g) 32.

Lemma gate_roundtrip handler attrs : is_u64 handler -> gate_handler (gate handler attrs) = handler.
Proof.
  unfold is_u64. intros Hh. unfold gate_handler, gate. cbn [offset_low offset_mid offset_high].
  change 0xFFFFFFFF with (Z.ones 32). change 0xFFFF with (Z.ones 16).
  rewrite !Z.land_ones, !Z.shiftr_div_pow2, !Z.shiftl_mul_pow2 by lia. unfold u16, u32.
  rewrite !Zmod_mod. change (2 ^ 32) with (2 ^ 16 * 2 ^ 16). rewrite <- Z.div_div by lia.
  set (q := handler / 2 ^ 16). assert (0 <= q < 2 ^ 48) as Hq.
  { unfold q. split; [apply Z.div_pos; lia|apply Z.div_lt_upper_bound; lia]. }
  pose proof (Z.div_mod handler (2 ^ 16) ltac:(lia)) as H1. fold q in H1.
  pose proof (Z.div_mod q (2 ^ 16) ltac:(lia)) as H2.
  rewrite (Z.mod_small (q / 2 ^ 16)); [lia|].
  split; [apply Z.div_pos; lia|apply Z.div_lt_upper_bound; lia].
Qed.

Lemma idt_fill_spec stubs idt :
  zlen stubs = 48 -> zlen idt = X86_64_IDT_VECTOR_COUNT ->
  exists idt', idt_fill stubs idt = Ret idt' /\ zlen idt' = X86_64_IDT_VECTOR_COUNT /\
    (forall v s, 0 <= v < 48 -> arr_get stubs v = Ret s ->
       arr_get idt' v = Ret (gate s (if v =? 3 then X86_64_IDT_GATE_TRAP else X86_64_IDT_GATE_INTERRUPT))) /\
    (forall v, 48 <= v < 256 -> arr_get idt' v = Ret (gate 0 0)).
Proof.
  intros Hs Hz. unfold idt_fill, x86_64_idt_set_gate, X86_64_IDT_VECTOR_COUNT in *.
  edestruct (for_state_inv (fun i l => zlen l = 256 /\ forall v, 0 <= v < i -> arr_get l v = Ret (gate 0 0)))
    as (l & -> & Hzl & Hl); [split; [exact Hz|lia]| |].
  { cbn beta. intros j l Hj [Hzl Hl]. rewrite u8_small by (unfold is_u8; lia). rewrite arr_set_ok by lia.
    eexists. split; [done|]. split; [by rewrite zlen_insert|]. intros v Hv. rewrite arr_get_insert by lia.
    destruct (Z.eqb_spec j v); [done|]. apply Hl. lia. }
  cbn [mbind exec_bind].
  edestruct (for_state_inv (fun i m => zlen m = 256 /\ (forall v, i <= v < 256 -> arr_get m v = Ret (gate 0 0)) /\
    forall v s, 0 <= v < i -> arr_get stubs v = Ret s ->
      arr_get m v = Ret (gate s (if v =? 3 then X86_64_IDT_GATE_TRAP else X86_64_IDT_GATE_INTERRUPT))))
    as (m & E & Hzm & Hhi & Hlo); [| |exists m; split; [exact E|]; split_and!; [done|apply Hlo|apply Hhi]].
  - split_and!; [done| |lia]. intros v Hv. apply Hl. lia.
  - cbn beta. intros j m Hj (Hzm & Hhi & Hlo). destruct (arr_get_ok stubs j) as [s E]; [lia|].
    rewrite E. cbn [mbind exec_bind]. rewrite arr_set_ok by lia. eexists. split; [done|].
    split; [by rewrite zlen_insert|]. split.
    + intros v Hv. rewrite arr_get_insert_ne by lia. apply Hhi. lia.
    + intros v x Hv Ex. rewrite arr_get_insert by lia. destruct (Z.eqb_spec j v) as [<-|]; [congruence|].
      apply Hlo; [lia|done].
Qed.

(** One bit of a byte cleared. *)
Lemma unmask_bits mask line b :
  0 <= line < 8 -> 0 <= b < 8 ->
  Z.testbit (u8 (Z.land mask (u8 (Z.lnot (Z.shiftl 1 line))))) b = Z.testbit mask b && negb (b =? line).
Proof.
  intros Hl Hb. unfold u8. rewrite Z.mod_pow2_bits_low, Z.land_spec, Z.mod_pow2_bits_low by lia.
  rewrite Z.lnot_spec, Z.shiftl_1_l, Z.pow2_bits_eqb by lia. by rewrite Z.eqb_sym.
Qed.

Lemma pit_divisor_range hz :
  is_u32 hz -> 1 <= pit_divisor hz <= 0xFFFF /\
  (19 <= hz <= PIT_BASE_FREQUENCY_HZ -> pit_divisor hz = PIT_BASE_FREQUENCY_HZ / hz).
Proof.
  unfold is_u32. intros Hz. unfold pit_divisor, PIT_BASE_FREQUENCY_HZ. cbn zeta.
  set (h := if hz =? 0 then 100 else hz).
  assert (0 < h) as Hh by (unfold h; destruct (Z.eqb_spec hz 0); lia).
  pose proof (Z.div_pos 1193182 h ltac:(lia) Hh) as Hd. split.
  - destruct (Z.eqb_spec (1193182 / h) 0); [destruct (Z.ltb_spec 0xFFFF 1); lia|].
    destruct (Z.ltb_spec 0xFFFF (1193182 / h)); lia.
  - intros Hr. assert (h = hz) as -> by (unfold h; destruct (Z.eqb_spec hz 0); lia).
    assert (1 <= 1193182 / hz) by (apply Z.div_le_lower_bound; lia).
    assert (1193182 / hz <= 0xFFFF) by (apply Z.div_le_upper_bound; lia).
    rewrite (proj2 (Z.eqb_neq _ _)) by lia. by rewrite (proj2 (Z.ltb_ge _ _)) by lia.
Qed.

Lemma idt_init_ok k stubs idt :
  zlen stubs = 48 -> Forall is_u64 stubs -> zlen idt = X86_64_IDT_VECTOR_COUNT ->
  exists idt', idt_fill stubs idt = Ret idt' /\
    (forall v s, 0 <= v < 48 -> arr_get stubs v = Ret s ->
       exists g, arr_get idt' v = Ret g /\ gate_handler g = s /\
         selector g = X86_64_KERNEL_CODE_SELECTOR /\
         type_attributes g = if v =? 3 then X86_64_IDT_GATE_TRAP else X86_64_IDT_GATE_INTERRUPT) /\
    (forall v, 48 <= v < 256 -> exists g, arr_get idt' v = Ret g /\ type_attributes g = 0) /\
    (g_log_ready k = 1 -> forall b, is_u64 b ->
       exists k', x86_64_idt_init k stubs idt b = Ret (k', idt', mk_idtr 4095 b) /\
         exists text, sends env k text k').
Proof.
  intros Hs Hu Hz. destruct (idt_fill_spec stubs idt Hs Hz) as (idt' & E & _ & Hlo & Hhi).
  exists idt'. split; [done|]. split_and!.
  - intros v s Hv Es. eexists. split; [by apply Hlo|]. split; [|done].
    apply gate_roundtrip. by apply (Forall_arr_get _ _ _ _ Hu Es).
  - intros v Hv. eexists. split; [by apply Hhi|done].
  - intros Hl b Hb. unfold x86_64_idt_init, lit. rewrite E. cbn [mbind exec_bind].
    destruct (log_key_value_sends env k _ b Hl (lit_nul "idt_base") Hb) as (t1 & k1 & -> & H1). cbn [mbind exec_bind limit].
    change (u16 (16 * X86_64_IDT_VECTOR_COUNT - 1)) with 4095. pose proof (sends_flag _ _ _ _ H1) as F1. rewrite Hl in F1.
    destruct (log_key_value_sends env k1 _ 4095 F1 (lit_nul "idt_limit")) as (t2 & k2 & -> & H2); [by_compute|].
    cbn [mbind exec_bind]. pose proof (sends_flag _ _ _ _ H2) as F2. rewrite F1 in F2.
    destruct (log_writeln_sends env k2 _ F2 (lit_nul "[M4] IDT loaded")) as (k3 & -> & H3). cbn [mbind exec_bind].
    eexists. split; [done|]. eexists. do 2 (eapply sends_app; [eassumption|]). exact H3.
Qed.

(** ** Theorems *)

(** C34: after initialisation every vector below 48 leads to its stub, through an interrupt gate
    except for the breakpoint's trap gate, and every other vector is empty, that of the system call
    (0x80) among them: the three parts of each gate's offset put together are the address of the
    stub. *)
Theorem x86_64_idt_init_installs k stubs idt :
  zlen stubs = 48 -> Forall is_u64 stubs -> zlen idt = X86_64_IDT_VECTOR_COUNT ->
  exists idt', idt_fill stubs idt = Ret idt' /\
    (forall v s, 0 <= v < 48 -> arr_get stubs v = Ret s ->
       exists g, arr_get idt' v = Ret g /\ gate_handler g = s /\
         selector g = X86_64_KERNEL_CODE_SELECTOR /\
         type_attributes g = if v =? 3 then X86_64_IDT_GATE_TRAP else X86_64_IDT_GATE_INTERRUPT) /\
    (forall v, 48 <= v < 256 -> exists g, arr_get idt' v = Ret g /\ type_attributes g = 0) /\
    (g_log_ready k = 1 -> forall b, is_u64 b ->
       exists k', x86_64_idt_init k stubs idt b = Ret (k', idt', mk_idtr 4095 b) /\
         exists text, sends env k text k').
Proof. apply idt_init_ok. Qed.

(** What reaches the controllers and the timer.  An end of interrupt goes to the slave exactly for
    its lines, and always to the master; unmasking a line clears its bit of the mask just read
    and no other; the two bytes written to the timer are the divisor, which is the base
    frequency divided by the rate, between 1 and 65535. *)
Theorem pic_pit_outputs k irq hz :
  0 <= irq < 16 -> is_u32 hz ->
  outs (pic_send_eoi k irq)
  = outs k ++ (if 8 <=? irq then [(0xA0, 0x20)] else []) ++ [(0x20, 0x20)] /\
  (exists port mask, (port = if irq <? 8 then 0x21 else 0xA1) /\ mask = u8 (env (trace k) port) /\
     exists m, outs (pic_unmask_irq k irq) = outs k ++ [(port, m)] /\
       forall b, 0 <= b < 8 -> Z.testbit m b = Z.testbit mask b && negb (b =? irq mod 8)) /\
  (exists lo hi, outs (pit_configure_hz k hz) = outs k ++ [(0x43, 0x36); (0x40, lo); (0x40, hi)] /\
     lo + 256 * hi = pit_divisor hz /\ 1 <= pit_divisor hz <= 0xFFFF /\
     (19 <= hz <= PIT_BASE_FREQUENCY_HZ -> pit_divisor hz = PIT_BASE_FREQUENCY_HZ / hz)).
Proof.
  intros Hi Hz. split_and!.
  - unfold pic_send_eoi. destruct (8 <=? irq); rewrite !outb_outs; [by rewrite <- app_assoc|done].
  - eexists _, _. split; [reflexivity|]. split; [reflexivity|]. unfold pic_unmask_irq.
    destruct (Z.ltb_spec irq 8) as [Hlt|Hge]; unfold inb; cbn zeta iota; eexists; rewrite outb_outs, u8_u8;
      unfold outs; cbn [trace]; rewrite writes_app, app_nil_r; (split; [reflexivity|]); intros b Hb.
    + rewrite unmask_bits by lia. by rewrite (Z.mod_small irq) by lia.
    + rewrite (u8_small (irq - 8)) by (unfold is_u8; lia). rewrite unmask_bits by lia.
      replace (irq mod 8) with (irq - 8); [done|]. rewrite <- (Z_mod_plus_full irq (-1) 8), Z.mod_small; lia.
  - destruct (pit_divisor_range hz Hz) as [Hd Hx]. unfold pit_configure_hz. cbn zeta. rewrite !outb_outs.
    eexists _, _. rewrite <- !app_assoc. split; [reflexivity|]. split_and!; try (done || lia).
    rewrite !u8_u8. change 0xFF with (Z.ones 8). rewrite !Z.land_ones, Z.shiftr_div_pow2 by lia.
    unfold u8. rewrite !Zmod_mod.
    assert (0 <= pit_divisor hz / 2 ^ 8 < 2 ^ 8) as Hq
      by (split; [apply Z.div_pos; lia|apply Z.div_lt_upper_bound; lia]).
    rewrite (Z.mod_small (pit_divisor hz / 2 ^ 8)) by lia.
    pose proof (Z.div_mod (pit_divisor hz) (2 ^ 8) ltac:(lia)). lia.
Qed.
End irq.

(** ** Witnesses *)

Lemma x86_64_idt_init_witness :
  exists idt', idt_fill (seqZ 0x1000 48) (replicate 256 (gate 7 7)) = Ret idt' /\
    exists g, arr_get idt' 14 = Ret g /\ gate_handler g = 0x100E /\ type_attributes g = 0x8E.
Proof.
  destruct (x86_64_idt_init_installs ready_env (mk_con [] 1) (seqZ 0x1000 48) (replicate 256 (gate 7 7)))
    as (idt' & E & H & _); [reflexivity|by_compute|reflexivity|].
  exists idt'. split; [exact E|]. destruct (H 14 0x100E ltac:(lia) eq_refl) as (g & Eg & Hh & _ & Ht).
  exists g. split; [exact Eg|]. split; [exact Hh|exact Ht].
Defined.

Lemma pic_pit_outputs_witness :
  outs (pic_send_eoi (mk_con [] 1) 8) = [(0xA0, 0x20); (0x20, 0x20)].
Proof. apply (pic_pit_outputs ready_env (mk_con [] 1) 8 100); by_compute. Defined.
