(* ===== verification/Pic.v ===== *)
(** * What the interrupt controllers make of the writes (kernel/arch/x86_64/pic.c)

    The 8259 as its data sheet describes it, as a function of the writes to its two ports, and
    the effect of [Irq]'s port sequences on the pair of chips. *)

From S2P Require Import Prelude Console Irq.

(** ** The chip *)

(** The words of an initialisation that a chip still waits for at its data port. *)
Inductive init_word : Type :=
  | ICW2
  | ICW3
  | ICW4.

Record chip : Type := mk_chip {
  imr : Z;
  voffset : Z;
  expects : list init_word
}.

(** A command with bit 4 set starts an initialisation: it clears the mask, and its bits 1 and 0
    say whether ICW3 and ICW4 follow.  Other commands leave mask and offset alone. *)
Definition command (v : Z) (c : chip) : chip :=
  if Z.testbit v 4 then
    mk_chip 0 (voffset c)
      (ICW2 :: (if Z.testbit v 1 then [] else [ICW3]) ++ (if Z.testbit v 0 then [ICW4] else []))
  else c.

(** Data answer the initialisation, and set the mask when there is none. *)
Definition data (v : Z) (c : chip) : chip :=
  match expects c with
  | [] => mk_chip (u8 v) (voffset c) []
  | ICW2 :: r => mk_chip (imr c) (Z.land v 0xF8) r
  | ICW3 :: r | ICW4 :: r => mk_chip (imr c) (voffset c) r
  end.

(** One write to a port, seen by the chip at [cmd] and [dat]. *)
Definition chip_write (cmd dat : Z) (c : chip) (w : Z * Z) : chip :=
  if w.1 =? cmd then command w.2 c else if w.1 =? dat then data w.2 c else c.

Definition chip_after (cmd dat : Z) (o : list (Z * Z)) : chip :=
  foldl (chip_write cmd dat) (mk_chip 0 0 []) o.

Definition master : list (Z * Z) -> chip := chip_after PIC1_COMMAND PIC1_DATA.
Definition slave : list (Z * Z) -> chip := chip_after PIC2_COMMAND PIC2_DATA.

(** A read of the data port of a chip that is not being initialised returns its mask. *)
Definition pics_answer (env : list event -> Z -> Z) : Prop :=
  forall h, (expects (master (writes h)) = [] -> u8 (env h PIC1_DATA) = imr (master (writes h))) /\
            (expects (slave (writes h)) = [] -> u8 (env h PIC2_DATA) = imr (slave (writes h))).

(** A line is enabled when its bit of the mask is clear. *)
Definition enabled (o : list (Z * Z)) (irq : Z) : bool :=
  negb (if irq <? 8 then Z.testbit (imr (master o)) irq else Z.testbit (imr (slave o)) (irq - 8)).

(** ** Lemmas *)

Lemma chip_after_app cmd dat o w :
  chip_after cmd dat (o ++ w) = foldl (chip_write cmd dat) (chip_after cmd dat o) w.
Proof. unfold chip_after. apply foldl_app. Qed.

Lemma imr_byte cmd dat o : is_u8 (imr (chip_after cmd dat o)).
Proof.
  induction o as [|w o IH] using rev_ind; [by_compute|]. rewrite chip_after_app. cbn.
  set (c := chip_after cmd dat o) in *. unfold chip_write.
  destruct (w.1 =? cmd); [|destruct (w.1 =? dat); [|done]].
  - unfold command. destruct (Z.testbit _ _); [by_compute|done].
  - unfold data. destruct (expects c) as [|[] r]; cbn; [apply Z.mod_pos_bound; lia|done..].
Qed.

(** Writes to other ports do not reach a chip. *)
Lemma chip_after_other cmd dat o w :
  Forall (fun pv => pv.1 <> cmd /\ pv.1 <> dat) w -> chip_after cmd dat (o ++ w) = chip_after cmd dat o.
Proof.
  intros Hw. rewrite chip_after_app. generalize (chip_after cmd dat o). induction Hw as [|x w [H1 H2] _ IH]; intros c; [done|].
  cbn. unfold chip_write at 2. rewrite (proj2 (Z.eqb_neq _ _) H1), (proj2 (Z.eqb_neq _ _) H2). apply IH.
Qed.

(** Two histories that leave both chips the same. *)
Definition same_chips (o o' : list (Z * Z)) : Prop := master o' = master o /\ slave o' = slave o.

Lemma same_chips_other o w :
  Forall (fun pv => pv.1 ∉ [0x20; 0x21; 0xA0; 0xA1]) w -> same_chips o (o ++ w).
Proof.
  intros Hw. split; apply chip_after_other; eapply list.Forall_impl; [exact Hw| |exact Hw|]; cbn; intros [q x]; cbn;
    unfold PIC1_COMMAND, PIC1_DATA, PIC2_COMMAND, PIC2_DATA; set_solver.
Qed.

Lemma sends_chips env k t k' : sends env k t k' -> same_chips (outs k) (outs k').
Proof.
  intros (e & T & _ & ->). unfold outs. cbn [trace]. rewrite writes_app. apply same_chips_other.
  eapply list.Forall_impl; [by eapply transmits_ports|]. intros [q x]. cbn. intros ->. unfold COM1_PORT. set_solver.
Qed.

(** An end of interrupt starts no initialisation. *)
Lemma eoi_chips k irq : same_chips (outs k) (outs (pic_send_eoi k irq)).
Proof.
  unfold pic_send_eoi. destruct (8 <=? irq); rewrite !outb_outs; unfold same_chips, master, slave; rewrite !chip_after_app; done.
Qed.

Section programming.
Variable env : list event -> Z -> Z.
Hypothesis Hpics : pics_answer env.
Implicit Types (k : con).

(** The masks read at the start of a remapping, and its writes. *)
Definition master_read k : Z := (inb env k PIC1_DATA).2.
Definition slave_read k : Z := (inb env (inb env k PIC1_DATA).1 PIC2_DATA).2.

Lemma remap_outs k m s :
  outs (pic_remap env k m s) = outs k ++
    [(0x20, 0x11); (0x80, 0); (0xA0, 0x11); (0x80, 0); (0x21, u8 m); (0x80, 0); (0xA1, u8 s); (0x80, 0);
     (0x21, 4); (0x80, 0); (0xA1, 2); (0x80, 0); (0x21, 1); (0x80, 0); (0xA1, 1); (0x80, 0);
     (0x21, master_read k); (0xA1, slave_read k)].
Proof.
  unfold pic_remap, io_wait. unfold inb at 1 2. cbn zeta iota. rewrite !outb_outs.
  unfold outs at 1. cbn [trace]. rewrite !writes_app, <- !app_assoc, !u8_u8. reflexivity.
Qed.

Lemma read_masks k :
  expects (master (outs k)) = [] -> expects (slave (outs k)) = [] ->
  master_read k = imr (master (outs k)) /\ slave_read k = imr (slave (outs k)).
Proof.
  intros Em Es. unfold master_read, slave_read, inb. cbn. split; [by apply Hpics|].
  destruct (Hpics (trace k ++ [PortIn PIC1_DATA (u8 (env (trace k) PIC1_DATA))])) as [_ H].
  rewrite writes_app, app_nil_r in H. by apply H.
Qed.

Lemma remap_chips k m s :
  master (outs (pic_remap env k m s)) = mk_chip (master_read k) (Z.land (u8 m) 0xF8) [] /\
  slave (outs (pic_remap env k m s)) = mk_chip (slave_read k) (Z.land (u8 s) 0xF8) [].
Proof.
  rewrite remap_outs. unfold master, slave. rewrite !chip_after_app. unfold master_read, slave_read, inb. cbn. by rewrite !u8_u8.
Qed.

Lemma mask_all_chips k :
  expects (master (outs k)) = [] -> expects (slave (outs k)) = [] ->
  master (outs (pic_mask_all k)) = mk_chip 0xFF (voffset (master (outs k))) [] /\
  slave (outs (pic_mask_all k)) = mk_chip 0xFF (voffset (slave (outs k))) [].
Proof.
  intros Em Es. unfold pic_mask_all. rewrite !outb_outs, <- app_assoc. unfold master, slave in *.
  rewrite !chip_after_app. cbn. unfold data. by rewrite Em, Es.
Qed.

Lemma unmask_chips k irq :
  0 <= irq < 16 -> expects (master (outs k)) = [] -> expects (slave (outs k)) = [] ->
  let o := outs (pic_unmask_irq env k irq) in
  expects (master o) = [] /\ expects (slave o) = [] /\
  voffset (master o) = voffset (master (outs k)) /\ voffset (slave o) = voffset (slave (outs k)) /\
  (forall j, 0 <= j < 16 -> enabled o j = (j =? irq) || enabled (outs k) j).
Proof.
  intros Hi Em Es. destruct (Hpics (trace k)) as [Am As]. specialize (Am Em). specialize (As Es). fold (outs k) in Am, As.
  pose proof (imr_byte PIC1_COMMAND PIC1_DATA (outs k)) as Bm. fold (master (outs k)) in Bm.
  pose proof (imr_byte PIC2_COMMAND PIC2_DATA (outs k)) as Bs. fold (slave (outs k)) in Bs.
  cbn zeta. assert (forall p v, outs (outb (inb env k p).1 p v) = outs k ++ [(p, u8 v)]) as Ho
    by (intros p v; by rewrite outb_outs, inb_outs).
  unfold pic_unmask_irq. destruct (Z.ltb_spec irq 8); unfold inb in *; cbn zeta iota beta in *; cbn [fst] in Ho; rewrite Ho.
  - rewrite Am. unfold enabled, master, slave in *. rewrite !chip_after_app. cbn. unfold data. rewrite Em. cbn.
    split_and!; try done. intros j Hj. rewrite !u8_u8.
    destruct (Z.ltb_spec j 8); [|by rewrite (proj2 (Z.eqb_neq j irq)) by lia].
    rewrite unmask_bits by lia. destruct (Z.eqb_spec j irq); cbn; by rewrite ?andb_false_r, ?andb_true_r.
  - rewrite As. rewrite (u8_small (irq - 8)) by (unfold is_u8; lia).
    unfold enabled, master, slave in *. rewrite !chip_after_app. cbn. unfold data. rewrite Es. cbn.
    split_and!; try done. intros j Hj. rewrite !u8_u8.
    destruct (Z.ltb_spec j 8); [by rewrite (proj2 (Z.eqb_neq j irq)) by lia|].
    rewrite unmask_bits by lia. replace (j - 8 =? irq - 8) with (j =? irq)
      by (destruct (Z.eqb_spec j irq), (Z.eqb_spec (j - 8) (irq - 8)); (done || lia)).
    destruct (Z.eqb_spec j irq); cbn; by rewrite ?andb_false_r, ?andb_true_r.
Qed.

(** The sequence of [kmain], from whatever state the firmware left. *)
Lemma boot_chips k :
  let o := outs (pic_unmask_irq env (pic_mask_all (pic_remap env k PIC_MASTER_OFFSET PIC_SLAVE_OFFSET)) 0) in
  voffset (master o) = 0x20 /\ voffset (slave o) = 0x28 /\ (forall j, 0 <= j < 16 -> enabled o j = (j =? 0)).
Proof.
  cbn zeta. set (k1 := pic_remap env k PIC_MASTER_OFFSET PIC_SLAVE_OFFSET).
  destruct (remap_chips k PIC_MASTER_OFFSET PIC_SLAVE_OFFSET) as [E1 E2]. fold k1 in E1, E2. clearbody k1.
  destruct (mask_all_chips k1) as [F1 F2]; [by rewrite E1|by rewrite E2|]. rewrite E1 in F1. rewrite E2 in F2.
  set (k2 := pic_mask_all k1) in *. clearbody k2.
  destruct (unmask_chips k2 0) as (_ & _ & -> & -> & Hen); [lia|by rewrite F1|by rewrite F2|].
  rewrite F1, F2. split; [done|]. split; [done|]. intros j Hj. rewrite Hen by done. unfold enabled. rewrite F1, F2. cbn [imr].
  assert ((if j <? 8 then Z.testbit 255 j else Z.testbit 255 (j - 8)) = true) as ->; [|by rewrite orb_false_r].
  change 255 with (Z.ones 8). destruct (Z.ltb_spec j 8); apply Z.ones_spec_low; lia.
Qed.

(** ** Theorem *)

(** C36: the port sequences program the controllers.  A remapping leaves both chips operational with
    the new vector offsets and the masks they had; unmasking enables one line and no other; and
    the sequence of [kmain], from whatever state the firmware left, even in the middle of an
    initialisation, delivers the sixteen lines at vectors 0x20 to 0x2F with the timer's as the
    only one enabled. *)
Theorem pic_programming k m s irq :
  is_u8 m -> is_u8 s -> Z.land m 7 = 0 -> Z.land s 7 = 0 -> 0 <= irq < 16 ->
  (expects (master (outs k)) = [] -> expects (slave (outs k)) = [] ->
   let r := outs (pic_remap env k m s) in
   master r = mk_chip (imr (master (outs k))) m [] /\ slave r = mk_chip (imr (slave (outs k))) s [] /\
   forall j, 0 <= j < 16 -> enabled (outs (pic_unmask_irq env k irq)) j = (j =? irq) || enabled (outs k) j) /\
  (let o := outs (pic_unmask_irq env (pic_mask_all (pic_remap env k PIC_MASTER_OFFSET PIC_SLAVE_OFFSET)) 0) in
   voffset (master o) = 0x20 /\ voffset (slave o) = 0x28 /\
   forall j, 0 <= j < 16 -> enabled o j = (j =? 0)).
Proof.
  intros Hm Hs Zm Zs Hi.
  assert (forall z, is_u8 z -> Z.land z 7 = 0 -> Z.land z 0xF8 = z) as Hland.
  { intros z [Hz0 Hz1] Hz. apply Z.bits_inj'. intros b Hb. rewrite Z.land_spec.
    destruct (Z.testbit z b) eqn:E; [cbn|done]. destruct (decide (b < 8)) as [Hlt|Hge].
    - assert (Z.testbit (Z.land z 7) b = false) as Hf by (rewrite Hz; apply Z.bits_0).
      rewrite Z.land_spec, E in Hf. cbn in Hf.
      assert (b = 0 \/ b = 1 \/ b = 2 \/ b = 3 \/ b = 4 \/ b = 5 \/ b = 6 \/ b = 7) as Hc by lia.
      destruct Hc as [->|[->|[->|[->|[->|[->|[->| ->]]]]]]]; (discriminate || reflexivity).
    - rewrite <- (Z.mod_small z (2 ^ 8)), Z.mod_pow2_bits_high in E by lia. discriminate. }
  split.
  - intros Em Es. cbn zeta. destruct (remap_chips k m s) as [-> ->]. rewrite (u8_small m), (u8_small s), !Hland by done.
    destruct (read_masks k Em Es) as [-> ->]. split; [done|]. split; [done|].
    by apply unmask_chips.
  - apply boot_chips.
Qed.
End programming.

(** ** Witness *)

(** Ports at which the two chips answer. *)
Definition pic_env (h : list event) (port : Z) : Z :=
  if port =? PIC1_DATA then imr (master (writes h)) else if port =? PIC2_DATA then imr (slave (writes h)) else 0x20.

Lemma pic_env_ok : pics_answer pic_env.
Proof. intros h. unfold pic_env. cbn. split; intros _; apply u8_small, imr_byte. Qed.

Lemma pic_programming_witness :
  voffset (slave (outs (pic_unmask_irq pic_env (pic_mask_all (pic_remap pic_env (mk_con [PortOut 0x20 0x11] 1) 0x20 0x28)) 0)))
  = 0x28.
Proof. apply (pic_programming pic_env pic_env_ok (mk_con [PortOut 0x20 0x11] 1) 0x20 0x28 0); by_compute. Defined.
