(* ===== verification/Trap.v ===== *)
(** * Traps and panics (kernel/core/trap.c, kernel/core/panic.c)

    The dispatcher of interrupts and exceptions on a saved frame, with the log and the port
    writes it makes.  A panic logs and halts, so a dispatch returns or halts. *)

From Stdlib Require Import String.
From S2P Require Import Prelude Bytes Console Irq.

(** ** Data *)

Record x86_64_trap_frame_t : Type := mk_frame {
  r15 : Z;
  r14 : Z;
  r13 : Z;
  r12 : Z;
  r11 : Z;
  r10 : Z;
  r9 : Z;
  r8 : Z;
  rsi : Z;
  rdi : Z;
  rbp : Z;
  rdx : Z;
  rcx : Z;
  rbx : Z;
  rax : Z;
  vector : Z;
  error_code : Z;
  rip : Z;
  cs : Z;
  rflags : Z
}.

Record machine : Type := mk_mach {
  mcon : con;
  g_ticks : Z;
  trap_count : Z
}.

Definition m4_trap_count_for_test (m : machine) : Z := trap_count m.

Inductive outcome (A : Type) : Type :=
  | Returned (a : A)
  | Halted (a : A).
Arguments Returned {A} a.
Arguments Halted {A} a.

Definition MCSOS_NAME : string := "MCSOS".
Definition MCSOS_VERSION : string := "260502".
Definition MCSOS_MILESTONE : string := "M4".

Definition exception_names : list string :=
  ["#DE Divide Error"; "#DB Debug"; "NMI Interrupt"; "#BP Breakpoint";
   "#OF Overflow"; "#BR Bound Range Exceeded"; "#UD Invalid Opcode";
   "#NM Device Not Available"; "#DF Double Fault";
   "Coprocessor Segment Overrun"; "#TS Invalid TSS";
   "#NP Segment Not Present"; "#SS Stack Segment Fault";
   "#GP General Protection Fault"; "#PF Page Fault"; "Reserved";
   "#MF x87 Floating-Point Exception"; "#AC Alignment Check";
   "#MC Machine Check"; "#XM SIMD Floating-Point Exception";
   "#VE Virtualization Exception"; "#CP Control Protection Exception";
   "Reserved"; "Reserved"; "Reserved"; "Reserved"; "Reserved"; "Reserved";
   "#HV Hypervisor Injection Exception"; "#VC VMM Communication Exception";
   "#SX Security Exception"; "Reserved"]%string.

Section trap.
Variable env : list event -> Z -> Z.

(** The flags register as [cpu_read_rflags] finds it in a panic, and the uninitialised buffers
    of the decimal printers. *)
Variable rflags_now : Z.
Variable dec_buf : list Z.
Variable dec_buf32 : list Z.

(** ** Panic *)

(** The digit loop of [log_dec_u32], bounded by its buffer of 11 bytes. *)
Definition log_dec_u32 (k : con) (value : Z) : exec con :=
  if value =? 0 then Ret (log_putc env k 48)
  else
    '(b, i) ← dec_digits 11 dec_buf32 0 value;
    dec_print env (Z.to_nat i) b k.

(** A string argument or its replacement when it is null. *)
Definition or_else (s : option (list Z)) (d : string) : option (list Z) :=
  match s with Some a => Some a | None => lit d end.

(** Everything logged before the machine halts. *)
Definition kernel_panic_at (k : con) (file : option (list Z)) (line : Z) (reason : option (list Z)) (code : Z)
  : exec con :=
  k ← log_writeln env k (lit "");
  k ← log_writeln env k (lit "================ MCSOS KERNEL PANIC ================");
  k ← log_write env k (lit "system=");
  k ← log_write env k (lit MCSOS_NAME);
  k ← log_write env k (lit " version=");
  k ← log_write env k (lit MCSOS_VERSION);
  k ← log_write env k (lit " milestone=");
  k ← log_writeln env k (lit MCSOS_MILESTONE);
  k ← log_write env k (lit "reason=");
  k ← log_writeln env k (or_else reason "<null>");
  k ← log_write env k (lit "location=");
  k ← log_write env k (or_else file "<unknown>");
  k ← log_write env k (lit ":");
  k ← log_dec_u32 k (u32 line);
  let k := log_putc env k 10 in
  k ← log_key_value_hex64 env k (lit "panic_code") code;
  k ← log_key_value_hex64 env k (lit "rflags_before_cli") rflags_now;
  k ← log_writeln env k (lit "state=halted");
  log_writeln env k (lit "====================================================").

(** ** Dispatch *)

Definition trap_name (vec : Z) : exec (option (list Z)) :=
  if vec <? 32 then s ← arr_get exception_names vec; Ret (lit s)
  else Ret (lit "external-irq").

Definition log_trap_frame (k : con) (f : x86_64_trap_frame_t) : exec con :=
  k ← log_key_value_hex64 env k (lit "trap_vector") (vector f);
  k ← log_key_value_hex64 env k (lit "trap_error") (error_code f);
  k ← log_key_value_hex64 env k (lit "trap_rip") (rip f);
  k ← log_key_value_hex64 env k (lit "trap_cs") (cs f);
  log_key_value_hex64 env k (lit "trap_rflags") (rflags f).

(** [__FILE__], the path the compiler was given. *)
Variable trap_file : list Z.

Definition x86_64_trap_dispatch (m : machine) (frame : option x86_64_trap_frame_t)
  : exec (outcome machine) :=
  match frame with
  | None =>
      k ← kernel_panic_at (mcon m) (Some trap_file) 41
            (lit "assertion failed: frame != (x86_64_trap_frame_t *)0") 0xA55E4710;
      Ret (Halted (mk_mach k (g_ticks m) (trap_count m)))
  | Some f =>
      let count := u64 (trap_count m + 1) in
      if (PIC_MASTER_OFFSET <=? vector f) && (vector f <? PIC_SLAVE_OFFSET + 8) then
        let irq := u8 (vector f - PIC_MASTER_OFFSET) in
        '(k, t) ← (if irq =? 0 then timer_on_irq0 env (mcon m) dec_buf (g_ticks m)
                   else
                     k ← log_write env (mcon m) (lit "[M5] unexpected irq=");
                     k ← log_dec64 env k dec_buf irq;
                     k ← log_writeln env k (lit "");
                     Ret (k, g_ticks m));
        Ret (Returned (mk_mach (pic_send_eoi k irq) t count))
      else
        k ← log_write env (mcon m) (lit "[M5] trap: ");
        name ← trap_name (vector f);
        k ← log_writeln env k name;
        k ← log_trap_frame k f;
        if vector f =? 3 then
          k ← log_writeln env k (lit "[M5] breakpoint handled; returning");
          Ret (Returned (mk_mach k (g_ticks m) count))
        else
          k ← kernel_panic_at k (Some trap_file) 69 (lit "unrecoverable CPU exception") (vector f);
          Ret (Halted (mk_mach k (g_ticks m) count))
  end.

(** ** Lemmas *)

Section trap_lemmas.
Hypothesis Hbuf : zlen dec_buf = 21.
Hypothesis Hbuf32 : zlen dec_buf32 = 11.
Hypothesis Hflags : is_u64 rflags_now.

(** The values a frame holds are 64 bits wide. *)
Definition frame_ok (f : x86_64_trap_frame_t) : Prop :=
  is_u64 (vector f) /\ is_u64 (error_code f) /\ is_u64 (rip f) /\ is_u64 (cs f) /\ is_u64 (rflags f).

(** The name an exception is logged under, and the first line of its log. *)
Definition trap_text (v : Z) : list Z := chars (default "external-irq"%string (exception_names !! Z.to_nat v)).
Definition trap_line (v : Z) : list Z := chars "[M5] trap: " ++ trap_text v ++ [10].

(** A log call returns, having transmitted some text. *)
Definition logs_some (k : con) (r : exec con) : Prop := exists text, logs env k text r.

Lemma logs_some_bind k r (next : con -> exec con) :
  g_log_ready k = 1 -> logs_some k r ->
  (forall k', g_log_ready k' = 1 -> logs_some k' (next k')) -> logs_some k (r ≫= next).
Proof.
  intros Hl (t & k1 & -> & H1) Hn. cbn [mbind exec_bind].
  destruct (Hn k1) as (t' & k2 & -> & H2); [by rewrite (sends_flag _ _ _ _ H1)|].
  exists (t ++ t'). apply logs_ret. by eapply sends_app.
Qed.

Lemma logs_after k t k' r : sends env k t k' -> logs_some k' r -> logs_some k r.
Proof. intros H (t' & k2 & -> & H2). exists (t ++ t'). apply logs_ret. by eapply sends_app. Qed.

Lemma logs_write k a : g_log_ready k = 1 -> has_nul a -> logs_some k (log_write env k (Some a)).
Proof. intros Hl Ha. eexists. by apply log_write_sends. Qed.

Lemma logs_writeln k a : g_log_ready k = 1 -> has_nul a -> logs_some k (log_writeln env k (Some a)).
Proof. intros Hl Ha. eexists. by apply log_writeln_sends. Qed.

Lemma logs_kv k a v : g_log_ready k = 1 -> has_nul a -> is_u64 v -> logs_some k (log_key_value_hex64 env k (Some a) v).
Proof. intros. by apply log_key_value_sends. Qed.

Lemma logs_dec64 k v : g_log_ready k = 1 -> is_u64 v -> logs_some k (log_dec64 env k dec_buf v).
Proof. intros Hl Hv. destruct (log_dec64_sends env k dec_buf v Hl Hv Hbuf) as (ds & E & _). by exists ds. Qed.

Lemma logs_dec32 k v : g_log_ready k = 1 -> is_u32 v -> logs_some k (log_dec_u32 k v).
Proof.
  intros Hl Hv. unfold is_u32 in Hv. unfold log_dec_u32. destruct (Z.eqb_spec v 0) as [->|Hne].
  - exists [48]. by apply logs_ret, log_putc_sends.
  - destruct (dec_loops_send env 11 dec_buf32 k v Hl) as (ds & H & _); [lia|lia|by exists ds].
Qed.

(** Log calls in sequence, each discharged by its lemma. *)
Ltac log_calls :=
  repeat lazymatch goal with
    | |- logs_some _ (_ ≫= _) => apply logs_some_bind; [assumption| |intros ? ?]
    | |- logs_some _ (log_key_value_hex64 _ _ _ _) => apply logs_kv; [assumption| |]
    | |- logs_some _ (log_writeln _ _ _) => apply logs_writeln; [assumption|]
    | |- logs_some _ (log_write _ _ _) => apply logs_write; [assumption|]
    | |- logs_some _ (log_dec_u32 _ _) => apply logs_dec32; [assumption|]
    | |- logs_some _ (log_dec64 _ _ _ _) => apply logs_dec64; [assumption|]
    | |- has_nul (chars _ ++ [0]) => apply lit_nul
    | |- has_nul _ => assumption
    | |- is_u64 _ => assumption
    end.

Lemma logs_panic k file line reason code :
  g_log_ready k = 1 -> has_nul file -> has_nul reason -> is_u64 code ->
  logs_some k (kernel_panic_at k (Some file) line (Some reason) code).
Proof.
  intros Hl Hf Hr Hc. unfold kernel_panic_at, or_else, lit. cbn zeta.
  log_calls. { apply Z.mod_pos_bound. lia. }
  eapply logs_after; [by apply log_putc_sends|].
  match goal with |- logs_some ?k' _ => assert (g_log_ready k' = 1) by (by erewrite sends_flag by (by apply log_putc_sends)) end.
  log_calls.
Qed.

Lemma logs_trap_frame k f :
  g_log_ready k = 1 -> frame_ok f -> logs_some k (log_trap_frame k f).
Proof. intros Hl (? & ? & ? & ? & ?). unfold log_trap_frame, lit. log_calls. Qed.

Lemma trap_name_eq v : 0 <= v -> trap_name v = Ret (Some (trap_text v ++ [0])).
Proof.
  intros Hv. unfold trap_name, trap_text. destruct (Z.ltb_spec v 32) as [Hlt|Hge].
  - destruct (arr_get_ok exception_names v) as [s E]; [split; [lia|exact Hlt]|].
    rewrite E. apply arr_get_Ret in E as [_ ->]. done.
  - rewrite lookup_ge_None_2; [done|]. change (length exception_names) with 32%nat. lia.
Qed.

Lemma trap_text_cstr v : cstr (trap_text v ++ [0]) = trap_text v.
Proof.
  unfold trap_text. destruct (exception_names !! Z.to_nat v) as [s|] eqn:E; [|reflexivity].
  assert (Forall (fun s => cstr (chars s ++ [0]) = chars s) exception_names) as H by (repeat constructor).
  by apply (proj1 (list.Forall_lookup _ _) H _ _ E).
Qed.

(** The log of an exception up to the decision whether to return. *)
Lemma exception_log m f :
  g_log_ready (mcon m) = 1 -> frame_ok f ->
  exists t k', g_log_ready k' = 1 /\ sends env (mcon m) (trap_line (vector f) ++ t) k' /\
    forall A (next : con -> exec A),
    (k ← log_write env (mcon m) (lit "[M5] trap: ");
     name ← trap_name (vector f);
     k ← log_writeln env k name;
     k ← log_trap_frame k f; next k) = next k'.
Proof.
  intros Hl Hf. pose proof Hf as [[Hv _] _]. unfold lit.
  destruct (log_write_sends env (mcon m) _ Hl (lit_nul "[M5] trap: ")) as (k1 & -> & H1).
  pose proof (sends_flag _ _ _ _ H1) as F1. rewrite Hl in F1.
  assert (has_nul (trap_text (vector f) ++ [0])) as Hn by (unfold has_nul; set_solver).
  destruct (log_writeln_sends env k1 _ F1 Hn) as (k2 & E2 & H2). pose proof (sends_flag _ _ _ _ H2) as F2. rewrite F1 in F2.
  destruct (logs_trap_frame k2 f F2 Hf) as (t & k3 & E3 & H3). pose proof (sends_flag _ _ _ _ H3) as F3. rewrite F2 in F3.
  exists t, k3. split; [done|]. split.
  - rewrite trap_text_cstr in H2. unfold trap_line. eapply sends_app; [|exact H3].
    eapply sends_app; [exact H1|exact H2].
  - intros A next. cbn [mbind exec_bind]. rewrite trap_name_eq by lia. cbn [mbind exec_bind]. rewrite E2.
    cbn [mbind exec_bind]. by rewrite E3.
Qed.

(** A line of text that ends in a number. *)
Lemma numbered_line {A} k s v (next : con -> exec A) :
  g_log_ready k = 1 -> is_u64 v ->
  exists ds k', parse_dec ds = v /\ sends env k (cstr (chars s ++ [0]) ++ ds ++ [10]) k' /\
    (k ← log_write env k (lit s); k ← log_dec64 env k dec_buf v; k ← log_writeln env k (lit ""); next k) = next k'.
Proof.
  intros Hl Hv. unfold lit. destruct (log_write_sends env k _ Hl (lit_nul s)) as (k1 & -> & H1).
  pose proof (sends_flag _ _ _ _ H1) as F1. rewrite Hl in F1.
  destruct (log_dec64_sends env k1 dec_buf v F1 Hv Hbuf) as (ds & (k2 & E2 & H2) & _ & Hp & _).
  pose proof (sends_flag _ _ _ _ H2) as F2. rewrite F1 in F2.
  destruct (log_writeln_sends env k2 _ F2 (lit_nul "")) as (k3 & E3 & H3).
  exists ds, k3. split; [done|]. split; [by do 2 (eapply sends_app; [eassumption|])|].
  cbn [mbind exec_bind]. rewrite E2. cbn [mbind exec_bind]. by rewrite E3.
Qed.

(** What tick number [t] is logged as: a line every hundred, nothing otherwise. *)
Definition tick_text (t : Z) (text : list Z) : Prop :=
  if t mod 100 =? 0 then exists ds, parse_dec ds = t /\ text = chars "[MCSOS:TIMER] ticks=" ++ ds ++ [10] else text = [].

Lemma timer_logs k t :
  g_log_ready k = 1 ->
  exists text k', timer_on_irq0 env k dec_buf t = Ret (k', u64 (t + 1)) /\ sends env k text k' /\ tick_text (u64 (t + 1)) text.
Proof.
  intros Hl. unfold timer_on_irq0, tick_text. cbn zeta. destruct (Z.eqb_spec (u64 (t + 1) mod 100) 0).
  - destruct (numbered_line k "[MCSOS:TIMER] ticks=" (u64 (t + 1)) (fun k => Ret (k, u64 (t + 1))) Hl) as (ds & k' & Hp & Hs & ->);
      [apply Z.mod_pos_bound; lia|]. eexists _, k'. split; [reflexivity|]. split; [exact Hs|by exists ds].
  - exists [], k. split; [done|]. split; [apply sends_nil|done].
Qed.

(** ** Theorems *)

(** C35: what becomes of an interrupt, whatever the serial line does.  A vector of the controllers
    returns with the interrupt acknowledged last, to the slave first exactly for its lines, and the
    timer's line counts one tick and is silent except on every hundredth; a breakpoint is logged
    under its name and returns without touching the controllers; any other vector and a null frame
    are logged and halt the machine, the null frame before it is counted.  No dispatch faults. *)
Theorem x86_64_trap_dispatch_outcome m f :
  g_log_ready (mcon m) = 1 -> frame_ok f -> has_nul trap_file ->
  (0x20 <= vector f < 0x30 ->
   exists text k1 k', x86_64_trap_dispatch m (Some f)
     = Ret (Returned (mk_mach k' (if vector f =? 0x20 then u64 (g_ticks m + 1) else g_ticks m)
                        (u64 (trap_count m + 1)))) /\
     sends env (mcon m) text k1 /\
     trace k' = trace k1 ++ (if 0x28 <=? vector f then [PortOut 0xA0 0x20] else []) ++ [PortOut 0x20 0x20] /\
     (vector f = 0x20 -> tick_text (u64 (g_ticks m + 1)) text)) /\
  (vector f = 3 ->
   exists text k', x86_64_trap_dispatch m (Some f) = Ret (Returned (mk_mach k' (g_ticks m) (u64 (trap_count m + 1)))) /\
     sends env (mcon m) (trap_line 3 ++ text) k') /\
  (vector f <> 3 -> ~ 0x20 <= vector f < 0x30 ->
   exists text k', x86_64_trap_dispatch m (Some f) = Ret (Halted (mk_mach k' (g_ticks m) (u64 (trap_count m + 1)))) /\
     sends env (mcon m) (trap_line (vector f) ++ text) k') /\
  (exists text k', x86_64_trap_dispatch m None = Ret (Halted (mk_mach k' (g_ticks m) (trap_count m))) /\
     sends env (mcon m) text k').
Proof.
  intros Hl Hf Ht. unfold x86_64_trap_dispatch, PIC_MASTER_OFFSET, PIC_SLAVE_OFFSET. split_and!.
  - intros Hv. rewrite (proj2 (andb_true_iff _ _)) by (split; [apply Z.leb_le|apply Z.ltb_lt]; lia). cbn zeta.
    rewrite u8_small by (unfold is_u8; lia). destruct (Z.eqb_spec (vector f - 0x20) 0) as [E|E].
    + destruct (timer_logs (mcon m) (g_ticks m) Hl) as (text & k1 & -> & Hs & Hq). cbn [mbind exec_bind].
      rewrite (proj2 (Z.eqb_eq _ _)) by lia. exists text, k1. eexists. split; [reflexivity|]. split; [done|]. split; [|done].
      replace (vector f) with 0x20 by lia. reflexivity.
    + rewrite (proj2 (Z.eqb_neq (vector f) _)) by lia.
      destruct (numbered_line (mcon m) "[M5] unexpected irq=" (vector f - 0x20) (fun k => Ret (k, g_ticks m)) Hl)
        as (ds & k1 & _ & Hs & ->); [unfold is_u64; lia|]. cbn [mbind exec_bind]. eexists _, k1, _. split; [reflexivity|].
      split; [exact Hs|]. split; [|lia]. unfold pic_send_eoi, outb.
      destruct (Z.leb_spec 8 (vector f - 0x20)), (Z.leb_spec 0x28 (vector f)); try lia; cbn; by rewrite <- ?app_assoc.
  - intros Hv. rewrite (proj2 (andb_false_iff _ _)) by (left; apply Z.leb_gt; lia). cbn zeta.
    destruct (exception_log m f Hl Hf) as (t & k1 & Hl' & Hs & E). rewrite E. clear E. rewrite Hv in *. cbn [Z.eqb Pos.eqb].
    unfold lit. destruct (log_writeln_sends env k1 _ Hl' (lit_nul "[M5] breakpoint handled; returning")) as (k2 & -> & H2).
    cbn [mbind exec_bind]. eexists _, k2. split; [reflexivity|]. rewrite app_assoc. eapply sends_app; [exact Hs|exact H2].
  - intros Hv Hn. rewrite (proj2 (andb_false_iff _ _))
      by (destruct (Z.leb_spec 0x20 (vector f)); [right; apply Z.ltb_ge; lia|by left]). cbn zeta.
    destruct (exception_log m f Hl Hf) as (t & k1 & Hl' & Hs & E). rewrite E. clear E. rewrite (proj2 (Z.eqb_neq _ _)) by done.
    edestruct (logs_panic k1 trap_file 69 (chars "unrecoverable CPU exception" ++ [0]) (vector f) Hl') as (t2 & k2 & E & H2);
      [done|apply lit_nul|apply Hf|]. unfold lit. rewrite E. cbn [mbind exec_bind]. eexists _, k2. split; [reflexivity|].
    rewrite app_assoc. eapply sends_app; [exact Hs|exact H2].
  - unfold lit. edestruct (logs_panic (mcon m) trap_file 41) as (t2 & k2 & E & H2);
      [done|done|apply lit_nul| |rewrite E; cbn [mbind exec_bind]; by exists t2, k2]. by_compute.
Qed.
End trap_lemmas.
End trap.

(** ** Witnesses *)

Definition frame_at (v : Z) : x86_64_trap_frame_t := mk_frame 0 0 0 0 0 0 0 0 0 0 0 0 0 0 0 v 0 0x1000 0x28 0x202.

Lemma x86_64_trap_dispatch_witness :
  (exists k', x86_64_trap_dispatch ready_env 0x46 (replicate 21 0) (replicate 11 0) (chars "trap.c" ++ [0])
     (mk_mach (mk_con [] 1) 7 41) (Some (frame_at 0x20)) = Ret (Returned (mk_mach k' 8 42)) /\
     outs k' = [(0x20, 0x20)]) /\
  (exists k', x86_64_trap_dispatch ready_env 0x46 (replicate 21 0) (replicate 11 0) (chars "trap.c" ++ [0])
     (mk_mach (mk_con [] 1) 7 41) (Some (frame_at 14)) = Ret (Halted (mk_mach k' 7 42))).
Proof.
  split.
  - edestruct (x86_64_trap_dispatch_outcome ready_env 0x46 (replicate 21 0) (replicate 11 0) (chars "trap.c" ++ [0])
      eq_refl eq_refl ltac:(by_compute) (mk_mach (mk_con [] 1) 7 41) (frame_at 0x20)) as [H _];
      [reflexivity|by_compute|apply lit_nul|].
    destruct (H ltac:(by_compute)) as (text & k1 & k' & E & Hs & Ho & Ht). exists k'. split; [exact E|].
    rewrite (Ht eq_refl : text = []) in Hs. apply (sends_ready _ _ _ _ ready_env_ok) in Hs. unfold outs in *.
    rewrite Ho, writes_app, Hs. reflexivity.
  - edestruct (x86_64_trap_dispatch_outcome ready_env 0x46 (replicate 21 0) (replicate 11 0) (chars "trap.c" ++ [0])
      eq_refl eq_refl ltac:(by_compute) (mk_mach (mk_con [] 1) 7 41) (frame_at 14)) as (_ & _ & H & _);
      [reflexivity|by_compute|apply lit_nul|].
    destruct (H ltac:(by_compute) ltac:(by_compute)) as (text & k' & E & _). exists k'. exact E.
Defined.
