(* ===== verification/Isr.v ===== *)
(** * Interrupt entry and exit (kernel/arch/x86_64/isr.S, syscall_entry.S)

    The stubs as instruction lists over a processor with its registers, its stack in byte memory
    and the state of [Trap].  The delivery of an interrupt and [iretq] follow the architecture's
    manual for an interrupt taken in kernel mode; the call of [x86_64_trap_dispatch] is the
    function of [Trap] on the frame it finds in memory, with the freedom the calling convention
    leaves to compiled code. *)

From Stdlib Require Import String.
From S2P Require Import Prelude Bytes Mem Console Irq Trap.

(** ** The processor *)

Inductive reg : Type :=
  | RAX | RBX | RCX | RDX | RBP | RDI | RSI
  | R8 | R9 | R10 | R11 | R12 | R13 | R14 | R15
  | RSP.

#[global] Instance reg_eq_dec : EqDecision reg.
Proof. solve_decision. Defined.

Record cpu : Type := mk_cpu {
  regs : reg -> Z;
  c_rip : Z;
  c_cs : Z;
  c_rflags : Z;
  c_ss : Z;
  c_mem : mem;
  c_dev : machine
}.

Definition set_reg (c : cpu) (r : reg) (v : Z) : cpu :=
  mk_cpu (fun r' => if decide (r' = r) then v else regs c r') (c_rip c) (c_cs c) (c_rflags c) (c_ss c)
    (c_mem c) (c_dev c).

Definition set_mem (c : cpu) (m : mem) : cpu :=
  mk_cpu (regs c) (c_rip c) (c_cs c) (c_rflags c) (c_ss c) m (c_dev c).

(** A push stores below the stack pointer, a pop loads from it. *)
Definition push (v : Z) (c : cpu) : exec cpu :=
  let sp := u64 (regs c RSP - 8) in
  m ← store64 (c_mem c) sp v;
  Ret (set_mem (set_reg c RSP sp) m).

Definition pop (c : cpu) : exec (cpu * Z) :=
  v ← load64 (c_mem c) (regs c RSP);
  Ret (set_reg c RSP (u64 (regs c RSP + 8)), v).

Inductive instr : Type :=
  | PushR (r : reg)
  | PushI (v : Z)
  | PopR (r : reg)
  | MovRR (dst src : reg)
  | AddI (r : reg) (v : Z)
  | CallDispatch
  | Iretq.

(** ** The code *)

Definition saved : list reg := [RAX; RBX; RCX; RDX; RBP; RDI; RSI; R8; R9; R10; R11; R12; R13; R14; R15].

(** The vectors declared with [ISR_ERR]. *)
Definition isr_err : list Z := [8; 10; 11; 12; 13; 14; 17; 21; 29; 30].

Definition isr_common : list instr :=
  [PushR RAX; PushR RBX; PushR RCX; PushR RDX; PushR RBP; PushR RDI; PushR RSI; PushR R8; PushR R9; PushR R10;
   PushR R11; PushR R12; PushR R13; PushR R14; PushR R15; MovRR RDI RSP; CallDispatch;
   PopR R15; PopR R14; PopR R13; PopR R12; PopR R11; PopR R10; PopR R9; PopR R8; PopR RSI; PopR RDI; PopR RBP;
   PopR RDX; PopR RCX; PopR RBX; PopR RAX; AddI RSP 16; Iretq].

(** A stub, through its jump to the common part. *)
Definition isr_stub (v : Z) : list instr :=
  (if bool_decide (v ∈ isr_err) then [PushI v] else [PushI 0; PushI v]) ++ isr_common.

Definition x86_64_syscall_int80_stub : list instr :=
  [PushR RAX; PushR RBX; PushR RCX; PushR RDX; PushR RSI; PushR RDI; PushR RBP;
   PopR RBP; PopR RDI; PopR RSI; PopR RDX; PopR RCX; PopR RBX; PopR RAX; Iretq].

(** ** Execution *)

Section run.
(** The parameters of [Trap]'s dispatcher. *)
Variable dispatch : machine -> option x86_64_trap_frame_t -> exec (outcome machine).

(** What compiled code may leave in the registers the convention lets it change, and in the
    memory below the stack pointer it was called with. *)
Variable left_regs : cpu -> reg -> Z.
Variable left_mem : cpu -> mem.

(** The structure at an address, field by field. *)
Definition read_frame (m : mem) (a : Z) : exec x86_64_trap_frame_t :=
  w15 ← load64 m a; w14 ← load64 m (a + 8); w13 ← load64 m (a + 16); w12 ← load64 m (a + 24);
  w11 ← load64 m (a + 32); w10 ← load64 m (a + 40); w9 ← load64 m (a + 48); w8 ← load64 m (a + 56);
  wsi ← load64 m (a + 64); wdi ← load64 m (a + 72); wbp ← load64 m (a + 80); wdx ← load64 m (a + 88);
  wcx ← load64 m (a + 96); wbx ← load64 m (a + 104); wax ← load64 m (a + 112);
  vec ← load64 m (a + 120); err ← load64 m (a + 128);
  ip ← load64 m (a + 136); c ← load64 m (a + 144); fl ← load64 m (a + 152);
  Ret (mk_frame w15 w14 w13 w12 w11 w10 w9 w8 wsi wdi wbp wdx wcx wbx wax vec err ip c fl).

Definition callee_saved (r : reg) : bool :=
  match r with RBX | RBP | R12 | R13 | R14 | R15 | RSP => true | _ => false end.

Definition step (i : instr) (c : cpu) : exec (outcome cpu) :=
  match i with
  | PushR r => c' ← push (regs c r) c; Ret (Returned c')
  | PushI v => c' ← push v c; Ret (Returned c')
  | PopR r => '(c', v) ← pop c; Ret (Returned (set_reg c' r v))
  | MovRR d s => Ret (Returned (set_reg c d (regs c s)))
  | AddI r v => Ret (Returned (set_reg c r (u64 (regs c r + v))))
  | CallDispatch =>
      f ← read_frame (c_mem c) (regs c RDI);
      o ← dispatch (c_dev c) (Some f);
      match o with
      | Halted d => Ret (Halted (mk_cpu (regs c) (c_rip c) (c_cs c) (c_rflags c) (c_ss c) (c_mem c) d))
      | Returned d =>
          Ret (Returned (mk_cpu (fun r => if callee_saved r then regs c r else left_regs c r)
                 (c_rip c) (c_cs c) (c_rflags c) (c_ss c) (left_mem c) d))
      end
  | Iretq =>
      '(c, ip) ← pop c; '(c, sel) ← pop c; '(c, fl) ← pop c; '(c, sp) ← pop c; '(c, ss) ← pop c;
      Ret (Returned (mk_cpu (fun r => if decide (r = RSP) then sp else regs c r) ip sel fl ss (c_mem c) (c_dev c)))
  end.

Fixpoint run (code : list instr) (c : cpu) : exec (outcome cpu) :=
  match code with
  | [] => Ret (Returned c)
  | i :: code' =>
      o ← step i c;
      match o with
      | Returned c' => run code' c'
      | Halted c' => Ret (Halted c')
      end
  end.

(** ** The architecture *)

(** The exceptions for which the processor pushes an error code. *)
Definition hw_error (v : Z) : bool :=
  (v =? 8) || ((10 <=? v) && (v <=? 14)) || (v =? 17) || (v =? 21) || (v =? 29) || (v =? 30).

(** Delivery in 64-bit mode: the stack pointer is aligned down to 16, then stack segment and
    pointer, flags, code segment and instruction pointer are pushed, and the error code if there
    is one.  An interrupt gate then clears the interrupt flag, bit 9. *)
Definition deliver (v err : Z) (interrupt_gate : bool) (c : cpu) : exec cpu :=
  let sp := regs c RSP in
  let c0 := set_reg c RSP (Z.land sp (Z.lnot 15)) in
  c1 ← push (c_ss c) c0; c2 ← push sp c1; c3 ← push (c_rflags c) c2; c4 ← push (c_cs c) c3; c5 ← push (c_rip c) c4;
  c6 ← (if hw_error v then push err c5 else Ret c5);
  Ret (mk_cpu (regs c6) (c_rip c6) (c_cs c6)
         (if interrupt_gate then Z.clearbit (c_rflags c6) 9 else c_rflags c6) (c_ss c6) (c_mem c6) (c_dev c6)).

(** An interrupt on vector [v] from its arrival to its return. *)
Definition interrupt (v err : Z) (c : cpu) : exec (outcome cpu) :=
  c1 ← deliver v err (negb (v =? 3)) c;
  run (isr_stub v) c1.

(** The frame the dispatcher is meant to see. *)
Definition frame_of (v err : Z) (c : cpu) : x86_64_trap_frame_t :=
  mk_frame (regs c R15) (regs c R14) (regs c R13) (regs c R12) (regs c R11) (regs c R10) (regs c R9) (regs c R8)
    (regs c RSI) (regs c RDI) (regs c RBP) (regs c RDX) (regs c RCX) (regs c RBX) (regs c RAX)
    v (if hw_error v then err else 0) (c_rip c) (c_cs c) (c_rflags c).

(** ** The stack as a list of words *)

Fixpoint stack_at (m : mem) (a : Z) (ws : list Z) : Prop :=
  match ws with
  | [] => True
  | w :: ws' => load64 m a = Ret w /\ stack_at m (a + 8) ws'
  end.

Lemma stack_at_ext m m' ws : forall a,
  (forall x, a <= x -> m' !! x = m !! x) -> stack_at m a ws -> stack_at m' a ws.
Proof.
  induction ws as [|w ws IH]; intros a Hx Hs; [done|]. destruct Hs as [Hw Hs]. split.
  - rewrite <- Hw. apply load64_ext. intros x ?. apply Hx. lia.
  - apply IH; [|done]. intros x ?. apply Hx. lia.
Qed.

(** The stack of [c] holds [ws] up to [top], its memory is mapped where [m0] is and equals [m0]
    from [top] on, and there is mapped room down to [lo]. *)
Record on_stack (m0 : mem) (lo top : Z) (c : cpu) (ws : list Z) : Prop := {
  os_words : stack_at (c_mem c) (regs c RSP) ws;
  os_top : regs c RSP + 8 * zlen ws = top;
  os_range : 0 <= lo <= regs c RSP /\ top < 2 ^ 64;
  os_room : valid m0 lo (top - lo);
  os_dom : same_dom m0 (c_mem c);
  os_above : forall x, top <= x -> c_mem c !! x = m0 !! x
}.

(** [c'] differs from [c] at most in the stack pointer and in memory. *)
Definition same_ctx (c c' : cpu) : Prop :=
  (forall r, r <> RSP -> regs c' r = regs c r) /\ c_rip c' = c_rip c /\ c_cs c' = c_cs c /\
  c_rflags c' = c_rflags c /\ c_ss c' = c_ss c /\ c_dev c' = c_dev c.

#[local] Instance same_ctx_preorder : PreOrder same_ctx.
Proof.
  split; [by intros c; split_and!|]. intros c1 c2 c3 (A1 & A2 & A3 & A4 & A5 & A6) (B1 & B2 & B3 & B4 & B5 & B6).
  split_and!; try congruence. intros r Hr. by rewrite B1, A1.
Qed.

Lemma push_ok m0 lo top c ws v :
  on_stack m0 lo top c ws -> lo + 8 <= regs c RSP -> is_u64 v ->
  exists c', push v c = Ret c' /\ on_stack m0 lo top c' (v :: ws) /\ same_ctx c c' /\ regs c' RSP = regs c RSP - 8.
Proof.
  intros [Hw Ht [Hl Hr] Hv Hd Ha] Hlo Hvv. pose proof (zlen_nonneg ws). unfold push.
  rewrite u64_small by (unfold is_u64; lia).
  destruct (store64_spec (c_mem c) (regs c RSP - 8) v) as (m' & -> & Hload & Hd' & Hag); [|done|].
  { rewrite <- Hd. apply (valid_sub _ _ _ _ _ Hv); lia. }
  eexists. split; [done|]. split; [|split; [|cbn; by rewrite decide_True]].
  - split; cbn; rewrite ?decide_True by done; [|unfold zlen in *; cbn; lia|lia|done|by transitivity (c_mem c)|].
    + split; [done|]. apply (stack_at_ext (c_mem c)).
      * intros x Hx. apply Hag. lia.
      * by replace (regs c RSP - 8 + 8) with (regs c RSP) by lia.
    + intros x Hx. rewrite Hag by lia. by apply Ha.
  - split_and!; try done. intros r Hne. cbn. by rewrite decide_False.
Qed.

Lemma pop_ok m0 lo top c v ws :
  on_stack m0 lo top c (v :: ws) ->
  exists c', pop c = Ret (c', v) /\ on_stack m0 lo top c' ws /\ same_ctx c c' /\ c_mem c' = c_mem c.
Proof.
  intros [[Hv Hw] Ht [Hl Hr] Hva Hd Ha]. pose proof (zlen_nonneg ws). unfold zlen in *. cbn [length] in *.
  unfold pop. rewrite Hv. cbn [mbind exec_bind]. rewrite u64_small by (unfold is_u64; lia).
  eexists. split; [done|]. split; [|split; [|done]].
  - split; cbn; rewrite ?decide_True by done; (done || unfold zlen; lia).
  - split_and!; try done. intros r Hne. cbn. by rewrite decide_False.
Qed.

Lemma run_app a b c :
  run (a ++ b) c = (o ← run a c; match o with Returned c' => run b c' | Halted c' => Ret (Halted c') end).
Proof.
  revert c. induction a as [|i a IH]; intros c; [done|]. cbn [app run].
  destruct (step i c) as [[c'|c']|]; cbn [mbind exec_bind]; [apply IH|done|done].
Qed.

Lemma run_pushes m0 lo top rs : forall c ws,
  on_stack m0 lo top c ws -> RSP ∉ rs -> (forall r, is_u64 (regs c r)) -> lo + 8 * zlen rs <= regs c RSP ->
  exists c', run (map PushR rs) c = Ret (Returned c') /\
    on_stack m0 lo top c' (rev (map (regs c) rs) ++ ws) /\ same_ctx c c' /\ regs c' RSP = regs c RSP - 8 * zlen rs.
Proof.
  induction rs as [|r rs IH]; intros c ws Hs Hr Hu Hlo.
  { exists c. unfold zlen. cbn. split_and!; try done. lia. }
  apply not_elem_of_cons in Hr as [Hr1 Hr2]. unfold zlen in *. cbn [length] in Hlo.
  destruct (push_ok m0 lo top c ws (regs c r) Hs ltac:(lia) (Hu r)) as (c1 & E1 & Hs1 & Hc1 & Hsp1).
  destruct (IH c1 _ Hs1 Hr2) as (c2 & E2 & Hs2 & Hc2 & Hsp2).
  { intros r'. destruct (decide (r' = RSP)) as [->|Hne]; [|destruct Hc1 as [-> _]; [apply Hu|done]].
    rewrite Hsp1. destruct Hs1 as [_ _ [? ?] _ _ _]. pose proof (Hu RSP) as [? ?]. unfold is_u64. lia. }
  { lia. }
  exists c2. cbn [map run step]. rewrite E1. cbn [mbind exec_bind]. split; [exact E2|].
  split; [|split; [by transitivity c1|cbn; lia]].
  cbn [rev]. rewrite <- app_assoc. cbn [app].
  replace (map (regs c) rs) with (map (regs c1) rs); [done|].
  apply map_ext_in. intros r' Hin%list_elem_of_In. destruct Hc1 as [Hc1 _]. apply Hc1. by intros ->.
Qed.

Lemma run_pops m0 lo top (f : reg -> Z) rs : forall c ws,
  on_stack m0 lo top c (map f rs ++ ws) -> RSP ∉ rs ->
  exists c', run (map PopR rs) c = Ret (Returned c') /\ on_stack m0 lo top c' ws /\
    (forall r, r <> RSP -> regs c' r = if decide (r ∈ rs) then f r else regs c r) /\
    c_rip c' = c_rip c /\ c_cs c' = c_cs c /\ c_rflags c' = c_rflags c /\ c_ss c' = c_ss c /\ c_dev c' = c_dev c /\
    c_mem c' = c_mem c.
Proof.
  induction rs as [|r rs IH]; intros c ws Hs Hr.
  { exists c. split_and!; try done. }
  apply not_elem_of_cons in Hr as [Hr1 Hr2].
  destruct (pop_ok m0 lo top c (f r) (map f rs ++ ws) Hs) as (c1 & E1 & Hs1 & (H1 & H2 & H3 & H4 & H5 & H6) & Hm1).
  destruct (IH (set_reg c1 r (f r)) ws) as (c2 & E2 & Hs2 & Hreg & H2' & H3' & H4' & H5' & H6' & Hm2); [|done|].
  { destruct Hs1. split; cbn; rewrite ?decide_False by done; done. }
  exists c2. cbn [map run step]. rewrite E1. cbn [mbind exec_bind]. split; [exact E2|]. split; [done|].
  cbn in *. split_and!; try congruence. intros r' Hne. rewrite Hreg by done. cbn.
  destruct (decide (r' ∈ rs)) as [Hin|Hin].
  - by rewrite decide_True by (by right).
  - destruct (decide (r' = r)) as [->|Hd]; [by rewrite decide_True by (by left)|].
    rewrite decide_False by (rewrite elem_of_cons; tauto). by apply H1.
Qed.

Lemma stack_at_lookup m ws : forall a i w,
  stack_at m a ws -> ws !! i = Some w -> load64 m (a + 8 * Z.of_nat i) = Ret w.
Proof.
  induction ws as [|x ws IH]; intros a i w Hs Hi; [done|]. destruct Hs as [Hx Hs]. destruct i as [|i]; cbn in Hi.
  - injection Hi as <-. by rewrite Z.add_0_r.
  - replace (a + 8 * Z.of_nat (S i)) with (a + 8 + 8 * Z.of_nat i) by lia. by apply IH.
Qed.

Lemma read_frame_ok m a x15 x14 x13 x12 x11 x10 x9 x8 xsi xdi xbp xdx xcx xbx xax vec err ip c fl rest :
  stack_at m a ([x15; x14; x13; x12; x11; x10; x9; x8; xsi; xdi; xbp; xdx; xcx; xbx; xax; vec; err; ip; c; fl] ++ rest) ->
  read_frame m a = Ret (mk_frame x15 x14 x13 x12 x11 x10 x9 x8 xsi xdi xbp xdx xcx xbx xax vec err ip c fl).
Proof.
  intros Hs. pose proof (fun i w => stack_at_lookup _ _ a i w Hs) as L. unfold read_frame.
  replace (load64 m a) with (load64 m (a + 0)) by (f_equal; lia).
  repeat match goal with
    | |- context [load64 m (a + ?n)] =>
        let i := eval vm_compute in (Z.to_nat (n / 8)) in
        let E := fresh in pose proof (L i _ eq_refl) as E;
        change (8 * Z.of_nat i) with n in E; rewrite E; clear E; cbn [mbind exec_bind]
    end. done.
Qed.

(** ** Delivery *)

Lemma align_down sp : 0 <= sp -> Z.land sp (Z.lnot 15) = sp - sp mod 16 /\ (16 | Z.land sp (Z.lnot 15)).
Proof.
  intros Hs. rewrite <- Z.ldiff_land. change 15 with (Z.ones 4). rewrite Z.ldiff_ones_r by lia.
  rewrite Z.shiftl_mul_pow2, Z.shiftr_div_pow2 by lia. change (2 ^ 4) with 16.
  split; [|by exists (sp / 16)]. pose proof (Z.div_mod sp 16 ltac:(lia)). lia.
Qed.

(** What an interrupted context is expected to be: values of 64 bits, and mapped room for the
    176 bytes of the frame below the aligned stack pointer. *)
Record context_ok (c : cpu) : Prop := {
  cx_regs : forall r, is_u64 (regs c r);
  cx_rip : is_u64 (c_rip c) /\ is_u64 (c_cs c) /\ is_u64 (c_rflags c) /\ is_u64 (c_ss c);
  cx_room : 192 <= regs c RSP /\ valid (c_mem c) (regs c RSP - 192) 192
}.

Definition top_of (c : cpu) : Z := Z.land (regs c RSP) (Z.lnot 15).

Lemma top_facts c : context_ok c -> regs c RSP - 15 <= top_of c <= regs c RSP /\ (16 | top_of c).
Proof.
  intros [Hu _ _]. destruct (Hu RSP) as [H0 _]. destruct (align_down (regs c RSP) H0) as [E Hd].
  unfold top_of. split; [|done]. pose proof (Z.mod_pos_bound (regs c RSP) 16 ltac:(lia)). lia.
Qed.

Definition hw_words (v err : Z) (c : cpu) : list Z :=
  (if hw_error v then [err] else []) ++ [c_rip c; c_cs c; c_rflags c; regs c RSP; c_ss c].

Lemma deliver_ok v err g c :
  context_ok c -> is_u64 err ->
  exists c1, deliver v err g c = Ret c1 /\
    on_stack (c_mem c) (top_of c - 176) (top_of c) c1 (hw_words v err c) /\
    (forall r, r <> RSP -> regs c1 r = regs c r) /\ c_dev c1 = c_dev c.
Proof.
  intros Hc He. pose proof (top_facts c Hc) as [Ht _]. destruct Hc as [Hu (U1 & U2 & U3 & U4) [Hr Hv]].
  set (c0 := set_reg c RSP (top_of c)).
  assert (regs c0 RSP = top_of c) as E0 by (cbn; by rewrite decide_True).
  assert (on_stack (c_mem c) (top_of c - 176) (top_of c) c0 []) as H0.
  { pose proof (Hu RSP) as [_ ?]. split; rewrite ?E0; try done; [cbn; unfold zlen; cbn; lia|lia|].
    apply (valid_sub _ _ _ _ _ Hv); lia. }
  destruct (push_ok _ _ _ _ _ (c_ss c) H0 ltac:(lia) U4) as (c1 & E1 & H1 & C1 & P1).
  destruct (push_ok _ _ _ _ _ (regs c RSP) H1 ltac:(lia) (Hu RSP)) as (c2 & E2 & H2 & C2 & P2).
  destruct (push_ok _ _ _ _ _ (c_rflags c) H2 ltac:(lia) U3) as (c3 & E3 & H3 & C3 & P3).
  destruct (push_ok _ _ _ _ _ (c_cs c) H3 ltac:(lia) U2) as (c4 & E4 & H4 & C4 & P4).
  destruct (push_ok _ _ _ _ _ (c_rip c) H4 ltac:(lia) U1) as (c5 & E5 & H5 & C5 & P5).
  assert (same_ctx c0 c5) as C05 by (etrans; [exact C1|etrans; [exact C2|etrans; [exact C3|etrans; [exact C4|exact C5]]]]).
  assert (exists c6, (if hw_error v then push err c5 else Ret c5) = Ret c6 /\
    on_stack (c_mem c) (top_of c - 176) (top_of c) c6 (hw_words v err c) /\ same_ctx c0 c6) as (c6 & E6 & H6 & C6).
  { unfold hw_words. destruct (hw_error v); [|by exists c5].
    destruct (push_ok _ _ _ _ _ err H5 ltac:(lia) He) as (c6 & E6 & H6 & C6 & _).
    exists c6. split_and!; [done|done|by transitivity c5]. }
  unfold deliver. fold (top_of c). fold c0. rewrite E1. cbn [mbind exec_bind]. rewrite E2. cbn [mbind exec_bind].
  rewrite E3. cbn [mbind exec_bind]. rewrite E4. cbn [mbind exec_bind]. rewrite E5. cbn [mbind exec_bind]. rewrite E6.
  eexists. split; [done|]. destruct C6 as (A1 & _ & _ & _ & _ & A6).
  split; [|split; [|exact A6]].
  - destruct H6. split; done.
  - intros r Hne. cbn [regs]. rewrite A1 by done. cbn. by rewrite decide_False.
Qed.

(** ** Entry *)

Definition isr_entry (v : Z) : list instr :=
  (if bool_decide (v ∈ isr_err) then [PushI v] else [PushI 0; PushI v]) ++ map PushR saved ++ [MovRR RDI RSP].
Definition isr_exit : list instr := map PopR (rev saved) ++ [AddI RSP 16; Iretq].

Lemma isr_stub_split v : isr_stub v = isr_entry v ++ CallDispatch :: isr_exit.
Proof. unfold isr_stub, isr_entry. by destruct (bool_decide _). Qed.

(** The stubs that push a zero are those whose exceptions come without an error code. *)
Lemma isr_err_hw v : 0 <= v < 48 -> bool_decide (v ∈ isr_err) = hw_error v.
Proof.
  intros Hv. assert (Forall (fun v => bool_decide (v ∈ isr_err) = hw_error v) (seqZ 0 48)) as H by (by repeat constructor).
  rewrite list.Forall_forall in H. apply H, elem_of_seqZ. lia.
Qed.

(** The words above the saved registers. *)
Definition trap_words (v err : Z) (c : cpu) : list Z :=
  [v; if hw_error v then err else 0; c_rip c; c_cs c; c_rflags c; regs c RSP; c_ss c].

Lemma stub_pushes v err c c1 :
  0 <= v < 48 -> context_ok c -> on_stack (c_mem c) (top_of c - 176) (top_of c) c1 (hw_words v err c) ->
  exists c2, run (if bool_decide (v ∈ isr_err) then [PushI v] else [PushI 0; PushI v]) c1 = Ret (Returned c2) /\
    on_stack (c_mem c) (top_of c - 176) (top_of c) c2 (trap_words v err c) /\ same_ctx c1 c2.
Proof.
  intros Hv Hc H1. rewrite (isr_err_hw v Hv). unfold hw_words, trap_words in *.
  pose proof (os_top _ _ _ _ _ H1) as Ht. unfold zlen in Ht.
  assert (is_u64 v) as Uv by (unfold is_u64; lia). destruct (hw_error v); cbn [app length] in *.
  - destruct (push_ok _ _ _ _ _ v H1 ltac:(lia) Uv) as (c2 & E2 & H2 & C2 & _).
    exists c2. cbn [run step]. by rewrite E2.
  - destruct (push_ok _ _ _ _ _ 0 H1 ltac:(lia) ltac:(done)) as (c2 & E2 & H2 & C2 & P2).
    destruct (push_ok _ _ _ _ _ v H2 ltac:(lia) Uv) as (c3 & E3 & H3 & C3 & _).
    exists c3. cbn [run step]. rewrite E2. cbn [mbind exec_bind]. rewrite E3. split_and!; [done|done|by transitivity c2].
Qed.

(** The state in which the dispatcher is called. *)
Lemma entry_ok v err c :
  0 <= v < 48 -> context_ok c -> is_u64 err ->
  exists c1 c3, deliver v err (negb (v =? 3)) c = Ret c1 /\ run (isr_entry v) c1 = Ret (Returned c3) /\
    on_stack (c_mem c) (top_of c - 176) (top_of c) c3 (rev (map (regs c) saved) ++ trap_words v err c) /\
    regs c3 RDI = regs c3 RSP /\ (16 | regs c3 RSP) /\ c_dev c3 = c_dev c /\
    read_frame (c_mem c3) (regs c3 RDI) = Ret (frame_of v err c).
Proof.
  intros Hv Hc He. destruct (deliver_ok v err (negb (v =? 3)) c Hc He) as (c1 & E1 & H1 & R1 & D1).
  destruct (stub_pushes v err c c1 Hv Hc H1) as (c2 & E2 & H2 & C2 & _ & _ & _ & _ & D2).
  pose proof (os_top _ _ _ _ _ H2) as T2. change (zlen (trap_words v err c)) with 7 in T2.
  pose proof (top_facts c Hc) as [[_ Ht] Hd].
  assert (forall r, r <> RSP -> regs c2 r = regs c r) as R2 by (intros r Hr; by rewrite C2, R1).
  destruct (run_pushes _ _ _ saved c2 _ H2) as (c3 & E3 & H3 & C3 & P3); [set_solver| |change (zlen saved) with 15; lia|].
  { intros r. destruct (decide (r = RSP)) as [->|Hr]; [|rewrite R2 by done; apply Hc].
    pose proof (os_range _ _ _ _ _ H2). pose proof (cx_regs c Hc RSP) as [_ ?]. unfold is_u64. lia. }
  change (zlen saved) with 15 in P3.
  assert (map (regs c2) saved = map (regs c) saved) as Em by (cbn; by rewrite !R2 by done). rewrite Em in H3.
  exists c1, (set_reg c3 RDI (regs c3 RSP)). split; [exact E1|].
  assert (on_stack (c_mem c) (top_of c - 176) (top_of c) (set_reg c3 RDI (regs c3 RSP))
    (rev (map (regs c) saved) ++ trap_words v err c)) as H4 by (destruct H3; by split).
  split; [unfold isr_entry; rewrite run_app, E2; cbn [mbind exec_bind]; rewrite run_app, E3; done|].
  split; [exact H4|]. split; [done|].
  split; [change (regs (set_reg c3 RDI (regs c3 RSP)) RSP) with (regs c3 RSP)|].
  { destruct Hd as [q Hq]. exists (q - 11). lia. }
  split; [cbn; destruct C3 as (_ & _ & _ & _ & _ & ->); congruence|].
  change (regs (set_reg c3 RDI (regs c3 RSP)) RDI) with (regs c3 RSP). apply read_frame_ok with (rest := [regs c RSP; c_ss c]).
  exact (os_words _ _ _ _ _ H3).
Qed.

(** ** Exit *)

Lemma add_rsp_ok m0 lo top c a b ws :
  on_stack m0 lo top c (a :: b :: ws) -> on_stack m0 lo top (set_reg c RSP (u64 (regs c RSP + 16))) ws.
Proof.
  intros H. destruct (pop_ok _ _ _ _ _ _ H) as (c1 & E1 & H1 & _ & M1).
  destruct (pop_ok _ _ _ _ _ _ H1) as (c2 & E2 & H2 & _ & M2). pose proof (os_top _ _ _ _ _ H) as T.
  pose proof (os_top _ _ _ _ _ H2) as T2. pose proof (os_range _ _ _ _ _ H) as [? ?]. pose proof (zlen_nonneg ws).
  unfold zlen in *. cbn [length] in T. rewrite u64_small by (unfold is_u64; lia).
  destruct H2 as [W _ R V D A]. rewrite M2, M1 in *. assert (regs c2 RSP = regs c RSP + 16) as Ep by lia. rewrite Ep in *.
  split; cbn; rewrite ?decide_True by done; (done || unfold zlen; lia).
Qed.

Lemma iretq_ok m0 lo top c ip sel fl sp ss :
  on_stack m0 lo top c [ip; sel; fl; sp; ss] ->
  exists c', step Iretq c = Ret (Returned c') /\ regs c' RSP = sp /\ (forall r, r <> RSP -> regs c' r = regs c r) /\
    c_rip c' = ip /\ c_cs c' = sel /\ c_rflags c' = fl /\ c_ss c' = ss /\ c_dev c' = c_dev c /\ c_mem c' = c_mem c.
Proof.
  intros H. destruct (pop_ok _ _ _ _ _ _ H) as (c1 & E1 & H1 & C1 & M1).
  destruct (pop_ok _ _ _ _ _ _ H1) as (c2 & E2 & H2 & C2 & M2). destruct (pop_ok _ _ _ _ _ _ H2) as (c3 & E3 & H3 & C3 & M3).
  destruct (pop_ok _ _ _ _ _ _ H3) as (c4 & E4 & H4 & C4 & M4). destruct (pop_ok _ _ _ _ _ _ H4) as (c5 & E5 & H5 & C5 & M5).
  cbn [step]. rewrite E1. cbn [mbind exec_bind]. rewrite E2. cbn [mbind exec_bind]. rewrite E3. cbn [mbind exec_bind].
  rewrite E4. cbn [mbind exec_bind]. rewrite E5. cbn [mbind exec_bind].
  assert (same_ctx c c5) as (A & _ & _ & _ & _ & D) by (etrans; [exact C1|etrans; [exact C2|etrans; [exact C3|etrans; [exact C4|exact C5]]]]).
  eexists. split; [done|]. cbn. split; [done|]. split; [|split_and!; congruence].
  intros r Hr. rewrite decide_False by done. by apply A.
Qed.

Lemma exit_ok v err c c4 :
  context_ok c ->
  on_stack (c_mem c) (top_of c - 176) (top_of c) c4 (rev (map (regs c) saved) ++ trap_words v err c) ->
  exists c', run isr_exit c4 = Ret (Returned c') /\ (forall r, regs c' r = regs c r) /\ c_rip c' = c_rip c /\
    c_cs c' = c_cs c /\ c_rflags c' = c_rflags c /\ c_ss c' = c_ss c /\ c_dev c' = c_dev c4 /\
    (forall x, regs c RSP <= x -> c_mem c' !! x = c_mem c !! x).
Proof.
  intros Hc H4. rewrite <- map_rev in H4. unfold isr_exit.
  destruct (run_pops _ _ _ _ _ _ _ H4) as (c5 & E5 & H5 & R5 & _ & _ & _ & _ & D5 & _); [set_solver|].
  pose proof (add_rsp_ok _ _ _ _ _ _ _ H5) as H6. set (c6 := set_reg c5 _ _) in H6.
  destruct (iretq_ok _ _ _ _ _ _ _ _ _ H6) as (c7 & E7 & P7 & R7 & I7 & S7 & F7 & X7 & D7 & M7).
  exists c7. rewrite run_app, E5. cbn [mbind exec_bind].
  change (run [AddI RSP 16; Iretq] c5) with
    (o ← step Iretq c6; match o with Returned c' => run [] c' | Halted c' => Ret (Halted c') end).
  split; [by rewrite E7|]. split.
  { intros r. destruct (decide (r = RSP)) as [->|Hr]; [exact P7|]. rewrite R7 by done. cbn. rewrite decide_False by done.
    rewrite R5 by done. rewrite decide_True; [done|]. destruct r; solve [by_compute|done]. }
  split_and!; [exact I7|exact S7|exact F7|exact X7|by rewrite D7|].
  intros x Hx. rewrite M7. apply (os_above _ _ _ _ _ H6). pose proof (top_facts c Hc). lia.
Qed.

(** ** Theorem *)

Section callee.
(** The convention: memory from the stack pointer on belongs to the caller, who here passes the
    frame only to be read. *)
Hypothesis Hleft : forall c x, regs c RSP <= x -> left_mem c !! x = c_mem c !! x.
Hypothesis Hdom : forall c, same_dom (c_mem c) (left_mem c).

Lemma interrupt_cases v err c :
  0 <= v < 48 -> context_ok c -> is_u64 err ->
  (exists c1 c3, deliver v err (negb (v =? 3)) c = Ret c1 /\ run (isr_entry v) c1 = Ret (Returned c3) /\
     regs c3 RDI = regs c3 RSP /\ (16 | regs c3 RSP) /\
     read_frame (c_mem c3) (regs c3 RDI) = Ret (frame_of v err c)) /\
  match dispatch (c_dev c) (Some (frame_of v err c)) with
  | Fault e => interrupt v err c = Fault e
  | Ret (Halted d) => exists c', interrupt v err c = Ret (Halted c') /\ c_dev c' = d
  | Ret (Returned d) =>
      exists c', interrupt v err c = Ret (Returned c') /\ c_dev c' = d /\ (forall r, regs c' r = regs c r) /\
        c_rip c' = c_rip c /\ c_cs c' = c_cs c /\ c_rflags c' = c_rflags c /\ c_ss c' = c_ss c /\
        (forall x, regs c RSP <= x -> c_mem c' !! x = c_mem c !! x)
  end.
Proof.
  intros Hv Hc He. destruct (entry_ok v err c Hv Hc He) as (c1 & c3 & E1 & E3 & H3 & Hdi & Hal & Hd & Hf).
  split; [by exists c1, c3|]. unfold interrupt. rewrite E1. cbn [mbind exec_bind].
  rewrite isr_stub_split, run_app, E3. cbn [mbind exec_bind]. cbn [run]. cbn [step]. rewrite Hf. cbn [mbind exec_bind]. rewrite Hd.
  destruct (dispatch (c_dev c) (Some (frame_of v err c))) as [[d|d]|e]; cbn [mbind exec_bind]; [|by eexists|done].
  set (c4 := mk_cpu _ _ _ _ _ _ _).
  destruct (exit_ok v err c c4 Hc) as (c5 & E5 & R5 & I5 & S5 & F5 & X5 & D5 & M5).
  - destruct H3 as [W T R V D A]. split; cbn [c4 regs c_mem callee_saved]; try done.
    + apply (stack_at_ext (c_mem c3)); [|done]. intros x Hx. by apply Hleft.
    + transitivity (c_mem c3); [done|apply Hdom].
    + intros x Hx. rewrite Hleft; [by apply A|]. pose proof (zlen_nonneg (rev (map (regs c) saved) ++ trap_words v err c)). lia.
  - exists c5. by split_and!.
Qed.
End callee.
End run.

(** ** Theorems *)

(** C6: interrupts are transparent.  An interrupt or exception on any of the 48 vectors, from its
    delivery through its stub to [iretq], calls the dispatcher on an aligned stack with a frame
    that holds the interrupted registers, the vector, and the error code or zero; when the
    dispatcher returns, every register, the flags, the segments, the instruction and the stack
    pointer are what they were, and no byte of the interrupted stack has changed, whatever the
    compiled dispatcher did to the registers and the memory the convention leaves to it; when it
    halts or faults, so does the interrupt. *)
Theorem isr_transparent env flags buf buf32 file left_regs left_mem v err c :
  (forall c x, regs c RSP <= x -> left_mem c !! x = c_mem c !! x) ->
  (forall c, same_dom (c_mem c) (left_mem c)) ->
  0 <= v < 48 -> context_ok c -> is_u64 err ->
  let dispatch := x86_64_trap_dispatch env flags buf buf32 file in
  (exists c1 c3, deliver v err (negb (v =? 3)) c = Ret c1 /\
     run dispatch left_regs left_mem (isr_entry v) c1 = Ret (Returned c3) /\
     regs c3 RDI = regs c3 RSP /\ (16 | regs c3 RSP) /\
     read_frame (c_mem c3) (regs c3 RDI) = Ret (frame_of v err c)) /\
  match dispatch (c_dev c) (Some (frame_of v err c)) with
  | Fault e => interrupt dispatch left_regs left_mem v err c = Fault e
  | Ret (Halted d) => exists c', interrupt dispatch left_regs left_mem v err c = Ret (Halted c') /\ c_dev c' = d
  | Ret (Returned d) =>
      exists c', interrupt dispatch left_regs left_mem v err c = Ret (Returned c') /\ c_dev c' = d /\
        (forall r, regs c' r = regs c r) /\
        c_rip c' = c_rip c /\ c_cs c' = c_cs c /\ c_rflags c' = c_rflags c /\ c_ss c' = c_ss c /\
        (forall x, regs c RSP <= x -> c_mem c' !! x = c_mem c !! x)
  end.
Proof. intros Hl Hd Hv Hc He. cbn zeta. by apply interrupt_cases. Qed.

(** C37: the system call stub serves nothing.  An [int 0x80] through its stub restores every register,
    the number of the call and its arguments included, and returns without a call of the
    dispatcher: the devices and the caller's stack are untouched, and the caller finds the number
    it passed as the result. *)
Theorem int80_stub_returns dispatch left_regs left_mem g c :
  context_ok c ->
  exists c1 c', deliver 0x80 0 g c = Ret c1 /\
    run dispatch left_regs left_mem x86_64_syscall_int80_stub c1 = Ret (Returned c') /\
    (forall r, regs c' r = regs c r) /\ c_rip c' = c_rip c /\ c_cs c' = c_cs c /\ c_rflags c' = c_rflags c /\
    c_ss c' = c_ss c /\ c_dev c' = c_dev c /\ (forall x, regs c RSP <= x -> c_mem c' !! x = c_mem c !! x).
Proof.
  intros Hc. destruct (deliver_ok 0x80 0 g c Hc ltac:(done)) as (c1 & E1 & H1 & R1 & D1).
  set (rs := [RAX; RBX; RCX; RDX; RSI; RDI; RBP]). pose proof (top_facts c Hc) as [Ht _].
  pose proof (os_top _ _ _ _ _ H1) as T1. change (zlen (hw_words 0x80 0 c)) with 5 in T1.
  destruct (run_pushes dispatch left_regs left_mem _ _ _ rs c1 _ H1)
    as (c2 & E2 & H2 & (R2 & _ & _ & _ & _ & D2) & _); [set_solver| |change (zlen rs) with 7; lia|].
  { intros r. destruct (decide (r = RSP)) as [->|Hr]; [|rewrite R1 by done; apply Hc].
    pose proof (os_range _ _ _ _ _ H1). pose proof (cx_regs c Hc RSP) as [_ ?]. unfold is_u64. lia. }
  assert (map (regs c1) rs = map (regs c) rs) as Em by (cbn; by rewrite !R1 by done). rewrite Em, <- map_rev in H2.
  destruct (run_pops dispatch left_regs left_mem _ _ _ _ _ _ _ H2)
    as (c3 & E3 & H3 & R3 & _ & _ & _ & _ & D3 & _); [set_solver|].
  destruct (iretq_ok dispatch left_regs left_mem _ _ _ _ _ _ _ _ _ H3) as (c4 & E4 & P4 & R4 & I4 & S4 & F4 & X4 & D4 & M4).
  exists c1, c4. split; [exact E1|].
  change x86_64_syscall_int80_stub with (map PushR rs ++ map PopR (rev rs) ++ [Iretq]).
  rewrite run_app, E2. cbn [mbind exec_bind]. rewrite run_app, E3. cbn [mbind exec_bind run]. rewrite E4.
  split; [done|]. split.
  { intros r. destruct (decide (r = RSP)) as [->|Hr]; [exact P4|]. rewrite R4, R3 by done.
    destruct (decide _) as [_|_]; [done|]. by rewrite R2, R1. }
  split_and!; try congruence. intros x Hx. rewrite M4. apply (os_above _ _ _ _ _ H3). lia.
Qed.

(** ** Witnesses *)

(** A processor with a mapped stack, the log ready, and distinct values in its registers. *)
Definition reg_number (r : reg) : Z :=
  match r with
  | RAX => 1 | RBX => 2 | RCX => 3 | RDX => 4 | RBP => 5 | RDI => 6 | RSI => 7 | R8 => 8 | R9 => 9 | R10 => 10
  | R11 => 11 | R12 => 12 | R13 => 13 | R14 => 14 | R15 => 15 | RSP => 1003
  end.

Definition demo_stack : mem := list_to_map (zip (seqZ 600 500) (replicate 500 0)).

Definition demo_cpu : cpu := mk_cpu reg_number 0x4000 0x28 0x202 0x30 demo_stack (mk_mach (mk_con [] 1) 7 41).

Lemma demo_cpu_ok : context_ok demo_cpu.
Proof.
  split; [intros []; by_compute|split_and!; by_compute|]. split; [by_compute|]. intros x Hx. cbn in Hx |- *.
  unfold demo_stack. apply elem_of_dom. rewrite dom_list_to_map_L, fst_zip by (by rewrite length_seqZ, length_replicate).
  apply elem_of_list_to_set, elem_of_seqZ. lia.
Qed.

(** Compiled code that clears every register it may and leaves memory alone. *)
Lemma isr_transparent_witness :
  exists c', interrupt (x86_64_trap_dispatch ready_env 0x46 (replicate 21 0) (replicate 11 0) (chars "trap.c" ++ [0]))
      (fun _ _ => 0) c_mem 0x20 0 demo_cpu = Ret (Returned c') /\
    g_ticks (c_dev c') = 8 /\ regs c' RAX = 1 /\ regs c' RSP = 1003.
Proof.
  destruct (isr_transparent ready_env 0x46 (replicate 21 0) (replicate 11 0) (chars "trap.c" ++ [0])
    (fun _ _ => 0) c_mem 0x20 0 demo_cpu) as [_ H]; [reflexivity|intros c; reflexivity|by_compute|exact demo_cpu_ok|by_compute|].
  destruct (x86_64_trap_dispatch ready_env 0x46 (replicate 21 0) (replicate 11 0) (chars "trap.c" ++ [0])
    (c_dev demo_cpu) (Some (frame_of 0x20 0 demo_cpu))) as [[d|d]|] eqn:E; [|vm_compute in E; discriminate E..].
  destruct H as (c' & Ei & Hd & Hr & _). exists c'. split; [exact Ei|]. rewrite Hd, !Hr.
  split; [|split; reflexivity]. vm_compute in E. injection E as <-. reflexivity.
Defined.

Lemma int80_stub_witness :
  exists c1 c', deliver 0x80 0 true demo_cpu = Ret c1 /\
    run (fun _ _ => Fault NullDeref) (fun _ _ => 0) c_mem x86_64_syscall_int80_stub c1 = Ret (Returned c') /\ regs c' RAX = 1.
Proof.
  destruct (int80_stub_returns (fun _ _ => Fault NullDeref) (fun _ _ => 0) c_mem true demo_cpu demo_cpu_ok)
    as (c1 & c' & E1 & E2 & Hr & _).
  exists c1, c'. split; [exact E1|]. split; [exact E2|exact (Hr RAX)].
Defined.
