(* ===== verification/Cpu.v ===== *)
(** * Single instructions and loops without return (cpu.h, start.S, context_switch.S, and the
    inline assembly of vmm.c, idt.c and thread.c)

    The fragments as lists of instructions with a program counter, run by a processor that takes
    interrupts while its interrupt flag is set and sleeps after [hlt] until it takes one. *)

From S2P Require Import Prelude Bytes Mem Console Irq Trap Isr.

(** ** Instructions *)

Inductive cinstr : Type :=
  | Cli
  | Sti
  | Hlt
  | Pause
  | Int3
  | Pushfq
  | Popq (r : reg)
  | MovCr2 (r : reg)
  | MovCr3 (r : reg)
  | Invlpg (r : reg)
  | Jmp (target : nat)
  | Retq.

(** The inline functions of cpu.h. *)
Definition cpu_cli : list cinstr := [Cli].
Definition cpu_sti : list cinstr := [Sti].
Definition cpu_hlt : list cinstr := [Hlt].
Definition cpu_pause : list cinstr := [Pause].
Definition cpu_breakpoint : list cinstr := [Int3].
Definition cpu_read_rflags : list cinstr := [Pushfq; Popq RAX].
Definition cpu_halt_forever : list cinstr := cpu_cli ++ cpu_hlt ++ [Jmp 1].

(** start.S, context_switch.S, and the loops of thread.c and of the end of [kmain]. *)
Definition start : list cinstr := [Cli; Hlt; Jmp 1].
Definition mcsos_context_switch : list cinstr := [Retq].
Definition mcsos_thread_trampoline : list cinstr := [Hlt; Jmp 0].
Definition idle_loop : list cinstr := cpu_hlt ++ [Jmp 0].

(** The register accesses of vmm.c, the instruction of idt.c, and the pause of m12_spinlock.c. *)
Definition vmm_read_cr2 : list cinstr := [MovCr2 RAX].
Definition vmm_read_cr3 : list cinstr := [MovCr3 RAX].
Definition vmm_invlpg : list cinstr := [Invlpg RDI].
Definition x86_64_trigger_breakpoint_for_test : list cinstr := [Int3].
Definition mcs_cpu_pause : list cinstr := [Pause].

(** ** The processor *)

(** The control registers, and the pages whose translation is cached. *)
Record control : Type := mk_control {
  cr2 : Z;
  cr3 : Z;
  tlb : gset Z
}.

Record core : Type := mk_core {
  state : cpu;
  ctl : control;
  pc : nat;
  asleep : bool
}.

Definition set_flags (c : cpu) (f : Z) : cpu := mk_cpu (regs c) (c_rip c) (c_cs c) f (c_ss c) (c_mem c) (c_dev c).

(** The interrupt flag, bit 9 of the flags. *)
Definition if_set (c : cpu) : bool := Z.testbit (c_rflags c) 9.

Section cpu.
Variable dispatch : machine -> option x86_64_trap_frame_t -> exec (outcome machine).
Variable left_regs : cpu -> reg -> Z.
Variable left_mem : cpu -> mem.

(** What one instruction does to the registers and the control state; [hlt] and the jumps change
    only where and whether the processor goes on. *)
Definition effect (i : cinstr) (c : cpu) (k : control) : exec (outcome (cpu * control)) :=
  match i with
  | Cli => Ret (Returned (set_flags c (Z.clearbit (c_rflags c) 9), k))
  | Sti => Ret (Returned (set_flags c (Z.setbit (c_rflags c) 9), k))
  | Hlt | Pause | Jmp _ | Retq => Ret (Returned (c, k))
  | Int3 =>
      o ← interrupt dispatch left_regs left_mem 3 0 c;
      Ret (match o with Returned c' => Returned (c', k) | Halted c' => Halted (c', k) end)
  | Pushfq => c' ← push (c_rflags c) c; Ret (Returned (c', k))
  | Popq r => '(c', v) ← pop c; Ret (Returned (set_reg c' r v, k))
  | MovCr2 r => Ret (Returned (set_reg c r (cr2 k), k))
  | MovCr3 r => Ret (Returned (set_reg c r (cr3 k), k))
  | Invlpg r => Ret (Returned (c, mk_control (cr2 k) (cr3 k) (tlb k ∖ {[regs c r / 4096]})))
  end.

Definition next_pc (i : cinstr) (n : nat) : nat := match i with Jmp t => t | _ => S n end.
Definition sleeps (i : cinstr) : bool := match i with Hlt => true | _ => false end.

(** One step: an instruction, or an interrupt that the flag lets through and whose handler
    returns.  A sleeping processor goes on only by an interrupt. *)
Inductive core_step (prog : list cinstr) : core -> core -> Prop :=
  | step_instr c k n i c' k' :
      prog !! n = Some i -> effect i c k = Ret (Returned (c', k')) ->
      core_step prog (mk_core c k n false) (mk_core c' k' (next_pc i n) (sleeps i))
  | step_interrupt c k n z v err c' :
      if_set c = true -> 0 <= v < 48 -> interrupt dispatch left_regs left_mem v err c = Ret (Returned c') ->
      core_step prog (mk_core c k n z) (mk_core c' k n false).

(** Straight-line code, run to its end without interrupts. *)
Fixpoint straight (code : list cinstr) (c : cpu) (k : control) : exec (outcome (cpu * control)) :=
  match code with
  | [] => Ret (Returned (c, k))
  | i :: code' =>
      o ← effect i c k;
      match o with
      | Returned (c', k') => straight code' c' k'
      | Halted s => Ret (Halted s)
      end
  end.

(** ** Loops that do not return *)

(** Past the [cli] of [cpu_halt_forever]: the flag is clear and nothing changes any more. *)
Definition stopped (s s' : core) : Prop :=
  state s' = state s /\ ctl s' = ctl s /\ (pc s' = 1 \/ pc s' = 2)%nat.

Lemma stopped_step s0 s s' :
  if_set (state s0) = false -> stopped s0 s -> core_step cpu_halt_forever s s' -> stopped s0 s'.
Proof.
  intros Hif (Hc & Hk & Hpc) Hst. unfold stopped. destruct Hst as [c k n i c' k' Hi He|c k n z v err c' Hf]; cbn in *; subst.
  - destruct Hpc as [->| ->]; cbn in Hi; injection Hi as <-; cbn in *; injection He as <- <-; auto.
  - congruence.
Qed.

Lemma stopped_steps s0 s s' :
  if_set (state s0) = false -> rtc (core_step cpu_halt_forever) s s' -> stopped s0 s -> stopped s0 s'.
Proof. intros Hif. induction 1; eauto using stopped_step. Qed.

Lemma cli_clears c : if_set (set_flags c (Z.clearbit (c_rflags c) 9)) = false.
Proof. unfold if_set. cbn [set_flags c_rflags]. apply Z.clearbit_eq. Qed.

(** What holds from the first instruction on. *)
Lemma halt_reach s s' :
  rtc (core_step cpu_halt_forever) s s' -> pc s = 0%nat ->
  pc s' = 0%nat \/ (if_set (state s') = false /\ (pc s' = 1 \/ pc s' = 2)%nat).
Proof.
  intros Hr H0. revert s' Hr. apply rtc_ind_r; [by left|]. intros s1 s2 _ Hst IH.
  destruct Hst as [c k n i c' k' Hi He|c k n z v err c' Hf]; cbn [state pc] in *.
  - destruct IH as [->|(Hif & [->| ->])]; cbn in Hi; injection Hi as <-; cbn in He; injection He as <- <-; right.
    + split; [apply cli_clears|by left].
    + split; [done|by right].
    + split; [done|by left].
  - destruct IH as [->|(Hif & _)]; [by left|congruence].
Qed.

Lemma halt_arrives s :
  pc s = 0%nat -> asleep s = false ->
  exists s', rtc (core_step cpu_halt_forever) s s' /\ asleep s' = true /\ forall s'', ~ core_step cpu_halt_forever s' s''.
Proof.
  destruct s as [c k n z]. cbn. intros -> ->. eexists. split; [|split].
  - eapply rtc_l; [by eapply (step_instr cpu_halt_forever c k 0 Cli)|].
    eapply rtc_l; [by eapply (step_instr cpu_halt_forever _ _ 1 Hlt)|]. apply rtc_refl.
  - done.
  - intros s'' Hst. inversion Hst as [|? ? ? ? ? ? ? Hf]; subst. by rewrite cli_clears in Hf.
Qed.

(** ** Loops that serve interrupts *)

(** Interrupts taken one after the other. *)
Definition served : cpu -> cpu -> Prop :=
  rtc (fun c c' => exists v err, if_set c = true /\ 0 <= v < 48 /\ interrupt dispatch left_regs left_mem v err c = Ret (Returned c')).

Lemma served_trans c1 c2 c3 : served c1 c2 -> served c2 c3 -> served c1 c3.
Proof. intros H1 H2. by etrans. Qed.

Lemma idle_reach s s' :
  rtc (core_step idle_loop) s s' -> (pc s <= 1)%nat ->
  (pc s' <= 1)%nat /\ ctl s' = ctl s /\ served (state s) (state s').
Proof.
  intros Hr H0. revert s' Hr. apply rtc_ind_r; [split_and!; [done|done|apply rtc_refl]|].
  intros s1 s2 _ Hst (Hpc & Hk & Hs). destruct Hst as [c k n i c' k' Hi He|c k n z v err c' Hf Hv He]; cbn [state pc ctl] in *.
  - destruct n as [|[|n]]; [..|lia]; cbn in Hi; injection Hi as <-; cbn in He; injection He as <- <-; cbn; split_and!; (done || lia).
  - split_and!; [done|done|]. eapply served_trans; [exact Hs|]. apply rtc_once. by exists v, err.
Qed.

Lemma idle_serves s c' :
  served (state s) c' -> exists s', rtc (core_step idle_loop) s s' /\ state s' = c' /\ pc s' = pc s.
Proof.
  destruct s as [c k n z]. cbn. intros Hs. revert n z. induction Hs as [c|c c1 c2 (v & err & Hf & Hv & E) _ IH]; intros n z.
  - exists (mk_core c k n z). by split_and!; [apply rtc_refl|..].
  - destruct (IH n false) as (s' & Hr & Hst & Hpc). exists s'. split_and!; [|done|done].
    eapply rtc_l; [by eapply (step_interrupt idle_loop c k n z v err)|exact Hr].
Qed.

(** ** Theorems *)

(** C38: a processor that panics, or is started at [_start], stops for good.  [cpu_halt_forever] and
    [_start] reach a state from which no step is possible; control never gets past the loop; and
    once the interrupt flag is cleared no handler runs any more, whatever interrupts are requested:
    registers, memory, control registers and devices stay as they are. *)
Theorem halt_is_final prog s :
  prog = start \/ prog = cpu_halt_forever -> pc s = 0%nat -> asleep s = false ->
  (exists s', rtc (core_step prog) s s' /\ asleep s' = true /\ forall s'', ~ core_step prog s' s'') /\
  (forall s', rtc (core_step prog) s s' ->
     (pc s' <= 2)%nat /\
     ((0 < pc s')%nat -> if_set (state s') = false /\
        forall s'', rtc (core_step prog) s' s'' -> state s'' = state s' /\ ctl s'' = ctl s')).
Proof.
  intros Hp Hpc Hz. assert (prog = cpu_halt_forever) as -> by (destruct Hp as [->| ->]; reflexivity).
  split; [by apply halt_arrives|]. intros s' Hr. destruct (halt_reach s s' Hr Hpc) as [->|(Hif & Hpc')]; [split; [|intros Hlt]; lia|].
  split; [lia|]. intros _. split; [done|]. intros s'' Hr'.
  destruct (stopped_steps s' s' s'' Hif Hr') as (? & ? & _); [by split_and!|done].
Qed.

(** The idle loop of [kmain] and the trampoline of thread.c do nothing but serve interrupts: the
    states they go through are exactly those that a sequence of served interrupts leads to, and
    control never leaves the loop. *)
Theorem idle_is_interrupts prog s :
  prog = idle_loop \/ prog = mcsos_thread_trampoline -> pc s = 0%nat ->
  (forall s', rtc (core_step prog) s s' -> (pc s' <= 1)%nat /\ ctl s' = ctl s) /\
  (forall c', (exists s', rtc (core_step prog) s s' /\ state s' = c') <-> served (state s) c').
Proof.
  intros Hp Hpc. assert (prog = idle_loop) as -> by (destruct Hp as [->| ->]; reflexivity). split.
  - intros s' Hr. destruct (idle_reach s s' Hr) as (? & ? & _); [lia|done].
  - intros c'. split.
    + intros (s' & Hr & <-). apply (idle_reach s s' Hr). lia.
    + intros Hs. destruct (idle_serves s c' Hs) as (s' & Hr & Hst & _). by exists s'.
Qed.

(** [cpu_read_rflags] returns the flags and leaves every other register and the stack above the
    pointer alone. *)
Theorem cpu_read_rflags_ok c k :
  is_u64 (c_rflags c) -> 8 <= regs c RSP < 2 ^ 64 -> valid (c_mem c) (regs c RSP - 8) 8 ->
  exists c', straight cpu_read_rflags c k = Ret (Returned (c', k)) /\ regs c' RAX = c_rflags c /\
    (forall r, r <> RAX -> regs c' r = regs c r) /\ c_rflags c' = c_rflags c /\ c_dev c' = c_dev c /\
    (forall x, regs c RSP <= x -> c_mem c' !! x = c_mem c !! x).
Proof.
  intros Hf Hsp Hv. unfold cpu_read_rflags, straight, effect, push, pop. rewrite u64_small by (unfold is_u64; lia).
  destruct (store64_spec (c_mem c) (regs c RSP - 8) (c_rflags c) Hv Hf) as (m' & -> & Hload & _ & Hag).
  cbn -[load64 decide]. rewrite decide_True by done. rewrite Hload. cbn -[decide]. eexists. split; [done|]. cbn -[decide]. split_and!; try done.
  - intros r Hr. rewrite decide_False by done. destruct (decide (r = RSP)) as [->|Hne]; [|done].
    rewrite u64_small by (unfold is_u64; lia). lia.
  - intros x Hx. apply Hag. lia.
Qed.
End cpu.

(** ** Witnesses *)

Definition demo_core : core := mk_core demo_cpu (mk_control 0 0x1000 ∅) 0 false.

(** A machine on which every dispatch returns at once. *)
Definition returns_at_once (m : machine) (f : option x86_64_trap_frame_t) : exec (outcome machine) := Ret (Returned m).

Lemma halt_is_final_witness :
  if_set (state demo_core) = true /\
  exists s', rtc (core_step returns_at_once (fun _ _ => 0) c_mem cpu_halt_forever) demo_core s' /\ asleep s' = true /\
    forall s'', ~ core_step returns_at_once (fun _ _ => 0) c_mem cpu_halt_forever s' s''.
Proof.
  split; [by_compute|].
  destruct (halt_is_final returns_at_once (fun _ _ => 0) c_mem cpu_halt_forever demo_core) as [H _];
    [by right|reflexivity|reflexivity|exact H].
Defined.

Lemma idle_is_interrupts_witness :
  exists c', served returns_at_once (fun _ _ => 0) c_mem demo_cpu c' /\
    exists s', rtc (core_step returns_at_once (fun _ _ => 0) c_mem idle_loop) demo_core s' /\ state s' = c'.
Proof.
  destruct (interrupt_cases returns_at_once (fun _ _ => 0) c_mem (fun _ _ _ => eq_refl) (fun c => reflexivity (R := same_dom) (c_mem c)) 0x20 0 demo_cpu)
    as [_ (c' & E & _)]; [by_compute|exact demo_cpu_ok|by_compute|].
  assert (served returns_at_once (fun _ _ => 0) c_mem demo_cpu c') as Hs.
  { apply rtc_once. exists 0x20, 0. split; [by_compute|]. split; [by_compute|exact E]. }
  exists c'. split; [exact Hs|].
  destruct (idle_is_interrupts returns_at_once (fun _ _ => 0) c_mem idle_loop demo_core) as [_ H]; [by left|reflexivity|].
  by apply H.
Defined.
