(* ===== verification/Steps.v ===== *)
(** * The calls a thread makes, one access at a time (kernel/core/serial.c, log.c, thread.c, kernel/mm/kmem.c)

    Interrupts arrive between instructions.  Here the code that runs with interrupts enabled is
    written again as programs whose steps are single accesses to a port or to shared memory, so
    that an interrupt can be placed between any two of them.  Run without interruption, each program
    does what the function of its component does. *)

From S2P Require Import Prelude Bytes Mem Kmem Thread Console.

(** ** Programs *)

(** A program over a state: finished, or one access and what follows the value it yields. *)
Inductive prog (S A : Type) : Type :=
  | Pure (a : A)
  | Step {X : Type} (f : S -> exec (S * X)) (next : X -> prog S A).
Arguments Pure {S A} a.
Arguments Step {S A X} f next.

Fixpoint prog_then {S A B} (g : A -> prog S B) (p : prog S A) : prog S B :=
  match p with
  | Pure a => g a
  | Step f next => Step f (fun x => prog_then g (next x))
  end.

#[global] Instance prog_ret S : MRet (prog S) := fun A a => Pure a.
#[global] Instance prog_bind S : MBind (prog S) := fun A B g p => prog_then g p.

(** The program run from end to end. *)
Fixpoint atomic {S A} (p : prog S A) (s : S) : exec (S * A) :=
  match p with
  | Pure a => Ret (s, a)
  | Step f next => '(s', x) ← f s; atomic (next x) s'
  end.

Lemma atomic_bind {S A B} (p : prog S A) (g : A -> prog S B) : forall s,
  atomic (p ≫= g) s = ('(s', a) ← atomic p s; atomic (g a) s').
Proof.
  induction p as [a|X f next IH]; intros s; [done|]. change (Step f next ≫= g) with (Step f (fun x => next x ≫= g)).
  cbn [atomic]. destruct (f s) as [[s1 x]|e]; [|done]. cbn [mbind exec_bind]. apply IH.
Qed.

(** ** The console *)

Section console.
Variable env : list event -> Z -> Z.

Definition port_in (port : Z) : prog con Z := Step (fun c => Ret (inb env c port)) Pure.
Definition port_out (port value : Z) : prog con unit := Step (fun c => Ret (outb c port value, tt)) Pure.

Definition p_serial_transmit_empty : prog con bool :=
  v ← port_in (COM1_PORT + 5); mret (negb (Z.land v 0x20 =? 0)).

Definition p_serial_init : prog con unit :=
  port_out (COM1_PORT + 1) 0x00;;
  port_out (COM1_PORT + 3) 0x80;;
  port_out (COM1_PORT + 0) 0x03;;
  port_out (COM1_PORT + 1) 0x00;;
  port_out (COM1_PORT + 3) 0x03;;
  port_out (COM1_PORT + 2) 0xC7;;
  port_out (COM1_PORT + 4) 0x0B.

(** The waiting loop of [serial_putc], with [n] rounds left before the timeout. *)
Fixpoint p_serial_wait (n : nat) : prog con bool :=
  ready ← p_serial_transmit_empty;
  if ready : bool then mret true
  else match n with
       | O | S O => mret false
       | S n' => p_serial_wait n'
       end.

Definition p_serial_putc_raw (c : Z) : prog con unit :=
  ready ← p_serial_wait (Z.to_nat SERIAL_TIMEOUT_LIMIT);
  if ready : bool then port_out COM1_PORT (u8 c) else mret tt.

Definition p_serial_putc (c : Z) : prog con unit :=
  (if c =? 10 then p_serial_putc_raw 13 else mret tt);;
  p_serial_putc_raw c.

Fixpoint p_serial_chars (s : list Z) : prog con unit :=
  match s with
  | [] => mret tt
  | c :: s' => p_serial_putc c;; p_serial_chars s'
  end.

Definition p_serial_write (s : option (list Z)) : prog con unit :=
  match s with
  | None => mret tt
  | Some a => if bool_decide (has_nul a) then p_serial_chars (cstr a) else Step (fun _ => Fault OutOfBounds) Pure
  end.

(** The test of [g_log_ready] at the head of [log_putc] and [log_write]. *)
Definition p_log_ensure : prog con unit :=
  r ← Step (fun c => Ret (c, g_log_ready c)) Pure;
  if r =? 0 then p_serial_init;; Step (fun c => Ret (set_ready c, tt)) Pure else mret tt.

Definition p_log_putc (c : Z) : prog con unit := p_log_ensure;; p_serial_putc c.
Definition p_log_write (s : option (list Z)) : prog con unit := p_log_ensure;; p_serial_write s.
Definition p_log_writeln (s : option (list Z)) : prog con unit := p_log_write s;; p_log_putc 10.

(** *** Without interruption *)

Lemma atomic_wait n : forall c, atomic (p_serial_wait n) c = Ret (serial_wait env n c).
Proof.
  induction n as [|n IH]; intros c; cbn [p_serial_wait serial_wait]; unfold p_serial_transmit_empty, serial_transmit_empty;
    rewrite !atomic_bind; cbn -[SERIAL_TIMEOUT_LIMIT inb COM1_PORT]; destruct (inb env c (COM1_PORT + 5)) as [c' v]; cbn -[SERIAL_TIMEOUT_LIMIT];
    destruct (negb (Z.land v 0x20 =? 0)); [done|done|done|]. destruct n as [|n]; [done|]. apply IH.
Qed.

Lemma atomic_putc_raw c k : atomic (p_serial_putc_raw c) k = Ret (serial_putc_raw env k c, tt).
Proof.
  unfold p_serial_putc_raw, serial_putc_raw. rewrite atomic_bind, atomic_wait. cbn [mbind exec_bind].
  by destruct (serial_wait env (Z.to_nat SERIAL_TIMEOUT_LIMIT) k) as [k' []].
Qed.

Lemma atomic_putc c k : atomic (p_serial_putc c) k = Ret (serial_putc env k c, tt).
Proof.
  unfold p_serial_putc, serial_putc. rewrite atomic_bind.
  destruct (c =? 10); [rewrite atomic_putc_raw|]; cbn [atomic mret prog_ret mbind exec_bind]; by rewrite atomic_putc_raw.
Qed.

Lemma atomic_chars s : forall k, atomic (p_serial_chars s) k = Ret (serial_chars env k s, tt).
Proof.
  induction s as [|c s IH]; intros k; [done|]. cbn [p_serial_chars serial_chars]. rewrite atomic_bind, atomic_putc.
  cbn [mbind exec_bind]. apply IH.
Qed.

Lemma atomic_ensure k : atomic p_log_ensure k = Ret (log_ensure k, tt).
Proof. unfold p_log_ensure, log_ensure. rewrite atomic_bind. cbn [atomic mbind exec_bind]. by destruct (g_log_ready k =? 0). Qed.

Lemma atomic_log_write s k : atomic (p_log_write s) k = (k' ← log_write env k s; Ret (k', tt)).
Proof.
  unfold p_log_write, log_write. rewrite atomic_bind, atomic_ensure. cbn [mbind exec_bind].
  destruct s as [a|]; [|done]. unfold p_serial_write, serial_write. case_bool_decide; [by rewrite atomic_chars|done].
Qed.

Lemma atomic_log_writeln s k : atomic (p_log_writeln s) k = (k' ← log_writeln env k s; Ret (k', tt)).
Proof.
  unfold p_log_writeln, log_writeln. rewrite atomic_bind, atomic_log_write. destruct (log_write env k s) as [k'|e]; [|done].
  cbn [mbind exec_bind]. unfold p_log_putc, log_putc. by rewrite atomic_bind, atomic_ensure; cbn [mbind exec_bind]; rewrite atomic_putc.
Qed.
End console.

(** ** The heap and the scheduler *)

Abbreviation tsys := (@thread_system kheap).

Definition mem_of (ts : tsys) : mem := kmem_mem (kh_state (theap ts)).
Definition put_heap (ts : tsys) (h : kheap) : tsys := mk_ts (threads ts) (thread_count ts) (current_thread ts) h.
Definition put_kmem (ts : tsys) (st : kmem_state) : tsys :=
  put_heap ts (mk_kheap st (kh_lo (theap ts)) (kh_hi (theap ts))).
Definition put_mem (ts : tsys) (m : mem) : tsys := put_kmem ts (mk_kmem m (g_head (kh_state (theap ts)))).

(** A load and a store. *)
Definition rd {X} (f : tsys -> exec X) : prog tsys X := Step (fun ts => x ← f ts; Ret (ts, x)) Pure.
Definition rd_mem {X} (f : mem -> exec X) : prog tsys X := rd (fun ts => f (mem_of ts)).
Definition wr_mem (f : mem -> exec mem) : prog tsys unit :=
  Step (fun ts => m ← f (mem_of ts); Ret (put_mem ts m, tt)) Pure.

(** The block found; its size is read again. *)
Definition p_kmalloc_take (curr size : Z) : prog tsys Z :=
  csize ← rd_mem (fun m => get_size m curr);
  let remaining := csize - size in
  (if KMEM_HDR <? remaining then
     let new_block := curr + KMEM_HDR + size in
     wr_mem (fun m => set_size m new_block (remaining - KMEM_HDR));;
     wr_mem (fun m => set_free m new_block true);;
     nxt ← rd_mem (fun m => get_next m curr);
     wr_mem (fun m => set_next m new_block nxt);;
     wr_mem (fun m => set_next m curr new_block);;
     wr_mem (fun m => set_size m curr size)
   else mret tt);;
  wr_mem (fun m => set_free m curr false);;
  mret (curr + KMEM_HDR).

Fixpoint p_kmalloc_walk (fuel : nat) (curr size : Z) : prog tsys Z :=
  if curr =? 0 then mret 0
  else
    match fuel with
    | O => Step (fun _ => Fault OutOfFuel) Pure
    | S fuel' =>
        fr ← rd_mem (fun m => get_free m curr);
        fits ← (if fr : bool then sz ← rd_mem (fun m => get_size m curr); mret (size <=? sz) else mret false);
        if fits : bool then p_kmalloc_take curr size
        else nxt ← rd_mem (fun m => get_next m curr); p_kmalloc_walk fuel' nxt size
    end.

Definition p_kmalloc (fuel : nat) (size : Z) : prog tsys Z :=
  if size =? 0 then mret 0
  else head ← rd (fun ts => Ret (g_head (kh_state (theap ts)))); p_kmalloc_walk fuel head size.

Definition p_kfree (ptr : Z) : prog tsys unit :=
  if ptr =? 0 then mret tt else wr_mem (fun m => set_free m (ptr - KMEM_HDR) true).

Definition rd_count : prog tsys Z := rd (fun ts => Ret (thread_count ts)).
Definition rd_current : prog tsys Z := rd (fun ts => Ret (current_thread ts)).
Definition wr_current (c : Z) : prog tsys unit :=
  Step (fun ts => Ret (mk_ts (threads ts) (thread_count ts) c (theap ts), tt)) Pure.

(** Up to the call of the entry, which is read twice. *)
Definition p_thread_yield : prog tsys (option Z) :=
  n ← rd_count;
  if n =? 0 then mret None
  else
    c ← rd_current; wr_current (u64 (c + 1));;
    c ← rd_current; n ← rd_count;
    (if n <=? c then wr_current 0 else mret tt);;
    c ← rd_current;
    e ← rd (fun ts => t ← arr_get (threads ts) c; Ret (entry t));
    if negb (e =? 0) then e ← rd (fun ts => t ← arr_get (threads ts) c; Ret (entry t)); mret (Some e) else mret None.

(** *** Without interruption *)

Lemma atomic_rd_mem {X} (f : mem -> exec X) ts : atomic (rd_mem f) ts = (x ← f (mem_of ts); Ret (ts, x)).
Proof. unfold rd_mem, rd. cbn [atomic]. by destruct (f (mem_of ts)). Qed.

Lemma atomic_wr_mem (f : mem -> exec mem) ts : atomic (wr_mem f) ts = (m ← f (mem_of ts); Ret (put_mem ts m, tt)).
Proof. unfold wr_mem. cbn [atomic]. by destruct (f (mem_of ts)). Qed.

Lemma put_mem_same ts : put_mem ts (mem_of ts) = ts.
Proof. by destruct ts as [l n c [[m g] lo hi]]. Qed.

Lemma put_mem_put ts m m' : put_mem (put_mem ts m) m' = put_mem ts m'.
Proof. done. Qed.

Lemma mem_of_put ts m : mem_of (put_mem ts m) = m.
Proof. done. Qed.

(** A sequence of accesses that the component's function makes in one go. *)
Ltac access :=
  rewrite ?atomic_bind, ?atomic_rd_mem, ?atomic_wr_mem, ?mem_of_put, ?put_mem_put;
  match goal with
  | H : ?f = Ret _ |- context [?f] => rewrite H
  end; cbn [mbind exec_bind].

Lemma atomic_take curr csize size ts m' p :
  get_size (mem_of ts) curr = Ret csize -> kmalloc_take (mem_of ts) curr csize size = Ret (m', p) ->
  atomic (p_kmalloc_take curr size) ts = Ret (put_mem ts m', p).
Proof.
  intros Hs H. unfold kmalloc_take, p_kmalloc_take in *. access. cbn zeta in *. rewrite atomic_bind.
  destruct (KMEM_HDR <? csize - size); exec_inv.
  - do 6 access. cbn [atomic mret prog_ret]. by access.
  - cbn [atomic mret prog_ret mbind exec_bind]. by access.
Qed.

Lemma atomic_walk fuel : forall curr size ts m' p,
  kmalloc_walk fuel (mem_of ts) curr size = Ret (m', p) -> atomic (p_kmalloc_walk fuel curr size) ts = Ret (put_mem ts m', p).
Proof.
  induction fuel as [|fuel IH]; intros curr size ts m' p H; cbn [kmalloc_walk p_kmalloc_walk] in *.
  - destruct (curr =? 0); [|done]. injection H as <- <-. cbn. by rewrite put_mem_same.
  - destruct (curr =? 0); [injection H as <- <-; cbn; by rewrite put_mem_same|].
    apply exec_bind_inv in H as (fr & Hf & H). apply exec_bind_inv in H as (sz & Hs & H). access. rewrite atomic_bind.
    destruct fr; cbn [andb] in H.
    + access. cbn [atomic mret prog_ret mbind exec_bind]. destruct (size <=? sz); [by apply (atomic_take _ sz)|].
      apply exec_bind_inv in H as (nxt & Hn & H). access. by apply IH.
    + cbn [atomic mret prog_ret mbind exec_bind]. apply exec_bind_inv in H as (nxt & Hn & H). access. by apply IH.
Qed.

(** [kmalloc] as the heap interface of [Kmem] has it. *)
Lemma atomic_kmalloc ts size h p :
  kheap_alloc (theap ts) size = Ret (h, p) -> atomic (p_kmalloc (kh_fuel (theap ts)) size) ts = Ret (put_heap ts h, p).
Proof.
  unfold kheap_alloc, kmalloc, p_kmalloc. destruct (size =? 0).
  - cbn. intros [= <- <-]. by destruct ts as [l n c [st lo hi]].
  - intros H. apply exec_bind_inv in H as ([st q] & H & [= <- <-]). apply exec_bind_inv in H as ([m' q'] & H & [= <- <-]).
    rewrite atomic_bind. unfold rd. cbn [atomic mbind exec_bind]. by rewrite (atomic_walk _ _ _ _ m' q' H).
Qed.

Lemma atomic_kfree ts ptr st : kfree (kh_state (theap ts)) ptr = Ret st -> atomic (p_kfree ptr) ts = Ret (put_kmem ts st, tt).
Proof.
  unfold kfree, p_kfree. destruct (ptr =? 0).
  - intros [= <-]. cbn. by destruct ts as [l n c [st lo hi]].
  - intros (m' & H & [= <-])%exec_bind_inv. rewrite atomic_wr_mem. unfold mem_of. by rewrite H.
Qed.

Lemma atomic_yield ts r : thread_yield ts = Ret r -> atomic p_thread_yield ts = Ret r.
Proof.
  unfold thread_yield. cbn -[u64 arr_get Z.leb Z.eqb]. destruct (thread_count ts =? 0); [by intros [= <-]|].
  intros (next & Hn & H)%exec_bind_inv. revert Hn H. cbn -[u64 arr_get Z.leb Z.eqb].
  destruct (thread_count ts <=? u64 (current_thread ts + 1)); cbn -[u64 arr_get Z.leb Z.eqb]; intros Hn H; rewrite Hn;
    cbn -[u64 arr_get Z.leb Z.eqb]; destruct (negb (entry next =? 0)); cbn -[u64 arr_get]; rewrite ?Hn; by injection H as <-.
Qed.
