(* ===== verification/Kernel.v ===== *)
(** * The kernel as one machine: its state, its programs, and interrupts between their steps

    The state of all components together; programs over it, which may panic; requests from the
    controllers, taken before every step; and the rules by which programs are followed under any
    requests.  The calls of a thread take their steps from [Steps], one access at a time. *)

From Stdlib Require Import String.
From S2P Require Import Prelude Bytes Mem Pmm Vmm Kmem Sync Thread Console Irq Pic Trap Steps.

(** ** State *)

Record sync_state : Type := mk_sync {
  m12_boot_lock : Z;
  m12_boot_mutex : Z;
  m12_boot_counter : Z;
  lockdep_depth : Z
}.

(** [k_mach] is the console with the counters of [Trap], [k_if] the interrupt flag, [k_point] the
    number of points passed at which interrupts could be taken; the heap is the one of the thread system, and the bitmap of
    [k_pmm] is the array [kernel_pmm_bitmap] from the start. *)
Record kernel : Type := mk_kernel {
  k_mach : machine;
  k_pmm : pmm_state;
  k_vmm : list vmm_mapping_t;
  k_sync : sync_state;
  k_ts : @thread_system kheap;
  k_idt : list x86_64_idt_entry_t;
  k_idtr : x86_64_idtr_t;
  k_if : bool;
  k_point : nat
}.

Definition k_con (k : kernel) : con := mcon (k_mach k).

Definition set_mach (k : kernel) (m : machine) : kernel :=
  mk_kernel m (k_pmm k) (k_vmm k) (k_sync k) (k_ts k) (k_idt k) (k_idtr k) (k_if k) (k_point k).
Definition set_con (k : kernel) (c : con) : kernel :=
  set_mach k (mk_mach c (g_ticks (k_mach k)) (trap_count (k_mach k))).
Definition set_pmm (k : kernel) (p : pmm_state) : kernel :=
  mk_kernel (k_mach k) p (k_vmm k) (k_sync k) (k_ts k) (k_idt k) (k_idtr k) (k_if k) (k_point k).
Definition set_vmm (k : kernel) (v : list vmm_mapping_t) : kernel :=
  mk_kernel (k_mach k) (k_pmm k) v (k_sync k) (k_ts k) (k_idt k) (k_idtr k) (k_if k) (k_point k).
Definition set_sync (k : kernel) (s : sync_state) : kernel :=
  mk_kernel (k_mach k) (k_pmm k) (k_vmm k) s (k_ts k) (k_idt k) (k_idtr k) (k_if k) (k_point k).
Definition set_ts (k : kernel) (t : @thread_system kheap) : kernel :=
  mk_kernel (k_mach k) (k_pmm k) (k_vmm k) (k_sync k) t (k_idt k) (k_idtr k) (k_if k) (k_point k).
Definition set_idt (k : kernel) (i : list x86_64_idt_entry_t) (r : x86_64_idtr_t) : kernel :=
  mk_kernel (k_mach k) (k_pmm k) (k_vmm k) (k_sync k) (k_ts k) i r (k_if k) (k_point k).
Definition set_if (k : kernel) (b : bool) : kernel :=
  mk_kernel (k_mach k) (k_pmm k) (k_vmm k) (k_sync k) (k_ts k) (k_idt k) (k_idtr k) b (k_point k).
Definition set_point (k : kernel) (n : nat) : kernel :=
  mk_kernel (k_mach k) (k_pmm k) (k_vmm k) (k_sync k) (k_ts k) (k_idt k) (k_idtr k) (k_if k) n.
Definition set_heap (k : kernel) (h : kheap) : kernel :=
  set_ts k (mk_ts (threads (k_ts k)) (thread_count (k_ts k)) (current_thread (k_ts k)) h).

(** ** Programs *)

Inductive result (A : Type) : Type :=
  | Done (k : kernel) (a : A)
  | Panicked (k : kernel).
Arguments Done {A} k a.
Arguments Panicked {A} k.

Definition boot (A : Type) : Type := kernel -> exec (result A).

#[global] Instance boot_ret : MRet boot := fun A a k => Ret (Done k a).
#[global] Instance boot_bind : MBind boot := fun A B f m k =>
  match m k with
  | Ret (Done k' a) => f a k'
  | Ret (Panicked k') => Ret (Panicked k')
  | Fault e => Fault e
  end.


(** A part of the state that a program of [Steps] runs on. *)
Class Part (S : Type) : Type := {
  part_get : kernel -> S;
  part_put : kernel -> S -> kernel;
  part_get_put k s : part_get (part_put k s) = s;
  part_put_put k s s' : part_put (part_put k s) s' = part_put k s';
  part_put_get k : part_put k (part_get k) = k;
  part_if k s : k_if (part_put k s) = k_if k
}.

#[global] Instance con_part : Part con.
Proof. refine (Build_Part con k_con set_con _ _ _ _); try done. by intros [[] ]. Defined.
#[global] Instance ts_part : Part tsys.
Proof. refine (Build_Part tsys k_ts set_ts _ _ _ _); try done. by intros []. Defined.

Section kernel.
Variable env : list event -> Z -> Z.
Variable rflags_now : Z.
Variable dec_buf32 : list Z.

(** The requests on the sixteen lines at each point, with the registers saved when they are
    taken, and the buffer and file name of the dispatcher. *)
Variable raised : nat -> list (Z * x86_64_trap_frame_t).
Variable dec_buf : list Z.
Variable trap_file : list Z.

(** ** Interrupts *)

(** The vector on which the controllers deliver a line. *)
Definition irq_vector (o : list (Z * Z)) (irq : Z) : Z :=
  if irq <? 8 then voffset (master o) + irq else voffset (slave o) + (irq - 8).

Definition with_vector (f : x86_64_trap_frame_t) (v : Z) : x86_64_trap_frame_t :=
  mk_frame (r15 f) (r14 f) (r13 f) (r12 f) (r11 f) (r10 f) (r9 f) (r8 f) (rsi f) (rdi f) (rbp f) (rdx f) (rcx f) (rbx f)
    (rax f) v 0 (rip f) (cs f) (rflags f).

(** A request on a line that is enabled is dispatched; one on a masked line is not delivered. *)
Definition take_irq (r : Z * x86_64_trap_frame_t) : boot unit := fun k =>
  let o := outs (k_con k) in
  if enabled o r.1 then
    t ← x86_64_trap_dispatch env rflags_now dec_buf dec_buf32 trap_file (k_mach k)
          (Some (with_vector r.2 (irq_vector o r.1)));
    Ret (match t with Returned m => Done (set_mach k m) tt | Halted m => Panicked (set_mach k m) end)
  else Ret (Done k tt).

Fixpoint take_irqs (rs : list (Z * x86_64_trap_frame_t)) : boot unit :=
  match rs with
  | [] => mret tt
  | r :: rs' => take_irq r;; take_irqs rs'
  end.

(** The requests raised since the last point, when interrupts are enabled. *)
Definition irq_point : boot unit := fun k =>
  if k_if k then take_irqs (raised (k_point k)) (set_point k (S (k_point k))) else Ret (Done k tt).

(** A step that cannot panic, after the interrupts that come before it. *)
Definition plain {A} (f : kernel -> exec (kernel * A)) : boot A := fun k =>
  '(k', a) ← f k; Ret (Done k' a).
Definition act {A} (f : kernel -> exec (kernel * A)) : boot A := irq_point;; plain f.

(** A program with interrupts before each of its accesses. *)
Fixpoint fine {S A} `{!Part S} (p : prog S A) : boot A :=
  match p with
  | Pure a => mret a
  | Step f next =>
      x ← act (fun k => '(s, x) ← f (part_get k); Ret (part_put k s, x));
      fine (next x)
  end.

(** ** Reasoning about programs *)

(** The program returns, in a state and with a value that satisfy [Q]. *)
Definition runs {A} (m : boot A) (k : kernel) (Q : kernel -> A -> Prop) : Prop :=
  exists k' a, m k = Ret (Done k' a) /\ Q k' a.

Lemma runs_ret {A} (a : A) k (Q : kernel -> A -> Prop) : Q k a -> runs (mret a) k Q.
Proof. intros H. by exists k, a. Qed.

Lemma runs_bind {A B} (m : boot A) (f : A -> boot B) k Q :
  runs m k (fun k' a => runs (f a) k' Q) -> runs (m ≫= f) k Q.
Proof.
  intros (k' & a & E & k2 & b & E2 & H). exists k2, b. split; [|done].
  unfold mbind, boot_bind. by rewrite E.
Qed.

Lemma runs_mono {A} (m : boot A) k (P Q : kernel -> A -> Prop) :
  runs m k P -> (forall k' a, P k' a -> Q k' a) -> runs m k Q.
Proof. intros (k' & a & E & H) HPQ. exists k', a. auto. Qed.

(** With interrupts disabled a step runs by itself. *)
Lemma runs_act {A} (f : kernel -> exec (kernel * A)) k k' a (Q : kernel -> A -> Prop) :
  k_if k = false -> f k = Ret (k', a) -> Q k' a -> runs (act f) k Q.
Proof.
  intros Hi E H. exists k', a. split; [|done].
  unfold act, mbind, boot_bind, irq_point, plain. by rewrite Hi, E.
Qed.

(** With interrupts disabled a program runs from end to end. *)
Lemma fine_masked {S A} `{!Part S} (p : prog S A) : forall k,
  k_if k = false -> fine p k = ('(s, a) ← atomic p (part_get k); Ret (Done (part_put k s) a)).
Proof.
  induction p as [a|X f next IH]; intros k Hi; cbn [fine atomic]; [cbn; by rewrite part_put_get|].
  unfold act, mbind, boot_bind, irq_point, plain. rewrite Hi. destruct (f (part_get k)) as [[s x]|e]; [|done].
  cbn [mbind exec_bind]. rewrite IH by (by rewrite part_if). rewrite part_get_put.
  destruct (atomic (next x) s) as [[s' a]|e]; [|done]. cbn. by rewrite part_put_put.
Qed.

Lemma runs_masked {S A} `{!Part S} (p : prog S A) k s a (Q : kernel -> A -> Prop) :
  k_if k = false -> atomic p (part_get k) = Ret (s, a) -> Q (part_put k s) a -> runs (fine p) k Q.
Proof. intros Hi E H. exists (part_put k s), a. split; [|done]. by rewrite fine_masked, E. Qed.

Lemma runs_fine_bind {S A B} `{!Part S} (p : prog S A) (g : A -> prog S B) : forall k Q,
  runs (fine p) k (fun k' a => runs (fine (g a)) k' Q) -> runs (fine (p ≫= g)) k Q.
Proof.
  induction p as [a|X f next IH]; intros k Q H.
  - by destruct H as (k' & a' & [= <- <-] & H).
  - change (Step f next ≫= g) with (Step f (fun x => next x ≫= g)). cbn [fine] in *.
    destruct H as (k' & a & E & H). unfold mbind, boot_bind in E. apply runs_bind.
    destruct (act _ k) as [[k1 x|k1]|e] eqn:Ea; [|done|done]. exists k1, x. split; [done|]. apply IH. by exists k', a.
Qed.

Definition log_on (k : kernel) : Prop := g_log_ready (k_con k) = 1.

(** ** Interrupts taken while the kernel runs *)

(** The controllers as [kmain] programs them: the timer's line alone, at vector 0x20. *)
Definition chips_ok (o : list (Z * Z)) : Prop :=
  voffset (master o) = 0x20 /\ voffset (slave o) = 0x28 /\ (forall j, 0 <= j < 16 -> enabled o j = (j =? 0)).

Lemma chips_ok_same o o' : same_chips o o' -> chips_ok o -> chips_ok o'.
Proof. unfold chips_ok, enabled. intros [-> ->]. done. Qed.

(** The timer requests raised at the first [p] points. *)
Definition timer_requests (rs : list (Z * x86_64_trap_frame_t)) : Z :=
  zlen (filter (fun r => r.1 = 0) rs).
Definition timer_irqs (p : nat) : Z := timer_requests (concat (map raised (seq 0 p))).

(** The counters show the ticks so far. *)
Definition counted (n : Z) (m : machine) : Prop := g_ticks m = u64 n /\ trap_count m = u64 n.

Record irq_inv (k : kernel) : Prop := {
  ii_if : k_if k = true;
  ii_log : log_on k;
  ii_chips : chips_ok (outs (k_con k));
  ii_count : counted (timer_irqs (k_point k)) (k_mach k)
}.

(** Requests as the hardware makes them: on one of sixteen lines, with registers of 64 bits. *)
Definition requests_ok (rs : list (Z * x86_64_trap_frame_t)) : Prop :=
  Forall (fun r => 0 <= r.1 < 16 /\ frame_ok r.2) rs.


(** *** What appears on the ports *)

(** The accesses made by the handler of tick number [t]: its line, if any, and the acknowledgement. *)
Definition tick_output (t : Z) (h : list event) : Prop :=
  exists text e, tick_text t text /\ transmits text e /\ h = e ++ [PortOut 0x20 0x20].

(** Two lists woven into a third, each in its order. *)
Inductive woven {A} : list A -> list A -> list A -> Prop :=
  | woven_nil : woven [] [] []
  | woven_l x a b c : woven a b c -> woven (x :: a) b (x :: c)
  | woven_r x a b c : woven a b c -> woven a (x :: b) (x :: c).

Lemma woven_app {A} (a a' b b' c c' : list A) : woven a b c -> woven a' b' c' -> woven (a ++ a') (b ++ b') (c ++ c').
Proof. intros H H'. induction H; cbn; [done|by constructor|by constructor]. Qed.

Lemma woven_left {A} (l : list A) : woven l [] l.
Proof. induction l; by constructor. Qed.

Lemma woven_right {A} (l : list A) : woven [] l l.
Proof. induction l; by constructor. Qed.

Lemma woven_elem {A} (a b c : list A) x : woven a b c -> x ∈ a -> x ∈ c.
Proof. induction 1; set_solver. Qed.

(** The writes of two woven sequences are woven as the sequences are. *)
Lemma woven_writes a b c : woven a b c -> woven (writes a) (writes b) (writes c).
Proof. induction 1 as [|[p v|p v] a b c _ IH|[p v|p v] a b c _ IH]; cbn; try done; by constructor. Qed.

(** Since the ports had seen [t0]: the kernel itself has made the accesses [own], and woven into
    them are those of the handler for each tick; the hardware answered every read. *)
Definition traced (t0 own : list event) (k : kernel) : Prop :=
  exists hs w, trace (k_con k) = t0 ++ w /\ woven own (concat hs) w /\ answered env t0 w /\
    Forall2 tick_output (map u64 (seqZ 1 (timer_irqs (k_point k)))) hs.

Record tracked (t0 own : list event) (k : kernel) : Prop := {
  lv_inv : irq_inv k;
  lv_trace : traced t0 own k
}.

Lemma tracked_same t0 own k k' :
  tracked t0 own k -> k_mach k' = k_mach k -> k_point k' = k_point k -> k_if k' = k_if k -> tracked t0 own k'.
Proof.
  intros [[H1 H2 H3 H4] (hs & w & T)] Em Ep Ei. split; [|exists hs, w; unfold k_con in *; by rewrite Em, Ep].
  unfold log_on, k_con in *. split; unfold log_on, k_con; rewrite ?Em, ?Ep, ?Ei; done.
Qed.

(** Accesses to the serial line. *)
Lemma tracked_con t0 own k c l :
  tracked t0 own k -> trace c = trace (k_con k) ++ l -> g_log_ready c = g_log_ready (k_con k) ->
  answered env (trace (k_con k)) l -> Forall (fun pv => pv.1 = COM1_PORT) (writes l) -> tracked t0 (own ++ l) (set_con k c).
Proof.
  intros [[H1 H2 H3 H4] (hs & w & T1 & T2 & T3 & T4)] Ho Hg Ha Hl. split.
  - split; [done| | |done]; cbn.
    + unfold log_on in *. cbn. by rewrite Hg.
    + unfold outs. cbn. rewrite Ho, writes_app. apply (chips_ok_same (outs (k_con k))); [|done]. apply same_chips_other.
      eapply list.Forall_impl; [exact Hl|]. intros [q x]. cbn. intros ->. unfold COM1_PORT. set_solver.
  - exists hs, (w ++ l). cbn. rewrite Ho, T1, app_assoc. split; [done|]. split; [|split; [|done]].
    + rewrite <- (app_nil_r (concat hs)). apply woven_app; [done|apply woven_left].
    + apply answered_app. split; [done|by rewrite <- T1].
Qed.

Section interrupts.
Hypothesis Hbuf : zlen dec_buf = 21.
Hypothesis Hraised : forall i, requests_ok (raised i).

(** A timer interrupt: counted, logged at most, acknowledged. *)
Lemma timer_dispatch m f n :
  g_log_ready (mcon m) = 1 -> chips_ok (outs (mcon m)) -> counted n m -> vector f = 0x20 ->
  exists m' h, x86_64_trap_dispatch env rflags_now dec_buf dec_buf32 trap_file m (Some f) = Ret (Returned m') /\
    g_log_ready (mcon m') = 1 /\ chips_ok (outs (mcon m')) /\ counted (n + 1) m' /\
    trace (mcon m') = trace (mcon m) ++ h /\ answered env (trace (mcon m)) h /\ tick_output (u64 (n + 1)) h.
Proof.
  intros Hl Hc [Ht Hn] Hv. unfold x86_64_trap_dispatch. rewrite Hv. cbn [PIC_MASTER_OFFSET PIC_SLAVE_OFFSET Z.leb Z.ltb].
  change ((0x20 <=? 0x20) && (0x20 <? 0x28 + 8)) with true. cbn iota. change (u8 (0x20 - 0x20) =? 0) with true. cbn iota.
  destruct (timer_logs env dec_buf Hbuf (mcon m) (g_ticks m) Hl) as (text & k1 & -> & Hs & Htx). cbn [mbind exec_bind].
  assert (u64 (g_ticks m + 1) = u64 (n + 1)) as Et by (rewrite Ht; unfold u64; by rewrite Zplus_mod_idemp_l).
  pose proof (sends_chips _ _ _ _ Hs) as Hch. destruct Hs as (e & T & A & ->).
  eexists _, (e ++ [PortOut 0x20 0x20]). split; [reflexivity|]. cbn [mcon g_ticks trap_count]. split; [done|]. split_and!.
  - eapply chips_ok_same; [apply eoi_chips|]. by eapply chips_ok_same.
  - split; [exact Et|]. cbn. rewrite Hn. unfold u64. by rewrite Zplus_mod_idemp_l.
  - cbn. by rewrite app_assoc.
  - by apply answered_app.
  - exists text, e. by rewrite <- Et.
Qed.

Lemma take_irqs_ok rs : forall k n,
  requests_ok rs -> log_on k -> chips_ok (outs (k_con k)) -> counted n (k_mach k) ->
  exists m hs, take_irqs rs k = Ret (Done (set_mach k m) tt) /\ g_log_ready (mcon m) = 1 /\ chips_ok (outs (mcon m)) /\
    counted (n + timer_requests rs) m /\ trace (mcon m) = trace (k_con k) ++ concat hs /\
    answered env (trace (k_con k)) (concat hs) /\
    Forall2 tick_output (map u64 (seqZ (n + 1) (timer_requests rs))) hs.
Proof.
  induction rs as [|[irq f] rs IH]; intros k n Hrs Hl Hc Hn.
  { exists (k_mach k), []. change (timer_requests []) with 0. rewrite Z.add_0_r. split_and!; try done; [by destruct k|].
    cbn. by rewrite app_nil_r. }
  apply Forall_cons_1 in Hrs as [[Hi Hf] Hrs]. cbn [fst snd] in *. cbn [take_irqs]. unfold mbind, boot_bind, take_irq. cbn [fst snd].
  pose proof Hc as (V1 & V2 & Hen). rewrite Hen by done. unfold timer_requests. rewrite filter_cons. cbn [fst].
  destruct (Z.eqb_spec irq 0) as [->|Hne].
  - rewrite decide_True by done.
    destruct (timer_dispatch (k_mach k) (with_vector f (irq_vector (outs (k_con k)) 0)) n Hl Hc Hn)
      as (m1 & h & E1 & Hl1 & Hc1 & Hn1 & Ho1 & Ha1 & Hh).
    { unfold irq_vector. cbn. lia. }
    rewrite E1. cbn [mbind exec_bind].
    destruct (IH (set_mach k m1) (n + 1) Hrs Hl1 Hc1 Hn1) as (m2 & hs & -> & Hl2 & Hc2 & Hn2 & Ho2 & Ha2 & Hhs).
    change (zlen (filter (fun r : Z * x86_64_trap_frame_t => r.1 = 0) rs)) with (timer_requests rs) in *.
    assert (0 <= timer_requests rs) by apply zlen_nonneg.
    replace (zlen ((0, f) :: filter (fun r : Z * x86_64_trap_frame_t => r.1 = 0) rs)) with (1 + timer_requests rs)
      by (unfold timer_requests, zlen; cbn [length]; lia).
    exists m2, (h :: hs). split_and!; try done.
    + by replace (n + (1 + timer_requests rs)) with (n + 1 + timer_requests rs) by lia.
    + rewrite Ho2. cbn [concat k_con k_mach set_mach]. unfold k_con. cbn [k_mach set_mach]. rewrite Ho1. by rewrite <- app_assoc.
    + cbn [concat]. apply answered_app. split; [done|]. unfold k_con in *. cbn [k_mach set_mach] in Ha2. by rewrite <- Ho1.
    + rewrite seqZ_cons by lia. cbn [map]. constructor; [done|].
      replace (Z.succ (n + 1)) with (n + 1 + 1) by lia. by replace (Z.pred (1 + timer_requests rs)) with (timer_requests rs) by lia.
  - rewrite decide_False by done. by apply IH.
Qed.

(** A step with interrupts enabled runs in a state that differs in the machine and the point. *)
Definition interrupted (t0 own : list event) (k k' : kernel) : Prop :=
  tracked t0 own k' /\ exists m p, k' = set_point (set_mach k m) p.

Lemma timer_irqs_S p : timer_irqs (S p) = timer_irqs p + timer_requests (raised p).
Proof.
  unfold timer_irqs. rewrite seq_S, map_app, concat_app. cbn [map concat Nat.add]. rewrite app_nil_r.
  unfold timer_requests. by rewrite list.filter_app, zlen_app.
Qed.

Lemma runs_interruptible {A} (f : kernel -> exec (kernel * A)) t0 own k (Q : kernel -> A -> Prop) :
  tracked t0 own k -> (forall k', interrupted t0 own k k' -> exists k2 a, f k' = Ret (k2, a) /\ Q k2 a) -> runs (act f) k Q.
Proof.
  intros [[Hi Hl Hc Hn] (gs & w & T1 & T2 & T3 & T4)] HQ.
  destruct (take_irqs_ok (raised (k_point k)) (set_point k (S (k_point k))) _ (Hraised _) Hl Hc Hn)
    as (m & hs & E & Hl' & Hc' & Hn' & Ho & Ha & Hhs).
  destruct (HQ (set_mach (set_point k (S (k_point k))) m)) as (k2 & a & Ef & H2).
  { split; [|by exists m, (S (k_point k))]. rewrite <- timer_irqs_S in Hn'. split; [by split|].
    exists (gs ++ hs), (w ++ concat hs). unfold k_con in *. cbn [k_mach set_mach set_point k_point] in *.
    rewrite Ho, T1, concat_app, app_assoc. split; [done|]. split_and!.
    - rewrite <- (app_nil_r own). apply woven_app; [done|apply woven_right].
    - apply answered_app. split; [done|by rewrite <- T1].
    - rewrite timer_irqs_S, seqZ_app by apply zlen_nonneg. rewrite map_app. apply Forall2_app; [done|].
      by replace (1 + timer_irqs (k_point k)) with (timer_irqs (k_point k) + 1) by lia. }
  exists k2, a. split; [|done]. unfold act, mbind, boot_bind, irq_point, plain. rewrite Hi, E, Ef. done.
Qed.

(** A call that touches the heap and the scheduler only, interrupted anywhere: it does what it does
    alone. *)
Lemma runs_call {A} (p : prog tsys A) t0 own (Q : kernel -> A -> Prop) : forall k ts a,
  tracked t0 own k -> atomic p (k_ts k) = Ret (ts, a) ->
  (forall m q, tracked t0 own (set_ts (set_point (set_mach k m) q) ts) -> Q (set_ts (set_point (set_mach k m) q) ts) a) ->
  runs (fine p) k Q.
Proof.
  induction p as [b|X f next IH]; intros k ts a Hv E HQ; cbn [fine atomic] in *.
  - injection E as <- <-. apply runs_ret. specialize (HQ (k_mach k) (k_point k)).
    assert (set_ts (set_point (set_mach k (k_mach k)) (k_point k)) (k_ts k) = k) as Ek by (by destruct k).
    rewrite Ek in HQ. by apply HQ.
  - apply exec_bind_inv in E as ([ts1 x] & Ef & E). apply runs_bind. apply (runs_interruptible _ t0 own); [done|].
    intros k' [Hv' (m & q & ->)]. eexists _, x. split; [cbn; by rewrite Ef|].
    apply (IH x _ ts a); [by apply (tracked_same _ _ _ _ Hv')|done|]. intros m2 q2. exact (HQ m2 q2).
Qed.

(** *** A line of the log *)

(** The wait for the transmitter, whatever comes between the polls. *)
Lemma runs_wait n : forall t0 own k (Q : kernel -> bool -> Prop),
  (0 < n)%nat -> tracked t0 own k ->
  (forall bs v m q, Forall (fun b => thr_empty b = false) bs -> (length bs < n)%nat -> thr_empty v = true ->
     tracked t0 (own ++ map poll bs ++ [poll v]) (set_point (set_mach k m) q) -> Q (set_point (set_mach k m) q) true) ->
  (forall bs m q, Forall (fun b => thr_empty b = false) bs -> length bs = n ->
     tracked t0 (own ++ map poll bs) (set_point (set_mach k m) q) -> Q (set_point (set_mach k m) q) false) ->
  runs (fine (p_serial_wait env n)) k Q.
Proof.
  induction n as [|n IH]; intros t0 own k Q Hn Hv Hsent Hdrop; [lia|]. cbn [p_serial_wait].
  apply runs_fine_bind. unfold p_serial_transmit_empty. apply runs_fine_bind, runs_bind.
  apply (runs_interruptible _ t0 own); [done|]. intros k1 [Hv1 (m1 & q1 & ->)]. eexists _, _. split; [reflexivity|].
  set (v := u8 (env (trace (mcon m1)) (COM1_PORT + 5))). apply runs_ret. cbn [part_put con_part part_get snd mret].
  change (k_con (set_point (set_mach k m1) q1)) with (mcon m1). fold v. fold (thr_empty v). fold (poll v).
  set (m2 := mk_mach (mk_con (trace (mcon m1) ++ [poll v]) (g_log_ready (mcon m1))) (g_ticks m1) (trap_count m1)).
  change (set_con _ _) with (set_point (set_mach k m2) q1).
  assert (tracked t0 (own ++ [poll v]) (set_point (set_mach k m2) q1)) as Hv2.
  { apply (tracked_con t0 own (set_point (set_mach k m1) q1) (mcon m2) [poll v]); [exact Hv1|done|done|by split|constructor]. }
  destruct (thr_empty v) eqn:Ev.
  - do 2 apply runs_ret. apply (Hsent [] v m2 q1); [constructor|cbn; lia|done|done].
  - destruct n as [|n]; [do 2 apply runs_ret; apply (Hdrop [v] m2 q1); [by repeat constructor|done|done]|].
    apply runs_ret, (IH t0 (own ++ [poll v]) _ _ ltac:(lia) Hv2).
    + intros bs w m q Hbs Hl Hw Ht. apply (Hsent (v :: bs) w m q); [by constructor|cbn; lia|done|].
      cbn. by rewrite <- app_assoc in Ht.
    + intros bs m q Hbs Hl Ht. apply (Hdrop (v :: bs) m q); [by constructor|cbn; lia|]. cbn. by rewrite <- app_assoc in Ht.
Qed.

(** A character on the line, whatever comes between the polls and the output. *)
Lemma runs_putc_raw c t0 own k (Q : kernel -> unit -> Prop) :
  tracked t0 own k ->
  (forall e m q, attempt c e -> tracked t0 (own ++ e) (set_point (set_mach k m) q) -> Q (set_point (set_mach k m) q) tt) ->
  runs (fine (p_serial_putc_raw env c)) k Q.
Proof.
  intros Hv HQ. unfold p_serial_putc_raw. apply runs_fine_bind.
  apply (runs_wait _ t0 own); [unfold SERIAL_TIMEOUT_LIMIT; lia|done|..].
  - intros bs v m q Hbs Hl He Ht. apply runs_bind. apply (runs_interruptible _ t0 _ _ _ Ht).
    intros k2 [Hv2 (m2 & q2 & ->)]. eexists _, _. split; [reflexivity|]. apply runs_ret.
    refine (HQ (map poll bs ++ [poll v; PortOut COM1_PORT (u8 c)]) (mk_mach _ (g_ticks m2) (trap_count m2)) q2 _ _).
    + constructor; [done| |done]. unfold zlen, SERIAL_TIMEOUT_LIMIT in *. lia.
    + replace (own ++ _) with ((own ++ map poll bs ++ [poll v]) ++ [PortOut COM1_PORT (u8 c)]) by (by rewrite <- !app_assoc).
      apply (tracked_con t0 _ (set_point (set_mach k m2) q2)); [exact Hv2|cbn; by rewrite u8_u8|done|done|by repeat constructor].
  - intros bs m q Hbs Hl Ht. apply runs_ret. apply (HQ (map poll bs)); [|done].
    constructor; [done|]. unfold zlen, SERIAL_TIMEOUT_LIMIT in *. lia.
Qed.

Lemma runs_putc c t0 own k (Q : kernel -> unit -> Prop) :
  tracked t0 own k ->
  (forall e m q, transmits [c] e -> tracked t0 (own ++ e) (set_point (set_mach k m) q) -> Q (set_point (set_mach k m) q) tt) ->
  runs (fine (p_serial_putc env c)) k Q.
Proof.
  intros Hv HQ. unfold p_serial_putc, transmits in *. cbn [crlf] in HQ. apply runs_fine_bind. destruct (Z.eqb_spec c 10) as [->|Hne].
  - apply (runs_putc_raw 13 t0 own); [done|]. intros e1 m q H1 Hv1. apply (runs_putc_raw 10 t0 _ _ _ Hv1).
    intros e2 m2 q2 H2 Hv2. apply (HQ (e1 ++ e2)); [|by rewrite app_assoc].
    exists [e1; e2]. cbn. rewrite app_nil_r. split; [by repeat constructor|done].
  - apply runs_ret. apply (runs_putc_raw c t0 own); [done|]. intros e m q He. apply HQ.
    exists [e]. cbn. rewrite app_nil_r. split; [by repeat constructor|done].
Qed.

Lemma tracked_id t0 own k (Q : kernel -> unit -> Prop) :
  tracked t0 own k -> (forall m q, tracked t0 own (set_point (set_mach k m) q) -> Q (set_point (set_mach k m) q) tt) -> Q k tt.
Proof.
  intros Hv HQ. assert (set_point (set_mach k (k_mach k)) (k_point k) = k) as Ek by (by destruct k).
  specialize (HQ (k_mach k) (k_point k)). rewrite Ek in HQ. by apply HQ.
Qed.

Lemma runs_chars s : forall t0 own k (Q : kernel -> unit -> Prop),
  tracked t0 own k ->
  (forall e m q, transmits s e -> tracked t0 (own ++ e) (set_point (set_mach k m) q) -> Q (set_point (set_mach k m) q) tt) ->
  runs (fine (p_serial_chars env s)) k Q.
Proof.
  induction s as [|c s IH]; intros t0 own k Q Hv HQ; cbn [p_serial_chars].
  - apply runs_ret. apply (tracked_id t0 own); [done|]. intros m q Ht. apply (HQ [] m q); [by exists []|by rewrite app_nil_r].
  - apply runs_fine_bind. apply (runs_putc c t0 own); [done|]. intros e1 m q H1 Hv1. apply (IH t0 _ _ _ Hv1).
    intros e2 m2 q2 H2 Hv2. apply (HQ (e1 ++ e2) m2 q2); [|by rewrite app_assoc].
    change (c :: s) with ([c] ++ s). by apply transmits_app.
Qed.

Lemma runs_ensure t0 own k (Q : kernel -> unit -> Prop) :
  tracked t0 own k -> (forall m q, tracked t0 own (set_point (set_mach k m) q) -> Q (set_point (set_mach k m) q) tt) ->
  runs (fine p_log_ensure) k Q.
Proof.
  intros Hv HQ. unfold p_log_ensure. apply runs_fine_bind, runs_bind. apply (runs_interruptible _ t0 own); [done|].
  intros k1 [Hv1 (m1 & q1 & ->)]. eexists _, _. split; [reflexivity|]. apply runs_ret.
  rewrite (ii_log _ (lv_inv _ _ _ Hv1)). apply runs_ret.
  pose proof (tracked_con t0 own _ (k_con (set_point (set_mach k m1) q1)) [] Hv1) as H. rewrite !app_nil_r in H.
  refine (HQ _ _ (H _ _ _ _)); done.
Qed.

(** A line of the log, interrupted before any access: its characters are transmitted in order. *)
Lemma runs_log_line a t0 own k (Q : kernel -> unit -> Prop) :
  tracked t0 own k -> has_nul a ->
  (forall e m q, transmits (cstr a ++ [10]) e -> tracked t0 (own ++ e) (set_point (set_mach k m) q) ->
     Q (set_point (set_mach k m) q) tt) ->
  runs (fine (p_log_writeln env (Some a))) k Q.
Proof.
  intros Hv Ha HQ. unfold p_log_writeln, p_log_write, p_log_putc, p_serial_write. rewrite bool_decide_true by done.
  apply runs_fine_bind, runs_fine_bind. apply (runs_ensure t0 own); [done|]. intros m1 q1 Hv1.
  apply (runs_chars _ t0 own _ _ Hv1). intros e2 m2 q2 H2 Hv2. apply runs_fine_bind. apply (runs_ensure t0 _ _ _ Hv2). intros m3 q3 Hv3.
  apply (runs_putc 10 t0 _ _ _ Hv3). intros e4 m4 q4 H4 Hv4. apply (HQ (e2 ++ e4) m4 q4); [by apply transmits_app|].
  by rewrite app_assoc.
Qed.
End interrupts.
End kernel.
