(* ===== verification/Boot.v ===== *)
(** * The boot sequence and the threads it starts (kernel/core/kmain.c)

    [kmain] as a program over the state of all the components it initialises, and the control
    flow of the four threads after the final yield, interrupted between any two accesses by the
    requests the controllers let through.  An assertion that fails logs a panic and halts; what the
    linker, the loader and the hardware supply are parameters. *)

From Stdlib Require Import String.
From S2P Require Import Prelude Bytes Mem Pmm Vmm Kmem Sync Thread Console Irq Pic Trap Steps Kernel.

Definition M8_BOOT_HEAP_SIZE : Z := 64 * 1024.

Section kmain.
Variable env : list event -> Z -> Z.
Variable rflags_now : Z.
Variable dec_buf32 : list Z.

(** [__FILE__]; the addresses the linker chose for the image, the heap, the descriptor table
    and the threads' functions; the table of stubs; and the register [cr3]. *)
Variable kmain_file : list Z.
Variable kernel_start kernel_end heap_base idt_base cr3 : Z.
Variable addr_a addr_b addr_c addr_d : Z.
Variable stubs : list Z.

(** The requests on the sixteen lines at each point, with the registers saved when they are
    taken, and the buffer and file name of the dispatcher. *)
Variable raised : nat -> list (Z * x86_64_trap_frame_t).
Variable dec_buf : list Z.
Variable trap_file : list Z.

Local Abbreviation act := (Kernel.act env rflags_now dec_buf32 raised dec_buf trap_file).
Local Abbreviation fine := (Kernel.fine env rflags_now dec_buf32 raised dec_buf trap_file).
Local Abbreviation tracked := (Kernel.tracked env raised).
Local Abbreviation irq_inv := (Kernel.irq_inv raised).
Local Abbreviation timer_irqs := (Kernel.timer_irqs raised).

(** ** Calls

    The code that also runs with interrupts enabled is a program of [Steps]; what runs before
    [cpu_sti] only is a step. *)

Definition on_con (f : con -> exec con) : boot unit :=
  act (fun k => c ← f (k_con k); Ret (set_con k c, tt)).
Definition on_sync (f : sync_state -> exec sync_state) : boot unit :=
  act (fun k => s ← f (k_sync k); Ret (set_sync k s, tt)).

(** [KERNEL_ASSERT]: the expression, the line and the message. *)
Definition kernel_assert (b : bool) (line : Z) (message : string) : boot unit := fun k =>
  if b then Ret (Done k tt)
  else
    c ← kernel_panic_at env rflags_now dec_buf32 (k_con k) (Some kmain_file) line (lit message) 0xA55E4710;
    Ret (Panicked (set_con k c)).

Definition say (s : string) : boot unit := fine (p_log_write env (lit s)).
Definition sayln (s : string) : boot unit := fine (p_log_writeln env (lit s)).

(** [kmalloc], [kfree] and [kmem_init] on the kernel's heap. *)
Definition k_malloc (size : Z) : boot Z := fun k => fine (p_kmalloc (kh_fuel (theap (k_ts k))) size) k.
Definition k_free (p : Z) : boot unit := fine (p_kfree p).
Definition k_heap_init (buffer size : Z) : boot unit :=
  act (fun k =>
         st ← kmem_init (kh_state (theap (k_ts k))) buffer size;
         Ret (set_heap k (mk_kheap st buffer (buffer + size)), tt)).

(** ** Self tests *)

(** One round of each lock's loop is enough: the locks have just been initialised. *)
Definition m12_sync_selftest : boot unit :=
  on_sync (fun s => Ret (mk_sync (mcs_spin_init (m12_boot_lock s)) (m12_boot_mutex s) (m12_boot_counter s) (lockdep_depth s)));;
  on_sync (fun s => Ret (mk_sync (m12_boot_lock s) (mcs_mutex_init (m12_boot_mutex s)) (m12_boot_counter s) (lockdep_depth s)));;
  on_sync (fun s => w ← mcs_spin_lock 1 (m12_boot_lock s); Ret (mk_sync w (m12_boot_mutex s) (m12_boot_counter s) (lockdep_depth s)));;
  on_sync (fun s => Ret (mk_sync (m12_boot_lock s) (m12_boot_mutex s) (u64 (m12_boot_counter s + 1)) (lockdep_depth s)));;
  on_sync (fun s => Ret (mk_sync (mcs_spin_unlock (m12_boot_lock s)) (m12_boot_mutex s) (m12_boot_counter s) (lockdep_depth s)));;
  on_sync (fun s => w ← mcs_mutex_lock 1 (m12_boot_mutex s); Ret (mk_sync (m12_boot_lock s) w (m12_boot_counter s) (lockdep_depth s)));;
  on_sync (fun s => Ret (mk_sync (m12_boot_lock s) (m12_boot_mutex s) (u64 (m12_boot_counter s + 1)) (lockdep_depth s)));;
  on_sync (fun s => Ret (mk_sync (m12_boot_lock s) (mcs_mutex_unlock (m12_boot_mutex s)) (m12_boot_counter s) (lockdep_depth s)));;
  on_sync (fun s => Ret (mk_sync (m12_boot_lock s) (m12_boot_mutex s) (m12_boot_counter s) (m12_lockdep_acquire (lockdep_depth s))));;
  d ← act (fun k => Ret (k, m12_lockdep_depth (lockdep_depth (k_sync k))));
  kernel_assert (d =? 1) 78 "assertion failed: m12_lockdep_depth() == 1";;
  on_sync (fun s => Ret (mk_sync (m12_boot_lock s) (m12_boot_mutex s) (m12_boot_counter s) (m12_lockdep_release (lockdep_depth s))));;
  d ← act (fun k => Ret (k, m12_lockdep_depth (lockdep_depth (k_sync k))));
  kernel_assert (d =? 0) 84 "assertion failed: m12_lockdep_depth() == 0";;
  sayln "[M12] sync selftest passed".

Definition x86_64_idt_base_for_test : boot Z := act (fun k => Ret (k, base (k_idtr k))).
Definition x86_64_idt_limit_for_test : boot Z := act (fun k => Ret (k, limit (k_idtr k))).

Definition m5_selftest : boot unit :=
  kernel_assert (kernel_start <? kernel_end) 95 "assertion failed: __kernel_end > __kernel_start";;
  kernel_assert (8 =? 8) 97 "assertion failed: sizeof(uintptr_t) == 8u";;
  kernel_assert (16 =? 16) 99 "assertion failed: sizeof(x86_64_idt_entry_t) == 16u";;
  b ← x86_64_idt_base_for_test;
  kernel_assert (negb (b =? 0)) 101 "assertion failed: x86_64_idt_base_for_test() != 0u";;
  l ← x86_64_idt_limit_for_test;
  kernel_assert (l =? 4095) 103 "assertion failed: x86_64_idt_limit_for_test() == 4095u";;
  sayln "[M5] selftest: IDT invariants passed".

Definition m8_heap_bootstrap : boot unit :=
  k_heap_init heap_base M8_BOOT_HEAP_SIZE;;
  probe ← k_malloc 128;
  kernel_assert (negb (probe =? 0)) 117 "assertion failed: probe != 0";;
  k_free probe;;
  sayln "[M8] kmem initialized".

(** ** The threads

    One pass of each thread's endless loop, up to its yield.  The delay loops have no effect. *)

Definition thread_a : boot unit :=
  sayln "[M9] thread A running";;
  p ← k_malloc 64;
  kernel_assert (negb (p =? 0)) 132 "assertion failed: p != 0";;
  k_free p.

Definition thread_b : boot unit :=
  sayln "[M9] thread B running";;
  p ← k_malloc 128;
  kernel_assert (negb (p =? 0)) 153 "assertion failed: p != 0";;
  k_free p.

Definition thread_c : boot unit := sayln "[M9] thread C running".
Definition thread_d : boot unit := sayln "[M9] thread D running".

(** The function at an address. *)
Definition call (e : Z) : boot unit :=
  if e =? addr_a then thread_a
  else if e =? addr_b then thread_b
  else if e =? addr_c then thread_c
  else if e =? addr_d then thread_d
  else fun _ => Fault OutOfBounds.

Definition k_yield : boot (option Z) := fine p_thread_yield.

(** The first [n] activations after a yield: each runs one pass of its thread and yields to the
    next from inside it, so none ever returns.  The addresses called are returned. *)
Fixpoint activations (n : nat) : boot (list Z) :=
  match n with
  | O => mret []
  | S n' =>
      e ← k_yield;
      match e with
      | None => mret []
      | Some a => call a;; es ← activations n'; mret (a :: es)
      end
  end.

(** ** [kmain] *)

Definition create (e line : Z) (message : string) : boot unit :=
  t ← act (fun k => '(ts, t) ← thread_create (k_ts k) e; Ret (set_ts k ts, t));
  kernel_assert (bool_decide (is_Some t)) line message.

(** The banner, the frames and the first page. *)
Definition kmain_memory : boot unit :=
  act (fun k => Ret (set_if k false, tt));;
  on_con (fun c => Ret (log_init c));;
  say MCSOS_NAME;; say " ";; say MCSOS_VERSION;; say " ";; say MCSOS_MILESTONE;;
  sayln " [M12] synchronization subsystem";;
  on_con (fun c => log_key_value_hex64 env c (lit "kernel_start") kernel_start);;
  on_con (fun c => log_key_value_hex64 env c (lit "kernel_end") kernel_end);;
  pmm_ok ← act (fun k =>
    '(p, ok) ← pmm_init_from_map (k_pmm k) m6_regions 2 (bitmap (k_pmm k)) PMM_BITMAP_BYTES PMM_MAX_PHYS_BYTES;
    Ret (set_pmm k p, ok));
  kernel_assert pmm_ok 218 "assertion failed: pmm_ok";;
  sayln "[M6] pmm initialized";;
  map_ok ← act (fun k =>
    '(v, ok) ← vmm_map_page (k_vmm k) 0x400000 0x200000 VMM_WRITABLE; Ret (set_vmm k v, ok));
  kernel_assert map_ok 235 "assertion failed: map_ok";;
  sayln "[M7] vmm map ok";;
  q ← act (fun k => r ← vmm_query_page (k_vmm k) 0x400000 (Some 0) (Some 0); Ret (k, r));
  kernel_assert q.1.1 250 "assertion failed: query_ok";;
  say "[M7] vmm phys=";;
  on_con (fun c => log_hex64 env c (default 0 q.1.2));;
  sayln "";;
  say "[M7] cr3=";;
  on_con (fun c => log_hex64 env c cr3);;
  sayln "".

(** The heap, the locks and the threads. *)
Definition kmain_threads : boot unit :=
  m8_heap_bootstrap;;
  m12_sync_selftest;;
  act (fun k => Ret (set_ts k (thread_system_init (k_ts k)), tt));;
  create addr_a 269 "assertion failed: ta != 0";;
  create addr_b 274 "assertion failed: tb != 0";;
  create addr_c 279 "assertion failed: tc != 0";;
  create addr_d 284 "assertion failed: td != 0";;
  sayln "[M9] scheduler initialized".

(** Interrupts, up to and including [cpu_sti]. *)
Definition kmain_interrupts : boot unit :=
  act (fun k =>
    '(c, i, r) ← x86_64_idt_init env (k_con k) stubs (k_idt k) idt_base;
    Ret (set_idt (set_con k c) i r, tt));;
  sayln "[M5] idt: loaded";;
  m5_selftest;;
  on_con (fun c => Ret (pic_remap env c PIC_MASTER_OFFSET PIC_SLAVE_OFFSET));;
  on_con (fun c => Ret (pic_mask_all c));;
  on_con (fun c => Ret (pic_unmask_irq env c 0));;
  on_con (fun c => Ret (pit_configure_hz c 100));;
  sayln "[M5] sti: enabling interrupts";;
  act (fun k => Ret (set_if k true, tt)).

(** The kernel up to its [n]-th thread activation. *)
Definition kmain (n : nat) : boot (list Z) :=
  kmain_memory;; kmain_threads;; kmain_interrupts;; activations n.

(** ** The same on a bounded stack

    [frame a] is what one activation of the function at [a] keeps on the stack: the return address,
    the frames of [thread_yield] and of the function.  None of it is given back, since no
    activation returns; [room] is what the boot stack has left at the first yield. *)

Section stack.
Variable frame : Z -> Z.

Definition overflow {A} : boot A := fun _ => Fault StackOverflow.

Fixpoint activations_on (room : Z) (n : nat) : boot (list Z) :=
  match n with
  | O => mret []
  | S n' =>
      e ← k_yield;
      match e with
      | None => mret []
      | Some a =>
          if room <? frame a then overflow
          else call a;; es ← activations_on (room - frame a) n'; mret (a :: es)
      end
  end.

Definition kmain_on (room : Z) (n : nat) : boot (list Z) :=
  kmain_memory;; kmain_threads;; kmain_interrupts;; activations_on room n.

Definition stack_used (es : list Z) : Z := foldr (fun a u => frame a + u) 0 es.
End stack.

(** ** Reasoning about programs *)

Lemma runs_assert b line message k (Q : kernel -> unit -> Prop) :
  b = true -> Q k tt -> runs (kernel_assert b line message) k Q.
Proof. intros -> H. by exists k, tt. Qed.

(** ** Steps with interrupts disabled *)

Lemma runs_sayln s k (Q : kernel -> unit -> Prop) :
  k_if k = false -> log_on k -> (forall t c, sends env (k_con k) t c -> Q (set_con k c) tt) -> runs (sayln s) k Q.
Proof.
  intros Hi Hl H. destruct (log_writeln_sends env (k_con k) _ Hl (lit_nul s)) as (c & E & Hs).
  eapply runs_masked; [done|cbn [part_get con_part]; rewrite atomic_log_writeln; unfold lit; by rewrite E|by eapply H].
Qed.

Lemma runs_say s k (Q : kernel -> unit -> Prop) :
  k_if k = false -> log_on k -> (forall t c, sends env (k_con k) t c -> Q (set_con k c) tt) -> runs (say s) k Q.
Proof.
  intros Hi Hl H. destruct (log_write_sends env (k_con k) _ Hl (lit_nul s)) as (c & E & Hs).
  eapply runs_masked; [done|cbn [part_get con_part]; rewrite atomic_log_write; unfold lit; by rewrite E|by eapply H].
Qed.

Lemma logs_hex64 c v : g_log_ready c = 1 -> is_u64 v -> logs_some env c (log_hex64 env c v).
Proof. intros Hl Hv. destruct (log_hex64_sends env c v Hl Hv) as (ds & E & _). by eexists. Qed.

(** ** The heap of the running kernel *)

(** The blocks before the threads run: the probe's, free again, the four stacks and the rest;
    after thread A split the probe's block; and after thread B then split the rest.  From there
    on every allocation finds a block of its size. *)
Definition stack_addr (i : Z) : Z := heap_base + 152 + 4120 * i.
Definition stack_block (i : Z) : kblock := mk_block (stack_addr i) 4096 false.
Definition stacks : list kblock := [stack_block 0; stack_block 1; stack_block 2; stack_block 3].
Definition rest_addr : Z := heap_base + 152 + 4120 * 4.

Definition head0 : list kblock := [mk_block heap_base 128 true].
Definition head1 : list kblock := [mk_block heap_base 64 true; mk_block (heap_base + 88) 40 true].
Definition tail0 : list kblock := [mk_block rest_addr 48880 true].
Definition tail1 : list kblock := [mk_block rest_addr 128 true; mk_block (rest_addr + 152) 48728 true].

Definition settled (bs : list kblock) : Prop :=
  bs = head0 ++ stacks ++ tail0 \/ bs = head1 ++ stacks ++ tail0 \/ bs = head1 ++ stacks ++ tail1.

(** The block found for a request is [b], and freeing it leaves the blocks [bs']. *)
Ltac finds b :=
  eexists _, b; split; [reflexivity|]; split; [split; [set_solver|reflexivity]|];
  unfold spec_free, payload, KMEM_HDR; cbn [map app head0 head1 tail0 tail1 stacks stack_block baddr bsize bfree set_bfree];
  repeat match goal with
    | |- context [?x =? ?y] => destruct (Z.eqb_spec x y); try (exfalso; unfold stack_addr, rest_addr in *; lia)
    end; unfold settled.

Lemma settled_alloc bs size :
  settled bs -> size = 64 \/ size = 128 ->
  exists bs' b, spec_malloc size bs = Some (bs', payload b) /\ live bs' b /\ settled (spec_free (payload b) bs').
Proof.
  intros [->|[->| ->]] [->| ->].
  - finds (mk_block heap_base 64 false). right. left.
    by replace (heap_base + 24 + 64) with (heap_base + 88) by lia.
  - finds (mk_block heap_base 128 false). by left.
  - finds (mk_block heap_base 64 false). right. by left.
  - finds (mk_block rest_addr 128 false). right. right.
    by replace (rest_addr + 24 + 128) with (rest_addr + 152) by lia.
  - finds (mk_block heap_base 64 false). right. by right.
  - finds (mk_block rest_addr 128 false). right. by right.
Qed.

Definition settled_heap (h : kheap) : Prop :=
  exists bs, heap_rep (kh_state h) (kh_lo h) (kh_hi h) bs /\ settled bs.

(** The ranges in use on such a heap are the four stacks. *)
Lemma settled_ranges h p n :
  settled_heap h -> kheap_ranges h p n <-> exists b, b ∈ stacks /\ p = payload b /\ n = bsize b.
Proof.
  intros (bs & Hrep & Hs).
  assert (forall b, live bs b <-> b ∈ stacks) as Hl.
  { intros b. unfold live. destruct Hs as [->|[->| ->]]; rewrite !elem_of_app; split; try (intros Hb; split; [by auto|]);
      unfold head0, head1, tail0, tail1, stacks; try (rewrite !elem_of_cons, !elem_of_nil; intros [H Hf]; naive_solver);
      unfold stacks in *; rewrite !elem_of_cons, elem_of_nil in Hb; naive_solver. }
  split.
  - intros (bs2 & b & Hrep2 & Hb & -> & ->). rewrite (heap_rep_unique _ _ _ _ _ Hrep2 Hrep) in Hb.
    exists b. by rewrite <- Hl.
  - intros (b & Hb & -> & ->). exists bs, b. by rewrite Hl.
Qed.

(** ** The invariant of the running kernel *)

Definition addrs : list Z := [addr_a; addr_b; addr_c; addr_d].

Record running (t0 own : list event) (k : kernel) : Prop := {
  run_tracked : tracked t0 own k;
  run_heap : settled_heap (theap (k_ts k));
  run_wf : thread_wf (k_ts k);
  run_count : thread_count (k_ts k) = 4;
  run_entries : forall i, 0 <= i < 4 -> entry_at (k_ts k) i = addrs !! Z.to_nat i
}.

(** What the threads and the interrupts leave alone. *)
Definition frame_same (k k' : kernel) : Prop :=
  k_pmm k' = k_pmm k /\ k_vmm k' = k_vmm k /\ k_sync k' = k_sync k /\ k_idt k' = k_idt k /\
  k_idtr k' = k_idtr k /\ k_if k' = k_if k.

Lemma settled_wf ts h :
  thread_wf ts -> settled_heap (theap ts) -> settled_heap h ->
  thread_wf (mk_ts (threads ts) (thread_count ts) (current_thread ts) h).
Proof.
  intros [W1 W2 W3 W4 W5 W6] Hh Hs. split; try done.
  - destruct Hs as (bs & Hrep & _). by exists bs.
  - intros i t Hi Et. destruct (W5 i t Hi Et) as [? ? (n & Hle & Hr) ?]. split; try done.
    exists n. split; [done|]. apply (settled_ranges _ _ _ Hs). by apply (settled_ranges _ _ _ Hh).
Qed.

(** A state that differs from a running one in its machine, its point and its heap. *)
Lemma running_change t0 own own' k m p h :
  running t0 own k -> settled_heap h -> tracked t0 own' (set_heap (set_point (set_mach k m) p) h) ->
  running t0 own' (set_heap (set_point (set_mach k m) p) h).
Proof. intros [Hi Hh Hw Hn He] Hs Hi'. split; [done|done|by apply settled_wf|done|exact He]. Qed.

Section threads.
Hypothesis Hbuf : zlen dec_buf = 21.
Hypothesis Hraised : forall i, requests_ok (raised i).

(** A pass changes the machine, the point and the heap. *)
Definition passed (t0 own : list event) (k k' : kernel) : Prop :=
  exists m p h, k' = set_heap (set_point (set_mach k m) p) h /\ settled_heap h /\ tracked t0 own k'.

(** The text of a line. *)
Definition line_text (s : string) : list Z := cstr (chars s ++ [0]) ++ [10].

Lemma runs_line s t0 own k (Q : kernel -> unit -> Prop) :
  tracked t0 own k ->
  (forall e m p, transmits (line_text s) e -> tracked t0 (own ++ e) (set_point (set_mach k m) p) -> Q (set_point (set_mach k m) p) tt) ->
  runs (sayln s) k Q.
Proof. intros Hv. apply runs_log_line; [done..|apply lit_nul]. Qed.

Lemma runs_alloc_free size line message t0 own k (Q : kernel -> unit -> Prop) :
  tracked t0 own k -> settled_heap (theap (k_ts k)) -> size = 64 \/ size = 128 ->
  (forall k', passed t0 own k k' -> Q k' tt) ->
  runs (p ← k_malloc size; kernel_assert (negb (p =? 0)) line message;; k_free p) k Q.
Proof.
  intros Hv (bs & Hrep & Hs) Hz HQ. destruct (settled_alloc bs size Hs Hz) as (bs' & b & E & [Hb _] & Hs').
  destruct (kheap_alloc_fits _ bs size bs' _ Hrep ltac:(lia) E) as (h1 & Ea & Hp & Hrep1).
  destruct (kfree_cases _ _ _ _ b Hrep1 Hb) as (st & Ef & Hrep2 & _).
  apply runs_bind. apply (runs_call _ _ _ _ _ _ Hbuf Hraised _ t0 own _ k _ _ Hv (atomic_kmalloc _ _ _ _ Ea)).
  intros m1 p1 Hv1. apply runs_bind, runs_assert; [by rewrite (proj2 (Z.eqb_neq _ _))|].
  eapply (runs_call _ _ _ _ _ _ Hbuf Hraised _ t0 own _ _ _ _ Hv1 (atomic_kfree (put_heap (k_ts k) h1) _ _ Ef)). intros m2 p2 Hv2.
  apply HQ. exists m2, p2, (mk_kheap st (kh_lo h1) (kh_hi h1)). split; [done|].
  split; [by exists (spec_free (payload b) bs')|done].
Qed.

(** What each thread writes in a pass. *)
Definition line_of (e : Z) : list Z :=
  line_text (if e =? addr_a then "[M9] thread A running" else if e =? addr_b then "[M9] thread B running"
             else if e =? addr_c then "[M9] thread C running" else "[M9] thread D running").

(** A pass of any thread keeps the kernel running. *)
Lemma runs_pass e t0 own k :
  running t0 own k -> e ∈ addrs ->
  runs (call e) k (fun k' _ => (exists l, transmits (line_of e) l /\ running t0 (own ++ l) k') /\ frame_same k k' /\
    current_thread (k_ts k') = current_thread (k_ts k)).
Proof.
  intros Hr He. pose proof (run_tracked t0 own k Hr) as Hi. unfold call, line_of.
  assert (forall s l m p, transmits (line_text s) l -> tracked t0 (own ++ l) (set_point (set_mach k m) p) ->
    let k' := set_point (set_mach k m) p in
    (exists l, transmits (line_text s) l /\ running t0 (own ++ l) k') /\ frame_same k k' /\
    current_thread (k_ts k') = current_thread (k_ts k)) as Hc.
  { intros s l m p Hl Hi'. cbn zeta. split; [|done]. exists l. split; [done|]. destruct Hr as [R1 R2 R3 R4 R5]. by split. }
  assert (forall s l size line msg m p, transmits (line_text s) l -> tracked t0 (own ++ l) (set_point (set_mach k m) p) ->
    size = 64 \/ size = 128 ->
    runs (p ← k_malloc size; kernel_assert (negb (p =? 0)) line msg;; k_free p) (set_point (set_mach k m) p)
      (fun k' _ => (exists l, transmits (line_text s) l /\ running t0 (own ++ l) k') /\ frame_same k k' /\
         current_thread (k_ts k') = current_thread (k_ts k))) as Ha.
  { intros s l size line msg m p Hl Hi' Hz. apply (runs_alloc_free _ _ _ t0 (own ++ l)); [done|apply Hr|done|].
    intros k' (m2 & p2 & h & -> & Hs & Hi2). split; [|done]. exists l. split; [done|].
    by apply (running_change t0 own (own ++ l) k m2 p2 h). }
  repeat case_match; zbool; subst.
  1, 2: apply runs_bind, (runs_line _ t0 own); [done|]; intros l m p Hl Hi'; apply (Ha _ l); auto.
  1, 2: apply (runs_line _ t0 own); [done|]; apply Hc.
  exfalso. unfold addrs in He. rewrite !elem_of_cons, elem_of_nil in He. naive_solver.
Qed.

(** The addresses called by [n] activations when slot [c] has just run. *)
Definition turns (c : Z) (n : nat) : list Z :=
  map (fun i => default 0 (addrs !! Z.to_nat i)) (schedule c 4 n).

Lemma runs_activations n : forall t0 own k,
  running t0 own k ->
  runs (activations n) k (fun k' es => (exists l, transmits (concat (map line_of es)) l /\ running t0 (own ++ l) k') /\ frame_same k k' /\
    es = turns (current_thread (k_ts k)) n).
Proof.
  induction n as [|n IH]; intros t0 own k Hr; cbn [activations]; [apply runs_ret; split; [|done]; exists []; split; [by exists []|by rewrite app_nil_r]|].
  destruct (yield_step (k_ts k)) as [E Hw]; [apply Hr|rewrite (run_count _ _ k Hr); lia|]. cbn zeta in *.
  rewrite (run_count _ _ k Hr) in *. set (c := (current_thread (k_ts k) + 1) mod 4) in *.
  assert (0 <= c < 4) as Hc by (apply Z.mod_pos_bound; lia).
  rewrite (run_entries _ _ k Hr c Hc) in E.
  destruct (lookup_lt_is_Some_2 addrs (Z.to_nat c)) as [a Ea]; [change (length addrs) with 4%nat; lia|].
  rewrite Ea in E. apply runs_bind.
  apply (runs_call _ _ _ _ _ _ Hbuf Hraised _ t0 own _ k _ _ (run_tracked _ _ k Hr) (atomic_yield _ _ E)). intros m0 p0 Hv0.
  set (k1 := set_ts _ _) in *.
  assert (running t0 own k1) as Hr1.
  { destruct Hr as [R1 R2 R3 R4 R5]. split; [done|done|done|done|exact R5]. }
  apply runs_bind. eapply runs_mono; [apply (runs_pass a t0 own k1 Hr1); by eapply list_elem_of_lookup_2|].
  intros k2 [] ((l2 & Hl2 & Hr2) & Hf2 & Hc2). apply runs_bind. eapply runs_mono; [apply (IH t0 _ k2 Hr2)|].
  intros k3 es ((l3 & Hl3 & Hr3) & Hf3 & ->). apply runs_ret. split.
  { exists (l2 ++ l3). split; [by apply transmits_app|by rewrite app_assoc]. }
  split.
  { unfold frame_same in *. destruct Hf2 as (?&?&?&?&?&?), Hf3 as (?&?&?&?&?&?). cbn in *. split_and!; congruence. }
  unfold turns. rewrite (schedule_S (current_thread (k_ts k))) by lia. cbn [map]. fold c. rewrite Ea.
  cbn [default from_option]. rewrite Hc2. done.
Qed.
End threads.

(** ** The boot *)

Definition heap_blocks (k : kernel) (bs : list kblock) : Prop :=
  heap_rep (kh_state (theap (k_ts k))) (kh_lo (theap (k_ts k))) (kh_hi (theap (k_ts k))) bs.

Lemma runs_create e line message k bs bs' p (Q : kernel -> unit -> Prop) :
  k_if k = false -> thread_wf (k_ts k) -> e <> 0 -> thread_count (k_ts k) < MAX_THREADS ->
  heap_blocks k bs -> spec_malloc THREAD_STACK_SIZE bs = Some (bs', p) ->
  (forall ts, thread_wf ts -> thread_count ts = thread_count (k_ts k) + 1 ->
     current_thread ts = current_thread (k_ts k) -> entry_at ts (thread_count (k_ts k)) = Some e ->
     (forall j, 0 <= j < thread_count (k_ts k) -> entry_at ts j = entry_at (k_ts k) j) ->
     heap_blocks (set_ts k ts) bs' -> Q (set_ts k ts) tt) ->
  runs (create e line message) k Q.
Proof.
  intros Hi Hw He Hn Hrep Es HQ.
  destruct (kheap_alloc_fits _ bs THREAD_STACK_SIZE bs' p Hrep ltac:(done) Es) as (h1 & Ea & Hp & Hrep1).
  destruct (thread_create_fits _ e _ _ Hw He Hn Ea Hp) as (ts & E & Eh).
  destruct (thread_create_cases _ e Hw) as (ts2 & r & E2 & Hw' & Hc & Hk & Hr).
  rewrite E in E2. injection E2 as <- <-. destruct Hr as (_ & _ & Hn' & He').
  apply runs_bind. eapply runs_act; [done|by rewrite E|]. apply runs_assert; [done|].
  apply HQ; try done.
  - intros j Hj. unfold entry_at. by rewrite Hk.
  - unfold heap_blocks. cbn. by rewrite Eh.
Qed.

Lemma runs_malloc size k h p (Q : kernel -> Z -> Prop) :
  k_if k = false -> kheap_alloc (theap (k_ts k)) size = Ret (h, p) -> Q (set_heap k h) p -> runs (k_malloc size) k Q.
Proof. intros Hi E H. eapply runs_masked; [done|by apply atomic_kmalloc|done]. Qed.

Lemma runs_free p k st (Q : kernel -> unit -> Prop) :
  k_if k = false -> kfree (kh_state (theap (k_ts k))) p = Ret st ->
  Q (set_heap k (mk_kheap st (kh_lo (theap (k_ts k))) (kh_hi (theap (k_ts k))))) tt -> runs (k_free p) k Q.
Proof. intros Hi E H. eapply runs_masked; [done|by apply atomic_kfree|done]. Qed.

(** The heap after its bootstrap. *)
Lemma runs_heap_bootstrap k (Q : kernel -> unit -> Prop) :
  k_if k = false -> log_on k ->
  valid (kmem_mem (kh_state (theap (k_ts k)))) heap_base M8_BOOT_HEAP_SIZE ->
  0 < heap_base -> heap_base + M8_BOOT_HEAP_SIZE < 2 ^ 64 ->
  (forall h t c, heap_blocks (set_heap k h) (head0 ++ [mk_block (heap_base + 152) 65360 true]) ->
     sends env (k_con k) t c -> Q (set_con (set_heap k h) c) tt) ->
  runs m8_heap_bootstrap k Q.
Proof.
  intros Hi Hl Hv H0 H1 HQ. unfold m8_heap_bootstrap. apply runs_bind.
  destruct (kmem_init_ok _ heap_base M8_BOOT_HEAP_SIZE Hv H0) as (st & E & Hrep); [by_compute|done|].
  eapply runs_act; [done|cbn; by rewrite E|]. clear E.
  set (h1 := mk_kheap st heap_base (heap_base + M8_BOOT_HEAP_SIZE)).
  destruct (kheap_alloc_fits h1 _ 128 _ _ Hrep ltac:(done) eq_refl) as (h2 & Ea & Hp & Hrep2).
  cbn [heap_alloc kheap_interface] in Ea. apply runs_bind. eapply runs_malloc; [done|exact Ea|].
  apply runs_bind, runs_assert; [by rewrite (proj2 (Z.eqb_neq _ _))|].
  destruct (kfree_cases _ _ _ _ (mk_block heap_base 128 false) Hrep2 ltac:(set_solver)) as (st3 & Ef & Hrep3 & _).
  apply runs_bind. eapply runs_free; [done|exact Ef|].
  apply runs_sayln; [done|done|]. intros t c Hs.
  apply (HQ (mk_kheap st3 (kh_lo h2) (kh_hi h2)) t); [|exact Hs].
  unfold heap_blocks. cbn [theap k_ts set_heap set_ts kh_state kh_lo kh_hi].
  replace (head0 ++ _) with (spec_free (payload (mk_block heap_base 128 false))
    [mk_block heap_base 128 false; mk_block (payload (mk_block heap_base 65512 true) + 128) (65512 - 128 - KMEM_HDR) true]);
    [exact Hrep3|].
  unfold spec_free, payload, KMEM_HDR. cbn [map app head0 baddr bsize bfree]. rewrite Z.eqb_refl.
  rewrite (proj2 (Z.eqb_neq _ _)) by lia. replace (heap_base + 24 + 128) with (heap_base + 152) by lia. done.
Qed.

Lemma runs_sync f k s s' (Q : kernel -> unit -> Prop) :
  k_if k = false -> f s = Ret s' -> Q (set_sync k s') tt -> runs (on_sync f) (set_sync k s) Q.
Proof. intros Hi E H. eapply runs_act; [done|cbn [k_sync set_sync]; by rewrite E|done]. Qed.

Lemma runs_depth k s d (Q : kernel -> Z -> Prop) :
  k_if k = false -> lockdep_depth s = d -> Q (set_sync k s) d ->
  runs (act (fun k => Ret (k, m12_lockdep_depth (lockdep_depth (k_sync k))))) (set_sync k s) Q.
Proof. intros Hi <- H. by eapply runs_act. Qed.

Lemma runs_sync_selftest k lk mx (Q : kernel -> unit -> Prop) :
  k_if k = false -> log_on k -> k_sync k = mk_sync lk mx 0 0 ->
  (forall t c, sends env (k_con k) t c -> Q (set_con (set_sync k (mk_sync 0 0 2 0)) c) tt) ->
  runs m12_sync_selftest k Q.
Proof.
  intros Hi Hl Hs HQ. replace k with (set_sync k (mk_sync lk mx 0 0)) by (destruct k; cbn in *; by subst).
  unfold m12_sync_selftest.
  do 9 (apply runs_bind; eapply runs_sync; [done|cbv; reflexivity|]).
  apply runs_bind; eapply runs_depth; [done|reflexivity|]. apply runs_bind, runs_assert; [reflexivity|].
  apply runs_bind; eapply runs_sync; [done|cbv; reflexivity|].
  apply runs_bind; eapply runs_depth; [done|reflexivity|]. apply runs_bind, runs_assert; [reflexivity|].
  apply runs_sayln; [done|done|exact HQ].
Qed.

(** The frames and the page that the boot leaves behind. *)
Lemma boot_frames p0 storage :
  zlen storage = PMM_BITMAP_BYTES -> bytes storage ->
  exists p, pmm_init_from_map p0 m6_regions 2 storage PMM_BITMAP_BYTES PMM_MAX_PHYS_BYTES = Ret (p, true) /\
    free_set p = list_to_set (seqZ 256 768).
Proof.
  intros Hz Hb. destruct (init_whole_bytes p0 m6_regions storage PMM_BITMAP_BYTES PMM_MAX_PHYS_BYTES)
    as (p & Hp & _ & _ & Hfs & _); [by_compute|done|by_compute|by_compute|by exists 2048|by rewrite Hz|].
  exists p. split; [exact Hp|]. rewrite Hfs, m6_usable. apply set_eq. intros f.
  rewrite elem_of_difference, elem_of_singleton, elem_of_list_to_set, elem_of_seqZ. lia.
Qed.

Lemma boot_page :
  vmm_map_page g_mappings_init 0x400000 0x200000 VMM_WRITABLE = Ret (one_mapping, true) /\
  vmm_query_page one_mapping 0x400000 (Some 0) (Some 0) = Ret (true, Some 0x200000, Some 3) /\
  mapping_of one_mapping = {[0x400000 := (0x200000, 3)]}.
Proof. split_and!; by vm_compute. Qed.

(** Static storage as the loader leaves it, with interrupts disabled, and sane addresses. *)
Record powered_on (k : kernel) : Prop := {
  on_if : k_if k = false;
  on_counters : g_ticks (k_mach k) = 0 /\ trap_count (k_mach k) = 0 /\ k_point k = O;
  on_bitmap : zlen (bitmap (k_pmm k)) = PMM_BITMAP_BYTES /\ bytes (bitmap (k_pmm k));
  on_table : k_vmm k = g_mappings_init;
  on_locks : k_sync k = mk_sync 0 0 0 0;
  on_slots : zlen (threads (k_ts k)) = MAX_THREADS;
  on_memory : valid (kmem_mem (kh_state (theap (k_ts k)))) heap_base M8_BOOT_HEAP_SIZE;
  on_idt : zlen (k_idt k) = X86_64_IDT_VECTOR_COUNT
}.

Record linked : Prop := {
  lk_image : 0 <= kernel_start < kernel_end /\ kernel_end < 2 ^ 64;
  lk_heap : 0 < heap_base /\ heap_base + M8_BOOT_HEAP_SIZE < 2 ^ 64;
  lk_idt : 0 < idt_base < 2 ^ 64;
  lk_cr3 : is_u64 cr3;
  lk_addrs : Forall (fun a => a <> 0) addrs;
  lk_stubs : zlen stubs = 48 /\ Forall is_u64 stubs
}.

(** What the boot achieves besides the running threads. *)
Record booted (k : kernel) : Prop := {
  bt_frames : free_set (k_pmm k) = list_to_set (seqZ 256 768);
  bt_page : mapping_of (k_vmm k) = {[0x400000 := (0x200000, 3)]};
  bt_locks : k_sync k = mk_sync 0 0 2 0;
  bt_gates : forall v s, arr_get stubs v = Ret s ->
               exists g, arr_get (k_idt k) v = Ret g /\ gate_handler g = s;
  bt_idtr : k_idtr k = mk_idtr 4095 idt_base;
  bt_if : k_if k = true
}.

Section boot.
Hypothesis Hpics : pics_answer env.
Hypothesis Hbuf : zlen dec_buf = 21.
Hypothesis Hraised : forall i, requests_ok (raised i).
Hypothesis Hlinked : linked.

(** One call on the console, with the rest of the state spelled out. *)
Lemma boot_con f c t n p v s ts i r q c' (Q : kernel -> unit -> Prop) :
  f c = Ret c' -> Q (mk_kernel (mk_mach c' t n) p v s ts i r false q) tt -> runs (on_con f) (mk_kernel (mk_mach c t n) p v s ts i r false q) Q.
Proof. intros E H. eapply runs_act; [done|cbn [k_con k_mach mcon]; by rewrite E|done]. Qed.

Lemma boot_log f c t n p v s ts i r q (Q : kernel -> unit -> Prop) :
  g_log_ready c = 1 -> logs_some env c (f c) ->
  (forall c', g_log_ready c' = 1 -> Q (mk_kernel (mk_mach c' t n) p v s ts i r false q) tt) ->
  runs (on_con f) (mk_kernel (mk_mach c t n) p v s ts i r false q) Q.
Proof. intros Hl (tx & c' & E & Hs) H. eapply boot_con; [exact E|]. apply H. by rewrite (sends_flag _ _ _ _ Hs). Qed.

Lemma boot_say m c t n p v s ts i r q (Q : kernel -> unit -> Prop) :
  g_log_ready c = 1 -> (forall c', g_log_ready c' = 1 -> Q (mk_kernel (mk_mach c' t n) p v s ts i r false q) tt) ->
  runs (say m) (mk_kernel (mk_mach c t n) p v s ts i r false q) Q.
Proof. intros Hl H. apply runs_say; [done|done|]. intros tx c' Hs. apply H. by rewrite (sends_flag _ _ _ _ Hs). Qed.

Lemma boot_sayln m c t n p v s ts i r q (Q : kernel -> unit -> Prop) :
  g_log_ready c = 1 -> (forall c', g_log_ready c' = 1 -> Q (mk_kernel (mk_mach c' t n) p v s ts i r false q) tt) ->
  runs (sayln m) (mk_kernel (mk_mach c t n) p v s ts i r false q) Q.
Proof. intros Hl H. apply runs_sayln; [done|done|]. intros tx c' Hs. apply H. by rewrite (sends_flag _ _ _ _ Hs). Qed.

Ltac log_next :=
  apply runs_bind; first [apply boot_say | apply boot_sayln]; [assumption|]; intros ? ?.

Lemma runs_memory c t n p s ts i r q (Q : kernel -> unit -> Prop) :
  zlen (bitmap p) = PMM_BITMAP_BYTES -> bytes (bitmap p) ->
  (forall c' p', g_log_ready c' = 1 -> free_set p' = list_to_set (seqZ 256 768) ->
     Q (mk_kernel (mk_mach c' t n) p' one_mapping s ts i r false q) tt) ->
  runs kmain_memory (mk_kernel (mk_mach c t n) p g_mappings_init s ts i r false q) Q.
Proof.
  intros Hz Hb HQ. destruct Hlinked as [[[H0 H1] H2] _ _ Hcr _ _]. destruct boot_page as (Em & Eq & _).
  unfold kmain_memory. apply runs_bind. eapply runs_act; [done|reflexivity|].
  apply runs_bind. apply (boot_con _ _ _ _ _ _ _ _ _ _ _ (log_init c)); [reflexivity|].
  assert (g_log_ready (log_init c) = 1) as Hl by done. revert Hl. generalize (log_init c). intros c1 Hl1.
  do 6 log_next.
  apply runs_bind, boot_log; [done|apply logs_kv; [done|apply lit_nul|unfold is_u64; lia]|]. intros ? ?.
  apply runs_bind, boot_log; [done|apply logs_kv; [done|apply lit_nul|unfold is_u64; lia]|]. intros ? ?.
  destruct (boot_frames p (bitmap p) Hz Hb) as (p' & Ep & Hp). apply runs_bind.
  eapply runs_act; [done|cbn [k_pmm]; by rewrite Ep|]. apply runs_bind, runs_assert; [done|]. log_next.
  apply runs_bind. eapply runs_act; [done|cbn [k_vmm set_pmm]; by rewrite Em|]. apply runs_bind, runs_assert; [done|]. log_next.
  apply runs_bind. eapply runs_act; [done|cbn [k_vmm]; by rewrite Eq|]. apply runs_bind, runs_assert; [done|]. log_next.
  apply runs_bind, boot_log; [done|apply logs_hex64; [done|by_compute]|]. intros ? ?.
  do 2 log_next.
  apply runs_bind, boot_log; [done|by apply logs_hex64|]. intros ? ?.
  apply boot_sayln; [done|]. intros ? ?. by apply HQ.
Qed.

(** The blocks when [n] stacks have been allocated. *)
Definition stack_blocks (n : nat) : list kblock :=
  head0 ++ take n stacks ++ [mk_block (stack_addr (Z.of_nat n)) (65360 - 4120 * Z.of_nat n) true].

Lemma stack_fits n : (n < 4)%nat ->
  spec_malloc THREAD_STACK_SIZE (stack_blocks n) = Some (stack_blocks (S n), payload (stack_block (Z.of_nat n))).
Proof.
  intros Hn. assert (forall x, stack_addr x + 24 + 4096 = stack_addr (x + 1)) as Hnext by (intros x; unfold stack_addr; lia).
  do 4 (destruct n as [|n]; [cbn; unfold payload, KMEM_HDR; cbn [baddr bsize]; by rewrite Hnext|]). lia.
Qed.

(** The first [n] threads have been created. *)
Record created (n : nat) (ts : @thread_system kheap) : Prop := {
  cr_wf : thread_wf ts;
  cr_count : thread_count ts = Z.of_nat n;
  cr_current : current_thread ts = 0;
  cr_entries : forall j, 0 <= j < Z.of_nat n -> entry_at ts j = addrs !! Z.to_nat j;
  cr_blocks : heap_rep (kh_state (theap ts)) (kh_lo (theap ts)) (kh_hi (theap ts)) (stack_blocks n)
}.

Lemma runs_create_next n a line message m p v s ts i r q (Q : kernel -> unit -> Prop) :
  created n ts -> (n < 4)%nat -> addrs !! n = Some a ->
  (forall ts', created (S n) ts' -> Q (mk_kernel m p v s ts' i r false q) tt) ->
  runs (create a line message) (mk_kernel m p v s ts i r false q) Q.
Proof.
  intros [Hw Hn Hc He Hb] Hlt Ha HQ.
  eapply runs_create; [done|done| |cbn; rewrite Hn; unfold MAX_THREADS; lia|exact Hb|by apply stack_fits|].
  { destruct Hlinked as [_ _ _ _ Hf _]. by apply (proj1 (list.Forall_lookup _ _) Hf _ _ Ha). }
  cbn. rewrite Hn. intros ts' Hw' Hn' Hc' He' Hk Hb'. apply HQ. split; [done|lia|congruence| |exact Hb'].
  intros j Hj. destruct (decide (j = Z.of_nat n)) as [->|Hne]; [by rewrite He', Nat2Z.id|].
  rewrite Hk by lia. apply He. lia.
Qed.

Lemma created_running o0 own m p v s ts i r q :
  tracked o0 own (mk_kernel m p v s ts i r true q) -> created 4 ts -> running o0 own (mk_kernel m p v s ts i r true q).
Proof.
  intros Hi [Hw Hn Hc He Hb]. split; [done| |done|done|exact He].
  exists (stack_blocks 4). split; [exact Hb|]. by left.
Qed.

Lemma runs_threads c tk n p v ts i r q (Q : kernel -> unit -> Prop) :
  g_log_ready c = 1 -> zlen (threads ts) = MAX_THREADS ->
  valid (kmem_mem (kh_state (theap ts))) heap_base M8_BOOT_HEAP_SIZE ->
  (forall c' ts', g_log_ready c' = 1 -> created 4 ts' ->
     Q (mk_kernel (mk_mach c' tk n) p v (mk_sync 0 0 2 0) ts' i r false q) tt) ->
  runs kmain_threads (mk_kernel (mk_mach c tk n) p v (mk_sync 0 0 0 0) ts i r false q) Q.
Proof.
  intros Hl Hz Hv HQ. destruct Hlinked as [_ [H0 H1] _ _ _ _]. unfold kmain_threads.
  apply runs_bind, runs_heap_bootstrap; try done. intros h t c1 Hh Hs1. cbn in Hh. apply sends_flag in Hs1.
  cbn in Hs1. rewrite Hl in Hs1. apply runs_bind. eapply runs_sync_selftest; [done|done|reflexivity|]. intros t2 c2 Hs2.
  apply sends_flag in Hs2. cbn in Hs2. rewrite Hs1 in Hs2.
  apply runs_bind. eapply runs_act; [done|reflexivity|].
  set (ts0 := mk_ts (threads ts) 0 0 h).
  match goal with |- runs _ ?k _ =>
    change k with (mk_kernel (mk_mach c2 tk n) p v (mk_sync 0 0 2 0) ts0 i r false q) end.
  assert (created 0 ts0) as Hc0.
  { split; [|done|done|lia|].
    - split; cbn; (done || lia || (eexists; exact Hh)).
    - replace (stack_blocks 0) with (head0 ++ [mk_block (heap_base + 152) 65360 true]); [exact Hh|].
      unfold stack_blocks, stack_addr. cbn. by rewrite Z.add_0_r. }
  apply runs_bind, (runs_create_next 0); [done|lia|done|]. intros ts1 Hc1.
  apply runs_bind, (runs_create_next 1); [done|lia|done|]. intros ts2 Hc2.
  apply runs_bind, (runs_create_next 2); [done|lia|done|]. intros ts3 Hc3.
  apply runs_bind, (runs_create_next 3); [done|lia|done|]. intros ts4 Hc4.
  apply boot_sayln; [done|]. intros c' Hl'. by apply HQ.
Qed.

Lemma runs_interrupts c tk n p v s ts i r q (Q : kernel -> unit -> Prop) :
  g_log_ready c = 1 -> zlen i = X86_64_IDT_VECTOR_COUNT ->
  (forall c' i', g_log_ready c' = 1 -> chips_ok (outs c') ->
     (forall x g0, arr_get stubs x = Ret g0 -> exists g, arr_get i' x = Ret g /\ gate_handler g = g0) ->
     Q (mk_kernel (mk_mach c' tk n) p v s ts i' (mk_idtr 4095 idt_base) true q) tt) ->
  runs kmain_interrupts (mk_kernel (mk_mach c tk n) p v s ts i r false q) Q.
Proof.
  intros Hl Hi HQ. destruct Hlinked as [[[? ?] ?] _ Hb _ _ [Hs Hu]].
  destruct (idt_init_ok env c stubs i Hs Hu Hi) as (i' & Ei & Hg & _ & Hx).
  destruct (Hx Hl idt_base) as (c1 & E & t1 & Hl1); [unfold is_u64; lia|]. apply sends_flag in Hl1. rewrite Hl in Hl1.
  unfold kmain_interrupts. apply runs_bind. eapply runs_act; [done|cbn [k_con k_mach mcon k_idt]; by rewrite E|].
  cbn [set_con set_mach set_idt k_con k_mach k_pmm k_vmm k_sync k_ts k_idt k_idtr k_if k_point g_ticks trap_count].
  apply runs_bind, boot_sayln; [done|]. intros c2 Hl2. apply runs_bind. unfold m5_selftest.
  do 3 (apply runs_bind, runs_assert; [first [reflexivity|by apply Z.ltb_lt]|]).
  apply runs_bind. eapply runs_act; [done|reflexivity|].
  apply runs_bind, runs_assert; [by apply negb_true_iff, Z.eqb_neq; cbn; lia|].
  apply runs_bind. eapply runs_act; [done|reflexivity|]. apply runs_bind, runs_assert; [reflexivity|].
  apply boot_sayln; [done|]. intros c3 Hl3.
  pose proof (boot_chips env Hpics c3) as Hchips. cbn zeta in Hchips. fold (chips_ok (outs (pic_unmask_irq env (pic_mask_all
    (pic_remap env c3 PIC_MASTER_OFFSET PIC_SLAVE_OFFSET)) 0))) in Hchips.
  do 3 (apply runs_bind; eapply boot_con; [reflexivity|]).
  revert Hchips. set (c4 := pic_unmask_irq _ _ _). assert (g_log_ready c4 = 1) as Hl4 by exact Hl3. clearbody c4. intros Hchips.
  apply runs_bind. eapply boot_con; [reflexivity|].
  assert (chips_ok (outs (pit_configure_hz c4 100))) as Hc5.
  { apply (chips_ok_same (outs c4)); [|done]. unfold pit_configure_hz. cbn zeta. rewrite !outb_outs, <- !app_assoc.
    apply same_chips_other. repeat constructor; cbn; unfold PIT_COMMAND, PIT_CHANNEL0; set_solver. }
  assert (g_log_ready (pit_configure_hz c4 100) = 1) as Hl5 by exact Hl4.
  revert Hc5 Hl5. generalize (pit_configure_hz c4 100). intros c5 Hc5 Hl5.
  apply runs_bind, runs_sayln; [done|exact Hl5|]. intros tx c6 Hs6.
  eapply runs_act; [done|reflexivity|].
  apply HQ; [by rewrite (sends_flag _ _ _ _ Hs6)|apply (chips_ok_same (outs c5)); [by eapply sends_chips|done]|].
  intros x g0 Hx0. pose proof Hx0 as [Hx1 Hx2]%arr_get_Ret. apply lookup_lt_Some in Hx2.
  destruct (Hg x g0) as (g & ? & ? & _); [unfold zlen in Hs; lia|done|]. by exists g.
Qed.

(** The order of the activations from the boot on. *)
Lemma turns_from_0 n : turns 0 n = map (fun j => default 0 (addrs !! Z.to_nat (Z.of_nat (S j) mod 4))) (seq 0 n).
Proof. unfold turns, schedule. rewrite map_map. apply map_ext. intros j. do 4 f_equal. lia. Qed.

Lemma booted_same k k' : frame_same k k' -> booted k -> booted k'.
Proof.
  intros (F1 & F2 & F3 & F4 & F5 & F6) [B1 B2 B3 B4 B5 B6].
  split; rewrite ?F1, ?F2, ?F3, ?F4, ?F5, ?F6; done.
Qed.

(** The state at the first yield, from which every further activation starts. *)
Lemma kmain_boots k0 :
  powered_on k0 ->
  exists k1, (forall n, kmain n k0 = activations n k1) /\ running (trace (k_con k1)) [] k1 /\ booted k1 /\
    current_thread (k_ts k1) = 0.
Proof.
  destruct k0 as [[c tk tc] p v s ts i r b q]. intros [Hif (Hc1 & Hc2 & Hc3) [Hz Hb] Hv Hs Ht Hm Hi]. cbn in *. subst.
  enough (runs (kmain_memory;; kmain_threads;; kmain_interrupts)
    (mk_kernel (mk_mach c 0 0) p g_mappings_init (mk_sync 0 0 0 0) ts i r false 0)
    (fun k _ => running (trace (k_con k)) [] k /\ booted k /\ current_thread (k_ts k) = 0)) as (k1 & [] & E & H).
  { exists k1. split; [|done]. intros n. unfold kmain, mbind, boot_bind in *.
    repeat match goal with H : match ?m with _ => _ end = _ |- _ => destruct m as [[]|]; try done end. by rewrite E. }
  apply runs_bind, runs_memory; [done|done|]. intros c1 p1 Hl1 Hp1.
  apply runs_bind, runs_threads; [done|done|done|]. intros c2 ts2 Hl2 Hc2.
  apply runs_interrupts; [done|done|]. intros c3 i3 Hl3 Hch Hg. split; [|split; [|exact (cr_current 4 ts2 Hc2)]].
  - apply created_running; [|done]. split; [by split|]. exists [], []. cbn. rewrite app_nil_r. by repeat constructor.
  - split; [done|apply boot_page|done|exact Hg|done|done].
Qed.

Lemma kmain_runs k0 n :
  powered_on k0 ->
  exists k1, kmain 0 k0 = Ret (Done k1 []) /\
    runs (kmain n) k0 (fun k es => (exists l, transmits (concat (map line_of es)) l /\ running (trace (k_con k1)) l k) /\
      booted k /\ es = turns 0 n).
Proof.
  intros H0. destruct (kmain_boots k0 H0) as (k1 & E & Hr & Hb & Hc). exists k1. split; [by rewrite E|].
  unfold runs. rewrite E. eapply runs_mono; [by apply runs_activations|].
  rewrite Hc. intros k es (Hr' & Hf & ->). split; [done|]. split; [by eapply booted_same|done].
Qed.

(** ** Theorem *)

(** C1: the kernel boots and its threads run for ever, under interrupts.  From zeroed static storage,
    whatever the addresses of the image, [kmain] passes all its assertions and enables interrupts,
    and for every [n] the first [n] activations run without a panic, a fault or an endless search:
    threads B, C, D, A in turn, although memory is allocated and freed at every pass and any number
    of requests on any lines comes before every access to a port or to memory, inside [kmalloc],
    [kfree], [thread_yield] and the log too.  Exactly the timer's requests are served, and
    each is counted once.  All along, the frames from 256 to 1023 are free, the one page is mapped,
    both locks are released, every gate leads to its stub, and the memory in use is exactly the
    four stacks, which belong to the four threads and do not overlap. *)
Theorem kmain_runs_forever k0 n :
  powered_on k0 ->
  exists k es, kmain n k0 = Ret (Done k es) /\
    es = map (fun j => default 0 (addrs !! Z.to_nat (Z.of_nat (S j) mod 4))) (seq 0 n) /\
    booted k /\ thread_wf (k_ts k) /\ thread_count (k_ts k) = 4 /\
    (forall i, 0 <= i < 4 -> entry_at (k_ts k) i = addrs !! Z.to_nat i) /\
    (forall q m, heap_ranges (theap (k_ts k)) q m <-> exists b, b ∈ stacks /\ q = payload b /\ m = bsize b) /\
    g_ticks (k_mach k) = u64 (timer_irqs (k_point k)) /\
    m4_trap_count_for_test (k_mach k) = u64 (timer_irqs (k_point k)).
Proof.
  intros H0. destruct (kmain_runs k0 n H0) as (k1 & _ & k & es & E & (l & _ & [[[_ _ _ [C1 C2]] _] R2 R3 R4 R5]) & Hk & ->).
  exists k, (turns 0 n). split; [exact E|]. split; [apply turns_from_0|].
  split_and!; try done. intros q m. by apply settled_ranges.
Qed.

(** C2: the log of the running kernel is in order, and lost only to a serial line that stays busy.
    [k1] is the kernel at its first yield.  Nothing is assumed of the serial line.  Whenever
    interrupts come, between any two accesses to the ports or to memory, the accesses to the ports
    since then are two sequences woven together.  One is that of the threads: for each character of
    their lines, in the order of the schedule and with a carriage return before every line feed,
    polls of the line and, after the first that finds the transmitter empty, the character; or
    exactly 100000 polls that find it busy, and the character is lost.  The other is that of the
    timer's handler, once for each tick and in order: the tick's number as a line, sent in the same
    way, on every hundredth, and the acknowledgement.  So a handler's line may appear inside a
    thread's, nothing is doubled or reordered, and if no poll finds the line busy the threads'
    lines are written completely. *)
Theorem kmain_log_woven k0 n :
  powered_on k0 ->
  exists k1 k es w own hs, kmain 0 k0 = Ret (Done k1 []) /\ kmain n k0 = Ret (Done k es) /\ es = turns 0 n /\
    trace (k_con k) = trace (k_con k1) ++ w /\ answered env (trace (k_con k1)) w /\
    woven own (concat hs) w /\ transmits (concat (map line_of es)) own /\
    Forall2 tick_output (map u64 (seqZ 1 (timer_irqs (k_point k)))) hs /\
    ((forall v, poll v ∈ w -> thr_empty v = true) ->
     woven (sent (concat (map line_of es))) (writes (concat hs)) (writes w)).
Proof.
  intros H0. destruct (kmain_runs k0 n H0) as (k1 & E1 & k & es & E & (l & Hl & [[_ (hs & w & T1 & T2 & T3 & T4)] _ _ _ _]) & _ & ->).
  exists k1, k, (turns 0 n), w, l, hs. do 8 (split; [done|]). intros Hv.
  rewrite <- (transmits_all _ l Hl); [by apply woven_writes|]. intros v Hin. apply Hv. by eapply woven_elem.
Qed.

(** ** The stack *)

(** The bounded run is the unbounded one until the frames exceed the room. *)
Lemma activations_on_spec frame n : (forall a, 0 <= frame a) -> forall room k k' es,
  activations n k = Ret (Done k' es) ->
  activations_on frame room n k =
    if decide (es = [] \/ stack_used frame es <= room) then Ret (Done k' es) else Fault StackOverflow.
Proof.
  intros Hf. induction n as [|n IH]; intros room k k' es; [by intros [= <- <-]|]. cbn [activations activations_on].
  unfold mbind, boot_bind. destruct (k_yield k) as [[k1 [a|]|k1]|] eqn:Ey; [|by intros [= <- <-]|done|done].
  destruct (call a k1) as [[k2 []|k2]|] eqn:Ec; [|done|done].
  destruct (activations n k2) as [[k3 es'|k3]|] eqn:Ea; [|done|done]. intros [= <- <-]. cbn [stack_used foldr].
  fold (stack_used frame es'). assert (0 <= stack_used frame es') as Hu.
  { clear - Hf. induction es' as [|e es IHe]; cbn; [lia|]. pose proof (Hf e). fold (stack_used frame es). lia. }
  destruct (Z.ltb_spec room (frame a)) as [Hlt|Hge].
  - by rewrite decide_False by (intros [|]; [done|lia]).
  - rewrite Ec, (IH (room - frame a) k2 k3 es' Ea).
    destruct (decide (es' = [] \/ _)) as [Hd|Hd], (decide (a :: es' = [] \/ _)) as [Hd'|Hd']; try done.
    + exfalso. apply Hd'. right. destruct Hd as [->|Hd]; cbn; lia.
    + exfalso. apply Hd. right. destruct Hd' as [|Hd']; [done|lia].
Qed.

Lemma boot_bind_inv {A B} (m : boot A) (f : A -> boot B) k k' b :
  (m ≫= f) k = Ret (Done k' b) -> exists k1 a, m k = Ret (Done k1 a) /\ f a k1 = Ret (Done k' b).
Proof. unfold mbind, boot_bind. destruct (m k) as [[k1 a|k1]|]; [by exists k1, a|done|done]. Qed.

Lemma kmain_on_spec frame n room k0 k es :
  (forall a, 0 <= frame a) -> kmain n k0 = Ret (Done k es) ->
  kmain_on frame room n k0 =
    if decide (es = [] \/ stack_used frame es <= room) then Ret (Done k es) else Fault StackOverflow.
Proof.
  intros Hf (k1 & [] & E1 & (k2 & [] & E2 & (k3 & [] & E3 & Ha)%boot_bind_inv)%boot_bind_inv)%boot_bind_inv.
  unfold kmain_on, mbind, boot_bind. rewrite E1, E2, E3. by apply activations_on_spec.
Qed.

Lemma stack_used_bound frame es : (forall a, 8 <= frame a) -> 8 * zlen es <= stack_used frame es.
Proof.
  intros Hf. induction es as [|e es IH]; unfold zlen in *; cbn [stack_used foldr length]; [lia|].
  pose proof (Hf e). fold (stack_used frame es). lia.
Qed.

(** C16: the boot stack runs out.  Each activation of a thread is a call that never returns and keeps
    at least its return address of 8 bytes on the boot stack.  With [room] bytes left at the first
    yield the kernel runs exactly as on an unbounded stack as long as the frames of the activations
    fit, and overflows the stack at the first that does not; whatever the room and the frames,
    that happens after at most [room / 8] activations. *)
Theorem kmain_exhausts_stack frame room k0 n :
  powered_on k0 -> (forall a, 8 <= frame a) -> 0 <= room ->
  (if decide (stack_used frame (turns 0 n) <= room)
   then exists k, kmain_on frame room n k0 = Ret (Done k (turns 0 n)) /\ kmain n k0 = Ret (Done k (turns 0 n))
   else kmain_on frame room n k0 = Fault StackOverflow) /\
  (room / 8 < Z.of_nat n -> kmain_on frame room n k0 = Fault StackOverflow).
Proof.
  intros H0 Hf Hr. destruct (kmain_runs k0 n H0) as (k1 & _ & k & es & E & _ & _ & ->).
  assert (forall a, 0 <= frame a) as Hf0 by (intros a; pose proof (Hf a); lia).
  pose proof (kmain_on_spec frame n room k0 k _ Hf0 E) as Eon. pose proof (stack_used_bound frame (turns 0 n) Hf) as Hb.
  assert (zlen (turns 0 n) = Z.of_nat n) as Hz by (unfold zlen; rewrite turns_from_0, length_map, length_seq; done).
  split.
  - destruct (decide (stack_used frame (turns 0 n) <= room)) as [Hd|Hd].
    + exists k. split; [|done]. rewrite Eon. by rewrite decide_True by (by right).
    + rewrite Eon, decide_False; [done|]. intros [He|]; [|done]. rewrite He in Hd. cbn in Hd. lia.
  - intros Hn. rewrite Eon. apply decide_False. pose proof (Z.mul_succ_div_gt room 8 ltac:(lia)).
    intros [He|]; [rewrite He in Hz; unfold zlen in Hz; cbn in Hz; Z.to_euclidean_division_equations; lia|lia].
Qed.
End boot.
End kmain.

(** ** Witness *)

Definition demo_kernel : kernel :=
  mk_kernel (mk_mach (mk_con [] 0) 0 0) (mk_pmm (replicate (Z.to_nat PMM_BITMAP_BYTES) 0) 0 0 0 0 false) g_mappings_init
    (mk_sync 0 0 0 0)
    (mk_ts demo_slots 0 0 (mk_kheap (mk_kmem (flat_mem 0x100000 M8_BOOT_HEAP_SIZE) 0) 0 0))
    (replicate 256 (gate 0 0)) (mk_idtr 0 0) false 0.

(** The timer and the keyboard ask before every step. *)
Definition demo_raised (n : nat) : list (Z * x86_64_trap_frame_t) := [(0, frame_at 0); (1, frame_at 0)].

Lemma demo_linked : linked 0x1000 0x9000 0x100000 0x2000 0x3000 0xA0 0xB0 0xC0 0xD0 (seqZ 0x4000 48).
Proof. split; [by_compute|by_compute|by_compute|by_compute|by_compute|by_compute]. Qed.

Lemma demo_powered_on : powered_on 0x100000 demo_kernel.
Proof.
  split; [reflexivity|split_and!; reflexivity|split; [cbn [demo_kernel k_pmm bitmap]; by_compute|]|
    reflexivity|reflexivity|reflexivity|apply flat_mem_valid|reflexivity].
  apply Forall_replicate. by_compute.
Qed.

Lemma kmain_runs_witness :
  exists k, kmain pic_env 0x46 [] [] 0x1000 0x9000 0x100000 0x2000 0x3000 0xA0 0xB0 0xC0 0xD0 (seqZ 0x4000 48)
      demo_raised (replicate 21 0) [] 5 demo_kernel = Ret (Done k [0xB0; 0xC0; 0xD0; 0xA0; 0xB0]) /\
    thread_count (k_ts k) = 4.
Proof.
  destruct (kmain_runs_forever pic_env 0x46 [] [] 0x1000 0x9000 0x100000 0x2000 0x3000 0xA0 0xB0 0xC0 0xD0
    (seqZ 0x4000 48) demo_raised (replicate 21 0) []) with (k0 := demo_kernel) (n := 5%nat)
    as (k & es & E & -> & _ & _ & Hn & _);
    [exact pic_env_ok|reflexivity|intros i; by_compute|exact demo_linked|exact demo_powered_on|].
  exists k. split; [exact E|exact Hn].
Defined.

(** The characters of B's, C's and D's lines, on a line that is busy at every other poll. *)
Definition busy_env (h : list event) (port : Z) : Z :=
  if port =? COM1_PORT + 5 then (if Nat.even (length h) then 0x20 else 0) else pic_env h port.

Lemma busy_env_ok : pics_answer busy_env.
Proof. intros h. exact (pic_env_ok h). Qed.

Lemma kmain_log_witness :
  exists k1 k w own hs,
    kmain busy_env 0x46 [] [] 0x1000 0x9000 0x100000 0x2000 0x3000 0xA0 0xB0 0xC0 0xD0 (seqZ 0x4000 48)
      demo_raised (replicate 21 0) [] 3 demo_kernel = Ret (Done k [0xB0; 0xC0; 0xD0]) /\
    trace (k_con k) = trace (k_con k1) ++ w /\ woven own (concat hs) w /\
    transmits (chars "[M9] thread B running" ++ [10] ++ chars "[M9] thread C running" ++ [10] ++
               chars "[M9] thread D running" ++ [10]) own.
Proof.
  destruct (kmain_log_woven busy_env 0x46 [] [] 0x1000 0x9000 0x100000 0x2000 0x3000 0xA0 0xB0 0xC0 0xD0
    (seqZ 0x4000 48) demo_raised (replicate 21 0) []) with (k0 := demo_kernel) (n := 3%nat)
    as (k1 & k & es & w & own & hs & _ & E & -> & Ew & _ & Hw & Hl & _);
    [exact busy_env_ok|reflexivity|intros i; by_compute|exact demo_linked|exact demo_powered_on|].
  exists k1, k, w, own, hs. split; [exact E|]. split; [exact Ew|]. split; [exact Hw|exact Hl].
Defined.

(** 200 bytes of stack and frames of 64: three activations fit, the fourth overflows. *)
Lemma kmain_stack_witness :
  let on := kmain_on pic_env 0x46 [] [] 0x1000 0x9000 0x100000 0x2000 0x3000 0xA0 0xB0 0xC0 0xD0 (seqZ 0x4000 48)
    demo_raised (replicate 21 0) [] (fun _ => 64) 200 in
  (exists k, on 3%nat demo_kernel = Ret (Done k [0xB0; 0xC0; 0xD0])) /\ on 4%nat demo_kernel = Fault StackOverflow.
Proof.
  assert (forall n, _) as H by (refine (fun n => kmain_exhausts_stack pic_env 0x46 [] [] 0x1000 0x9000 0x100000 0x2000 0x3000
    0xA0 0xB0 0xC0 0xD0 (seqZ 0x4000 48) demo_raised (replicate 21 0) [] _ _ _ _ (fun _ => 64) 200 demo_kernel n
    demo_powered_on _ _); [exact pic_env_ok|reflexivity|intros i; by_compute|exact demo_linked|
    intros a; lia|lia]).
  split.
  - destruct (H 3%nat) as [(k & E & _) _]. by exists k.
  - destruct (H 4%nat) as [E _]. exact E.
Defined.
