(* ===== verification/HostTests.v ===== *)
(** * The host tests of the repository (tests/), run on the models

    The [main] functions of the repository's own tests, as programs over the definitions of this
    library: the same calls with the same arguments, and the same assertions.  An object that a
    test leaves uninitialised starts zeroed here.  What a test prints is left out. *)

From Stdlib Require Import String.
From S2P Require Import Prelude Bytes Mem Pmm Vmm Kmem Thread Syscall Elf Sync Block Journal Ramfs Vfs Mcsfs1 M15fs Console.

(** A test ends with [true], or with [false] at the first assertion that fails. *)
Definition assert_ (b : bool) (k : exec bool) : exec bool := if b then k else Ret false.

#[local] Notation "'assert' b ';;' k" := (assert_ b k) (at level 100, b at level 99, k at level 200, right associativity).

(** A string literal as a pointer to its characters and the final zero. *)
Definition str (s : string) : list Z := chars s ++ [0].

(** ** tests/test_pmm_host.c *)

Definition pmm_regions : list boot_mem_region :=
  [mk_region 0x00000000 0x0009F000 PMM_REGION_RESERVED; mk_region 0x00100000 0x00300000 PMM_REGION_USABLE;
   mk_region 0x00400000 0x00100000 PMM_REGION_RESERVED].

Definition test_pmm_host : exec bool :=
  '(p, ok) ← pmm_init_from_map (mk_pmm [] 0 0 0 0 false) pmm_regions 3 (replicate (Z.to_nat PMM_BITMAP_BYTES) 0)
               PMM_BITMAP_BYTES PMM_MAX_PHYS_BYTES;
  assert ok;;
  '(p, frame) ← pmm_alloc_frame p;
  assert negb (frame =? PMM_INVALID_FRAME);;
  '(p, ok) ← pmm_free_frame p frame;
  assert ok;; Ret true.

(** ** tests/test_vmm_host.c *)

Definition out (o : option Z) : Z := default 0 o.

Definition test_vmm_host : exec bool :=
  '(g, ok) ← vmm_map_page g_mappings_init 0x400000 0x200000 VMM_WRITABLE;
  assert ok;;
  '(ok, phys, flags) ← vmm_query_page g 0x400000 (Some 0) (Some 0);
  assert ok;; assert (out phys =? 0x200000);; assert negb (Z.land (out flags) VMM_PRESENT =? 0);;
  '(g, ok) ← vmm_unmap_page g 0x400000;
  assert ok;;
  '(ok, phys, flags) ← vmm_query_page g 0x400000 phys flags;
  assert negb ok;; Ret true.

(** ** tests/test_kmem.c and tests/test_scheduler.c, with the heaps at some address *)

Definition heap_at : Z := 0x10000.

(** [n] zero bytes from address [a] on. *)
Fixpoint zero_bytes (n : nat) (a : Z) : mem :=
  match n with
  | O => ∅
  | S n' => <[a := 0]> (zero_bytes n' (a + 1))
  end.

Definition test_kmem : exec bool :=
  st ← kmem_init (mk_kmem (zero_bytes (Z.to_nat 4096) heap_at) 0) heap_at 4096;
  '(st, a) ← kmalloc 4097 st 64;
  assert negb (a =? 0);;
  '(st, b) ← kmalloc 4097 st 128;
  assert negb (b =? 0);;
  st ← kfree st a;
  free_bytes ← kmem_get_free_bytes 4097 st;
  assert (0 <? free_bytes);; Ret true.

Definition TEST_HEAP_SIZE : Z := 64 * 1024.

(** [thread_a] and [thread_b], at two addresses, count their calls. *)
Definition test_scheduler : exec bool :=
  st ← kmem_init (mk_kmem (zero_bytes (Z.to_nat TEST_HEAP_SIZE) heap_at) 0) heap_at TEST_HEAP_SIZE;
  let ts := thread_system_init (mk_ts demo_slots 0 0 (mk_kheap st heap_at (heap_at + TEST_HEAP_SIZE))) in
  '(ts, ta) ← thread_create ts 1;
  assert bool_decide (is_Some ta);;
  '(ts, tb) ← thread_create ts 2;
  assert bool_decide (is_Some tb);;
  assert bool_decide (ta <> tb);;
  '(ts, called) ← thread_yield ts;
  Ret (bool_decide (called ∈ [Some 1; Some 2])).

(** ** tests/test_syscall.c *)

Definition test_syscall (msg : Z) : bool :=
  let ping := mcsos_syscall_dispatch MCSOS_SYS_PING 0 0 0 0 0 0 in
  let ticks := mcsos_syscall_dispatch MCSOS_SYS_GET_TICKS 0 0 0 0 0 0 in
  let written := mcsos_syscall_dispatch MCSOS_SYS_WRITE_SERIAL msg 5 0 0 0 0 in
  let invalid := mcsos_syscall_dispatch 999 0 0 0 0 0 0 in
  (ping =? 0x2605020A) && (ticks =? 800) && (written =? 5) && (s64 invalid =? MCSOS_ENOSYS).

(** ** tests/m11/m11_host_test.c *)

(** The bytes of a field stored at an offset. *)
Definition put (image : list Z) (off : Z) (n : nat) (v : Z) : list Z := splice image off (le_bytes n v).

(** The fields of the program header at offset [p]. *)
Definition put_phdr (image : list Z) (p ofs vaddr filesz memsz algn : Z) : list Z :=
  put (put (put (put (put (put image p 4 M11_PT_LOAD) (p + 4) 8 ofs) (p + 12) 8 vaddr) (p + 20) 8 filesz) (p + 28) 8 memsz)
    (p + 36) 8 algn.

Definition build_valid_elf : list Z :=
  let b := replicate (Z.to_nat 16384) 0 in
  let b := put b 0 4 M11_ELF_MAGIC in
  let b := put b 4 2 M11_ELF_MACHINE_X86_64 in
  let b := put b 6 8 0x401000 in
  let b := put b 14 8 24 in
  let b := put b 22 2 2 in
  let b := put_phdr b 24 0x100 0x401000 0x1000 0x2000 0x1000 in
  put_phdr b 68 0x2000 0x404000 0x1000 0x2000 0x1000.

Definition status_is (a b : m11_status) : bool :=
  match a, b with
  | M11_OK, M11_OK | M11_ERR_MAGIC, M11_ERR_MAGIC | M11_ERR_MACHINE, M11_ERR_MACHINE | M11_ERR_ENTRY, M11_ERR_ENTRY
  | M11_ERR_SEGBOUNDS, M11_ERR_SEGBOUNDS => true
  | _, _ => false
  end.

Definition m11_host_test : exec bool :=
  let image := build_valid_elf in
  '(plan, rc) ← m11_elf64_plan_load (Some image) 16384 (Some (mk_plan 0 0));
  assert status_is rc M11_OK;;
  '(plan, rc) ← m11_elf64_plan_load (Some (put image 0 1 0)) 16384 plan;
  assert status_is rc M11_ERR_MAGIC;;
  '(plan, rc) ← m11_elf64_plan_load (Some (put image 4 2 0)) 16384 plan;
  assert status_is rc M11_ERR_MACHINE;;
  '(plan, rc) ← m11_elf64_plan_load (Some (put image 6 8 0)) 16384 plan;
  assert status_is rc M11_ERR_ENTRY;;
  '(plan, rc) ← m11_elf64_plan_load (Some (put image 52 8 1)) 16384 plan;
  assert status_is rc M11_ERR_SEGBOUNDS;; Ret true.

(** ** tests/m12/m12_host_test.c *)

Definition m12_host_test : exec bool :=
  let spin := mcs_spin_init 0 in
  assert (spin =? 0);;
  spin ← mcs_spin_lock 1 spin;
  assert (spin =? 1);;
  let spin := mcs_spin_unlock spin in
  assert (spin =? 0);;
  let mutex := mcs_mutex_init 0 in
  assert (mutex =? 0);;
  mutex ← mcs_mutex_lock 1 mutex;
  assert (mutex =? 1);;
  let mutex := mcs_mutex_unlock mutex in
  assert (mutex =? 0);;
  let depth := m12_lockdep_acquire 0 in
  assert (m12_lockdep_depth depth =? 1);;
  let depth := m12_lockdep_release depth in
  assert (m12_lockdep_depth depth =? 0);; Ret true.

(** ** tests/m13/m13_host_test.c *)

Definition hello_prefix (buffer : list Z) : bool := bool_decide (take 5 buffer = chars "hello").

Definition m13_host_test : exec bool :=
  fs ← mcs_ramfs_init blank_ramfs;
  v ← mcs_fd_table_init (mk_vfs {[ 1 := fs ]} (replicate 16 closed_file));
  '(fs, seed) ← mcs_ramfs_seed_file fs (str "/hello.txt") (str "hello") 5;
  let v := put_fs v 1 fs in
  assert (seed =? MCS_OK);;
  '(v, fd) ← mcs_vfs_open v 1 (str "/hello.txt") MCS_O_RDONLY;
  assert (0 <=? fd);;
  '(v, buffer, rd) ← mcs_vfs_read v fd (replicate 16 0) 5;
  assert (rd =? 5);; assert hello_prefix buffer;;
  '(v, rc) ← mcs_vfs_close v fd;
  assert (rc =? MCS_OK);; Ret true.

(** ** tests/m14/m14_host_test.c *)

Definition TEST_BLOCKS : Z := 16.
Definition pattern : list Z := map (fun i => Z.land i 0xff) (seqZ 0 512).

(** The objects of the test in the store: storage 1, write buffer 2, read buffer 3. *)
Definition m14_store : bstore :=
  mk_bstore {[ 1 := replicate (Z.to_nat 8192) 0; 2 := pattern; 3 := replicate 512 0 ]} {[ 10 := mk_ramdev 0 0 ]}
    {[ 20 := mk_bdev 0 None None 0 ]}.

Definition m14_host_test : exec bool :=
  w ← mcs_ram_block_init m14_store 10 1 TEST_BLOCKS;
  w ← mcs_block_bind_ramdev w 20 10;
  '(w, wr) ← mcs_block_write w 20 2 2;
  assert (wr =? MCS_BLOCK_OK);;
  '(w, rd) ← mcs_block_read w 20 2 3;
  assert (rd =? MCS_BLOCK_OK);;
  write_buf ← deref (arrays w) 2;
  read_buf ← deref (arrays w) 3;
  assert bool_decide (read_buf = write_buf);;
  '(w, bad) ← mcs_block_read w 20 (TEST_BLOCKS + 1) 3;
  assert (bad =? MCS_BLOCK_EINVAL);; Ret true.

(** ** tests/m15/m15_host_test.c and tests/m15/test_mcsfs1.c *)

Definition m15_host_test : exec bool :=
  fs ← m15_mcsfs1_init blank_m15;
  assert (m15_magic fs =? M15_MCSFS1_MAGIC);;
  '(ofs, rc) ← m15_mcsfs1_create (Some fs) (Some (str "hello.txt"));
  assert (rc =? 0);;
  '(fs, rc) ← m15_mcsfs1_write (default fs ofs) (str "hello.txt") (str "hello") 5;
  assert (rc =? 5);;
  '(buffer, rd) ← m15_mcsfs1_read fs (str "hello.txt") (replicate 16 0) 5;
  assert (rd =? 5);; assert hello_prefix buffer;; Ret true.

Definition test_mcsfs1 : exec bool :=
  fs ← mcsfs1_init blank_mcsfs1;
  '(ofs, rc) ← mcsfs1_create (Some fs) (Some (str "hello.txt"));
  assert (rc =? MCSFS1_OK);;
  let msg := str "hello m15" in
  '(fs, rc) ← mcsfs1_write (default fs ofs) (str "hello.txt") msg (zlen msg);
  assert (rc =? MCSFS1_OK);;
  '(buffer, rd) ← mcsfs1_read fs (str "hello.txt") (replicate 64 0) (zlen msg);
  assert (0 <? rd);; assert bool_decide (take 1 buffer = chars "h");; Ret true.

(** ** tests/m16/m16_host_test.c *)

Definition m16_host_test : exec bool :=
  let journal := m16_journal_init (Some zero_journal) in
  assert (m16_journal_fsck journal =? M16_JOURNAL_OK);;
  '(journal, rc) ← m16_journal_append journal 2 (Some pattern);
  assert (rc =? M16_JOURNAL_OK);;
  assert (from_option entry_count 0 journal =? 1);;
  let '(journal, rc) := m16_journal_commit journal in
  assert (rc =? M16_JOURNAL_OK);;
  '(disk, rc) ← m16_journal_replay journal (Some (replicate (Z.to_nat 4096) 0)) 8;
  assert (rc =? M16_JOURNAL_OK);;
  b0 ← arr_get (default [] disk) (2 * M16_JOURNAL_BLOCK_SIZE);
  assert (b0 =? 0);;
  b1 ← arr_get (default [] disk) (2 * M16_JOURNAL_BLOCK_SIZE + 1);
  assert (b1 =? 1);;
  let journal := m16_journal_clear journal in
  assert (from_option entry_count 0 journal =? 0);;
  let journal := (fun j => mk_journal 0 (committed j) (entry_count j) (Journal.entries j)) <$> journal in
  assert (m16_journal_fsck journal =? M16_JOURNAL_ECORRUPT);; Ret true.

(** ** They pass *)

(** Every host test of the repository that exercises kernel code runs to its end on the models,
    with all its assertions satisfied and no access out of bounds. *)
Theorem host_tests_pass :
  test_pmm_host = Ret true /\ test_vmm_host = Ret true /\ test_kmem = Ret true /\ test_scheduler = Ret true /\
  test_syscall 0x7fff0000 = true /\ m11_host_test = Ret true /\ m12_host_test = Ret true /\ m13_host_test = Ret true /\
  m14_host_test = Ret true /\ m15_host_test = Ret true /\ test_mcsfs1 = Ret true /\ m16_host_test = Ret true.
Proof. split_and!; vm_compute; reflexivity. Qed.
