(* ===== verification/Toolchain.v ===== *)
(** * The programs that check the tool chain (smoke/freestanding.c, tests/toolchain/freestanding_probe.c)

    An object with a known record and a signed addition, and a function that mixes a 64-bit seed.
    The mixing is a permutation of the 64-bit numbers: a compiler that drops one of its steps, or
    computes it on fewer bits, is seen in the result. *)

From S2P Require Import Prelude.

(** ** smoke/freestanding.c *)

Definition MCSOS_M0_MAGIC : Z := 0x4D435330.

Record m0_smoke_record_t : Type := mk_smoke {
  sm_magic : Z;
  sm_version : Z;
  sm_pointer_width : Z;
  sm_size_width : Z
}.

(** Pointers and sizes have eight bytes on x86_64. *)
Definition m0_smoke_record : m0_smoke_record_t := mk_smoke MCSOS_M0_MAGIC 260502 8 8.

(** Signed addition: outside the range of [int] the program has no meaning. *)
Definition m0_smoke_add (a b : Z) : exec Z :=
  if bool_decide (- 2 ^ 31 <= a + b < 2 ^ 31) then Ret (a + b) else Fault SignedOverflow.

(** ** tests/toolchain/freestanding_probe.c *)

(** Shifts of a [uint64_t]: by 64 or more they have no meaning. *)
Definition shl64 (x r : Z) : exec Z := if (0 <=? r) && (r <? 64) then Ret (u64 (Z.shiftl x r)) else Fault ShiftRange.
Definition shr64 (x r : Z) : exec Z := if (0 <=? r) && (r <? 64) then Ret (Z.shiftr x r) else Fault ShiftRange.

Definition rotl64 (x r : Z) : exec Z :=
  a ← shl64 x r; b ← shr64 x (u32 (64 - r)); Ret (Z.lor a b).

(** The value stored in [mcsos_probe_sink], and the value returned. *)
Definition mcsos_toolchain_probe (seed : Z) : exec (Z * Z) :=
  x ← for_state 16 0
        (fun i x =>
           let x := Z.lxor x (u64 (i * 0x9e3779b97f4a7c15)) in
           rotl64 x 13) (Z.lxor seed 0x4d43534f32363035);
  Ret (x, x).

(** ** Rotations *)

(** The rotation as arithmetic on bits: bit [k] comes from bit [k - r], counted round. *)
Definition rot (x r : Z) : Z := Z.lor (u64 (Z.shiftl x r)) (Z.shiftr x (64 - r)).

Lemma rotl64_eq x r : 0 < r < 64 -> rotl64 x r = Ret (rot x r).
Proof.
  intros Hr. unfold rotl64, shl64, shr64. rewrite u32_small by (unfold is_u32; lia).
  rewrite (proj2 (Z.leb_le 0 r)), (proj2 (Z.ltb_lt r 64)), (proj2 (Z.leb_le 0 (64 - r))), (proj2 (Z.ltb_lt (64 - r) 64)) by lia.
  done.
Qed.

Lemma u64_bits_high x k : is_u64 x -> 64 <= k -> Z.testbit x k = false.
Proof. intros Hx Hk. rewrite <- (u64_small x Hx). apply Z.mod_pow2_bits_high. lia. Qed.

(** Equality of 64-bit numbers bit by bit. *)
Lemma u64_bits_inj x y :
  is_u64 x -> is_u64 y -> (forall k, 0 <= k < 64 -> Z.testbit x k = Z.testbit y k) -> x = y.
Proof.
  intros Hx Hy H. apply Z.bits_inj'. intros k Hk. destruct (decide (k < 64)); [apply H; lia|].
  rewrite !u64_bits_high by (done || lia). done.
Qed.

Lemma rot_bit x r k :
  is_u64 x -> 0 < r < 64 -> 0 <= k < 64 ->
  Z.testbit (rot x r) k = Z.testbit x (if k <? r then k + 64 - r else k - r).
Proof.
  intros Hx Hr Hk. unfold rot, u64. rewrite Z.lor_spec, Z.mod_pow2_bits_low, Z.shiftl_spec, Z.shiftr_spec by lia.
  destruct (Z.ltb_spec k r) as [Hlt|Hge].
  - rewrite Z.testbit_neg_r by lia. cbn. f_equal. lia.
  - rewrite (u64_bits_high x (k + (64 - r))) by (done || lia). apply orb_false_r.
Qed.

(** A number without bits from the 64th on. *)
Lemma u64_of_bits x : (forall k, 64 <= k -> Z.testbit x k = false) -> is_u64 x.
Proof.
  intros H. replace x with (u64 x); [apply u64_range|]. apply Z.bits_inj'. intros k Hk. unfold u64.
  destruct (decide (k < 64)); [apply Z.mod_pow2_bits_low; lia|]. rewrite Z.mod_pow2_bits_high, H by lia. done.
Qed.

Lemma lor_u64 x y : is_u64 x -> is_u64 y -> is_u64 (Z.lor x y).
Proof. intros Hx Hy. apply u64_of_bits. intros k Hk. by rewrite Z.lor_spec, !u64_bits_high. Qed.

Lemma lxor_u64 x y : is_u64 x -> is_u64 y -> is_u64 (Z.lxor x y).
Proof. intros Hx Hy. apply u64_of_bits. intros k Hk. by rewrite Z.lxor_spec, !u64_bits_high. Qed.

Lemma rot_u64 x r : is_u64 x -> 0 < r < 64 -> is_u64 (rot x r).
Proof.
  intros Hx Hr. apply lor_u64; [apply u64_range|]. unfold is_u64 in *. rewrite Z.shiftr_div_pow2 by lia.
  split; [apply Z.div_pos; lia|]. apply Z.div_lt_upper_bound; nia.
Qed.

(** Two rotations that make a full turn undo each other. *)
Lemma rot_rot x r : is_u64 x -> 0 < r < 64 -> rot (rot x r) (64 - r) = x.
Proof.
  intros Hx Hr. pose proof (rot_u64 x r Hx Hr). apply u64_bits_inj; [apply rot_u64; (done || lia)|done|]. intros k Hk.
  rewrite rot_bit by (done || lia). destruct (Z.ltb_spec k (64 - r)) as [Hlt|Hge]; rewrite rot_bit by (done || lia).
  - rewrite (proj2 (Z.ltb_ge _ _)) by lia. f_equal. lia.
  - rewrite (proj2 (Z.ltb_lt _ _)) by lia. f_equal. lia.
Qed.

(** ** The mixing and its inverse *)

Definition mask_of (i : Z) : Z := u64 (i * 0x9e3779b97f4a7c15).
Definition mix (x i : Z) : Z := rot (Z.lxor x (mask_of i)) 13.
Definition unmix (i y : Z) : Z := Z.lxor (rot y 51) (mask_of i).

Lemma lxor_twice x m : Z.lxor (Z.lxor x m) m = x.
Proof. by rewrite Z.lxor_assoc, Z.lxor_nilpotent, Z.lxor_0_r. Qed.

Lemma mix_u64 x i : is_u64 x -> is_u64 (mix x i).
Proof. intros Hx. apply rot_u64; [|lia]. apply lxor_u64; [done|apply u64_range]. Qed.

Lemma unmix_u64 i y : is_u64 y -> is_u64 (unmix i y).
Proof. intros Hy. apply lxor_u64; [by apply rot_u64|apply u64_range]. Qed.

Lemma unmix_mix x i : is_u64 x -> unmix i (mix x i) = x.
Proof.
  intros Hx. unfold unmix, mix. rewrite (rot_rot _ 13); [apply lxor_twice| |lia]. apply lxor_u64; [done|apply u64_range].
Qed.

Lemma mix_unmix i y : is_u64 y -> mix (unmix i y) i = y.
Proof. intros Hy. unfold unmix, mix. rewrite lxor_twice. by apply (rot_rot y 51). Qed.

(** The loop, and its inverse, over any list of rounds. *)
Lemma unmix_rounds l : forall x, is_u64 x -> is_u64 (foldl mix x l) /\ foldr unmix (foldl mix x l) l = x.
Proof.
  induction l as [|i l IH]; intros x Hx; [done|]. cbn. destruct (IH (mix x i) (mix_u64 x i Hx)) as [Hu ->].
  split; [done|by apply unmix_mix].
Qed.

Lemma mix_rounds l : forall y, is_u64 y -> is_u64 (foldr unmix y l) /\ foldl mix (foldr unmix y l) l = y.
Proof.
  induction l as [|i l IH]; intros y Hy; [done|]. cbn. destruct (IH y Hy) as [Hu Hm]. split; [by apply unmix_u64|].
  by rewrite mix_unmix.
Qed.

Definition rounds : list Z := seqZ 0 16.
Definition unprobe (y : Z) : Z := Z.lxor (foldr unmix y rounds) 0x4d43534f32363035.

Lemma probe_eq seed :
  mcsos_toolchain_probe seed = Ret (foldl mix (Z.lxor seed 0x4d43534f32363035) rounds, foldl mix (Z.lxor seed 0x4d43534f32363035) rounds).
Proof.
  unfold mcsos_toolchain_probe. rewrite (for_state_foldl mix); [done|]. intros j x. apply rotl64_eq. lia.
Qed.

(** C39: the probe is a permutation of the 64-bit numbers.  For every seed it runs without an undefined
    shift, stores what it returns, and the seed can be computed back from the result; and every 64-bit
    number is the result of exactly one seed. *)
Theorem probe_permutation y :
  is_u64 y ->
  (exists x, mcsos_toolchain_probe y = Ret (x, x) /\ is_u64 x /\ unprobe x = y) /\
  (is_u64 (unprobe y) /\ mcsos_toolchain_probe (unprobe y) = Ret (y, y)).
Proof.
  intros Hy. assert (is_u64 0x4d43534f32363035) as Hc by by_compute. split.
  - destruct (unmix_rounds rounds (Z.lxor y 0x4d43534f32363035)) as [Hu He]; [by apply lxor_u64|].
    eexists. split; [apply probe_eq|]. split; [done|]. unfold unprobe. rewrite He. apply lxor_twice.
  - destruct (mix_rounds rounds y Hy) as [Hu He]. split; [by apply lxor_u64|].
    rewrite probe_eq. unfold unprobe. by rewrite lxor_twice, He.
Qed.

Lemma probe_permutation_witness :
  (exists x, mcsos_toolchain_probe 0 = Ret (x, x) /\ is_u64 x /\ unprobe x = 0) /\
  (is_u64 (unprobe 0) /\ mcsos_toolchain_probe (unprobe 0) = Ret (0, 0)).
Proof. apply (probe_permutation 0). unfold is_u64. lia. Defined.

(** The signed addition, on every pair of [int]s. *)
Lemma m0_smoke_add_spec a b :
  m0_smoke_add a b = if bool_decide (s32 (a + b) = a + b) then Ret (a + b) else Fault SignedOverflow.
Proof.
  unfold m0_smoke_add. erewrite bool_decide_ext; [done|]. unfold s32, swrap. change (32 - 1) with 31.
  pose proof (Z.mod_pos_bound (a + b + 2 ^ 31) (2 ^ 32) ltac:(lia)). split; [|lia].
  intros Hm. rewrite Z.mod_small; lia.
Qed.
